(* ===== verification/_CoqProject ===== *)
-Q . S2P
Prelude.v
Prog.v
Process.v
GoStrings.v
Domain.v
GoFloat.v
GoTime.v
JsonText.v
Json.v
Effects.v
Retry.v
Handlers.v
Kafka.v
Worker.v
Fakes.v
WorkerSpec.v
Dispatcher.v
Redis.v
RedisFake.v
RedisStore.v
RateLimiter.v
Postgres.v
Scheduler.v
Gateway.v
GatewaySpec.v
WellTyped.v
Services.v
System.v
Wire.v
Cluster.v
Impl.v
Stack.v
Redelivery.v
Archive.v
Lifecycle.v
Cli.v
Config.v
Servers.v
Serve.v
Binary.v
