(* ===== verification/Prelude.v ===== *)
(** * GoTaskFlow: a verification development

    GoTaskFlow is a distributed task queue in Go.  A client submits a task to
    the _api-gateway_ (REST or gRPC); the gateway stores it in Redis and
    PostgreSQL and publishes it to the Kafka topic tasks.pending.  The
    _dispatcher_ consumes that topic, asks a rate limiter in Redis, and
    publishes each task to the topic of its type, or to the dead-letter queue
    tasks.dlq.  A _worker_ consumes the topic of one type, runs the handler
    registered for it with retries, and records the outcome in Redis and
    PostgreSQL.  The _scheduler_ elects a leader through a Redis lock and
    publishes tasks for cron jobs kept in PostgreSQL.

    This development models those services as they are written and proves
    what they do, whatever the network, the servers and the handlers answer.

    ** How a Go function is modelled

    A function that calls out is a [prog E A] (Prog.v): a tree of calls of an
    effect signature [E] with a continuation per answer.  [exec p tr r] says
    that [p] can end with [r] having made exactly the calls of the trace [tr];
    theorems over [exec] therefore hold for every environment, failures and
    lost replies included.  [run] evaluates a program in a concrete
    environment, which the examples and witnesses do.  [interp] replaces the
    calls of an interface by its implementation, [lift] places a program in a
    larger signature.  Contexts are values ([Ctx]); cancelling one is
    something the environment does.  [int], [int64] and [int32] are [Z] with
    their wrap-around written out ([int64], [int32] below), float64 is
    [spec_float] (GoFloat.v), strings are byte strings (GoStrings.v), a Go map
    is a [gmap], an error is a value of [Domain.error].

    ** Files

    - Prelude.v: machine integers, list lemmas, hints and tactics.
    - Prog.v: programs, executions, traces, interpretation.
    - Process.v: a Go process: the calls of [main]'s goroutine interleaved with
      those of the goroutines it starts, and os.Exit, which ends them all
      ([process]).
    - GoStrings.v, GoFloat.v, GoTime.v: what the services use of Go's strings
      (UTF-8, strconv), of float64 arithmetic and of package time (calendar,
      RFC 3339).
    - Domain.v: internal/domain: [Task.t], [TaskExecution.t], [Status],
      [IsTerminal] and the error values.
    - JsonText.v: the texts of encoding/json: strings with their escapes,
      surrogates and invalid UTF-8, numbers, and a parser of values to the
      depth the package allows.
    - Json.v: encoding/json on structs: how a value of each type is loaded,
      exact and folded member names, and the text of a task ([json_marshalTask],
      [json_unmarshalTask]).
    - Effects.v: the interfaces of the services as signatures ([StoreE] for
      redisstore.StateStore, [LimiterE], [RepoE], [ProducerE], [SysE] for the
      clock, identifiers and timers, [MetricE], [HandlerE]) and their sum
      [SvcE]; the projections of a trace the theorems speak about.
    - Retry.v: pkg/retry: [Do], its loop and backoff.
    - Handlers.v: internal/handlers: [Registry], [EmailHandle],
      [WebhookHandle], [buildMIME].
    - Kafka.v: internal/kafka: [HeaderCarrier] on a slice with its backing
      array, [NewProducer], [producer_Publish], [NewConsumer], the consumer
      loop [Subscribe], and what its commits mean for the offsets of the group.
    - Worker.v, WorkerSpec.v: services/worker: [processMessage] and the
      properties of one message.
    - Dispatcher.v: services/dispatcher: [route].
    - Redis.v, RedisFake.v: the Redis client as a signature, the server as a
      class with its documented laws, and a server in memory that has them.
    - RedisStore.v: internal/redis/state_store.go: [stateStore], and the
      abstract slot store it refines.
    - RateLimiter.v: internal/redis/rate_limiter.go: [limiter_Allow], and the
      sliding window it refines.
    - Postgres.v: internal/postgres: [repository] over the SQL statements and
      the tables of the migrations.
    - Scheduler.v: services/scheduler: election, due jobs, ticks; the lease
      the election refines.
    - Gateway.v, GatewaySpec.v: services/api-gateway/handler and middleware.
    - WellTyped.v: the types of what the services read and write.
    - Services.v: [Worker.Run] and [Dispatcher.Run], that is whole sessions.
    - System.v: gateway, dispatcher and worker on one world.
    - Cluster.v: any number of instances of the services over the partitions of
      a Kafka cluster, as a step relation with crashes, restarts and lost
      replies.
    - Wire.v: a payload from the bytes that are posted to the handler.
    - Impl.v, Stack.v: the implementations put behind the interfaces as the
      serve commands do ([implement]); the worker and the gateway on one Redis
      server, with the tasks as JSON.
    - Redelivery.v: sessions of workers one after the other, with restarts and
      redelivered messages, on one Redis, among the requests and the tasks of
      the other services.
    - Archive.v: PostgreSQL behind the services; what becomes of one task's
      rows while they run.
    - Lifecycle.v: gateway, dispatcher, worker and scheduler on one Redis and
      one PostgreSQL.
    - Cli.v, Config.v, Servers.v, Serve.v: services/*/cli and config: the
      [init] and [migrate] commands, flags and [Load], the goroutines of the
      HTTP, gRPC and metrics servers (pkg/telemetry/server.go), and [runServe]
      of each service with the process it makes with them ([serve_spawn]).
    - Binary.v: cmd/*/main.go: the commands of each binary, and its process up
      to its exit status ([bin_spawn], [bin_exit]).
    - Fakes.v: an environment for the services in the style of the
      repository's own tests.

    The definitions keep the names of the source; a comment before each gives
    the lines it models.

    ** What the theorems show

    - The way of a task: [submitted_task_reaches_handler],
      [rest_submit_accepted_iff_published], [dispatcher_session_forwards],
      [dispatcher_dlq_iff], [worker_verdict], [worker_status_path],
      [redelivery_runs_once]: what is accepted is published, what a session of
      the dispatcher commits is in another topic, and a task that was run ends
      as DONE or DEAD with one record.  [posted_payload_reaches_handler] follows the
      payload through the JSON of the body and of the task.
    - Nothing is lost unseen: [no_task_lost]: in every state the services can
      reach on a Kafka cluster, a published task is due somewhere, dead-lettered
      or dealt with, or its message was passed over after an error, for good
      ([passed_over_for_good]; [lost_passed_over] is such a state).
      [session_is_steps]: the consumer loop takes the steps of that relation.
    - The whole system: [task_lifecycle] says what a client is told of a task
      from its submission to the days after its end, [scheduled_task_unrecorded]
      what it is told of a task of a cron job.
    - The services on one Redis: [submitted_visible], [result_visible],
      [redelivered_on_redis]: what the gateway or the worker stored is what a
      status request or another worker reads for the next 24 hours, through
      the implementations and the JSON text ([json_roundtrip]).
    - Exactly once: [task_runs_once], [routed_task_runs_once]: however often
      the message of a task is delivered, and whatever is delivered in between,
      its handler is called for one delivery, as long as the workers take turns
      (as the consumers of a partition do) after the dispatcher has finished
      with it, Redis answers and less than 24 hours pass.
      [guard_is_not_atomic] and [late_queued_reruns] show that the first two of
      these conditions are needed.
    - Types: [services_well_typed]: what the services write is well typed if
      what they read is, but for the raw bytes on tasks.dlq and an empty message
      of a task without a JSON text; it is what the hypotheses of the round
      trips need.
    - Interfaces and their implementations: [stateStore_refines],
      [limiter_refines_window], [election_refines_lease],
      [repository_keeps_integrity] (for programs that create open tasks, as the
      gateway's submissions do, [submissions_create_open]), [Create_GetByID], [Do_trace],
      [Do_terminates], [Subscribe_trace]: each implementation against an
      abstract specification.
    - The scheduler: [tick_fires_due_jobs]: what a tick does to the table of jobs
      and to tasks.pending, in every environment of the table.
    - The gateway: [submit_apis_agree], [rest_status_reply],
      [stream_until_terminal], [bulk_counts].
    - Bounds and errors: [worker_attempts], [worker_ack], [leader_exclusive],
      [limiter_window_bound], [status_ttl], [serve_releases],
      [worker_session_drains], [init_writes], [binary_exit].  [serve_releases]
      and [binary_exit] are about whole processes: the servers' goroutines of
      the gateway can end them at any time.
    - Behaviour the documentation does not promise or denies:
      [late_queued_reruns], [guard_is_not_atomic], [worker_shutdown_loses_outcome],
      [refused_redelivered], [bad_cron_fires_every_tick],
      [limiter_refused_calls_count], [orphan_execution_refused],
      [GetByID_not_found].

    ** Loops and fuel

    A loop that ends for a reason of its own needs no fuel in its theorems:
    [Do] passes its loop as many steps as it may make attempts
    ([Do_terminates]), UTF-8 decoding and unquoting take as many as there are
    bytes, and the JSON parser one more than twice as many: a value that is
    read with any number of steps is read with that one ([read_fuel],
    [unquote_more]).  Loops that go on for as long as messages, ticks or stream elements arrive
    ([Subscribe], [Scheduler.Run], [StreamTaskUpdates], [BulkSubmitTasks]) take
    the number of rounds they may make and answer [None] when they are still
    running; their theorems hold for every such number.

    ** Assumptions

    Code that is not part of the repository is an effect, or a class with the
    laws its documentation states: the Redis server ([RedisLaws]), the types of
    PostgreSQL ([PgTypes]: what text its uuid, jsonb and text columns take, which
    times a timestamp can hold and to which precision), Kafka's partitions and offsets ([KafkaCluster], [GroupOffsets]), cron
    expressions ([Cron]), viper ([ViperSpec]), the tables of package unicode
    ([UnicodeTables]).  The services' theorems use JSON through the interface
    [TaskCodec]; [JsonTaskCodec] (Json.v) is encoding/json, of which only the
    texts of its errors are a parameter ([JsonTexts]).  The gateway gets the decoded
    body of a submission from a call, [DecodeBody], whose answer [decode_body] is.
    Every theorem that uses such a law has a witness with a concrete instance.

    ** Not modelled

    Logging and spans, which have no effect on the state; panics and the
    recovering middleware; the generated protocol buffers; the parsing of
    arguments by cobra, HTTP and gRPC transport, and chi's router beyond its
    table of routes; the location of a time, which is an instant; the texts of
    encoding/json's errors.  Of the goroutines of a process, those of its servers
    are interleaved with [main] (Process.v); the requests the servers answer,
    and the goroutine that cancels the run context on a signal, are not.
    Concurrency between services is modelled by interleaving their calls
    ([System.interleave]) or their messages (Cluster.v).

    ** Next

    The status and the database in the states of Cluster.v, so that
    [no_task_lost] and [task_runs_once] hold of one system; progress of a
    cluster whose servers answer; Redis's own faults (a lost write, an expiry
    between the two reads of a status request) in the life of a task. *)

From Stdlib Require Export ZArith Lia String Ascii.
From stdpp Require Export base tactics list option strings gmap sets.

#[global] Set Default Proof Using "Type".
#[global] Open Scope Z_scope.

(** ** Machine integers

    Go's [int] and [int64] are 64-bit two's complement on every platform the
    services are built for, [int32] is 32-bit.  Integers are kept as [Z] and
    every arithmetic operation that can leave the range is wrapped. *)

Definition wrap (w : Z) (z : Z) : Z := (z + 2 ^ (w - 1)) mod 2 ^ w - 2 ^ (w - 1).

Definition int64 (z : Z) : Z := wrap 64 z.
Definition int32 (z : Z) : Z := wrap 32 z.

Definition in_int64 (z : Z) : Prop := - 2 ^ 63 <= z < 2 ^ 63.
Definition in_int32 (z : Z) : Prop := - 2 ^ 31 <= z < 2 ^ 31.

Definition MaxInt64 : Z := 2 ^ 63 - 1.
Definition MinInt64 : Z := - 2 ^ 63.

Lemma int64_small z : in_int64 z -> int64 z = z.
Proof. unfold in_int64, int64, wrap. intros. rewrite Z.mod_small; lia. Qed.

Lemma wrap_add_l w a b : 0 <= w -> wrap w (wrap w a + b) = wrap w (a + b).
Proof.
  intros Hw. unfold wrap. f_equal.
  replace ((a + 2 ^ (w - 1)) mod 2 ^ w - 2 ^ (w - 1) + b + 2 ^ (w - 1))
    with ((a + 2 ^ (w - 1)) mod 2 ^ w + b) by lia.
  rewrite Zplus_mod_idemp_l. f_equal. lia.
Qed.

Lemma int32_small z : in_int32 z -> int32 z = z.
Proof. unfold in_int32, int32, wrap. intros. rewrite Z.mod_small; lia. Qed.

Lemma int64_range z : in_int64 (int64 z).
Proof.
  unfold in_int64, int64, wrap.
  pose proof (Z.mod_pos_bound (z + 2 ^ (64 - 1)) (2 ^ 64) ltac:(lia)). lia.
Qed.

Lemma int32_range z : in_int32 (int32 z).
Proof.
  unfold in_int32, int32, wrap.
  pose proof (Z.mod_pos_bound (z + 2 ^ (32 - 1)) (2 ^ 32) ltac:(lia)). lia.
Qed.

(** ** Results

    A Go function that returns [(T, error)] returns [Ok t] when the error is
    nil and [Err e] otherwise; a function that returns only [error] returns
    [option error], [None] being nil. *)

Inductive result (E T : Type) : Type :=
| Ok (t : T)
| Err (e : E).
Arguments Ok {E T} t.
Arguments Err {E T} e.

Definition is_ok {E T} (r : result E T) : bool :=
  match r with Ok _ => true | Err _ => false end.

Definition err_of {E T} (r : result E T) : option E :=
  match r with Ok _ => None | Err e => Some e end.

(** ** Byte strings

    Go strings are byte sequences: Rocq's [string] (a list of 8-bit [ascii]).
    A [[]byte] that may be nil is an [option string]. *)

Definition byte_len (b : option string) : Z :=
  match b with None => 0 | Some s => Z.of_nat (String.length s) end.

Lemma byte_len_nonneg b : 0 <= byte_len b.
Proof. destruct b; simpl; lia. Qed.

Lemma byte_len_0 b : byte_len b = 0 -> b = None \/ b = Some "".
Proof. destruct b as [[|a s]|]; simpl; auto; lia. Qed.

(** ** Lists

    Locating an element a projection selects in a concatenation of which one
    part holds no such element. *)

Lemma omap_nil_split {A B} (f : A -> option B) l1 l2 :
  omap f (l1 ++ l2) = [] -> omap f l1 = [] /\ omap f l2 = [].
Proof. rewrite omap_app. apply app_eq_nil. Qed.

Lemma omap_split_after {A B} (f : A -> option B) pre l t1 x t2 :
  omap f pre = [] -> f x <> None -> pre ++ l = t1 ++ x :: t2 ->
  exists t1', t1 = pre ++ t1' /\ l = t1' ++ x :: t2.
Proof.
  revert t1. induction pre as [|a pre IH]; intros t1 Hpre Hx Heq; [by exists t1|].
  cbn in Hpre. destruct (f a) eqn:Ha; [done|].
  destruct t1 as [|b t1]; simplify_list_eq.
  destruct (IH t1 Hpre Hx) as (t1' & -> & ->); [congruence|]. by exists t1'.
Qed.

Lemma omap_split_before {A B} (f : A -> option B) l post t1 x t2 :
  omap f post = [] -> f x <> None -> l ++ post = t1 ++ x :: t2 ->
  exists t2', l = t1 ++ x :: t2' /\ t2 = t2' ++ post.
Proof.
  revert t1. induction l as [|a l IH]; intros t1 Hpost Hx Heq.
  - cbn in Heq. subst post. apply omap_nil_split in Hpost as [_ Hpost].
    cbn in Hpost. by destruct (f x).
  - destruct t1 as [|b t1]; simplify_list_eq; [by eexists|].
    destruct (IH t1 Hpost Hx) as (t2' & -> & ->); [congruence|]. by exists t2'.
Qed.

(** ** Hint database and tactics of the development *)

Create HintDb goflow discriminated.
Create Rewrite HintDb trace.

#[export] Hint Resolve int64_range int32_range byte_len_nonneg : goflow.

(** Break every conjunction, existential and pair equation of the context. *)
Ltac destr_hyps :=
  repeat match goal with
         | H : _ /\ _ |- _ => destruct H
         | H : exists _, _ |- _ => destruct H
         | H : (_, _) = (_, _) |- _ => injection H as H; subst
         | H : Some _ = Some _ |- _ => injection H as H; subst
         | H : Ok _ = Ok _ |- _ => injection H as H; subst
         | H : Err _ = Err _ |- _ => injection H as H; subst
         | H : _ :: _ = _ :: _ |- _ => injection H as H; subst
         end; try discriminate; subst.

(** Case analysis on the scrutinee of a match of the goal or a hypothesis. *)
Ltac split_match :=
  match goal with
  | |- context [match ?x with _ => _ end] => destruct x eqn:?
  | H : context [match ?x with _ => _ end] |- _ => destruct x eqn:?
  end.
