(* ===== verification/Prog.v ===== *)
(** * Programs with effects

    The services talk to Redis, PostgreSQL, Kafka, SMTP and HTTP servers, the
    clock and each other's interfaces.  A Go function that does so is a
    [prog E A]: a finite tree of calls of the effect signature [E], each with
    a continuation for every answer the environment may give.  [exec p tr r]
    says that [p] can finish with result [r] having made exactly the calls of
    the trace [tr] and got the answers recorded there; it quantifies over every
    behaviour of the outside, failures included.  [run] executes a program
    against a concrete environment, and [interp] replaces the calls of one
    signature by programs over another (an interface by its implementation). *)

From S2P Require Import Prelude.

Section Prog.
Context {E : Type -> Type}.

Inductive prog (A : Type) : Type :=
| Ret (a : A)
| Vis {X : Type} (e : E X) (k : X -> prog A).

Inductive event : Type :=
| Ev {X : Type} (e : E X) (x : X).

End Prog.
Arguments prog E A : clear implicits.
Arguments event E : clear implicits.
Arguments Ret {E A} a.
Arguments Vis {E A X} e k.
Arguments Ev {E X} e x.

#[export] Instance prog_ret E : MRet (prog E) := @Ret E.

#[export] Instance prog_bind E : MBind (prog E) :=
  fun A B f => fix bind (p : prog E A) : prog E B :=
    match p with
    | Ret a => f a
    | Vis e k => Vis e (fun x => bind (k x))
    end.

#[export] Instance prog_fmap E : FMap (prog E) :=
  fun A B f p => p ≫= (fun a => Ret (f a)).

(** Interfaces: [SubE E F] embeds the calls of an interface [E] into the
    signature [F] of a whole service; [trigger] makes one call. *)
Class SubE (E F : Type -> Type) := inj : forall {X}, E X -> F X.
#[export] Instance SubE_refl E : SubE E E | 10 := fun X e => e.

Definition trigger {E F : Type -> Type} `{SubE E F} {X} (e : E X) : prog F X :=
  Vis (inj e) Ret.

Section Semantics.
Context {E : Type -> Type}.
Implicit Types (tr : list (event E)).

Fixpoint exec {A} (p : prog E A) tr (r : A) : Prop :=
  match p with
  | Ret a => tr = [] /\ r = a
  | Vis e k => exists x tr', tr = Ev e x :: tr' /\ exec (k x) tr' r
  end.

(** An execution cut short, e.g. by a crash: the calls made so far. *)
Definition exec_prefix {A} (p : prog E A) tr : Prop :=
  exists tr' r, exec p (tr ++ tr') r.

Definition handler (W : Type) : Type := forall X, E X -> W -> X * W.

Fixpoint run {A W} (h : handler W) (p : prog E A) (w : W)
  : A * list (event E) * W :=
  match p with
  | Ret a => (a, [], w)
  | Vis e k =>
      let '(x, w1) := h _ e w in
      let '(r, tr, w2) := run h (k x) w1 in
      (r, Ev e x :: tr, w2)
  end.

Definition run_result {A W} (h : handler W) (p : prog E A) w : A := (run h p w).1.1.
Definition run_trace {A W} (h : handler W) (p : prog E A) w := (run h p w).1.2.
Definition run_world {A W} (h : handler W) (p : prog E A) w : W := (run h p w).2.

(** Every run in an environment is an execution. *)
Lemma run_exec {A W} (h : handler W) (p : prog E A) w :
  exec p (run_trace h p w) (run_result h p w).
Proof.
  unfold run_trace, run_result. revert w.
  induction p as [a|X e k IH]; intros w; simpl; [done|].
  destruct (h X e w) as [x w1]. specialize (IH x w1).
  destruct (run h (k x) w1) as [[r tr] w2]. simpl in *. eauto.
Qed.

Lemma exec_ret {A} (a : A) tr r : exec (Ret a) tr r <-> tr = [] /\ r = a.
Proof. done. Qed.

Lemma exec_bind {A B} (p : prog E A) (f : A -> prog E B) tr r :
  exec (p ≫= f) tr r <->
  exists tr1 tr2 a, tr = tr1 ++ tr2 /\ exec p tr1 a /\ exec (f a) tr2 r.
Proof.
  revert tr. induction p as [a|X e k IH]; intros tr; simpl.
  - split.
    + intros H. by exists [], tr, a.
    + intros (tr1 & tr2 & a' & -> & [-> ->] & H). done.
  - split.
    + intros (x & tr' & -> & H). apply IH in H as (t1 & t2 & a & -> & H1 & H2).
      exists (Ev e x :: t1), t2, a. simpl. eauto 10.
    + intros (t1 & t2 & a & -> & (x & t' & -> & H1) & H2).
      exists x, (t' ++ t2). split; [done|]. apply IH. eauto 10.
Qed.

Lemma exec_trigger {F} `{SubE F E} {X} (e : F X) tr (r : X) :
  exec (trigger e) tr r <-> tr = [Ev (inj e) r].
Proof.
  unfold trigger; simpl. split.
  - intros (x & tr' & -> & -> & ->). done.
  - intros ->. eauto 10.
Qed.

(** ** Trace equivalence *)

#[export] Instance prog_equiv A : Equiv (prog E A) :=
  fun p q => forall tr r, exec p tr r <-> exec q tr r.

#[export] Instance prog_equivalence A : Equivalence (≡@{prog E A}).
Proof.
  unfold equiv, prog_equiv. split.
  - done.
  - intros p q H tr r. by rewrite (H tr r).
  - intros p q u H1 H2 tr r. by rewrite (H1 tr r), (H2 tr r).
Qed.

#[export] Instance exec_proper A :
  Proper ((≡) ==> (=) ==> (=) ==> iff) (@exec A).
Proof. intros p q Hpq ?? -> ?? ->. apply Hpq. Qed.

Lemma bind_proper A B (p q : prog E A) (f g : A -> prog E B) :
  p ≡ q -> (forall a, f a ≡ g a) -> p ≫= f ≡ q ≫= g.
Proof.
  intros Hpq Hfg tr r. rewrite !exec_bind.
  split; intros (t1 & t2 & a & -> & H1 & H2); exists t1, t2, a;
    (split; [done|]); split; by (apply Hpq || apply Hfg).
Qed.

#[export] Instance bind_proper_instance A B :
  Proper (pointwise_relation A (≡) ==> (≡) ==> (≡)) (@mbind (prog E) _ A B).
Proof. intros f g Hfg p q Hpq. by apply bind_proper. Qed.

Lemma bind_ret_l A B (a : A) (f : A -> prog E B) : Ret a ≫= f ≡ f a.
Proof. intros tr r. done. Qed.

Lemma bind_ret_r A (p : prog E A) : p ≫= Ret ≡ p.
Proof.
  intros tr r. rewrite exec_bind. split.
  - intros (t1 & t2 & a & -> & H & -> & ->). by rewrite app_nil_r.
  - intros H. exists tr, [], r. rewrite app_nil_r. done.
Qed.

Lemma bind_assoc A B C (p : prog E A) (f : A -> prog E B) (g : B -> prog E C) :
  (p ≫= f) ≫= g ≡ p ≫= (fun a => f a ≫= g).
Proof.
  intros tr r. rewrite !exec_bind. setoid_rewrite exec_bind. split.
  - intros (t12 & t3 & b & -> & (t1 & t2 & a & -> & H1 & H2) & H3).
    exists t1, (t2 ++ t3), a. rewrite app_assoc. eauto 10.
  - intros (t1 & t23 & a & -> & H1 & (t2 & t3 & b & -> & H2 & H3)).
    exists (t1 ++ t2), t3, b. rewrite app_assoc. eauto 10.
Qed.

End Semantics.
Arguments handler E W : clear implicits.

(** ** Steps of an execution *)

#[global] Arguments exec : simpl never.

Lemma exec_call {E F} `{SubE F E} {X A} (e : F X) (k : X -> prog E A) tr r :
  exec (trigger e ≫= k) tr r <->
  exists x tr', tr = Ev (inj e) x :: tr' /\ exec (k x) tr' r.
Proof. done. Qed.

Lemma exec_mret {E A} (a : A) tr r :
  exec (mret a : prog E A) tr r <-> tr = [] /\ r = a.
Proof. done. Qed.

(** [exec_inv] follows the executions of the context: one call, one branch or
    one sub-program at a time, until nothing is left to run. *)
Ltac exec_inv1 :=
  match goal with
  | H : exec (trigger _ ≫= _) _ _ |- _ =>
      rewrite exec_call in H; destruct H as (? & ? & -> & H); cbn beta iota zeta in H
  | H : exec (trigger _) _ _ |- _ =>
      apply exec_trigger in H as ->
  | H : exec (mret _) _ _ |- _ => apply exec_mret in H as [-> H]
  | H : exec (Ret _) _ _ |- _ => apply exec_ret in H as [-> H]
  | H : exec (match ?x with _ => _ end) _ _ |- _ => destruct x eqn:?
  end; simplify_eq.
Ltac exec_inv := repeat exec_inv1.

(** One call, naming its answer (or destructing it with an intro pattern). *)
Tactic Notation "exec_call" "in" hyp(H) "as" simple_intropattern(x) :=
  rewrite exec_call in H; destruct H as (x & ? & -> & H); cbn beta iota in H.
(** Make one call in the goal, answered by [x]. *)
Tactic Notation "exec_do" uconstr(x) :=
  rewrite exec_call; exists x; eexists; split; [reflexivity|]; cbn beta iota.

(** ** Interpretation of one signature by another *)

Section Interp.
Context {E F : Type -> Type} (f : forall X, E X -> prog F X).

Fixpoint interp {A} (p : prog E A) : prog F A :=
  match p with
  | Ret a => Ret a
  | Vis e k => f _ e ≫= (fun x => interp (k x))
  end.

(** The call [e] of the interface, answered by its implementation. *)
Definition handle_by {W} (h : handler F W) : handler E W :=
  fun X e w => (run_result h (f X e) w, run_world h (f X e) w).

Lemma run_bind {A B W} (h : handler F W) (p : prog F A) (g : A -> prog F B) w :
  run h (p ≫= g) w =
  let '(a, t1, w1) := run h p w in
  let '(b, t2, w2) := run h (g a) w1 in (b, t1 ++ t2, w2).
Proof.
  revert w. induction p as [a|X e k IH]; intros w.
  - simpl. by destruct (run h (g a) w) as [[b t2] w2].
  - change (Vis e k ≫= g) with (Vis e (fun x => k x ≫= g)). cbn [run].
    destruct (h X e w) as [x w1]. rewrite IH.
    destruct (run h (k x) w1) as [[a t1] w2].
    destruct (run h (g a) w2) as [[b t2] w3]. done.
Qed.

(** Running the interpreted program is running the program in the
    environment its implementation makes: same result, same world. *)
Lemma run_interp {A W} (h : handler F W) (p : prog E A) w :
  run_result h (interp p) w = run_result (handle_by h) p w /\
  run_world h (interp p) w = run_world (handle_by h) p w.
Proof.
  unfold run_result, run_world. revert w.
  induction p as [a|X e k IH]; intros w; [done|].
  cbn [interp run]. rewrite run_bind.
  change (handle_by h X e w) with (run_result h (f X e) w, run_world h (f X e) w).
  unfold run_result, run_world.
  destruct (run h (f X e) w) as [[x t1] w1]. cbn [fst snd].
  specialize (IH x w1).
  destruct (run h (interp (k x)) w1) as [[b t2] w2].
  by destruct (run (handle_by h) (k x) w1) as [[b' t2'] w2'].
Qed.
End Interp.

Lemma interp_bind {E F} (f : forall X, E X -> prog F X) {A B}
    (p : prog E A) (g : A -> prog E B) :
  interp f (p ≫= g) ≡ interp f p ≫= (fun a => interp f (g a)).
Proof.
  induction p as [a|X e k IH]; [done|].
  change (Vis e k ≫= g) with (Vis e (fun x => k x ≫= g)). cbn [interp].
  rewrite bind_assoc. by apply bind_proper.
Qed.

(** ** A program of an interface inside a larger signature *)

Section Lift.
Context {E F : Type -> Type} `{SubE E F}.

Definition lift {A} (p : prog E A) : prog F A :=
  interp (fun X (e : E X) => trigger e) p.

Definition lift_event (ev : event E) : event F :=
  match ev with Ev e x => Ev (inj e) x end.

Lemma exec_lift {A} (p : prog E A) tr r :
  exec (lift p) tr r <-> exists t, tr = map lift_event t /\ exec p t r.
Proof.
  unfold lift. revert tr. induction p as [a|X e k IH]; intros tr.
  - cbn [interp]. split.
    + intros Hex. apply exec_ret in Hex as [-> ->]. by exists [].
    + intros (t & -> & [-> ->]%exec_ret). done.
  - cbn [interp]. rewrite exec_call. split.
    + intros (x & tr' & -> & (t & -> & Hex)%IH). exists (Ev e x :: t).
      split; [done|]. by exists x, t.
    + intros (t & -> & x & t' & -> & Hex). exists x, (map lift_event t').
      split; [done|]. apply IH. eauto.
Qed.

(** Running a lifted program is running the program, its calls answered by
    the larger signature's environment. *)
Lemma run_lift {A W} (h : handler F W) (p : prog E A) w :
  run h (lift p) w =
  let '(a, t, w') := run (fun X (e : E X) => h X (inj e)) p w in (a, map lift_event t, w').
Proof.
  unfold lift. revert w. induction p as [a|X e k IH]; intros w; [done|].
  cbn [interp run]. rewrite run_bind. cbn [trigger run].
  destruct (h X (inj e) w) as [x w1]. rewrite IH.
  by destruct (run _ (k x) w1) as [[a t] w2].
Qed.
End Lift.

(** ** Programs all of whose calls satisfy a predicate *)

Definition only {E} (P : event E -> Prop) {A} (p : prog E A) : Prop :=
  forall tr r, exec p tr r -> Forall P tr.

Lemma only_ret {E} (P : event E -> Prop) {A} (a : A) : only P (mret a).
Proof. by intros tr r [-> _]%exec_mret. Qed.

Lemma only_bind {E} (P : event E -> Prop) {A B} (p : prog E A) (k : A -> prog E B) :
  only P p -> (forall a, only P (k a)) -> only P (p ≫= k).
Proof.
  intros Hp Hk tr r (t1 & t2 & a & -> & H1 & H2)%exec_bind.
  apply Forall_app. split; [by eapply Hp|by eapply Hk].
Qed.

Lemma only_trigger {E F} `{SubE F E} (P : event E -> Prop) {X} (e : F X) :
  (forall x, P (Ev (inj e) x)) -> only P (trigger e).
Proof. intros HP tr r ->%exec_trigger. by repeat constructor. Qed.

Lemma only_lift {E F} `{SubE F E} (P : event E -> Prop) {A} (p : prog F A) :
  (forall ev, P (lift_event ev)) -> only P (lift p).
Proof.
  intros HP tr r (t & -> & _)%exec_lift. apply Forall_map. by apply Forall_true.
Qed.

(** Break a program down to its calls. *)
Ltac only_calls :=
  repeat first
    [ apply only_ret
    | apply only_trigger; intros; by cbn
    | apply only_lift; intros []; exact I
    | apply only_bind; [|intros]
    | match goal with |- only _ (match ?x with _ => _ end) => destruct x end ].

(** ** Invariants of the environment

    [calls P p]: whatever it is answered, [p] only makes calls that satisfy
    [P].  What every such call preserves of the world, a run preserves. *)

Section Calls.
Context {E : Type -> Type} (P : forall X, E X -> Prop).

Fixpoint calls {A} (p : prog E A) : Prop :=
  match p with
  | Ret _ => True
  | Vis e k => P _ e /\ forall x, calls (k x)
  end.

Lemma calls_bind {A B} (p : prog E A) (k : A -> prog E B) :
  calls p -> (forall a, calls (k a)) -> calls (p ≫= k).
Proof. intros Hp Hk. induction p as [a|X e q IH]; [apply Hk|]. destruct Hp. by split; [|intros; apply IH]. Qed.

Lemma calls_lift {F} `{SubE F E} {A} (p : prog F A) :
  (forall X (e : F X), P X (inj e)) -> calls (lift p).
Proof. intros HP. unfold lift. induction p as [|X e k IH]; cbn; [done|]. split; [apply HP|done]. Qed.

Lemma run_invariant {A W} (h : handler E W) (I : W -> Prop) (p : prog E A) w :
  (forall X (e : E X) w, P X e -> I w -> I (h X e w).2) ->
  calls p -> I w -> I (run_world h p w).
Proof.
  intros Hstep. unfold run_world. revert w. induction p as [a|X e k IH]; intros w Hp Hw; [done|].
  destruct Hp as [He Hk]. pose proof (Hstep X e w He Hw) as Hw1. cbn [run].
  destruct (h X e w) as [x w1]. specialize (IH x w1 (Hk x) Hw1).
  by destruct (run h (k x) w1) as [[b t] w2].
Qed.
End Calls.

(** ** Rely and guarantee

    [triple p Q]: as long as the answers [p] gets satisfy [answer], its calls
    satisfy [request], and its result satisfies [Q]. *)

Section Triples.
Context {E : Type -> Type} (answer request : event E -> Prop).

Definition triple {A} (p : prog E A) (Q : A -> Prop) : Prop :=
  forall tr r, exec p tr r -> Forall answer tr -> Forall request tr /\ Q r.

Lemma triple_ret {A} (a : A) (Q : A -> Prop) : Q a -> triple (mret a) Q.
Proof. by intros HQ tr r [-> ->]%exec_mret. Qed.

Lemma triple_bind {A B} (p : prog E A) (k : A -> prog E B) (P : A -> Prop) (Q : B -> Prop) :
  triple p P -> (forall a, P a -> triple (k a) Q) -> triple (p ≫= k) Q.
Proof.
  intros Hp Hk tr r (t1 & t2 & a & -> & H1 & H2)%exec_bind [Ha1 Ha2]%Forall_app.
  destruct (Hp _ _ H1 Ha1) as [Hr1 HP]. destruct (Hk a HP _ _ H2 Ha2) as [Hr2 HQ].
  split; [by apply Forall_app|done].
Qed.

Lemma triple_trigger {F} `{SubE F E} {X} (e : F X) (Q : X -> Prop) :
  (forall x, answer (Ev (inj e) x) -> request (Ev (inj e) x) /\ Q x) -> triple (trigger e) Q.
Proof.
  intros He tr r ->%exec_trigger Ha%Forall_inv. destruct (He r Ha). by repeat constructor.
Qed.

Lemma triple_call {F} `{SubE F E} {X A} (e : F X) (k : X -> prog E A) (Q : A -> Prop) :
  (forall x, request (Ev (inj e) x)) ->
  (forall x, answer (Ev (inj e) x) -> triple (k x) Q) -> triple (trigger e ≫= k) Q.
Proof.
  intros He Hk. apply triple_bind with (fun x => answer (Ev (inj e) x)); [|done].
  by apply triple_trigger.
Qed.

Lemma triple_weaken {A} (p : prog E A) (P Q : A -> Prop) :
  triple p P -> (forall a, P a -> Q a) -> triple p Q.
Proof. intros Hp HPQ tr r Hex Ha. destruct (Hp tr r Hex Ha). auto. Qed.
End Triples.

(** The calls of a program in turn, with its branches; [request]s and results
    are left to [tac]. *)
Ltac triple_calls tac :=
  repeat lazymatch goal with
  | |- triple _ _ (mret _) _ => apply triple_ret; tac
  | |- triple _ _ (trigger _ ≫= _) _ => apply triple_call; [intros; tac|intros]
  | |- triple _ _ (trigger _) _ => apply triple_trigger; intros; split; tac
  | |- triple _ _ (let _ := _ in _) _ => cbn zeta
  | |- triple _ _ (match ?x with _ => _ end) _ => destruct x eqn:?
  end.
