(* ===== verification/Process.v ===== *)
(** * Processes

    A Go process: the calls of [main]'s goroutine, interleaved with those of
    the goroutines it has started, until [main] returns or any of them calls
    [os.Exit], which ends all of them at once and runs no deferred call. *)

From S2P Require Import Prelude Prog.

(** ** Executions cut short *)

Section After.
Context {E : Type -> Type}.
Implicit Types (tr : list (event E)).

(** [partial p tr q]: having made the calls of [tr], [p] is about to go on as
    [q]. *)
Fixpoint partial {A} (p : prog E A) tr (q : prog E A) {struct tr} : Prop :=
  match tr with
  | [] => q = p
  | ev :: tr' =>
      match p with
      | Ret _ => False
      | Vis e k => exists x, ev = Ev e x /\ partial (k x) tr' q
      end
  end.

Lemma partial_ret {A} (a : A) tr q : partial (mret a) tr q -> tr = [] /\ q = mret a.
Proof. by destruct tr. Qed.

Lemma partial_exec {A} (p : prog E A) tr a : partial p tr (Ret a) <-> exec p tr a.
Proof.
  revert tr. induction p as [b|X e k IH]; intros tr; destruct tr as [|ev tr]; cbn [partial].
  - rewrite exec_ret. split; [by intros [= ->]|by intros [_ ->]].
  - rewrite exec_ret. by split; [|intros [? _]].
  - split; [done|]. by intros (x & t & ? & _).
  - split; [intros (x & -> & Hex); exists x, tr; split; [done|]; by apply IH|].
    intros (x & t & [= -> ->] & Hex). exists x. split; [done|]. by apply IH.
Qed.

Lemma partial_call {F} `{SubE F E} {X A} (e : F X) (k : X -> prog E A) tr q :
  partial (trigger e ≫= k) tr q ->
  (tr = [] /\ q = trigger e ≫= k) \/ exists x t, tr = Ev (inj e) x :: t /\ partial (k x) t q.
Proof. destruct tr as [|ev tr]; [by left|]. intros (x & -> & Hk). right. eauto. Qed.

Lemma partial_bind {A B} (p : prog E A) (f : A -> prog E B) tr q :
  partial (p ≫= f) tr q ->
  (exists p', partial p tr p') \/
  (exists t1 t2 a, tr = t1 ++ t2 /\ exec p t1 a /\ partial (f a) t2 q).
Proof.
  revert tr. induction p as [a|X e k IH]; intros tr Haf.
  { right. by exists [], tr, a. }
  destruct tr as [|ev tr]; [left; by eexists|]. destruct Haf as (x & -> & Haf).
  destruct (IH x tr Haf) as [(p' & Hp')|(t1 & t2 & a & -> & H1 & H2)].
  - left. exists p', x. done.
  - right. exists (Ev e x :: t1), t2, a. split; [done|]. split; [|done]. by exists x, t1.
Qed.

(** What is left to do can be done, whatever was answered so far. *)
Lemma partial_exec_app {A} (p q : prog E A) tr tr' r :
  partial p tr q -> exec q tr' r -> exec p (tr ++ tr') r.
Proof.
  revert p. induction tr as [|ev tr IH]; intros p Haf Hex; [by rewrite <- Haf|].
  destruct p as [a|X e k]; [done|]. destruct Haf as (x & -> & Haf).
  exists x, (tr ++ tr'). split; [done|]. by apply IH.
Qed.

(** The first [n] calls of a program in an environment. *)
Fixpoint steps {A W} (h : handler E W) (n : nat) (p : prog E A) (w : W)
  : list (event E) * prog E A :=
  match n, p with
  | S n, Vis e k => let '(x, w) := h _ e w in let '(tr, q) := steps h n (k x) w in (Ev e x :: tr, q)
  | _, _ => ([], p)
  end.

Lemma partial_steps {A W} (h : handler E W) n (p : prog E A) w :
  partial p (steps h n p w).1 (steps h n p w).2.
Proof.
  revert p w. induction n as [|n IH]; intros [a|X e k] w; try done. cbn.
  destruct (h X e w) as [x w1]. specialize (IH (k x) w1).
  destruct (steps h n (k x) w1) as [tr q]. by exists x.
Qed.

(** A predicate of all calls holds of the calls made so far, when every call
    has some answer. *)
Lemma calls_partial (P : forall X, E X -> Prop) {A} (p q : prog E A) tr :
  calls P p -> partial p tr q -> Forall (fun ev => match ev with Ev e _ => P _ e end) tr.
Proof.
  revert p. induction tr as [|ev tr IH]; intros p Hp Haf; [constructor|].
  destruct p as [a|X e k]; [done|]. destruct Haf as (x & -> & Haf), Hp as [He Hk].
  constructor; [done|]. by apply (IH (k x)).
Qed.
End After.

Lemma partial_lift {E F} `{SubE F E} {A} (p : prog F A) (tr : list (event E)) q :
  partial (lift p) tr q -> exists t q', tr = map lift_event t /\ partial p t q' /\ q = lift q'.
Proof.
  revert tr. induction p as [a|X e k IH]; intros tr Hp.
  - destruct tr; [|done]. by exists [], (Ret a).
  - destruct tr as [|ev tr]; [by exists [], (Vis e k)|]. destruct Hp as (x & -> & Hp).
    destruct (IH x tr Hp) as (t & q' & -> & Hp' & ->).
    exists (Ev e x :: t), q'. split; [done|]. split; [by exists x|done].
Qed.

(** ** Goroutines *)

Inductive ending (A : Type) : Type :=
| Returned (a : A)
| Exited (code : Z)
| Running.
Arguments Returned {A} a.
Arguments Exited {A} code.
Arguments Running {A}.

Section Process.
Context {E : Type -> Type}.
(** The goroutines a call of [main]'s starts, and the calls of [os.Exit]. *)
Context (spawn : forall X, E X -> list (prog E unit)) (exits : event E -> option Z).

(** A call of the process: whether it is [main]'s own. *)
Definition proc_trace : Type := list (bool * event E).
Implicit Types (tr : proc_trace) (gs : list (prog E unit)).

Inductive process {A} : prog E A -> list (prog E unit) -> proc_trace -> ending A -> Prop :=
| proc_running p gs : process p gs [] Running
| proc_returned a gs : process (Ret a) gs [] (Returned a)
| proc_main X (e : E X) k x gs tr out :
    exits (Ev e x) = None -> process (k x) (gs ++ spawn X e) tr out ->
    process (Vis e k) gs ((true, Ev e x) :: tr) out
| proc_main_exit X (e : E X) k x gs code :
    exits (Ev e x) = Some code -> process (Vis e k) gs [(true, Ev e x)] (Exited code)
| proc_go p X (e : E X) k x gs1 gs2 tr out :
    exits (Ev e x) = None -> process p (gs1 ++ k x :: gs2) tr out ->
    process p (gs1 ++ Vis e k :: gs2) ((false, Ev e x) :: tr) out
| proc_go_exit p X (e : E X) k x gs1 gs2 code :
    exits (Ev e x) = Some code ->
    process p (gs1 ++ Vis e k :: gs2) [(false, Ev e x)] (Exited code).

Definition main_call (x : bool * event E) : option (event E) := if x.1 then Some x.2 else None.
Definition main_calls tr : list (event E) := omap main_call tr.

(** What [main] has done. *)
Lemma process_partial {A} (p : prog E A) gs tr out :
  process p gs tr out -> exists q, partial p (main_calls tr) q /\
    forall a, out = Returned a -> q = Ret a /\ omap exits (main_calls tr) = [].
Proof.
  unfold main_calls. induction 1 as [p gs|a gs|X e k x gs tr out Hx _ (q & Hq & Hr)|X e k x gs code Hx
    |p X e k x gs1 gs2 tr out Hx _ (q & Hq & Hr)|p X e k x gs1 gs2 code Hx].
  - by exists p.
  - exists (Ret a). split; [done|]. by intros b [= <-].
  - exists q. split; [by exists x|]. intros a Ha. destruct (Hr a Ha) as [-> Ho].
    split; [done|]. cbn [omap list_omap main_call fst snd]. by rewrite Hx.
  - exists (k x). split; [by exists x|done].
  - by exists q.
  - by exists p.
Qed.

(** Who has called [os.Exit]: [main], as the last of its calls; or a goroutine
    that it had started, whose calls are among those of the process. *)
Lemma process_exit {A} (p : prog E A) gs tr code :
  process p gs tr (Exited code) ->
  (exists t ev, main_calls tr = t ++ [ev] /\ exits ev = Some code /\ omap exits t = []) \/
  (exists g t ev q, (g ∈ gs \/ exists X (e : E X) x, Ev e x ∈ main_calls tr /\ g ∈ spawn X e) /\
     partial g (t ++ [ev]) q /\ exits ev = Some code /\
     Forall (fun ev => (false, ev) ∈ tr) (t ++ [ev]) /\ omap exits (main_calls tr) = []).
Proof.
  unfold main_calls. remember (Exited code) as out eqn:Hout.
  induction 1 as [p gs|a gs|X e k x gs tr out Hx _ IH|X e k x gs code' Hx
    |p X e k x gs1 gs2 tr out Hx _ IH|p X e k x gs1 gs2 code' Hx]; try discriminate Hout.
  - destruct (IH Hout) as [(t & ev & Hm & Hev & Ht)|(g & t & ev & q & Hg & Haf & Hev & Hin & Hno)].
    + left. exists (Ev e x :: t), ev. cbn [omap list_omap main_call fst snd].
      by rewrite Hm, Hx.
    + right. exists g, t, ev, q. cbn [omap list_omap main_call fst snd]. rewrite Hx. split_and!; try done.
      * destruct Hg as [[Hg|Hg]%elem_of_app|(Y & e' & y & Hy & Hg)]; [by left|right..].
        -- exists X, e, x. split; [by left|done].
        -- exists Y, e', y. split; [by right|done].
      * eapply Forall_impl; [exact Hin|]. intros ev' Hev'. by right.
  - injection Hout as <-. left. by exists [], (Ev e x).
  - destruct (IH Hout) as [Hmain|(g & t & ev & q & Hg & Haf & Hev & Hin & Hno)]; [by left|right].
    assert (Forall (fun ev => (false, ev) ∈ (false, Ev e x) :: tr) (t ++ [ev])) as Hin'.
    { eapply Forall_impl; [exact Hin|]. intros ev' Hev'. by right. }
    destruct Hg as [[Hg|[->|Hg]%elem_of_cons]%elem_of_app|Hg].
    + exists g, t, ev, q. split_and!; try done. left. apply elem_of_app. by left.
    + exists (Vis e k), (Ev e x :: t), ev, q. split_and!; try done.
      * left. apply elem_of_app. right. by left.
      * by exists x.
      * constructor; [by left|done].
    + exists g, t, ev, q. split_and!; try done. left. apply elem_of_app. right. by right.
    + exists g, t, ev, q. split_and!; try done. by right.
  - injection Hout as <-. right. exists (Vis e k), [], (Ev e x), (k x). split_and!; try done.
    + left. apply elem_of_app. right. by left.
    + by exists x.
    + constructor; [by left|constructor].
Qed.

(** ** Making a process *)

Definition spawned (t : list (event E)) : list (prog E unit) :=
  flat_map (fun ev => match ev with @Ev _ X e _ => spawn X e end) t.

(** [main] goes on as far as it likes. *)
Lemma process_steps {A} (p q : prog E A) gs t tr out :
  partial p t q -> omap exits t = [] -> process q (gs ++ spawned t) tr out ->
  process p gs (map (pair true) t ++ tr) out.
Proof.
  revert p gs. induction t as [|ev t IH]; intros p gs Haf Hx Hp.
  - rewrite <- Haf. by rewrite app_nil_r in Hp.
  - destruct p as [a|X e k]; [done|]. destruct Haf as (x & -> & Haf).
    cbn in Hx. destruct (exits (Ev e x)) eqn:He; [done|].
    apply proc_main; [done|]. apply IH; [done..|]. by rewrite <- app_assoc.
Qed.

Lemma process_run {A} (p : prog E A) gs t a :
  exec p t a -> omap exits t = [] -> process p gs (map (pair true) t) (Returned a).
Proof.
  intros Hex Hx. rewrite <- (app_nil_r (map _ t)). eapply process_steps; [by apply partial_exec|done|].
  apply proc_returned.
Qed.

Lemma process_ends {A} (p q : prog E A) gs t ev code :
  partial p (t ++ [ev]) q -> omap exits t = [] -> exits ev = Some code ->
  process p gs (map (pair true) (t ++ [ev])) (Exited code).
Proof.
  intros Hp Hx Hev. rewrite map_app. revert p gs Hp Hx.
  induction t as [|ev' t IH]; intros p gs Hp Hx.
  - destruct p as [a|X e k]; [done|]. destruct Hp as (x & -> & _). by apply proc_main_exit.
  - destruct p as [a|X e k]; [done|]. destruct Hp as (x & -> & Hp).
    cbn in Hx. destruct (exits (Ev e x)) eqn:He; [done|]. cbn.
    apply proc_main; [done|]. by apply IH.
Qed.

(** So does a goroutine. *)
Lemma process_go_steps {A} (p : prog E A) gs1 g g' gs2 t tr out :
  partial g t g' -> omap exits t = [] -> process p (gs1 ++ g' :: gs2) tr out ->
  process p (gs1 ++ g :: gs2) (map (pair false) t ++ tr) out.
Proof.
  revert g. induction t as [|ev t IH]; intros g Haf Hx Hp; [by rewrite <- Haf|].
  destruct g as [a|X e k]; [done|]. destruct Haf as (x & -> & Haf).
  cbn in Hx. destruct (exits (Ev e x)) eqn:He; [done|].
  apply proc_go; [done|]. by apply IH.
Qed.

Lemma process_go_ends {A} (p : prog E A) gs1 g g' gs2 t ev code :
  partial g (t ++ [ev]) g' -> omap exits t = [] -> exits ev = Some code ->
  process p (gs1 ++ g :: gs2) (map (pair false) (t ++ [ev])) (Exited code).
Proof.
  intros Haf Hx Hev. rewrite map_app. revert g Haf Hx.
  induction t as [|ev' t IH]; intros g Haf Hx.
  - destruct g as [a|X e k]; [done|]. destruct Haf as (x & -> & _). by apply proc_go_exit.
  - destruct g as [a|X e k]; [done|]. destruct Haf as (x & -> & Haf).
    cbn in Hx. destruct (exits (Ev e x)) eqn:He; [done|]. cbn.
    apply proc_go; [done|]. by apply IH.
Qed.
End Process.
