(* ===== verification/GoStrings.v ===== *)
(** * Go strings: UTF-8, decimal text and strconv.Quote

    What the services use of Go's string handling.  Strings are byte strings;
    a rune is a code point in [Z].  [DecodeRune] is
    [utf8.DecodeRuneInString]: an invalid or truncated encoding yields
    [RuneError] and consumes one byte. *)

From stdpp Require Import pretty.
From S2P Require Import Prelude.

Definition byte_val (a : ascii) : Z := Z.of_N (N_of_ascii a).
Definition byte_of (z : Z) : ascii := ascii_of_N (Z.to_N z).

Lemma byte_val_range a : 0 <= byte_val a < 256.
Proof. unfold byte_val. pose proof (N_ascii_bounded a). lia. Qed.

Lemma byte_of_val a : byte_of (byte_val a) = a.
Proof. unfold byte_of, byte_val. by rewrite N2Z.id, ascii_N_embedding. Qed.

Lemma byte_val_of z : 0 <= z < 256 -> byte_val (byte_of z) = z.
Proof.
  intros. unfold byte_of, byte_val. rewrite N_ascii_embedding; lia.
Qed.

#[export] Hint Resolve byte_val_range : goflow.

Fixpoint string_forallb (f : ascii -> bool) (s : string) : bool :=
  match s with "" => true | String a s' => f a && string_forallb f s' end.

Lemma string_app_cons a s1 s2 : String a s1 +:+ s2 = String a (s1 +:+ s2).
Proof. done. Qed.

Lemma string_forallb_app f s1 s2 :
  string_forallb f (s1 +:+ s2) = string_forallb f s1 && string_forallb f s2.
Proof.
  induction s1 as [|a s IH]; [done|]. rewrite string_app_cons.
  cbn [string_forallb]. by rewrite IH, andb_assoc.
Qed.

Lemma string_app_assoc s1 s2 s3 : (s1 +:+ s2) +:+ s3 = s1 +:+ s2 +:+ s3.
Proof. induction s1 as [|a s IH]; [done|]. by rewrite !string_app_cons, IH. Qed.

Lemma string_app_nil_r s : s +:+ "" = s.
Proof. induction s as [|a s IH]; [done|]. by rewrite string_app_cons, IH. Qed.

(** [strconv.Itoa], [strconv.FormatInt] in base 10 and the verb [%d]. *)
Definition Itoa (z : Z) : string := pretty z.

Lemma Itoa_inj z1 z2 : Itoa z1 = Itoa z2 -> z1 = z2.
Proof. apply (inj pretty). Qed.

(** Decimal digits and [strconv.ParseInt] in base 10 (without its range
    check and its leading plus sign, which the services never meet). *)
Definition digit_val (c : ascii) : option Z :=
  let v := byte_val c in if (48 <=? v) && (v <=? 57) then Some (v - 48) else None.

Definition is_digit (c : ascii) : bool :=
  match digit_val c with Some _ => true | None => false end.

Fixpoint parse_digits (acc : Z) (s : string) : option Z :=
  match s with
  | "" => Some acc
  | String c s' => match digit_val c with
                   | Some d => parse_digits (acc * 10 + d) s'
                   | None => None
                   end
  end.

Definition ParseInt (s : string) : option Z :=
  match s with
  | "" => None
  | String "-" "" => None
  | String "-" s' => option_map Z.opp (parse_digits 0 s')
  | _ => parse_digits 0 s
  end.

Lemma digit_val_pretty x :
  (x < 10)%N -> digit_val (pretty_N_char x) = Some (Z.of_N x).
Proof.
  intros Hx. assert (exists n, (n < 10)%nat /\ x = N.of_nat n) as (n & Hn & ->).
  { exists (N.to_nat x). lia. }
  do 10 (destruct n as [|n]; [reflexivity|]). lia.
Qed.

Lemma parse_digits_go x s :
  parse_digits 0 (pretty_N_go x s) = parse_digits (Z.of_N x) s.
Proof.
  revert s. induction (N.lt_wf_0 x) as [x _ IH]; intros s.
  assert (x = 0 \/ 0 < x)%N as [->|Hx] by lia; [by rewrite pretty_N_go_0|].
  rewrite pretty_N_go_step by done. rewrite IH by (by apply N.div_lt).
  cbn [parse_digits]. rewrite digit_val_pretty by (by apply N.mod_lt).
  f_equal. rewrite N2Z.inj_div, N2Z.inj_mod. pose proof (Z.div_mod (Z.of_N x) 10). lia.
Qed.

Lemma parse_digits_pretty n : parse_digits 0 (pretty n) = Some (Z.of_N n).
Proof.
  unfold pretty, pretty_N. case_decide as Hn; [by subst|]. by rewrite parse_digits_go.
Qed.

(** The text of a natural number is a non-empty string of digits. *)
Lemma pretty_N_go_digits x s :
  string_forallb is_digit s = true -> string_forallb is_digit (pretty_N_go x s) = true.
Proof.
  revert s. induction (N.lt_wf_0 x) as [x _ IH]; intros s Hs.
  assert (x = 0 \/ 0 < x)%N as [->|Hx] by lia; [by rewrite pretty_N_go_0|].
  rewrite pretty_N_go_step by done. apply IH; [by apply N.div_lt|].
  cbn [string_forallb]. unfold is_digit at 1.
  rewrite digit_val_pretty by (by apply N.mod_lt). done.
Qed.

Lemma pretty_digits (n : N) : string_forallb is_digit (pretty n) = true.
Proof.
  unfold pretty, pretty_N. case_decide; [done|]. by apply pretty_N_go_digits.
Qed.

Lemma pretty_nonempty (n : N) : pretty n <> "".
Proof.
  unfold pretty, pretty_N. case_decide as Hn; [done|]. intros Hgo.
  pose proof (parse_digits_go n "") as Hp. rewrite Hgo in Hp. cbn in Hp.
  injection Hp as Hp. lia.
Qed.

Lemma ParseInt_Itoa z : ParseInt (Itoa z) = Some z.
Proof.
  unfold Itoa, pretty, pretty_Z. destruct z as [|p|p]; [done| |].
  - change (pretty p) with (pretty (N.pos p)).
    pose proof (pretty_digits (N.pos p)) as Hd. pose proof (parse_digits_pretty (N.pos p)) as Hp.
    pose proof (pretty_nonempty (N.pos p)) as Hne.
    destruct (pretty (N.pos p)) as [|c s]; [done|]. unfold ParseInt.
    destruct (decide (c = "-"%char)) as [->|Hc]; [done|].
    by destruct c as [[] [] [] [] [] [] [] []].
  - change (pretty p) with (pretty (N.pos p)).
    pose proof (parse_digits_pretty (N.pos p)) as Hp.
    pose proof (pretty_nonempty (N.pos p)) as Hne.
    rewrite string_app_cons. change ("" +:+ pretty (N.pos p)) with (pretty (N.pos p)).
    destruct (pretty (N.pos p)) as [|c s]; [done|]. cbn [ParseInt].
    by rewrite Hp.
Qed.

(** ** UTF-8 *)

Definition RuneError : Z := 65533.
Definition RuneSelf : Z := 128.

Definition in_range (lo hi z : Z) : bool := (lo <=? z) && (z <=? hi).
Definition cont (a : ascii) : bool := in_range 128 191 (byte_val a).
Definition low6 (a : ascii) : Z := Z.land (byte_val a) 63.

(** The bounds of the second byte of a sequence that starts with [b0]. *)
Definition second_ok (b0 : Z) (b1 : ascii) : bool :=
  let v := byte_val b1 in
  if b0 =? 224 then in_range 160 191 v
  else if b0 =? 237 then in_range 128 159 v
  else if b0 =? 240 then in_range 144 191 v
  else if b0 =? 244 then in_range 128 143 v
  else in_range 128 191 v.

(** The rune at the front of a non-empty string, whether it was encoded
    correctly, and the rest of the string. *)
Definition DecodeRune (a0 : ascii) (s : string) : Z * bool * string :=
  let b0 := byte_val a0 in
  let bad := (RuneError, false, s) in
  if b0 <? RuneSelf then (b0, true, s)
  else if in_range 194 223 b0 then
    match s with
    | String a1 s1 =>
        if cont a1 then (Z.shiftl (Z.land b0 31) 6 + low6 a1, true, s1) else bad
    | _ => bad
    end
  else if in_range 224 239 b0 then
    match s with
    | String a1 (String a2 s2) =>
        if second_ok b0 a1 && cont a2 then
          (Z.shiftl (Z.land b0 15) 12 + Z.shiftl (low6 a1) 6 + low6 a2, true, s2)
        else bad
    | _ => bad
    end
  else if in_range 240 244 b0 then
    match s with
    | String a1 (String a2 (String a3 s3)) =>
        if second_ok b0 a1 && cont a2 && cont a3 then
          (Z.shiftl (Z.land b0 7) 18 + Z.shiftl (low6 a1) 12
           + Z.shiftl (low6 a2) 6 + low6 a3, true, s3)
        else bad
    | _ => bad
    end
  else bad.

Lemma DecodeRune_shorter a s :
  (String.length (DecodeRune a s).2 <= String.length s)%nat.
Proof. unfold DecodeRune. repeat case_match; simpl; lia. Qed.

(** The runes of a string, in order ([for _, r := range s]), each with the
    bytes it was decoded from. *)
Fixpoint runes_fuel (n : nat) (s : string) : list (Z * bool * string) :=
  match n, s with
  | S n', String a s' =>
      let '(r, ok, rest) := DecodeRune a s' in
      let used := String.substring 0 (S (String.length s' - String.length rest)) s in
      (r, ok, used) :: runes_fuel n' rest
  | _, _ => []
  end.
Definition runes (s : string) : list (Z * bool * string) :=
  runes_fuel (String.length s) s.

Definition ValidString (s : string) : bool := forallb (fun '(_, ok, _) => ok) (runes s).

Example runes_ex : map (fun x => x.1.1) (runes "aé€") = [97; 233; 8364].
Proof. reflexivity. Qed.

(** [unicode.IsSpace], and whether [strings.TrimSpace] leaves nothing. *)
Definition IsSpace (r : Z) : bool :=
  in_range 9 13 r || (r =? 32) || (r =? 133) || (r =? 160) || (r =? 5760) ||
  in_range 8192 8202 r || (r =? 8232) || (r =? 8233) || (r =? 8239) || (r =? 8287) ||
  (r =? 12288).

Definition blank (s : string) : bool := forallb (fun '(r, _, _) => IsSpace r) (runes s).

Example blank_ex : (blank " ", blank "", blank " a") = (true, true, false).
Proof. reflexivity. Qed.

(** ** strconv.Quote *)

Definition hex_digit (z : Z) : string :=
  default "" ((["0";"1";"2";"3";"4";"5";"6";"7";"8";"9";"a";"b";"c";"d";"e";"f"]%string)
              !! Z.to_nat z).
Fixpoint hex (n : nat) (z : Z) : string :=
  match n with
  | O => ""
  | S n' => hex n' (z / 16) +:+ hex_digit (z mod 16)
  end.

(** [strconv.IsPrint] on the runes beyond ASCII: the table of the Unicode
    version the Go release ships. *)
Class UnicodeTables := IsPrint : Z -> bool.

Definition quote_rune `{UnicodeTables} (x : Z * bool * string) : string :=
  let '(r, ok, used) := x in
  (if negb ok then
     match used with String a _ => "\x" +:+ hex 2 (byte_val a) | _ => "" end
   else if r =? 34 then "\" +:+ used                            (* double quote *)
   else if r =? 92 then "\\"                                   (* backslash *)
   else if r =? 7 then "\a" else if r =? 8 then "\b" else if r =? 12 then "\f"
   else if r =? 10 then "\n" else if r =? 13 then "\r" else if r =? 9 then "\t"
   else if r =? 11 then "\v"
   else if (r <? 32) || (r =? 127) then "\x" +:+ hex 2 r
   else if (r <? RuneSelf) || IsPrint r then used
   else if r <? 65536 then "\u" +:+ hex 4 r
   else "\U" +:+ hex 8 r).

Definition dquote : string := String (byte_of 34) "".

(** [strconv.Quote] and the verb [%q]. *)
Definition Quote `{UnicodeTables} (s : string) : string :=
  (dquote +:+ String.concat "" (map quote_rune (runes s)) +:+ dquote).
