(* ===== verification/Domain.v ===== *)
(** * The domain model: internal/domain

    [Status], [Task], [TaskExecution] (task.go) and the error values
    (errors.go), with the part of Go's [error] interface the services use:
    [errors.New], [fmt.Errorf] with [%w], [errors.Is] and [errors.As]. *)

From S2P Require Import Prelude GoStrings.

(** ** Status (task.go:6-21): [type Status string] *)

Definition Status : Type := string.

Definition StatusPending  : Status := "PENDING".
Definition StatusQueued   : Status := "QUEUED".
Definition StatusRunning  : Status := "RUNNING".
Definition StatusDone     : Status := "DONE".
Definition StatusFailed   : Status := "FAILED".
Definition StatusRetrying : Status := "RETRYING".
Definition StatusDead     : Status := "DEAD".

Definition IsTerminal (s : Status) : bool :=
  String.eqb s StatusDone || String.eqb s StatusDead || String.eqb s StatusFailed.

Lemma IsTerminal_spec s :
  IsTerminal s = true <-> s = StatusDone \/ s = StatusDead \/ s = StatusFailed.
Proof.
  unfold IsTerminal. rewrite !orb_true_iff, !String.eqb_eq. tauto.
Qed.

(** ** Time

    A [time.Time] is the instant, in nanoseconds since the Unix epoch (the
    services only keep UTC wall times); a [*time.Time] is an [option]. A
    [time.Duration] is an int64 count of nanoseconds. *)

Definition Time : Type := Z.
Definition Duration : Type := Z.

Definition Millisecond : Duration := 1000000.
Definition Second : Duration := 1000000000.
Definition Hour : Duration := 3600 * Second.

(** The zero [time.Time] is January 1, year 1, UTC. *)
Definition zeroTime : Time := - 62135596800 * Second.
Definition IsZero (t : Time) : bool := t =? zeroTime.

(** [t.Unix()]: floor to whole seconds; [time.Unix(sec, 0)]. *)
Definition Unix (t : Time) : Z := t / Second.
Definition TimeUnix (sec : Z) : Time := sec * Second.

(** [t.Sub(u)] saturates at the ends of the Duration range. *)
Definition Sub (t u : Time) : Duration :=
  Z.max MinInt64 (Z.min MaxInt64 (t - u)).

(** [d.Milliseconds()] truncates toward zero. *)
Definition Milliseconds (d : Duration) : Z := Z.quot d Millisecond.

(** ** Task and TaskExecution (task.go:23-48) *)

Module Task.
Record t := mk {
  ID : string;
  Type_ : string;
  Payload : option string;
  Status_ : Status;
  Priority : Z;
  Attempts : Z;
  MaxRetries : Z;
  CreatedAt : Time;
  UpdatedAt : Time;
  ScheduledAt : option Time;
  CompletedAt : option Time;
}.

(** The zero value [domain.Task{}]. *)
Definition zero : t :=
  mk "" "" None "" 0 0 0 zeroTime zeroTime None None.

Definition set_Attempts (n : Z) (x : t) : t :=
  mk x.(ID) x.(Type_) x.(Payload) x.(Status_) x.(Priority) n x.(MaxRetries)
     x.(CreatedAt) x.(UpdatedAt) x.(ScheduledAt) x.(CompletedAt).
Definition set_Status (s : Status) (x : t) : t :=
  mk x.(ID) x.(Type_) x.(Payload) s x.(Priority) x.(Attempts) x.(MaxRetries)
     x.(CreatedAt) x.(UpdatedAt) x.(ScheduledAt) x.(CompletedAt).
Definition set_UpdatedAt (u : Time) (x : t) : t :=
  mk x.(ID) x.(Type_) x.(Payload) x.(Status_) x.(Priority) x.(Attempts)
     x.(MaxRetries) x.(CreatedAt) u x.(ScheduledAt) x.(CompletedAt).
Definition set_CompletedAt (c : option Time) (x : t) : t :=
  mk x.(ID) x.(Type_) x.(Payload) x.(Status_) x.(Priority) x.(Attempts)
     x.(MaxRetries) x.(CreatedAt) x.(UpdatedAt) x.(ScheduledAt) c.
Definition set_ID (v : string) (x : t) : t :=
  mk v x.(Type_) x.(Payload) x.(Status_) x.(Priority) x.(Attempts) x.(MaxRetries)
     x.(CreatedAt) x.(UpdatedAt) x.(ScheduledAt) x.(CompletedAt).
Definition set_Type (v : string) (x : t) : t :=
  mk x.(ID) v x.(Payload) x.(Status_) x.(Priority) x.(Attempts) x.(MaxRetries) x.(CreatedAt)
     x.(UpdatedAt) x.(ScheduledAt) x.(CompletedAt).
Definition set_Payload (v : option string) (x : t) : t :=
  mk x.(ID) x.(Type_) v x.(Status_) x.(Priority) x.(Attempts) x.(MaxRetries) x.(CreatedAt)
     x.(UpdatedAt) x.(ScheduledAt) x.(CompletedAt).
Definition set_Priority (v : Z) (x : t) : t :=
  mk x.(ID) x.(Type_) x.(Payload) x.(Status_) v x.(Attempts) x.(MaxRetries) x.(CreatedAt)
     x.(UpdatedAt) x.(ScheduledAt) x.(CompletedAt).
Definition set_MaxRetries (v : Z) (x : t) : t :=
  mk x.(ID) x.(Type_) x.(Payload) x.(Status_) x.(Priority) x.(Attempts) v x.(CreatedAt)
     x.(UpdatedAt) x.(ScheduledAt) x.(CompletedAt).
Definition set_CreatedAt (v : Time) (x : t) : t :=
  mk x.(ID) x.(Type_) x.(Payload) x.(Status_) x.(Priority) x.(Attempts) x.(MaxRetries) v
     x.(UpdatedAt) x.(ScheduledAt) x.(CompletedAt).
Definition set_ScheduledAt (v : option Time) (x : t) : t :=
  mk x.(ID) x.(Type_) x.(Payload) x.(Status_) x.(Priority) x.(Attempts) x.(MaxRetries)
     x.(CreatedAt) x.(UpdatedAt) v x.(CompletedAt).
End Task.

Module TaskExecution.
Record t := mk {
  ID : string;
  TaskID : string;
  WorkerID : string;
  Attempt : Z;
  Status_ : Status;
  DurationMs : Z;
  Error : string;
  ExecutedAt : Time;
}.
End TaskExecution.

(** The fields of a task that was built or changed. *)
Ltac task_fields :=
  cbn [Task.ID Task.Type_ Task.Payload Task.Status_ Task.Priority Task.Attempts Task.MaxRetries
       Task.CreatedAt Task.UpdatedAt Task.ScheduledAt Task.CompletedAt Task.set_Attempts
       Task.set_Status Task.set_UpdatedAt Task.set_CompletedAt] in *.

(** ** Errors (errors.go)

    The four error types of the package, the sentinel errors the services
    compare against, [ErrNew] for an error made from a message alone
    ([errors.New], [fmt.Errorf] without [%w], or any other error value of a
    library) and [ErrWrap msg e] for [fmt.Errorf("msg: %w", e)]. *)

Inductive error : Type :=
| TaskNotFoundError (TaskID : string)
| RateLimitExceededError (TaskType : string) (Limit : Z)
| InvalidTaskTypeError (TaskType : string)
| TaskAlreadyProcessedError (TaskID : string) (st : Status)
| RedisNil
| PgxErrNoRows
| IoEOF
| OsErrNotExist
| HttpErrServerClosed
| ContextCanceled
| ContextDeadlineExceeded
| GrpcStatus (code : Z) (msg : string)
| ErrNew (msg : string)
| ErrWrap (msg : string) (inner : error).

#[export] Instance error_eq_dec : EqDecision error.
Proof. solve_decision. Defined.

(** The names of the gRPC codes the services use ([codes.Code.String]). *)
Definition grpc_code_name (code : Z) : string :=
  match code with
  | 3 => "InvalidArgument"
  | 5 => "NotFound"
  | 13 => "Internal"
  | _ => "Code(" +:+ Itoa code +:+ ")"
  end.

(** [err.Error()]. *)
Fixpoint Error `{UnicodeTables} (e : error) : string :=
  (match e with
   | TaskNotFoundError id => "task not found: " +:+ id
   | RateLimitExceededError ty limit =>
       "rate limit exceeded for task type " +:+ Quote ty +:+ ": limit is " +:+ Itoa limit
   | InvalidTaskTypeError ty => "no handler registered for task type " +:+ Quote ty
   | TaskAlreadyProcessedError id st =>
       "task " +:+ id +:+ " already processed with status " +:+ st
   | RedisNil => "redis: nil"
   | PgxErrNoRows => "no rows in result set"
   | IoEOF => "EOF"
   | OsErrNotExist => "file does not exist"
   | HttpErrServerClosed => "http: Server closed"
   | ContextCanceled => "context canceled"
   | ContextDeadlineExceeded => "context deadline exceeded"
   | GrpcStatus code msg =>
       "rpc error: code = " +:+ grpc_code_name code +:+ " desc = " +:+ msg
   | ErrNew msg => msg
   | ErrWrap msg e' => msg +:+ ": " +:+ Error e'
   end).

(** [errors.Is] against a sentinel and [errors.As] against
    [*TaskNotFoundError]: the error itself or one it wraps. *)
Fixpoint errors_Is (e target : error) : bool :=
  if decide (e = target) then true
  else match e with ErrWrap _ e' => errors_Is e' target | _ => false end.

Fixpoint errors_As_TaskNotFound (e : error) : option string :=
  match e with
  | TaskNotFoundError id => Some id
  | ErrWrap _ e' => errors_As_TaskNotFound e'
  | _ => None
  end.

Lemma errors_Is_refl e : errors_Is e e = true.
Proof. destruct e; cbn [errors_Is]; case_decide; done. Qed.

Lemma errors_Is_wrap msg e target :
  errors_Is e target = true -> errors_Is (ErrWrap msg e) target = true.
Proof. intros H. cbn [errors_Is]. case_decide; done. Qed.

#[export] Hint Resolve errors_Is_refl errors_Is_wrap : goflow.

(** ** The wire format

    [json.Marshal] and [json.Unmarshal] of a [domain.Task]: what Redis stores
    under the meta key and what the Kafka messages carry. *)
Class TaskCodec := {
  marshalTask : Task.t -> result error string;
  unmarshalTask : string -> result error Task.t;
}.

(** What the codec promises on the tasks a service can build: a task that
    marshals comes back unchanged. *)
Class TaskCodecSpec `{TaskCodec} (good : Task.t -> Prop) :=
  unmarshal_marshal : forall t s,
    good t -> marshalTask t = Ok s -> unmarshalTask s = Ok t.

Abbreviation goresult := (result error).
