(* ===== verification/GoFloat.v ===== *)
(** * Go's float64

    IEEE 754 binary64 arithmetic on Rocq's [spec_float] (no primitive floats,
    so no axioms), for the durations the worker reports, and the rounding of
    an int64 to the nearest float64 on [Z], for the scores of the rate
    limiter. *)

From Stdlib Require Import SpecFloat.
From S2P Require Import Prelude Domain.

Definition float64 : Type := spec_float.
Definition prec64 : Z := 53.
Definition emax64 : Z := 1024.

(** [float64(z)] for an int64 [z]: round to nearest, ties to even. *)
Definition f64_of_Z (z : Z) : float64 := binary_normalize prec64 emax64 z 0 false.
Definition f64_add : float64 -> float64 -> float64 := SFadd prec64 emax64.
Definition f64_mul : float64 -> float64 -> float64 := SFmul prec64 emax64.
Definition f64_div : float64 -> float64 -> float64 := SFdiv prec64 emax64.

(** [int64(f)]: truncation toward zero; the conversion of a value outside the
    int64 range (or of an infinity or NaN) is implementation-defined in Go and
    is [None] here. *)
Definition f64_to_int64 (f : float64) : option Z :=
  match f with
  | S754_zero _ => Some 0
  | S754_finite s m e =>
      let a := if 0 <=? e then Z.pos m * 2 ^ e else Z.pos m / 2 ^ (- e) in
      let z := if s then - a else a in
      if (MinInt64 <=? z) && (z <=? MaxInt64) then Some z else None
  | _ => None
  end.

(** [d.Seconds()]: whole seconds plus the fraction, as time.Duration does it. *)
Definition Seconds (d : Duration) : float64 :=
  f64_add (f64_of_Z (Z.quot d Second))
          (f64_div (f64_of_Z (Z.rem d Second)) (f64_of_Z Second)).

(** ** Rounding an int64 to float64, on Z

    [round53 z] is the integer value of [float64(z)]: [z] itself below 2^53,
    otherwise the nearest multiple of the unit in the last place, ties to the
    even multiple. *)
Definition ulp53 (z : Z) : Z := 2 ^ Z.max 0 (Z.log2 (Z.abs z) - 52).

Definition round_half_even (n u : Z) : Z :=
  let q := n / u in
  let r := n mod u in
  if 2 * r <? u then q * u
  else if u <? 2 * r then (q + 1) * u
  else if Z.even q then q * u else (q + 1) * u.

Definition round53 (z : Z) : Z :=
  if z <? 0 then - round_half_even (- z) (ulp53 z) else round_half_even z (ulp53 z).

(** Rounding to a multiple of [u]: monotone, and at most half a unit away. *)
Lemma round_half_even_bounds n u : 0 < u ->
  2 * Z.abs (round_half_even n u - n) <= u.
Proof.
  intros Hu. unfold round_half_even. cbv zeta.
  pose proof (Z.div_mod n u ltac:(lia)) as Hd. pose proof (Z.mod_pos_bound n u Hu) as Hm.
  destruct (Z.ltb_spec (2 * (n mod u)) u), (Z.ltb_spec u (2 * (n mod u))),
    (Z.even (n / u)); lia.
Qed.

Lemma round_half_even_multiple n u k : 0 < u ->
  (n <= k * u -> round_half_even n u <= k * u) /\
  (k * u <= n -> k * u <= round_half_even n u).
Proof.
  intros Hu. unfold round_half_even. cbv zeta.
  pose proof (Z.div_mod n u ltac:(lia)) as Hd. pose proof (Z.mod_pos_bound n u Hu) as Hm.
  set (q := n / u) in *. set (r := n mod u) in *.
  split; intros Hle; destruct (Z.lt_ge_cases q k) as [Hqk|Hqk];
    try (assert ((q + 1) * u <= k * u) by (apply Z.mul_le_mono_nonneg_r; lia));
    try (assert (k * u <= q * u) by (apply Z.mul_le_mono_nonneg_r; lia));
    destruct (Z.ltb_spec (2 * r) u), (Z.ltb_spec u (2 * r)), (Z.even q); lia.
Qed.

Lemma round_half_even_mono a b u : 0 < u -> a <= b ->
  round_half_even a u <= round_half_even b u.
Proof.
  intros Hu Hab.
  destruct (Z.eq_dec (a / u) (b / u)) as [Hq|Hq].
  - unfold round_half_even. cbv zeta. rewrite Hq.
    assert (a mod u <= b mod u).
    { pose proof (Z.div_mod a u). pose proof (Z.div_mod b u). nia. }
    destruct (Z.ltb_spec (2 * (a mod u)) u), (Z.ltb_spec u (2 * (a mod u))),
      (Z.ltb_spec (2 * (b mod u)) u), (Z.ltb_spec u (2 * (b mod u))),
      (Z.even (b / u)); nia.
  - pose proof (Z.div_le_mono a b u Hu Hab) as Hle.
    assert (Hlt : a / u < b / u) by lia. clear Hq Hle.
    destruct (round_half_even_multiple a u (a / u + 1) Hu) as [Ha _].
    destruct (round_half_even_multiple b u (b / u) Hu) as [_ Hb].
    pose proof (Z.div_mod a u). pose proof (Z.mod_pos_bound a u Hu).
    pose proof (Z.div_mod b u). pose proof (Z.mod_pos_bound b u Hu).
    assert (round_half_even a u <= (a / u + 1) * u) by (apply Ha; nia).
    assert (b / u * u <= round_half_even b u) by (apply Hb; nia). nia.
Qed.

Lemma ulp53_pos z : 0 < ulp53 z.
Proof. unfold ulp53. apply Z.pow_pos_nonneg; lia. Qed.

(** A power of two at or above 2^52 is a multiple of the units below it. *)
Lemma pow2_multiple l e : 0 <= l -> l <= e -> exists k, 2 ^ e = k * 2 ^ Z.max 0 (l - 52).
Proof.
  intros Hl Hle. exists (2 ^ (e - Z.max 0 (l - 52))).
  rewrite <- Z.pow_add_r by lia. f_equal. lia.
Qed.

(** [float64] of an int64 is monotone. *)
Lemma round53_mono_nonneg a b : 0 <= a -> a <= b -> round53 a <= round53 b.
Proof.
  intros Ha Hab. unfold round53.
  destruct (Z.ltb_spec a 0); [lia|]. destruct (Z.ltb_spec b 0); [lia|].
  assert (Hlog : Z.log2 a <= Z.log2 b) by (by apply Z.log2_le_mono).
  unfold ulp53. rewrite !Z.abs_eq by lia.
  destruct (Z.eq_dec (Z.log2 a) (Z.log2 b)) as [->|Hne].
  { apply round_half_even_mono; [apply Z.pow_pos_nonneg; lia|done]. }
  assert (Hb0 : 0 < b).
  { destruct (Z.eq_dec b 0) as [->|]; [|lia]. pose proof (Z.log2_nonneg a).
    change (Z.log2 0) with 0 in *. lia. }
  pose proof (Z.log2_nonneg a) as Hla. pose proof (Z.log2_spec b Hb0) as [Hlb _].
  destruct (pow2_multiple (Z.log2 a) (Z.log2 b) Hla Hlog) as [ka Hka].
  destruct (pow2_multiple (Z.log2 b) (Z.log2 b)) as [kb Hkb]; [lia|lia|].
  transitivity (2 ^ Z.log2 b).
  - rewrite Hka. apply round_half_even_multiple; [apply Z.pow_pos_nonneg; lia|].
    rewrite <- Hka. destruct (Z.eq_dec a 0) as [->|Ha0]; [lia|].
    pose proof (Z.log2_spec a) as Hs. 
    assert (2 ^ Z.succ (Z.log2 a) <= 2 ^ Z.log2 b) by (apply Z.pow_le_mono_r; lia). lia.
  - rewrite Hkb at 1. apply round_half_even_multiple; [apply Z.pow_pos_nonneg; lia|].
    by rewrite <- Hkb.
Qed.

(** int64 values more than 1024 apart stay apart. *)
Lemma round53_strict a b :
  0 <= a -> a + 1024 < b -> b < 2 ^ 63 -> round53 a < round53 b.
Proof.
  intros Ha Hab Hb.
  assert (Herr : forall z, 0 <= z < 2 ^ 63 -> 2 * Z.abs (round53 z - z) <= 1024).
  { intros z Hz. unfold round53. destruct (Z.ltb_spec z 0); [lia|].
    pose proof (round_half_even_bounds z (ulp53 z) (ulp53_pos z)) as He.
    assert (ulp53 z <= 1024); [|lia]. unfold ulp53. rewrite Z.abs_eq by lia.
    change 1024 with (2 ^ 10). apply Z.pow_le_mono_r; [lia|].
    destruct (Z.eq_dec z 0) as [->|]; [done|].
    assert (Z.log2 z < 63); [apply Z.log2_lt_pow2; lia|lia]. }
  pose proof (Herr a). pose proof (Herr b). lia.
Qed.

Lemma round53_opp z : round53 (- z) = - round53 z.
Proof.
  unfold round53. destruct (Z.ltb_spec (- z) 0), (Z.ltb_spec z 0); try lia;
    unfold ulp53; rewrite Z.abs_opp, ?Z.opp_involutive; try done.
  by assert (z = 0) as -> by lia.
Qed.

Lemma round53_nonneg z : 0 <= z -> 0 <= round53 z.
Proof. intros Hz. change 0 with (round53 0). by apply round53_mono_nonneg. Qed.

Lemma round53_mono a b : a <= b -> round53 a <= round53 b.
Proof.
  intros Hab. destruct (Z.le_gt_cases 0 a); [by apply round53_mono_nonneg|].
  destruct (Z.le_gt_cases 0 b) as [Hb|Hb].
  - pose proof (round53_nonneg b Hb). pose proof (round53_nonneg (- a)).
    rewrite round53_opp in *. lia.
  - pose proof (round53_mono_nonneg (- b) (- a)). rewrite !round53_opp in *. lia.
Qed.
