(* ===== verification/GoTime.v ===== *)
(** * Go's time.Time as text: RFC 3339

    The calendar, [time.Time.MarshalJSON] and the RFC 3339 parser behind
    [time.Time.UnmarshalJSON] (Go 1.24), for the instants of Domain.v. *)

From S2P Require Import Prelude GoStrings Domain.

(** ** Decimal digits *)

Fixpoint digits (n : nat) (z : Z) : list Z :=
  match n with
  | O => []
  | S n' => digits n' (z / 10) ++ [z mod 10]
  end.

Definition value (l : list Z) : Z := foldl (fun acc d => acc * 10 + d) 0 l.

Definition digit_char (d : Z) : ascii := byte_of (48 + d).
Fixpoint digit_text (l : list Z) : string :=
  match l with
  | [] => ""
  | d :: l' => String (digit_char d) (digit_text l')
  end.

(** Exactly [n] digits, and as many digits as there are. *)
Fixpoint take_digits (n : nat) (s : string) : option (list Z * string) :=
  match n, s with
  | O, _ => Some ([], s)
  | S n', String c s' =>
      d ← digit_val c;
      '(l, rest) ← take_digits n' s';
      Some (d :: l, rest)
  | _, _ => None
  end.
Fixpoint span_digits (s : string) : list Z * string :=
  match s with
  | String c s' =>
      match digit_val c with
      | Some d => let '(l, rest) := span_digits s' in (d :: l, rest)
      | None => ([], s)
      end
  | EmptyString => ([], s)
  end.

Definition is_dec (d : Z) : Prop := 0 <= d < 10.

Lemma digits_length n z : length (digits n z) = n.
Proof. revert z. induction n as [|n IH]; intros z; [done|]. cbn. rewrite length_app, IH. cbn. lia. Qed.

Lemma digits_dec n z : Forall is_dec (digits n z).
Proof.
  revert z. induction n as [|n IH]; intros z; [constructor|]. cbn.
  apply Forall_app. split; [apply IH|]. constructor; [|constructor].
  unfold is_dec. pose proof (Z.mod_pos_bound z 10). lia.
Qed.

Lemma value_app l d : value (l ++ [d]) = value l * 10 + d.
Proof. unfold value. by rewrite foldl_app. Qed.

Lemma value_digits n z : 0 <= z < 10 ^ Z.of_nat n -> value (digits n z) = z.
Proof.
  revert z. induction n as [|n IH]; intros z Hz; [cbn in *; lia|].
  cbn [digits]. rewrite value_app, IH.
  - pose proof (Z.div_mod z 10). lia.
  - rewrite Nat2Z.inj_succ, Z.pow_succ_r in Hz by lia.
    split; [apply Z.div_pos; lia|apply Z.div_lt_upper_bound; lia].
Qed.

Lemma digit_val_char d : is_dec d -> digit_val (digit_char d) = Some d.
Proof.
  unfold is_dec, digit_val, digit_char. intros Hd. rewrite byte_val_of by lia.
  rewrite (proj2 (Z.leb_le _ _)), (proj2 (Z.leb_le _ _)) by lia. cbn. f_equal. lia.
Qed.

Lemma take_digits_text l rest :
  Forall is_dec l -> take_digits (length l) (digit_text l +:+ rest) = Some (l, rest).
Proof.
  induction 1 as [|d l Hd _ IH]; [done|]. cbn [length digit_text take_digits].
  rewrite string_app_cons, digit_val_char by done. cbn. by rewrite IH.
Qed.

(** The text goes on with something that is not a digit, or ends. *)
Definition no_digit (s : string) : bool :=
  match s with String c _ => negb (is_digit c) | EmptyString => true end.

Lemma span_digits_text l rest :
  Forall is_dec l -> no_digit rest = true -> span_digits (digit_text l +:+ rest) = (l, rest).
Proof.
  intros Hl Hrest. induction Hl as [|d l Hd _ IH].
  - change (digit_text [] +:+ rest) with rest. destruct rest as [|c rest]; [done|].
    cbn -[digit_val] in *. unfold is_digit in Hrest. by destruct (digit_val c).
  - cbn [digit_text span_digits]. rewrite string_app_cons. cbn.
    rewrite digit_val_char by done. by rewrite IH.
Qed.

(** ** The Gregorian calendar *)

Definition isLeap (y : Z) : bool :=
  (y mod 4 =? 0) && (negb (y mod 100 =? 0) || (y mod 400 =? 0)).

Definition daysIn (m y : Z) : Z :=
  if m =? 2 then (if isLeap y then 29 else 28)
  else if (m =? 4) || (m =? 6) || (m =? 9) || (m =? 11) then 30 else 31.

(** Days are counted from 1970-01-01, in eras of 400 years that begin on a
    first of March. *)
Definition era_days : Z := 146097.
Definition epoch_shift : Z := 719468.

(** The days before the year [y] of an era. *)
Definition year_start (y : Z) : Z := y * 365 + y / 4 - y / 100.

Definition days_of_era (y m d : Z) : Z :=
  year_start y + (153 * (if 2 <? m then m - 3 else m + 9) + 2) / 5 + d - 1.

Definition days_of_civil (y m d : Z) : Z :=
  let y' := if m <=? 2 then y - 1 else y in
  (y' / 400) * era_days + days_of_era (y' mod 400) m d - epoch_shift.

(** Leap days fall at the end of a year that begins in March. *)
Lemma era_year doe :
  0 <= doe < era_days ->
  let y := (doe - doe / 1460 + doe / 36524 - doe / 146096) / 365 in
  0 <= y < 400 /\ 0 <= doe - year_start y <= 364 + (if isLeap (y + 1) then 1 else 0).
Proof.
  intros Hdoe y0. subst y0. unfold era_days, year_start in *.
  set (y := (doe - doe / 1460 + doe / 36524 - doe / 146096) / 365).
  assert (0 <= y < 400 /\ y * 365 + y / 4 - y / 100 <= doe) as [Hy Hlo].
  { subst y. Z.to_euclidean_division_equations. lia. }
  assert (y < 399 -> doe < (y + 1) * 365 + (y + 1) / 4 - (y + 1) / 100) as Hhi.
  { subst y. Z.to_euclidean_division_equations. lia. }
  clearbody y. split; [done|]. split; [lia|].
  destruct (isLeap (y + 1)) eqn:Hleap.
  - destruct (decide (y < 399)) as [Hlt|Hge].
    + specialize (Hhi Hlt). Z.to_euclidean_division_equations. lia.
    + assert (y = 399) as -> by lia. change (doe - 145731 <= 365). lia.
  - destruct (decide (y < 399)) as [Hlt|]; [specialize (Hhi Hlt)|exfalso; assert (y = 399) as -> by lia; discriminate Hleap].
    unfold isLeap in Hleap. destruct (Z.eqb_spec ((y + 1) mod 4) 0); cbn in Hleap.
    + destruct (Z.eqb_spec ((y + 1) mod 100) 0); cbn in Hleap; [|done].
      Z.to_euclidean_division_equations. lia.
    + Z.to_euclidean_division_equations. lia.
Qed.

(** A day of a year that begins in March, as month and day. *)
Definition month_day (doy : Z) : Z * Z :=
  let mp := (5 * doy + 2) / 153 in
  (if mp <? 10 then mp + 3 else mp - 9, doy - (153 * mp + 2) / 5 + 1).

Definition day_ok (doy : Z) : bool :=
  let '(m, d) := month_day doy in
  ((153 * (if 2 <? m then m - 3 else m + 9) + 2) / 5 + d - 1 =? doy) &&
  in_range 1 12 m && (1 <=? d) &&
  (d <=? if m =? 2 then (if doy =? 365 then 29 else 28) else daysIn m 1).

Lemma days_ok doy : 0 <= doy < 366 -> day_ok doy = true.
Proof.
  intros Hdoy. assert (forallb day_ok (seqZ 0 366) = true) as Hall by (vm_compute; reflexivity).
  rewrite forallb_forall in Hall. apply Hall, list_elem_of_In, elem_of_seqZ. lia.
Qed.

Definition civil_of_era (doe : Z) : Z * (Z * Z) :=
  let yoe := (doe - doe / 1460 + doe / 36524 - doe / 146096) / 365 in
  (yoe, month_day (doe - year_start yoe)).

Definition civil_of_days (z : Z) : Z * Z * Z :=
  let '(yoe, (m, d)) := civil_of_era ((z + epoch_shift) mod era_days) in
  let y := yoe + (z + epoch_shift) / era_days * 400 in
  (if m <=? 2 then y + 1 else y, m, d).

Definition valid_date (y m d : Z) : Prop := 1 <= m <= 12 /\ 1 <= d <= daysIn m y.

Lemma daysIn_year m y y' : m <> 2 -> daysIn m y = daysIn m y'.
Proof. intros Hm. unfold daysIn. by destruct (Z.eqb_spec m 2). Qed.

Lemma civil_of_era_ok doe yoe m d :
  0 <= doe < era_days -> civil_of_era doe = (yoe, (m, d)) ->
  days_of_era yoe m d = doe /\ 0 <= yoe < 400 /\
  valid_date (if m <=? 2 then yoe + 1 else yoe) m d.
Proof.
  intros Hdoe. pose proof (era_year doe Hdoe) as Hyear. unfold civil_of_era.
  set (y := (doe - doe / 1460 + doe / 36524 - doe / 146096) / 365) in *. clearbody y.
  cbn zeta in Hyear. destruct Hyear as [Hy Hdoy]. intros [<- Hmd]%pair_equal_spec.
  assert (Hd366 : 0 <= doe - year_start y < 366) by (destruct (isLeap (y + 1)); lia).
  pose proof (days_ok _ Hd366) as Hok. unfold day_ok in Hok. rewrite Hmd in Hok.
  apply andb_true_iff in Hok as [[[H1%Z.eqb_eq H2]%andb_true_iff H3%Z.leb_le]%andb_true_iff H4%Z.leb_le].
  unfold in_range in H2. apply andb_true_iff in H2 as [H2%Z.leb_le H2'%Z.leb_le].
  split_and!; [unfold days_of_era; lia|lia|lia|]. split; [lia|]. split; [lia|].
  destruct (Z.eqb_spec m 2) as [->|Hm].
  - cbn [Z.leb Z.compare Pos.compare Pos.compare_cont].
    unfold daysIn. cbn [Z.eqb Pos.eqb]. destruct (Z.eqb_spec (doe - year_start y) 365) as [He|];
      [|destruct (isLeap (y + 1)); lia].
    destruct (isLeap (y + 1)); lia.
  - by rewrite (daysIn_year m _ 1 Hm).
Qed.

Lemma isLeap_period y k : isLeap (y + k * 400) = isLeap y.
Proof.
  unfold isLeap. replace (k * 400) with (k * 100 * 4) at 1 by lia.
  replace (k * 400) with (k * 4 * 100) at 1 by lia. by rewrite !Z.mod_add by lia.
Qed.

Lemma civil_days z y m d :
  civil_of_days z = (y, m, d) -> days_of_civil y m d = z /\ valid_date y m d.
Proof.
  unfold civil_of_days. intros Hcivil.
  pose proof (Z.mod_pos_bound (z + epoch_shift) era_days ltac:(done)) as Hdoe.
  pose proof (Z.div_mod (z + epoch_shift) era_days ltac:(done)) as Hz.
  destruct (civil_of_era _) as [yoe [m' d']] eqn:Hera.
  apply civil_of_era_ok in Hera as (Hdays & Hyoe & Hvalid); [|lia].
  set (era := (z + epoch_shift) / era_days) in *. clearbody era.
  apply pair_equal_spec in Hcivil as [[Hy <-]%pair_equal_spec <-].
  assert (Hyear : (if m' <=? 2 then y - 1 else y) = yoe + era * 400).
  { destruct (m' <=? 2); lia. }
  split.
  - unfold days_of_civil. rewrite Hyear, Z.div_add, Z.mod_add, Z.div_small, Z.mod_small by lia.
    rewrite Hdays. lia.
  - destruct Hvalid as [Hm Hd]. split; [done|]. unfold daysIn in *.
    assert (isLeap y = isLeap (if m' <=? 2 then yoe + 1 else yoe)) as ->; [|done].
    rewrite <- Hy. destruct (m' <=? 2); [|by rewrite isLeap_period].
    replace (yoe + era * 400 + 1) with (yoe + 1 + era * 400) by lia. apply isLeap_period.
Qed.

(** ** Format *)

Definition secondsPerDay : Z := 86400.

(** The fraction of a second: nine digits without the zeros at their end, and
    nothing for none. *)
Fixpoint trim_zeros (l : list Z) : list Z :=
  match l with
  | [] => []
  | d :: l' =>
      match trim_zeros l' with
      | [] => if d =? 0 then [] else [d]
      | t => d :: t
      end
  end.
Definition frac_text (ns : Z) : string :=
  match trim_zeros (digits 9 ns) with
  | [] => ""
  | l => "." +:+ digit_text l
  end.

Definition two (z : Z) : string := digit_text (digits 2 z).

(** [t.Format(time.RFC3339Nano)] of a time in UTC with a year of four
    digits. *)
Definition format_time (t : Time) : string :=
  let s := t / Second in
  let sod := s mod secondsPerDay in
  let '(y, m, d) := civil_of_days (s / secondsPerDay) in
  digit_text (digits 4 y) +:+ "-" +:+ two m +:+ "-" +:+ two d +:+ "T" +:+
  two (sod / 3600) +:+ ":" +:+ two (sod / 60 mod 60) +:+ ":" +:+ two (sod mod 60) +:+
  frac_text (t mod Second) +:+ "Z".

Definition Year (t : Time) : Z := (civil_of_days (t / Second / secondsPerDay)).1.1.

(** [t.MarshalJSON] *)
Definition MarshalTime (t : Time) : result error string :=
  if in_range 0 9999 (Year t) then Ok (dquote +:+ format_time t +:+ dquote)
  else Err (ErrNew "Time.MarshalJSON: year outside of range [0,9999]").

(** ** Parse (format_rfc3339.go, format.go) *)

Definition expect (c : ascii) (s : string) : option string :=
  match s with
  | String a s' => if Ascii.eqb a c then Some s' else None
  | EmptyString => None
  end.

(** A number of [n] digits between two bounds. *)
Definition number (n : nat) (lo hi : Z) (s : string) : option (Z * string) :=
  '(l, rest) ← take_digits n s;
  if in_range lo hi (value l) then Some (value l, rest) else None.

(** [getnum]: two digits, or one where that is allowed. *)
Definition getnum (fixed : bool) (lo hi : Z) (s : string) : option (Z * string) :=
  match take_digits 2 s with
  | Some _ => number 2 lo hi s
  | None => if fixed then None else number 1 lo hi s
  end.

(** [parseNanoseconds]: the first nine digits count. *)
Definition nanos (l : list Z) : Z :=
  let l := take 9 l in value l * 10 ^ (9 - Z.of_nat (length l)).

Definition commaOrPeriod (c : ascii) : bool := Ascii.eqb c "." || Ascii.eqb c ",".

Definition fraction (s : string) : Z * string :=
  match s with
  | String c s' =>
      if commaOrPeriod c then
        match span_digits s' with
        | ([], _) => (0, s)
        | (l, rest) => (nanos l, rest)
        end
      else (0, s)
  | EmptyString => (0, s)
  end.

(** The offset from UTC in seconds, which ends the text. An offset of 24 hours
    or 60 minutes passes. *)
Definition zone (s : string) : option Z :=
  if String.eqb s "Z" then Some 0
  else match s with
       | String sign s' =>
           '(hr, s1) ← getnum true 0 24 s';
           s2 ← expect ":" s1;
           '(mm, s3) ← getnum true 0 60 s2;
           if negb (String.eqb s3 "") then None
           else if Ascii.eqb sign "+" then Some ((hr * 60 + mm) * 60)
           else if Ascii.eqb sign "-" then Some (- ((hr * 60 + mm) * 60))
           else None
       | EmptyString => None
       end.

(** [parseStrictRFC3339], which is [Parse(RFC3339, s)]: its checks beyond
    that are disabled. The instant only; the location of a time that is not in
    UTC is not kept. *)
Definition parseStrictRFC3339 (s : string) : option Time :=
  '(y, s) ← number 4 0 9999 s;
  s ← expect "-" s;
  '(m, s) ← getnum true 1 12 s;
  s ← expect "-" s;
  '(d, s) ← getnum true 1 (daysIn m y) s;
  s ← expect "T" s;
  '(hr, s) ← getnum false 0 23 s;
  s ← expect ":" s;
  '(mi, s) ← getnum true 0 59 s;
  s ← expect ":" s;
  '(sec, s) ← getnum true 0 59 s;
  let '(ns, s) := fraction s in
  off ← zone s;
  Some ((days_of_civil y m d * secondsPerDay + hr * 3600 + mi * 60 + sec - off) * Second + ns).

Example time_ex :
  format_time 1735689600123000000 = "2025-01-01T00:00:00.123Z" /\
  parseStrictRFC3339 "2025-01-01T02:00:00.5+02:00" = Some 1735689600500000000 /\
  parseStrictRFC3339 "2025-01-01T2:00:00,5+02:00" = Some 1735689600500000000 /\
  parseStrictRFC3339 "2025-02-29T00:00:00Z" = None.
Proof. vm_compute. done. Qed.

(** ** Parsing what was formatted *)

Lemma number_text n lo hi z rest :
  lo <= z <= hi -> 0 <= z < 10 ^ Z.of_nat n ->
  number n lo hi (digit_text (digits n z) +:+ rest) = Some (z, rest).
Proof.
  intros Hz Hn. unfold number.
  pose proof (take_digits_text (digits n z) rest (digits_dec n z)) as Ht.
  rewrite digits_length in Ht. rewrite Ht. cbn. rewrite value_digits by done.
  unfold in_range. by rewrite !(proj2 (Z.leb_le _ _)) by lia.
Qed.

Lemma getnum_text fixed lo hi z rest :
  lo <= z <= hi -> 0 <= z < 100 ->
  getnum fixed lo hi (digit_text (digits 2 z) +:+ rest) = Some (z, rest).
Proof.
  intros Hz Hn. unfold getnum.
  pose proof (take_digits_text (digits 2 z) rest (digits_dec 2 z)) as Ht.
  rewrite digits_length in Ht. rewrite Ht. by apply number_text.
Qed.

Lemma trim_zeros_spec l : exists k, l = trim_zeros l ++ replicate k 0.
Proof.
  induction l as [|d l [k IH]]; [by exists O|]. cbn.
  destruct (trim_zeros l) as [|t ts].
  - destruct (Z.eqb_spec d 0) as [->|]; [exists (S k)|exists k]; cbn; by rewrite IH at 1.
  - exists k. cbn in *. by rewrite IH at 1.
Qed.

Lemma value_zeros l k : value (l ++ replicate k 0) = value l * 10 ^ Z.of_nat k.
Proof.
  induction k as [|k IH]; [rewrite app_nil_r; cbn; lia|].
  rewrite replicate_S_end, app_assoc, value_app, IH, Nat2Z.inj_succ, Z.pow_succ_r; lia.
Qed.

Lemma fraction_text ns rest :
  0 <= ns < Second -> no_digit rest = true ->
  (forall c s, rest = String c s -> commaOrPeriod c = false) ->
  fraction (frac_text ns +:+ rest) = (ns, rest).
Proof.
  intros Hns Hrest Hdot. unfold frac_text.
  destruct (trim_zeros_spec (digits 9 ns)) as [k Hk].
  pose proof (digits_dec 9 ns) as Hdec. pose proof (digits_length 9 ns) as Hlen.
  pose proof (value_digits 9 ns Hns) as Hval.
  rewrite Hk in Hdec, Hlen, Hval. apply Forall_app in Hdec as [Hdec _].
  rewrite length_app, length_replicate in Hlen. rewrite value_zeros in Hval.
  destruct (trim_zeros (digits 9 ns)) as [|d l] eqn:Ht.
  - change ("" +:+ rest) with rest. cbn in Hval. subst ns.
    destruct rest as [|c rest]; [done|]. specialize (Hdot c rest eq_refl).
    unfold fraction. by rewrite Hdot.
  - rewrite string_app_assoc. change ("." +:+ ?x) with (String "." x). unfold fraction.
    change (commaOrPeriod ".") with true. rewrite span_digits_text by done. f_equal. unfold nanos.
    rewrite take_ge by lia. rewrite <- Hval. repeat f_equal. lia.
Qed.

Lemma expect_text c s : expect c (String c "" +:+ s) = Some s.
Proof.
  change (String c "" +:+ s) with (String c s). unfold expect. by rewrite Ascii.eqb_refl.
Qed.

Lemma clock_range sod :
  0 <= sod < secondsPerDay ->
  0 <= sod / 3600 <= 23 /\ 0 <= sod / 60 mod 60 <= 59 /\ 0 <= sod mod 60 <= 59 /\
  sod = sod / 3600 * 3600 + sod / 60 mod 60 * 60 + sod mod 60.
Proof. unfold secondsPerDay. intros Hsod. Z.to_euclidean_division_equations. lia. Qed.

(** The time of a year of four digits is read back as it was. *)
Theorem parse_format_time t :
  in_range 0 9999 (Year t) = true -> parseStrictRFC3339 (format_time t) = Some t.
Proof.
  unfold Year, format_time. set (s := t / Second).
  destruct (civil_of_days (s / secondsPerDay)) as [[y m] d] eqn:Hciv. cbn [fst].
  intros [Hy1%Z.leb_le Hy2%Z.leb_le]%andb_true_iff.
  apply civil_days in Hciv as [Hdays [Hm Hd]].
  pose proof (Z.div_mod s secondsPerDay ltac:(done)) as Hs.
  destruct (clock_range (s mod secondsPerDay)) as (Hh & Hmi & Hsec & Hsod);
    [by apply Z.mod_pos_bound|].
  set (sod := s mod secondsPerDay) in *.
  assert (d <= 31) by (unfold daysIn in Hd; repeat case_match; lia).
  unfold parseStrictRFC3339, two.
  repeat (first [rewrite getnum_text by lia | rewrite number_text by lia | rewrite expect_text]; cbn [mbind option_bind]).
  rewrite fraction_text; [|by apply Z.mod_pos_bound|done|by intros c r [= <- _]].
  cbn. f_equal. rewrite Hdays.
  pose proof (Z.div_mod t Second ltac:(done)) as Ht. fold s in Ht. lia.
Qed.
