(* ===== verification/JsonText.v ===== *)
(** * JSON text

    encoding/json (Go 1.24) below the level of Go types: how a string is
    written, and how a text is read: the scanner's grammar, [unquoteBytes],
    and the value a text denotes, each member of an object with the text of
    its value, which [json.RawMessage] and [time.Time] go by. *)

From stdpp Require Import pretty.
From S2P Require Import Prelude GoStrings GoTime.

Definition quote : ascii := byte_of 34.
Definition backslash : ascii := "\".

(** [utf8.EncodeRune] *)
Definition encode_rune (r : Z) : string :=
  if in_range 0 127 r then String (byte_of r) ""
  else if in_range 128 2047 r then
    String (byte_of (192 + r / 64)) (String (byte_of (128 + r mod 64)) "")
  else if negb (in_range 0 1114111 r) || in_range 55296 57343 r then
    String (byte_of 239) (String (byte_of 191) (String (byte_of 189) ""))
  else if r <? 65536 then
    String (byte_of (224 + r / 4096))
      (String (byte_of (128 + r / 64 mod 64)) (String (byte_of (128 + r mod 64)) ""))
  else
    String (byte_of (240 + r / 262144)) (String (byte_of (128 + r / 4096 mod 64))
      (String (byte_of (128 + r / 64 mod 64)) (String (byte_of (128 + r mod 64)) ""))).

(** ** Strings *)

(** [appendString] with HTML escaping, one rune. *)
Definition escape_rune (x : Z * bool * string) : string :=
  let '(r, ok, used) := x in
  (if negb ok then "\ufffd"
   else if r <? RuneSelf then
     if (r =? 34) || (r =? 92) then "\" +:+ used
     else if r =? 8 then "\b" else if r =? 12 then "\f" else if r =? 10 then "\n"
     else if r =? 13 then "\r" else if r =? 9 then "\t"
     else if (r <? 32) || (r =? 60) || (r =? 62) || (r =? 38) then "\u00" +:+ hex 2 r
     else used
   else if r =? 8232 then "\u2028" else if r =? 8233 then "\u2029"
   else used).

Definition escape (l : list (Z * bool * string)) : string :=
  foldr (fun x s => escape_rune x +:+ s) "" l.
Definition write_string (s : string) : string := dquote +:+ escape (runes s) +:+ dquote.

Definition hex_val (c : ascii) : option Z :=
  let v := byte_val c in
  if in_range 48 57 v then Some (v - 48)
  else if in_range 97 102 v then Some (v - 87)
  else if in_range 65 70 v then Some (v - 55)
  else None.

Definition simple_escape (c : ascii) : option string :=
  if Ascii.eqb c quote || Ascii.eqb c backslash || Ascii.eqb c "/" then Some (String c "")
  else if Ascii.eqb c "b" then Some (String (byte_of 8) "")
  else if Ascii.eqb c "f" then Some (String (byte_of 12) "")
  else if Ascii.eqb c "n" then Some (String (byte_of 10) "")
  else if Ascii.eqb c "r" then Some (String (byte_of 13) "")
  else if Ascii.eqb c "t" then Some (String (byte_of 9) "")
  else None.

Definition prepend (t : string) (x : string * string) : string * string := (t +:+ x.1, x.2).
Definition is_hex (c : ascii) : bool := match hex_val c with Some _ => true | None => false end.

Definition escape_u (h1 h2 h3 h4 : ascii) (s : string) : string :=
  String backslash (String "u" (String h1 (String h2 (String h3 (String h4 s))))).

(** The scanner after an opening quote: the text up to the closing one, as it
    stands, and the rest. *)
Fixpoint scan_string (s : string) : option (string * string) :=
  match s with
  | EmptyString => None
  | String c s' =>
      if Ascii.eqb c quote then Some (""%string, s')
      else if Ascii.eqb c backslash then
        match s' with
        | String e s'' =>
            if Ascii.eqb e "u" then
              match s'' with
              | String h1 (String h2 (String h3 (String h4 s3))) =>
                  if is_hex h1 && is_hex h2 && is_hex h3 && is_hex h4 then
                    prepend (escape_u h1 h2 h3 h4 "") <$> scan_string s3
                  else None
              | _ => None
              end
            else _ ← simple_escape e; prepend (String backslash (String e "")) <$> scan_string s''
        | EmptyString => None
        end
      else if byte_val c <? 32 then None
      else prepend (String c "") <$> scan_string s'
  end.

(** [getu4]: the code unit of an escape at the front of a text. *)
Definition getu4 (s : string) : option Z :=
  match s with
  | String c (String u (String h1 (String h2 (String h3 (String h4 _))))) =>
      if Ascii.eqb c backslash && Ascii.eqb u "u" then
        v1 ← hex_val h1; v2 ← hex_val h2; v3 ← hex_val h3; v4 ← hex_val h4;
        Some (v1 * 4096 + v2 * 256 + v3 * 16 + v4)
      else None
  | _ => None
  end.

(** [utf16.IsSurrogate] and [utf16.DecodeRune] *)
Definition IsSurrogate (r : Z) : bool := in_range 55296 57343 r.
Definition DecodePair (r1 r2 : Z) : option Z :=
  if in_range 55296 56319 r1 && in_range 56320 57343 r2
  then Some ((r1 - 55296) * 1024 + (r2 - 56320) + 65536) else None.

Fixpoint drop_bytes (n : nat) (s : string) : string :=
  match n, s with
  | S n', String _ s' => drop_bytes n' s'
  | _, _ => s
  end.

(** [unquoteBytes] on the text between the quotes; [None] is its failure,
    which a text the scanner let through does not meet ([scan_unquote]). A byte
    that is not UTF-8 and a surrogate without its pair become U+FFFD. *)
Fixpoint unquote_fuel (n : nat) (s : string) : option string :=
  match n, s with
  | _, EmptyString => Some ""%string
  | O, _ => None
  | S n', String c s' =>
      if Ascii.eqb c backslash then
        match getu4 s with
        | Some r =>
            let s1 := drop_bytes 6 s in
            if IsSurrogate r then
              match getu4 s1 ≫= DecodePair r with
              | Some r' => String.append (encode_rune r') <$> unquote_fuel n' (drop_bytes 6 s1)
              | None => String.append (encode_rune RuneError) <$> unquote_fuel n' s1
              end
            else String.append (encode_rune r) <$> unquote_fuel n' s1
        | None =>
            match s' with
            | String e s1 => t ← simple_escape e; String.append t <$> unquote_fuel n' s1
            | EmptyString => None
            end
        end
      else if Ascii.eqb c quote || (byte_val c <? 32) then None
      else let '(r, _, s1) := DecodeRune c s' in
           String.append (encode_rune r) <$> unquote_fuel n' s1
  end.
Definition unquote (s : string) : option string := unquote_fuel (String.length s) s.

Example string_ex :
  write_string ("a<" +:+ String (byte_of 10) "é") = dquote +:+ "a\u003c\né" +:+ dquote /\
  scan_string ("a\u003c\né" +:+ dquote +:+ ",") = Some ("a\u003c\né", ",")%string /\
  unquote "a\u003c\né" = Some ("a<" +:+ String (byte_of 10) "é") /\
  unquote "\ud83d\ude00\ud83d\/" = unquote "😀\ufffd/" /\
  unquote (String (byte_of 255) "é") = unquote "\ufffdé".
Proof. vm_compute. done. Qed.

(** ** Numbers and literals *)

Fixpoint span (f : ascii -> bool) (s : string) : string * string :=
  match s with
  | String c s' => if f c then prepend (String c "") (span f s') else (""%string, s)
  | EmptyString => (""%string, s)
  end.

Fixpoint strip (p s : string) : option string :=
  match p, s with
  | EmptyString, _ => Some s
  | String a p', String b s' => if Ascii.eqb a b then strip p' s' else None
  | _, _ => None
  end.

Definition nonempty_digits (s : string) : bool :=
  negb (String.eqb s "") && string_forallb is_digit s.

(** The exponent, the fraction and the whole of a number. *)
Definition number_exp (s : string) : bool :=
  match s with
  | EmptyString => true
  | String c s' =>
      (Ascii.eqb c "e" || Ascii.eqb c "E") &&
      nonempty_digits match s' with
                      | String d s'' => if Ascii.eqb d "+" || Ascii.eqb d "-" then s'' else s'
                      | EmptyString => s'
                      end
  end.
Definition number_frac (s : string) : bool :=
  match expect "." s with
  | Some s' => let '(d, rest) := span is_digit s' in negb (String.eqb d "") && number_exp rest
  | None => number_exp s
  end.
Definition is_number (s : string) : bool :=
  let s := default s (expect "-" s) in
  match expect "0" s with
  | Some s' => number_frac s'
  | None => let '(d, rest) := span is_digit s in negb (String.eqb d "") && number_frac rest
  end.

(** What numbers are made of; nothing that may follow a number is. *)
Definition number_byte (c : ascii) : bool :=
  is_digit c || Ascii.eqb c "-" || Ascii.eqb c "+" || Ascii.eqb c "." || Ascii.eqb c "e" ||
  Ascii.eqb c "E".

Example number_ex :
  map is_number ["0"; "-0"; "10.50e+3"; "1E9"; "01"; "-"; "1."; ".5"; "1e"; "+1"]%string
  = [true; true; true; true; false; false; false; false; false; false].
Proof. vm_compute. done. Qed.

(** ** Values *)

#[local] Set Warnings "-register-all".
Inductive json :=
| JNull
| JBool (b : bool)
| JNum (text : string)
| JStr (s : string)
| JArr (elements : list json)
| JObj (members : list (string * string * json)). (* key, text of the value, value *)

Definition space (c : ascii) : bool :=
  Ascii.eqb c " " || Ascii.eqb c (byte_of 9) || Ascii.eqb c (byte_of 10) || Ascii.eqb c (byte_of 13).
Fixpoint skip (s : string) : string :=
  match s with
  | String c s' => if space c then skip s' else s
  | EmptyString => s
  end.

Definition read_literal (s : string) : option (json * string) :=
  match strip "null" s, strip "true" s, strip "false" s with
  | Some rest, _, _ => Some (JNull, rest)
  | _, Some rest, _ => Some (JBool true, rest)
  | _, _, Some rest => Some (JBool false, rest)
  | _, _, _ => let '(t, rest) := span number_byte s in
               if is_number t then Some (JNum t, rest) else None
  end.

(** The text between a text and its rest. *)
Definition raw_of (s rest : string) : string :=
  String.substring 0 (String.length s - String.length rest) s.

Definition maxNestingDepth : Z := 10000.

(** An object or an array: its opening bracket, and its closing one or a
    sequence. *)
Definition read_bracket {A} (open close : ascii) (read : Z -> string -> option (list A * string))
    (depth : Z) (s : string) : option (list A * string) :=
  s1 ← strip (String open "") s;
  if maxNestingDepth <=? depth then None
  else match strip (String close "") (skip s1) with
       | Some rest => Some ([], rest)
       | None => read (depth + 1) (skip s1)
       end.

(** After an element [x] of a sequence: the end of it, or the next. *)
Definition read_next {A} (close : ascii) (read : string -> option (list A * string)) (x : A)
    (s : string) : option (list A * string) :=
  match strip (String close "") (skip s), strip "," (skip s) with
  | Some rest, _ => Some ([x], rest)
  | _, Some rest => '(xs, rest) ← read (skip rest); Some (x :: xs, rest)
  | _, _ => None
  end.

(** A string, up to its closing quote. *)
Definition read_string (s : string) : option (string * string) :=
  s1 ← strip dquote s; '(raw, rest) ← scan_string s1; t ← unquote raw; Some (t, rest).

(** A value at the front of a text, and the members of an object and the
    elements of an array after the opening bracket. *)
Fixpoint read_value (n : nat) (depth : Z) (s : string) {struct n} : option (json * string) :=
  match n, s with
  | S n', String c _ =>
      if Ascii.eqb c "{" then
        '(ms, rest) ← read_bracket "{" "}" (read_members n') depth s; Some (JObj ms, rest)
      else if Ascii.eqb c "[" then
        '(l, rest) ← read_bracket "[" "]" (read_elements n') depth s; Some (JArr l, rest)
      else if Ascii.eqb c quote then
        '(t, rest) ← read_string s; Some (JStr t, rest)
      else read_literal s
  | _, _ => None
  end
with read_members (n : nat) (depth : Z) (s : string) {struct n}
  : option (list (string * string * json) * string) :=
  match n with
  | S n' =>
      '(key, s1) ← read_string s;
      s2 ← strip ":" (skip s1);
      '(v, s3) ← read_value n' depth (skip s2);
      read_next "}" (read_members n' depth) (key, raw_of (skip s2) s3, v) s3
  | O => None
  end
with read_elements (n : nat) (depth : Z) (s : string) {struct n} : option (list json * string) :=
  match n with
  | S n' =>
      '(v, s1) ← read_value n' depth s;
      read_next "]" (read_elements n' depth) v s1
  | O => None
  end.

(** The value of a whole text ([checkValid] and then the decoder's walk). *)
Definition parse (s : string) : option json :=
  '(v, rest) ← read_value (S (2 * String.length s)) 0 (skip s);
  if String.eqb (skip rest) "" then Some v else None.

Example parse_ex :
  let q := dquote in
  parse (" {" +:+ q +:+ "a" +:+ q +:+ " : [1, null ,{}]," +:+ q +:+ "b" +:+ q +:+ ":" +:+ q +:+ "x" +:+ q +:+ "} ")
  = Some (JObj [("a", "[1, null ,{}]", JArr [JNum "1"; JNull; JObj []]);
                ("b", q +:+ "x" +:+ q, JStr "x")])%string /\
  parse "[1,]" = None /\ parse "1 2" = None /\ parse "" = None /\ parse "01" = None.
Proof. vm_compute. done. Qed.

(** ** Runes and their bytes *)

Definition high (c : ascii) : bool := 128 <=? byte_val c.

Lemma cont_range a : cont a = true -> 128 <= byte_val a <= 191.
Proof. unfold cont, in_range. intros [?%Z.leb_le ?%Z.leb_le]%andb_true_iff. lia. Qed.

Lemma second_range b0 a : second_ok b0 a = true ->
  128 <= byte_val a <= 191 /\ (b0 = 224 -> 160 <= byte_val a) /\ (b0 = 240 -> 144 <= byte_val a) /\
  (b0 = 237 -> byte_val a <= 159) /\ (b0 = 244 -> byte_val a <= 143).
Proof.
  unfold second_ok, in_range. repeat case_match;
    intros [?%Z.leb_le ?%Z.leb_le]%andb_true_iff; lia.
Qed.

(** The bits a byte of a sequence contributes. *)
Lemma land_lead b k lo :
  0 <= k -> lo mod 2 ^ k = 0 -> lo <= b < lo + 2 ^ k -> Z.land b (Z.ones k) = b - lo.
Proof.
  intros Hk Hlo Hb. rewrite Z.land_ones by lia.
  rewrite <- (Z.mod_small (b - lo) (2 ^ k)) by lia.
  rewrite Zminus_mod, Hlo, Z.sub_0_r, Z.mod_mod by lia. done.
Qed.

Lemma low6_cont a : 128 <= byte_val a <= 191 -> low6 a = byte_val a - 128.
Proof. intros Ha. unfold low6. by apply (land_lead _ 6 128); [| |lia]. Qed.

Ltac bool_ranges :=
  unfold in_range in *;
  repeat match goal with
  | H : _ && _ = true |- _ => apply andb_true_iff in H as [? ?]
  | H : _ || _ = false |- _ => apply orb_false_iff in H as [? ?]
  | H : negb _ = false |- _ => apply negb_false_iff in H
  | H : _ && _ = false |- _ => apply andb_false_iff in H
  | H : (_ <=? _) = true |- _ => apply Z.leb_le in H
  | H : (_ <=? _) = false |- _ => apply Z.leb_gt in H
  | H : (_ <? _) = false |- _ => apply Z.ltb_ge in H
  | H : (_ <? _) = true |- _ => apply Z.ltb_lt in H
  | H : cont _ = true |- _ => apply cont_range in H
  | H : second_ok _ _ = true |- _ => apply second_range in H as (? & ? & ? & ? & ?)
  end.

Lemma in_range_spec lo hi z : in_range lo hi z = true <-> lo <= z <= hi.
Proof. unfold in_range. rewrite andb_true_iff, !Z.leb_le. lia. Qed.

Lemma in_range_out lo hi z : z < lo \/ hi < z -> in_range lo hi z = false.
Proof. intros Hz. apply not_true_is_false. rewrite in_range_spec. lia. Qed.

(** Decides the range tests in a goal. *)
Ltac range_tests :=
  repeat match goal with
  | |- context [in_range ?lo ?hi ?z] =>
      first [rewrite (proj2 (in_range_spec lo hi z)) by lia | rewrite (in_range_out lo hi z) by lia]
  | |- context [?x <? ?y] =>
      first [rewrite (proj2 (Z.ltb_lt x y)) by lia | rewrite (proj2 (Z.ltb_ge x y)) by lia]
  | |- context [?x =? ?y] =>
      first [rewrite (proj2 (Z.eqb_eq x y)) by lia | rewrite (proj2 (Z.eqb_neq x y)) by lia]
  end.

Lemma byte_of_eq a z : z = byte_val a -> byte_of z = a.
Proof. intros ->. apply byte_of_val. Qed.

(** A rune that decodes is encoded as it was. *)
Definition good_rune (r : Z) (bs : string) : Prop :=
  encode_rune r = bs /\
  ((exists a, bs = String a "" /\ r = byte_val a /\ byte_val a < 128) \/
   (exists a bs', bs = String a bs' /\ 128 <= r /\ 128 <= byte_val a /\
      string_forallb high bs = true /\ forall rest, DecodeRune a (bs' +:+ rest) = (r, true, rest))).

Lemma DecodeRune_good a s r rest :
  DecodeRune a s = (r, true, rest) ->
  exists bs, String a s = bs +:+ rest /\ good_rune r bs.
Proof.
  unfold DecodeRune. pose proof (byte_val_range a) as Ha.
  destruct (byte_val a <? RuneSelf) eqn:E1.
  { intros [= <- <-]. exists (String a ""). split; [done|]. apply Z.ltb_lt in E1. unfold RuneSelf in E1.
    split; [|left; eauto]. unfold encode_rune. range_tests. by rewrite byte_of_val. }
  repeat case_match; intros [= <- <-];
    [exists (String a (String a0 ""))|exists (String a (String a0 (String a1 "")))
    |exists (String a (String a0 (String a1 (String a2 ""))))]; (split; [done|]);
    (match goal with |- good_rune ?r (String a ?bs) =>
       assert (forall rest', DecodeRune a (bs +:+ rest') = (r, true, rest')) as Hloc
         by (intros rest'; rewrite !string_app_cons; change ("" +:+ rest') with rest';
             unfold DecodeRune; repeat match goal with H : ?x = ?b |- context [?x] => rewrite H end; done) end);
    unfold RuneSelf in E1; bool_ranges.
  - revert Hloc. rewrite low6_cont, Z.shiftl_mul_pow2 by lia.
    rewrite (land_lead _ 5 192) by (done || lia). intros Hloc. split.
    + unfold encode_rune. range_tests. f_equal; [|f_equal]; apply byte_of_eq;
        Z.to_euclidean_division_equations; lia.
    + right. eexists _, _. split_and!; [done|lia|lia| |exact Hloc].
      cbn. unfold high. by rewrite !(proj2 (Z.leb_le _ _)) by lia.
  - revert Hloc. rewrite !low6_cont, !Z.shiftl_mul_pow2 by lia.
    rewrite (land_lead _ 4 224) by (done || lia). intros Hloc. split.
    + unfold encode_rune. range_tests. cbn [negb orb]. f_equal; [|f_equal; [|f_equal]];
        apply byte_of_eq; Z.to_euclidean_division_equations; lia.
    + right. eexists _, _. split_and!; [done|lia|lia| |exact Hloc].
      cbn. unfold high. by rewrite !(proj2 (Z.leb_le _ _)) by lia.
  - revert Hloc. rewrite !low6_cont, !Z.shiftl_mul_pow2 by lia.
    rewrite (land_lead _ 3 240) by (done || lia). intros Hloc. split.
    + unfold encode_rune. range_tests. cbn [negb orb]. repeat f_equal;
        apply byte_of_eq; Z.to_euclidean_division_equations; lia.
    + right. eexists _, _. split_and!; [done|lia|lia| |exact Hloc].
      cbn. unfold high. by rewrite !(proj2 (Z.leb_le _ _)) by lia.
Qed.

(** Whatever is encoded decodes. *)
Ltac decoded :=
  rewrite ?string_app_cons; match goal with |- context ["" +:+ ?rest] => change ("" +:+ rest) with rest end;
  unfold DecodeRune, cont, second_ok, RuneSelf; rewrite !byte_val_of by lia.

Lemma encode_rune_decodes r :
  exists a bs, encode_rune r = String a bs /\
    forall rest, exists r', DecodeRune a (bs +:+ rest) = (r', true, rest).
Proof.
  unfold encode_rune. repeat case_match; bool_ranges.
  - eexists _, _. split; [done|]. intros rest. eexists. unfold DecodeRune. rewrite byte_val_of by lia.
    unfold RuneSelf. by range_tests.
  - eexists _, _. split; [done|]. intros rest. eexists.
    assert (2 <= r / 64 <= 31 /\ 0 <= r mod 64 < 64) as [? ?]
      by (Z.to_euclidean_division_equations; lia). decoded. by range_tests.
  - eexists _, _. split; [done|]. intros rest. eexists. reflexivity.
  - eexists _, _. split; [done|]. intros rest.
    assert (0 <= r / 4096 < 16 /\ 0 <= r / 64 mod 64 < 64 /\ 0 <= r mod 64 < 64 /\
      (r / 4096 = 0 -> 32 <= r / 64 mod 64) /\ (r / 4096 = 13 -> r / 64 mod 64 < 32)) as (? & ? & ? & ? & ?).
    { Z.to_euclidean_division_equations; lia. }
    assert (224 + r / 4096 = 224 \/ 224 + r / 4096 = 237 \/ (r / 4096 <> 0 /\ r / 4096 <> 13)) as [He|[He|[? ?]]] by lia;
      eexists; decoded; try rewrite He; by range_tests.
  - eexists _, _. split; [done|]. intros rest.
    assert (0 <= r / 262144 < 5 /\ 0 <= r / 4096 mod 64 < 64 /\ 0 <= r / 64 mod 64 < 64 /\ 0 <= r mod 64 < 64 /\
      (r / 262144 = 0 -> 16 <= r / 4096 mod 64) /\ (r / 262144 = 4 -> r / 4096 mod 64 < 16)) as (? & ? & ? & ? & ? & ?).
    { Z.to_euclidean_division_equations; lia. }
    assert (r / 262144 = 0 \/ r / 262144 = 4 \/ (r / 262144 <> 0 /\ r / 262144 <> 4)) as [He|[He|[? ?]]] by lia;
      eexists; decoded; try rewrite He; by range_tests.
Qed.

Lemma substring_prefix s1 s2 : String.substring 0 (String.length s1) (s1 +:+ s2) = s1.
Proof.
  induction s1 as [|a s1 IH]; [by destruct s2|]. rewrite string_app_cons. cbn. by rewrite IH.
Qed.

Lemma length_string_app s1 s2 :
  String.length (s1 +:+ s2) = (String.length s1 + String.length s2)%nat.
Proof. induction s1 as [|a s1 IH]; [done|]. rewrite string_app_cons. cbn. by rewrite IH. Qed.

Definition pieces (l : list (Z * bool * string)) : string := foldr (fun x s => x.2 +:+ s) "" l.

Lemma runes_fuel_good n s :
  (String.length s <= n)%nat ->
  forallb (fun '(_, ok, _) => ok) (runes_fuel n s) = true ->
  pieces (runes_fuel n s) = s /\
  Forall (fun x => x.1.2 = true /\ good_rune x.1.1 x.2) (runes_fuel n s).
Proof.
  revert s. induction n as [|n IH]; intros s Hlen; [by destruct s; cbn in *; [|lia]|].
  destruct s as [|a s]; [done|]. cbn [runes_fuel String.length] in *.
  pose proof (DecodeRune_shorter a s) as Hshort.
  destruct (DecodeRune a s) as [[r ok] rest] eqn:Hdec. cbn [snd forallb] in *.
  intros [-> Hall]%andb_true_iff. apply DecodeRune_good in Hdec as (bs & Hs & Hgood).
  destruct (IH rest) as [Hp Hf]; [lia|done|].
  assert (String.substring 0 (S (String.length s - String.length rest)) (String a s) = bs) as ->.
  { rewrite Hs. replace (S (String.length s - String.length rest)) with (String.length bs).
    - apply substring_prefix.
    - apply (f_equal String.length) in Hs. rewrite length_string_app in Hs. cbn in Hs. lia. }
  split; [|by constructor]. cbn. fold (pieces (runes_fuel n rest)). by rewrite Hp.
Qed.

Lemma runes_fuel_ge n m s :
  (String.length s <= n)%nat -> (n <= m)%nat -> runes_fuel m s = runes_fuel n s.
Proof.
  revert m s. induction n as [|n IH]; intros m s Hs Hm; [by destruct s, m; cbn in *; try lia|].
  destruct m as [|m]; [lia|]. destruct s as [|a s]; [done|]. cbn [runes_fuel String.length] in *.
  pose proof (DecodeRune_shorter a s). destruct (DecodeRune a s) as [[r ok] rest]. cbn [snd] in *.
  f_equal. apply IH; lia.
Qed.

Lemma valid_encode r s : ValidString (encode_rune r +:+ s) = ValidString s.
Proof.
  destruct (encode_rune_decodes r) as (a & bs & -> & Hdec). destruct (Hdec s) as [r' Hr].
  unfold ValidString, runes. rewrite string_app_cons. cbn [String.length runes_fuel].
  rewrite Hr. cbn [forallb andb]. f_equal. apply runes_fuel_ge; [done|]. rewrite length_string_app. lia.
Qed.

(** What is appended to UTF-8 decides alone, and numbers are UTF-8. *)
Lemma valid_app s t : ValidString s = true -> ValidString (s +:+ t) = ValidString t.
Proof.
  intros Hs. destruct (runes_fuel_good (String.length s) s (Nat.le_refl _) Hs) as [Hp Hall].
  rewrite <- Hp. clear Hp Hs. induction Hall as [|[[r ok] bs] l [_ [Henc _]] _ IH]; [done|].
  cbn [fst snd] in Henc. subst bs. unfold pieces. cbn [foldr snd]. fold (pieces l).
  by rewrite string_app_assoc, valid_encode, IH.
Qed.

Lemma valid_ascii s : string_forallb (fun c => byte_val c <? RuneSelf) s = true -> ValidString s = true.
Proof.
  induction s as [|c s IH]; [done|]. cbn [string_forallb]. intros [Hc Hs]%andb_true_iff.
  rewrite <- (IH Hs). apply Z.ltb_lt in Hc. unfold RuneSelf in Hc. pose proof (byte_val_range c).
  assert (String c s = encode_rune (byte_val c) +:+ s) as ->; [|apply valid_encode].
  unfold encode_rune. range_tests. by rewrite byte_of_val.
Qed.

Lemma valid_Itoa z : ValidString (Itoa z) = true.
Proof.
  assert (forall p, string_forallb (fun c => byte_val c <? RuneSelf) (pretty (N.pos p)) = true) as Hp.
  { intros p. pose proof (pretty_digits (N.pos p)) as Hd. revert Hd.
    generalize (pretty (N.pos p)) as s. induction s as [|c s IH]; [done|]. cbn [string_forallb].
    intros [Hc Hs]%andb_true_iff. rewrite IH, andb_true_r by done.
    by destruct c as [[] [] [] [] [] [] [] []]. }
  destruct z as [|p|p]; [done|by apply valid_ascii, (Hp p)|].
  change (Itoa (Z.neg p)) with ("-" +:+ pretty (N.pos p)).
  rewrite valid_app by done. by apply valid_ascii.
Qed.

(** ** What the scanner lets through *)

Inductive scannable : string -> Prop :=
| sc_nil : scannable ""
| sc_unicode h1 h2 h3 h4 s :
    is_hex h1 = true -> is_hex h2 = true -> is_hex h3 = true -> is_hex h4 = true ->
    scannable s ->
    scannable (escape_u h1 h2 h3 h4 s)
| sc_simple e t s :
    simple_escape e = Some t -> scannable s -> scannable (String backslash (String e s))
| sc_byte c s :
    Ascii.eqb c quote = false -> Ascii.eqb c backslash = false -> 32 <= byte_val c ->
    scannable s -> scannable (String c s).

Lemma scan_simple e t s :
  simple_escape e = Some t ->
  scan_string (String backslash (String e s)) = prepend (String backslash (String e "")) <$> scan_string s.
Proof.
  intros He. cbn [scan_string]. rewrite He. change (Ascii.eqb backslash quote) with false.
  rewrite Ascii.eqb_refl. destruct (Ascii.eqb_spec e "u") as [->|_]; [discriminate He|done].
Qed.

Lemma scan_unicode h1 h2 h3 h4 s :
  is_hex h1 = true -> is_hex h2 = true -> is_hex h3 = true -> is_hex h4 = true ->
  scan_string (escape_u h1 h2 h3 h4 s) = prepend (escape_u h1 h2 h3 h4 "") <$> scan_string s.
Proof.
  intros H1 H2 H3 H4. unfold escape_u. cbn [scan_string].
  change (Ascii.eqb backslash quote) with false. rewrite !Ascii.eqb_refl, H1, H2, H3, H4. done.
Qed.

Lemma scan_byte c s :
  Ascii.eqb c quote = false -> Ascii.eqb c backslash = false -> 32 <= byte_val c ->
  scan_string (String c s) = prepend (String c "") <$> scan_string s.
Proof.
  intros H1 H2 H3. cbn [scan_string]. rewrite H1, H2. by rewrite (proj2 (Z.ltb_ge _ _)).
Qed.

Lemma scan_scannable raw rest :
  scannable raw -> scan_string (raw +:+ dquote +:+ rest) = Some (raw, rest).
Proof.
  induction 1 as [|h1 h2 h3 h4 s H1 H2 H3 H4 _ IH|e t s He _ IH|c s H1 H2 H3 _ IH].
  - done.
  - change (escape_u h1 h2 h3 h4 s +:+ ?x) with (escape_u h1 h2 h3 h4 (s +:+ x)).
    by rewrite scan_unicode, IH.
  - rewrite !string_app_cons, (scan_simple _ _ _ He), IH. done.
  - rewrite !string_app_cons, scan_byte, IH by done. done.
Qed.

Lemma scannable_scan s raw rest :
  scan_string s = Some (raw, rest) -> s = raw +:+ dquote +:+ rest /\ scannable raw.
Proof.
  remember (String.length s) as n eqn:Hn. revert s Hn raw.
  induction (lt_wf n) as [n _ IH]. intros [|c s] Hn raw; [done|]. cbn [scan_string].
  destruct (Ascii.eqb_spec c quote) as [->|Hq]; [intros [= <- <-]; by split; [|constructor]|].
  destruct (Ascii.eqb_spec c backslash) as [->|Hb].
  - destruct s as [|e s]; [done|]. destruct (Ascii.eqb_spec e "u") as [->|Hu].
    + destruct s as [|h1 [|h2 [|h3 [|h4 s]]]]; try done. destruct (_ && _) eqn:Hh; [|done].
      destruct (scan_string s) as [[raw' rest']|] eqn:Hs; [|done]. intros [= <- <-].
      destruct (IH (String.length s) ltac:(subst n; cbn; lia) s eq_refl _ Hs) as [-> Hsc].
      repeat apply andb_true_iff in Hh as [Hh ?]. split; [done|]. by constructor.
    + destruct (simple_escape e) as [t|] eqn:He; [|done].
      destruct (scan_string s) as [[raw' rest']|] eqn:Hs; [|done]. intros [= <- <-].
      destruct (IH (String.length s) ltac:(subst n; cbn; lia) s eq_refl _ Hs) as [-> Hsc].
      split; [done|]. by econstructor.
  - destruct (Z.ltb_spec (byte_val c) 32) as [|Hc]; [done|].
    destruct (scan_string s) as [[raw' rest']|] eqn:Hs; [|done]. intros [= <- <-].
    destruct (IH (String.length s) ltac:(subst n; cbn; lia) s eq_refl _ Hs) as [-> Hsc].
    split; [done|]. constructor; [by apply Ascii.eqb_neq..|done|done].
Qed.

(** ** What [unquote] makes of it *)

Lemma length_drop_bytes n s : (String.length (drop_bytes n s) <= String.length s)%nat.
Proof.
  revert s. induction n as [|n IH]; intros [|c s]; cbn; try lia. specialize (IH s). lia.
Qed.

Lemma unquote_fuel_ge n m s :
  (String.length s <= n)%nat -> (n <= m)%nat -> unquote_fuel m s = unquote_fuel n s.
Proof.
  revert m s. induction n as [|n IH]; intros m s Hs Hm; [by destruct s, m; cbn in *; try lia|].
  destruct m as [|m]; [lia|]. destruct s as [|c s]; [done|]. cbn [String.length] in Hs.
  pose proof (length_drop_bytes 5 s) as Hd. cbn [unquote_fuel].
  change (drop_bytes 6 (String c s)) with (drop_bytes 5 s).
  destruct (Ascii.eqb c backslash).
  - destruct (getu4 (String c s)) as [r|].
    + pose proof (length_drop_bytes 6 (drop_bytes 5 s)). destruct (IsSurrogate r); [|by rewrite IH by lia].
      destruct (getu4 (drop_bytes 5 s) ≫= DecodePair r); by rewrite IH by lia.
    + destruct s as [|e s]; [done|]. cbn in Hs. destruct (simple_escape e); [|done].
      cbn [mbind option_bind]. by rewrite IH by lia.
  - destruct (_ || _); [done|]. pose proof (DecodeRune_shorter c s).
    destruct (DecodeRune c s) as [[r ok] rest]. cbn [snd] in *. by rewrite IH by lia.
Qed.

Lemma unquote_more n s : (String.length s <= n)%nat -> unquote_fuel n s = unquote s.
Proof. intros Hn. by apply unquote_fuel_ge. Qed.

Ltac unquote_step fuel rest :=
  unfold unquote at 1; try unfold escape_u at 1 2; cbn [String.length];
  let n := fresh "n" in set (n := fuel);
  assert (String.length rest <= n)%nat by (unfold n; lia); clearbody n; cbn [unquote_fuel].

Lemma unquote_simple e t s :
  simple_escape e = Some t ->
  unquote (String backslash (String e s)) = String.append t <$> unquote s.
Proof.
  intros He. unquote_step (S (String.length s)) s. rewrite Ascii.eqb_refl.
  assert (getu4 (String backslash (String e s)) = None) as ->.
  { cbn [getu4]. destruct s as [|h1 [|h2 [|h3 [|h4 s]]]]; try done.
    destruct (Ascii.eqb_spec e "u") as [->|]; [discriminate He|]. by rewrite andb_false_r. }
  rewrite He. cbn [mbind option_bind]. by rewrite unquote_more by lia.
Qed.

Definition hex4 (v1 v2 v3 v4 : Z) : Z := v1 * 4096 + v2 * 256 + v3 * 16 + v4.

Lemma getu4_escape h1 h2 h3 h4 v1 v2 v3 v4 s :
  hex_val h1 = Some v1 -> hex_val h2 = Some v2 -> hex_val h3 = Some v3 -> hex_val h4 = Some v4 ->
  getu4 (escape_u h1 h2 h3 h4 s) = Some (hex4 v1 v2 v3 v4).
Proof. intros H1 H2 H3 H4. cbn. by rewrite H1, H2, H3, H4. Qed.

Lemma unquote_unicode h1 h2 h3 h4 r s :
  getu4 (escape_u h1 h2 h3 h4 s) = Some r -> IsSurrogate r = false ->
  unquote (escape_u h1 h2 h3 h4 s) = String.append (encode_rune r) <$> unquote s.
Proof.
  intros Hu Hr. unquote_step (S (S (S (S (S (String.length s)))))) s.
  rewrite Ascii.eqb_refl. unfold escape_u in Hu |- *. rewrite Hu, Hr. cbn [drop_bytes].
  by rewrite unquote_more by lia.
Qed.

Lemma unquote_rune c s r ok rest :
  Ascii.eqb c quote = false -> Ascii.eqb c backslash = false -> 32 <= byte_val c ->
  DecodeRune c s = (r, ok, rest) ->
  unquote (String c s) = String.append (encode_rune r) <$> unquote rest.
Proof.
  intros H1 H2 H3 Hdec. pose proof (DecodeRune_shorter c s) as Hs. rewrite Hdec in Hs. cbn in Hs.
  unquote_step (String.length s) rest. rewrite H1, H2, Hdec.
  rewrite (proj2 (Z.ltb_ge _ _)) by done. cbn [orb]. by rewrite unquote_more by lia.
Qed.

(** A rune ends after bytes beyond ASCII. *)
Lemma DecodeRune_rest c s r ok rest :
  DecodeRune c s = (r, ok, rest) -> exists bs, s = bs +:+ rest /\ string_forallb high bs = true.
Proof.
  assert (forall a, 128 <= byte_val a -> high a = true) as Hh
    by (intros a Ha; by apply Z.leb_le).
  unfold DecodeRune. repeat case_match; intros [= _ _ <-]; subst; bool_ranges;
    first [by exists ""%string | exists (String a ""); split; [reflexivity|]
          |exists (String a (String a0 "")); split; [reflexivity|]
          |exists (String a (String a0 (String a1 ""))); split; [reflexivity|]]; cbn;
    rewrite !Hh by lia; done.
Qed.

Lemma scannable_high bs s :
  string_forallb high bs = true -> scannable (bs +:+ s) <-> scannable s.
Proof.
  induction bs as [|a bs IH]; [done|]. cbn [string_forallb].
  intros [Ha%Z.leb_le Hbs]%andb_true_iff. rewrite string_app_cons, <- (IH Hbs). split.
  - inversion 1; subst; done.
  - intros Hs. constructor; [..|lia|done]; apply Ascii.eqb_neq; by intros ->.
Qed.

Lemma unquote_pair h1 h2 h3 h4 r s :
  getu4 (escape_u h1 h2 h3 h4 s) = Some r -> IsSurrogate r = true ->
  unquote (escape_u h1 h2 h3 h4 s) =
  match getu4 s ≫= DecodePair r with
  | Some r' => String.append (encode_rune r') <$> unquote (drop_bytes 6 s)
  | None => String.append (encode_rune RuneError) <$> unquote s
  end.
Proof.
  intros Hu Hr. unquote_step (S (S (S (S (S (String.length s)))))) s.
  rewrite Ascii.eqb_refl. unfold escape_u in Hu |- *. rewrite Hu, Hr.
  change (drop_bytes 6 (String _ _)) with s. pose proof (length_drop_bytes 6 s).
  destruct (getu4 s ≫= DecodePair r); by rewrite unquote_more by lia.
Qed.

Lemma getu4_inv s r :
  getu4 s = Some r -> exists h1 h2 h3 h4 s', s = escape_u h1 h2 h3 h4 s'.
Proof.
  destruct s as [|c [|u [|h1 [|h2 [|h3 [|h4 s]]]]]]; try done. cbn [getu4].
  destruct (Ascii.eqb_spec c backslash) as [->|]; [|done].
  destruct (Ascii.eqb_spec u "u") as [->|]; [|done]. intros _. by do 5 eexists.
Qed.

Lemma scannable_unicode h1 h2 h3 h4 s : scannable (escape_u h1 h2 h3 h4 s) -> scannable s.
Proof.
  inversion 1 as [|? ? ? ? ? ? ? ? ? Hs Heq|e t s' He|c s' Hq Hb]; subst; [exact Hs|discriminate He|].
  by rewrite Ascii.eqb_refl in Hb.
Qed.

(** [unquoteBytes] does not fail on what the scanner let through. *)
Lemma scan_unquote raw : scannable raw -> is_Some (unquote raw).
Proof.
  remember (String.length raw) as n eqn:Hn. revert raw Hn.
  induction (lt_wf n) as [n _ IH]. intros raw Hn Hsc.
  assert (forall s t, scannable s -> (String.length s < n)%nat ->
    is_Some (String.append t <$> unquote s)) as Hrec.
  { intros s t Hs Hlt. destruct (IH _ Hlt s eq_refl Hs) as [x ->]. by eexists. }
  destruct Hsc as [|h1 h2 h3 h4 s H1 H2 H3 H4 Hsc|e t s He Hsc|c s H1 H2 H3 Hsc]; [done| | |].
  - cbn in Hn. unfold is_hex in *. destruct (hex_val h1) eqn:E1; [|done].
    destruct (hex_val h2) eqn:E2; [|done]. destruct (hex_val h3) eqn:E3; [|done].
    destruct (hex_val h4) eqn:E4; [|done].
    pose proof (getu4_escape _ _ _ _ _ _ _ _ s E1 E2 E3 E4) as Hu.
    destruct (IsSurrogate (hex4 z z0 z1 z2)) eqn:Hsur.
    + rewrite (unquote_pair _ _ _ _ _ _ Hu Hsur).
      destruct (getu4 s ≫= DecodePair _) eqn:Hp; [|apply Hrec; [done|lia]].
      destruct (getu4 s) eqn:Hs; [|done]. apply getu4_inv in Hs as (? & ? & ? & ? & s' & ->).
      apply Hrec; [by eapply scannable_unicode|]. cbn in Hn |- *. lia.
    + rewrite (unquote_unicode _ _ _ _ _ _ Hu Hsur). apply Hrec; [done|lia].
  - rewrite (unquote_simple _ _ _ He). apply Hrec; [done|cbn in Hn; lia].
  - destruct (DecodeRune c s) as [[r ok] rest] eqn:Hdec.
    rewrite (unquote_rune _ _ _ _ _ H1 H2 H3 Hdec).
    pose proof (DecodeRune_shorter c s) as Hlen. rewrite Hdec in Hlen. cbn in Hlen, Hn.
    apply DecodeRune_rest in Hdec as (bs & -> & Hbs). apply Hrec; [|lia].
    by apply (scannable_high _ _ Hbs).
Qed.

(** Its result is UTF-8. *)
Lemma valid_simple e t s : simple_escape e = Some t -> ValidString (t +:+ s) = ValidString s.
Proof.
  intros He. assert (exists r, t = encode_rune r) as [r ->]; [|apply valid_encode].
  unfold simple_escape in He.
  destruct (Ascii.eqb_spec e quote) as [->|]; [by exists 34; injection He as <-|].
  destruct (Ascii.eqb_spec e backslash) as [->|]; [by exists 92; injection He as <-|].
  destruct (Ascii.eqb_spec e "/") as [->|]; [by exists 47; injection He as <-|].
  cbn [orb] in He. repeat case_match; simplify_eq;
    [by exists 8|by exists 12|by exists 10|by exists 13|by exists 9].
Qed.

Lemma unquote_fuel_valid n s t : unquote_fuel n s = Some t -> ValidString t = true.
Proof.
  revert s t. induction n as [|n IH]; intros [|c s] t; cbn [unquote_fuel];
    try done; try (by intros [= <-]).
  assert (forall r x s', String.append (encode_rune r) <$> unquote_fuel n s' = Some x ->
    ValidString x = true) as Hrec.
  { intros r x s'. destruct (unquote_fuel n s') as [y|] eqn:Hy; [|done]. intros [= <-].
    change (String.append ?a ?b) with (a +:+ b). rewrite valid_encode. by apply (IH s'). }
  destruct (Ascii.eqb c backslash).
  - destruct (getu4 _) as [r|].
    + destruct (IsSurrogate r); [|apply Hrec].
      destruct (getu4 _ ≫= DecodePair r); apply Hrec.
    + destruct s as [|e s1]; [done|]. destruct (simple_escape e) as [u|] eqn:He; [|done].
      cbn [mbind option_bind]. destruct (unquote_fuel n s1) as [y|] eqn:Hy; [|done].
      intros [= <-]. change (String.append ?a ?b) with (a +:+ b).
      rewrite (valid_simple _ _ _ He). by apply (IH s1).
  - destruct (_ || _); [done|]. destruct (DecodeRune c s) as [[r ok] rest]. apply Hrec.
Qed.

(** ** Reading back what was written *)

Lemma good_rune_text r bs rest :
  good_rune r bs ->
  (forall s, scannable s -> scannable (escape_rune (r, true, bs) +:+ s)) /\
  unquote (escape_rune (r, true, bs) +:+ rest) = String.append bs <$> unquote rest.
Proof.
  intros [Henc [(a & -> & -> & Ha)|(a & bs' & -> & Hr & Ha & Hhigh & Hdec)]].
  - destruct a as [[] [] [] [] [] [] [] []]; try (exfalso; by vm_compute in Ha);
      (match goal with |- context [escape_rune ?x] =>
         let y := eval vm_compute in (escape_rune x) in change (escape_rune x) with y end);
      rewrite ?string_app_cons; change ("" +:+ rest) with rest;
      (split; [intros s Hs; rewrite ?string_app_cons; change ("" +:+ s) with s;
               first [apply sc_byte; [done|done|by vm_compute|done]|by eapply sc_simple|by apply (sc_unicode _ _ _ _ s)]|]);
      first [erewrite (unquote_simple _ _ rest); [|reflexivity]; reflexivity
            |erewrite (unquote_rune _ rest _ true rest); [|done|done|by vm_compute|reflexivity]; reflexivity
            |match goal with |- unquote (String _ (String _ (String ?h1 (String ?h2 (String ?h3 (String ?h4 _)))))) = _ =>
               etransitivity; [eapply (unquote_unicode h1 h2 h3 h4); reflexivity|reflexivity] end].
  - cbn [string_forallb] in Hhigh. apply andb_true_iff in Hhigh as [_ Hhigh].
    unfold escape_rune. cbn [negb]. unfold RuneSelf. rewrite (proj2 (Z.ltb_ge _ _)) by done.
    destruct (Z.eqb_spec r 8232) as [->|]; [|destruct (Z.eqb_spec r 8233) as [->|]].
    + split; [intros s Hs; by apply (sc_unicode "2" "0" "2" "8" s)|].
      change (?x +:+ rest) with (escape_u "2" "0" "2" "8" rest).
      rewrite (unquote_unicode _ _ _ _ 8232) by reflexivity. by rewrite <- Henc.
    + split; [intros s Hs; by apply (sc_unicode "2" "0" "2" "9" s)|].
      change (?x +:+ rest) with (escape_u "2" "0" "2" "9" rest).
      rewrite (unquote_unicode _ _ _ _ 8233) by reflexivity. by rewrite <- Henc.
    + split; [intros s Hs; apply scannable_high; [|done]; cbn; by rewrite Hhigh, andb_true_r; apply Z.leb_le|].
      rewrite string_app_cons, (unquote_rune _ _ r true rest); [by rewrite Henc| | |lia|apply Hdec];
        apply Ascii.eqb_neq; by intros ->.
Qed.

Lemma escape_text l :
  Forall (fun x => x.1.2 = true /\ good_rune x.1.1 x.2) l ->
  scannable (escape l) /\ unquote (escape l) = Some (pieces l).
Proof.
  induction 1 as [|[[r ok] bs] l [Hok Hgood] _ [IHs IHu]]; [by split; [constructor|]|].
  cbn in Hok, Hgood. subst ok. destruct (good_rune_text r bs (escape l) Hgood) as [Hs Hu].
  cbn [escape foldr pieces]. fold (escape l) (pieces l). split; [by apply Hs|]. by rewrite Hu, IHu.
Qed.

Lemma quote_cons s : dquote +:+ s = String quote s.
Proof. done. Qed.

Lemma strip_text p s : strip p (p +:+ s) = Some s.
Proof.
  induction p as [|a p IH]; [done|]. rewrite string_app_cons. cbn.
  by rewrite Ascii.eqb_refl, IH.
Qed.

Lemma read_string_scanned raw s rest :
  scannable raw -> unquote raw = Some s ->
  read_string (dquote +:+ raw +:+ dquote +:+ rest) = Some (s, rest).
Proof.
  intros Hs Hu. unfold read_string. rewrite strip_text. cbn [mbind option_bind].
  rewrite scan_scannable by done. cbn [mbind option_bind]. by rewrite Hu.
Qed.

Lemma read_scanned n d raw s rest :
  scannable raw -> unquote raw = Some s ->
  read_value (S n) d (dquote +:+ raw +:+ dquote +:+ rest) = Some (JStr s, rest).
Proof.
  intros Hs Hu. pose proof (read_string_scanned raw s rest Hs Hu) as Hr. rewrite quote_cons in *.
  cbn [read_value]. change (Ascii.eqb quote "{") with false. change (Ascii.eqb quote "[") with false.
  cbv iota. by rewrite Ascii.eqb_refl, Hr.
Qed.

Lemma read_write_string n d s rest :
  ValidString s = true -> read_value (S n) d (write_string s +:+ rest) = Some (JStr s, rest).
Proof.
  intros Hs. pose proof (runes_fuel_good (String.length s) s (le_n _) Hs) as [Hp Hf].
  destruct (escape_text _ Hf) as [Hsc Hu]. rewrite Hp in Hu.
  unfold write_string. rewrite !string_app_assoc. by apply read_scanned.
Qed.

(** Text that stands for itself. *)
Definition plain (c : ascii) : bool :=
  in_range 32 127 (byte_val c) && negb (Ascii.eqb c quote) && negb (Ascii.eqb c backslash).

Lemma plain_text s : string_forallb plain s = true -> scannable s /\ unquote s = Some s.
Proof.
  induction s as [|c s IH]; [by split; [constructor|]|]. cbn [string_forallb].
  intros [[[Hc Hq%negb_true_iff]%andb_true_iff Hb%negb_true_iff]%andb_true_iff Hs]%andb_true_iff.
  apply in_range_spec in Hc. destruct (IH Hs) as [Hsc Hu]. split; [constructor; [done..|lia|done]|].
  assert (DecodeRune c s = (byte_val c, true, s)) as Hdec
    by (unfold DecodeRune, RuneSelf; by rewrite (proj2 (Z.ltb_lt _ _)) by lia).
  rewrite (unquote_rune _ _ _ _ _ Hq Hb ltac:(lia) Hdec), Hu. cbn. unfold encode_rune.
  rewrite (proj2 (in_range_spec _ _ _)) by lia. by rewrite byte_of_val.
Qed.

Lemma read_plain n d s rest :
  string_forallb plain s = true ->
  read_value (S n) d (dquote +:+ s +:+ dquote +:+ rest) = Some (JStr s, rest).
Proof. intros Hs. apply plain_text in Hs as [??]. by apply read_scanned. Qed.

(** ** Spans *)

Definition stops (f : ascii -> bool) (s : string) : bool :=
  match s with String c _ => negb (f c) | EmptyString => true end.

Lemma span_text f t rest :
  string_forallb f t = true -> stops f rest = true -> span f (t +:+ rest) = (t, rest).
Proof.
  intros Ht Hr. induction t as [|c t IH].
  - change ("" +:+ rest) with rest. destruct rest as [|c rest]; [done|]. cbn in *.
    by destruct (f c).
  - cbn [string_forallb] in Ht. apply andb_true_iff in Ht as [Hc Ht].
    rewrite string_app_cons. cbn [span]. by rewrite Hc, (IH Ht).
Qed.

Lemma span_split f s t rest :
  span f s = (t, rest) -> s = t +:+ rest /\ string_forallb f t = true /\ stops f rest = true.
Proof.
  revert t. induction s as [|c s IH]; intros t; cbn [span]; [by intros [= <- <-]|].
  destruct (f c) eqn:Hc.
  - destruct (span f s) as [t' rest'] eqn:Hs. intros [= <- <-].
    destruct (IH _ eq_refl) as (-> & Ht & Hr). cbn [prepend fst snd]. rewrite !string_app_cons.
    change ("" +:+ ?x) with x. split; [done|]. cbn [string_forallb]. by rewrite Hc.
  - intros [= <- <-]. cbn. by rewrite Hc.
Qed.

Lemma strip_split p s rest : strip p s = Some rest -> s = p +:+ rest.
Proof.
  revert s. induction p as [|a p IH]; intros s; cbn [strip]; [by intros [= ->]|].
  destruct s as [|b s]; [done|]. destruct (Ascii.eqb_spec a b) as [->|]; [|done].
  by intros ->%IH.
Qed.

Lemma skip_split s : exists ws, s = ws +:+ skip s /\ string_forallb space ws = true.
Proof.
  induction s as [|c s [ws [Hs Hw]]]; [by exists ""%string|]. cbn [skip]. destruct (space c) eqn:Hc.
  - exists (String c ws). rewrite string_app_cons, <- Hs. split; [done|]. cbn. by rewrite Hc.
  - by exists ""%string.
Qed.

Lemma skip_spaces ws s : string_forallb space ws = true -> skip (ws +:+ s) = skip s.
Proof.
  induction ws as [|c ws IH]; [done|]. cbn [string_forallb]. intros [Hc Hw]%andb_true_iff.
  rewrite string_app_cons. cbn [skip]. by rewrite Hc, IH.
Qed.

Lemma skip_stops s : stops space (skip s) = true.
Proof.
  induction s as [|c s IH]; [done|]. cbn [skip]. destruct (space c) eqn:Hc; [done|].
  cbn. by rewrite Hc.
Qed.

Lemma skip_id s : stops space s = true -> skip s = s.
Proof. destruct s as [|c s]; [done|]. cbn. by destruct (space c). Qed.

(** ** Numbers *)

Lemma number_head t : is_number t = true ->
  exists c t', t = String c t' /\ (is_digit c = true \/ c = "-"%char).
Proof.
  unfold is_number. destruct t as [|c t]; [done|]. intros Ht. exists c, t. split; [done|].
  cbn [expect] in Ht. destruct (Ascii.eqb_spec c "-") as [|Hm]; [by right|left].
  cbn [default expect] in Ht. destruct (Ascii.eqb_spec c "0") as [->|H0]; [done|].
  cbn [span] in Ht. by destruct (is_digit c).
Qed.

Lemma read_number n d t rest :
  is_number t = true -> string_forallb number_byte t = true -> stops number_byte rest = true ->
  read_value (S n) d (t +:+ rest) = Some (JNum t, rest).
Proof.
  intros Ht Hb Hr. pose proof (span_text _ _ _ Hb Hr) as Hsp.
  destruct (number_head _ Ht) as (c & t' & -> & Hc). rewrite string_app_cons in *.
  assert (forall x, is_digit x = false -> x <> "-"%char -> Ascii.eqb x c = false /\ Ascii.eqb c x = false) as Hx.
  { intros x Hd Hm. split; apply Ascii.eqb_neq; intros ->; by destruct Hc; congruence. }
  cbn [read_value]. rewrite (proj2 (Hx "{"%char eq_refl ltac:(done))),
    (proj2 (Hx "["%char eq_refl ltac:(done))), (proj2 (Hx quote eq_refl ltac:(done))).
  unfold read_literal. cbn [strip]. rewrite (proj1 (Hx "n"%char eq_refl ltac:(done))),
    (proj1 (Hx "t"%char eq_refl ltac:(done))), (proj1 (Hx "f"%char eq_refl ltac:(done))).
  by rewrite Hsp, Ht.
Qed.

(** ** The integers [Itoa] writes are numbers *)

Lemma pretty_N_go_head x s :
  (0 < x)%N -> exists d s', pretty_N_go x s = String (pretty_N_char d) s' /\ (0 < d < 10)%N.
Proof.
  revert s. induction (N.lt_wf_0 x) as [x _ IH]; intros s Hx. rewrite pretty_N_go_step by done.
  destruct (decide (x / 10 = 0)%N) as [H0|H0].
  - rewrite H0, pretty_N_go_0. eexists _, _. split; [done|].
    apply N.div_small_iff in H0; [|done]. rewrite N.mod_small by done. lia.
  - apply IH; [by apply N.div_lt|by apply N.neq_0_lt_0].
Qed.

Lemma digit_number_byte s : string_forallb is_digit s = true -> string_forallb number_byte s = true.
Proof.
  induction s as [|c s IH]; [done|]. cbn [string_forallb]. intros [Hc Hs]%andb_true_iff.
  unfold number_byte at 1. by rewrite Hc, IH.
Qed.

Lemma pretty_number (n : N) :
  is_number (pretty n) = true /\ is_number ("-" +:+ pretty n) = true.
Proof.
  assert (exists c s, pretty n = String c s /\ is_digit c = true /\ string_forallb is_digit s = true /\
    (c = "0"%char -> s = ""%string)) as (c & s & -> & Hc & Hs & H0).
  { destruct n as [|p]; [by exists "0"%char, ""%string|].
    pose proof (pretty_digits (N.pos p)) as Hd. unfold pretty, pretty_N in *.
    rewrite decide_False in * by done. 
    destruct (pretty_N_go_head (N.pos p) "" ltac:(done)) as (d & s' & Hgo & Hd0).
    rewrite Hgo in *. cbn [string_forallb] in Hd. apply andb_true_iff in Hd as [Hc Hs].
    do 2 eexists. split_and!; [done|done|done|]. intros Hz. exfalso.
    apply (f_equal digit_val) in Hz. rewrite digit_val_pretty in Hz by lia.
    change (digit_val "0") with (Some 0) in Hz. injection Hz as Hz. lia. }
  assert (is_number (String c s) = true) as Hn.
  { unfold is_number. cbn [expect]. destruct (Ascii.eqb_spec c "-") as [->|_]; [done|].
    cbn [default expect]. destruct (Ascii.eqb_spec c "0") as [->|_]; [by rewrite H0|].
    rewrite <- (string_app_nil_r (String c s)), span_text; [done| |done].
    cbn [string_forallb]. by rewrite Hc, Hs. }
  split; [done|]. unfold is_number in *. rewrite string_app_cons. change ("" +:+ ?x) with x.
  cbn [expect] in *. rewrite Ascii.eqb_refl. cbn [default].
  destruct (Ascii.eqb_spec c "-") as [->|_]; [done|]. cbn [default expect] in *. done.
Qed.

Lemma Itoa_number z : is_number (Itoa z) = true /\ string_forallb number_byte (Itoa z) = true.
Proof.
  destruct z as [|p|p]; [done| |].
  - split; [apply (pretty_number (N.pos p))|apply digit_number_byte, (pretty_digits (N.pos p))].
  - split; [apply (pretty_number (N.pos p))|].
    change (Itoa (Z.neg p)) with ("-" +:+ pretty (N.pos p)). rewrite string_forallb_app.
    apply (digit_number_byte _ (pretty_digits (N.pos p))).
Qed.

Lemma read_Itoa n d z rest :
  stops number_byte rest = true -> read_value (S n) d (Itoa z +:+ rest) = Some (JNum (Itoa z), rest).
Proof. intros Hr. destruct (Itoa_number z) as [Hn Hb]. by apply read_number. Qed.

(** ** A value is read alike in front of other texts *)

(** [r'] may replace the rest [r]: it begins alike or is empty. *)
Definition tail_ok (r r' : string) : Prop :=
  match r' with EmptyString => True | String c _ => exists x, r = String c x end.

Lemma tail_app t r r' : t <> ""%string -> tail_ok (t +:+ r) (t +:+ r').
Proof. destruct t as [|c t]; [done|]. intros _. rewrite !string_app_cons. by eexists. Qed.

Lemma tail_stops f r r' : stops f r = true -> tail_ok r r' -> stops f r' = true.
Proof. destruct r' as [|c r']; [done|]. intros Hr [x ->]. exact Hr. Qed.

Lemma raw_of_app p rest : raw_of (p +:+ rest) rest = p.
Proof.
  unfold raw_of. rewrite length_string_app.
  replace (String.length p + String.length rest - String.length rest)%nat with (String.length p) by lia.
  apply substring_prefix.
Qed.

(** The bytes a value begins with. *)
Definition starts_value (p : string) : Prop :=
  exists c p', p = String c p' /\ space c = false.

Definition value_local (n : nat) : Prop := forall d s v rest,
  read_value n d s = Some (v, rest) ->
  exists p, s = p +:+ rest /\ starts_value p /\
    forall d' rest', d' <= d -> tail_ok rest rest' -> read_value n d' (p +:+ rest') = Some (v, rest').
Definition sequence_local {A} (read : Z -> string -> option (A * string)) : Prop := forall d s v rest,
  read d s = Some (v, rest) ->
  exists p, s = p +:+ rest /\ starts_value p /\
    forall d' rest', d' <= d -> read d' (p +:+ rest') = Some (v, rest').

Lemma literal_local s v rest :
  read_literal s = Some (v, rest) ->
  exists p, s = p +:+ rest /\ starts_value p /\
    forall rest', tail_ok rest rest' -> read_literal (p +:+ rest') = Some (v, rest').
Proof.
  unfold read_literal. destruct (strip "null" s) as [r|] eqn:Hn.
  { intros [= <- <-]. apply strip_split in Hn as ->. exists "null"%string.
    split_and!; [done|by do 2 eexists|]. intros rest' _. by rewrite strip_text. }
  destruct (strip "true" s) as [r|] eqn:Ht.
  { intros [= <- <-]. apply strip_split in Ht as ->. exists "true"%string.
    split_and!; [done|by do 2 eexists|]. intros rest' _. by rewrite strip_text. }
  destruct (strip "false" s) as [r|] eqn:Hf.
  { intros [= <- <-]. apply strip_split in Hf as ->. exists "false"%string.
    split_and!; [done|by do 2 eexists|]. intros rest' _. by rewrite strip_text. }
  destruct (span number_byte s) as [t r] eqn:Hs. destruct (is_number t) eqn:Hnum; [|done].
  intros [= <- <-]. apply span_split in Hs as (-> & Hb & Hr). exists t. split_and!; [done| |].
  - destruct (number_head t Hnum) as (c & t' & -> & Hc). do 2 eexists. split; [done|].
    destruct (space c) eqn:Hsp; [|done]. unfold space in Hsp.
    repeat apply orb_true_iff in Hsp as [Hsp|Hsp]; apply Ascii.eqb_eq in Hsp as ->;
      destruct Hc as [Hc|Hc]; discriminate Hc.
  - intros rest' Htail. pose proof (tail_stops _ _ _ Hr Htail) as Hr'.
    pose proof (read_number 0 0 t rest' Hnum Hb Hr') as Hread.
    destruct (number_head t Hnum) as (c & t' & -> & Hc). rewrite string_app_cons in *.
    assert (forall x, is_digit x = false -> x <> "-"%char -> Ascii.eqb c x = false) as Hx.
    { intros x Hd Hm. apply Ascii.eqb_neq; intros ->; by destruct Hc; congruence. }
    cbn [read_value] in Hread. rewrite (Hx "{"%char eq_refl ltac:(done)),
      (Hx "["%char eq_refl ltac:(done)), (Hx quote eq_refl ltac:(done)) in Hread. exact Hread.
Qed.

Lemma scan_local s raw rest rest' :
  scan_string s = Some (raw, rest) ->
  s = raw +:+ dquote +:+ rest /\ scan_string (raw +:+ dquote +:+ rest') = Some (raw, rest').
Proof. intros Hs. apply scannable_scan in Hs as [-> Hsc]. split; [done|by apply scan_scannable]. Qed.

Lemma starts_skip p s : starts_value p -> skip (p +:+ s) = p +:+ s.
Proof. intros (c & p' & -> & Hc). rewrite string_app_cons. cbn. by rewrite Hc. Qed.

(** White space up to a given character. *)
Lemma skip_to p s rest :
  strip p (skip s) = Some rest -> stops space p = true -> p <> ""%string ->
  exists ws, s = ws +:+ p +:+ rest /\
    forall rest', strip p (skip (ws +:+ p +:+ rest')) = Some rest'.
Proof.
  intros Hs Hp Hne. apply strip_split in Hs. destruct (skip_split s) as (ws & Hws & Hsp).
  rewrite Hs in Hws. exists ws. split; [done|]. intros rest'.
  rewrite skip_spaces by done. destruct p as [|c p]; [done|]. rewrite string_app_cons.
  rewrite skip_id by done. rewrite <- string_app_cons. apply strip_text.
Qed.

Lemma strip_one_local a p r r' :
  p <> ""%string -> strip (String a "") (p +:+ r) = None -> strip (String a "") (p +:+ r') = None.
Proof.
  destruct p as [|c p]; [done|]. intros _. rewrite !string_app_cons. cbn [strip].
  by destruct (Ascii.eqb a c).
Qed.

Lemma starts_nonempty p : starts_value p -> p <> ""%string.
Proof. by intros (c & p' & -> & _). Qed.

(** White space and a value after it. *)
Lemma skip_before {A} (read : Z -> string -> option (A * string)) d s v rest :
  sequence_local read -> read d (skip s) = Some (v, rest) ->
  exists ws p, s = ws +:+ p +:+ rest /\ starts_value p /\
    forall d' rest', d' <= d -> skip (ws +:+ p +:+ rest') = p +:+ rest' /\
      read d' (p +:+ rest') = Some (v, rest').
Proof.
  intros Hloc Hr. destruct (skip_split s) as (ws & Hs & Hsp).
  destruct (Hloc _ _ _ _ Hr) as (p & Hp & Hstart & Hread). rewrite Hp in Hs.
  exists ws, p. split_and!; [done..|]. intros d' rest' Hd.
  rewrite skip_spaces, starts_skip by done. split; [done|by apply Hread].
Qed.

Lemma bracket_local {A} open close (read : Z -> string -> option (list A * string)) :
  space open = false -> space close = false ->
  sequence_local read -> sequence_local (read_bracket open close read).
Proof.
  intros Hopen Hclose Hloc d s v rest. unfold read_bracket.
  destruct (strip (String open "") s) as [s1|] eqn:Hs; [|done]. apply strip_split in Hs as ->.
  cbn [mbind option_bind]. destruct (Z.leb_spec maxNestingDepth d); [done|].
  destruct (strip (String close "") (skip s1)) as [r|] eqn:Hstrip.
  - intros [= <- <-]. destruct (skip_to _ _ _ Hstrip) as (ws & -> & Hws); [cbn; by rewrite Hclose|done|].
    exists (String open "" +:+ ws +:+ String close ""). rewrite !string_app_assoc.
    split_and!; [done|by do 2 eexists|]. intros d' rest' Hd.
    rewrite !string_app_assoc, strip_text. cbn [mbind option_bind].
    rewrite (proj2 (Z.leb_gt _ _)) by lia. by rewrite Hws.
  - intros Hr. destruct (skip_before _ _ _ _ _ Hloc Hr) as (ws & p & -> & Hstart & Hread).
    exists (String open "" +:+ ws +:+ p). rewrite !string_app_assoc.
    split_and!; [done|by do 2 eexists|]. intros d' rest' Hd.
    destruct (Hread (d' + 1) rest' ltac:(lia)) as [Hskip Hread']. destruct (Hread (d + 1) rest ltac:(lia)) as [Hskip0 _].
    rewrite !string_app_assoc, strip_text. cbn [mbind option_bind].
    rewrite (proj2 (Z.leb_gt _ _)) by lia. rewrite Hskip. rewrite Hskip0 in Hstrip.
    rewrite (strip_one_local close p rest rest'); [done|by apply starts_nonempty|done].
Qed.

Lemma next_local {A} close (read : Z -> string -> option (list A * string)) d x s v rest :
  space close = false -> sequence_local read -> read_next close (read d) x s = Some (v, rest) ->
  exists t, s = t +:+ rest /\ t <> ""%string /\
    forall d' rest', d' <= d -> read_next close (read d') x (t +:+ rest') = Some (v, rest').
Proof.
  intros Hclose Hloc. unfold read_next. destruct (strip (String close "") (skip s)) as [r|] eqn:Hend.
  - intros [= <- <-]. destruct (skip_to _ _ _ Hend) as (ws & -> & Hws); [cbn; by rewrite Hclose|done|].
    exists (ws +:+ String close ""). rewrite string_app_assoc. split_and!; [done|by destruct ws|].
    intros d' rest' _. rewrite string_app_assoc. by rewrite Hws.
  - destruct (strip "," (skip s)) as [r|] eqn:Hnext; [|done].
    destruct (read d (skip r)) as [[xs r']|] eqn:Hr; [|done]. intros [= <- <-].
    destruct (skip_to _ _ _ Hnext) as (ws & -> & Hws); [done..|].
    destruct (skip_before _ _ _ _ _ Hloc Hr) as (ws' & p & -> & Hstart & Hread).
    exists (ws +:+ "," +:+ ws' +:+ p). rewrite !string_app_assoc. split_and!; [done|by destruct ws|].
    intros d' rest' Hd. rewrite !string_app_assoc, Hws.
    destruct (Hread d' rest' Hd) as [-> ->]. cbn [mbind option_bind].
    assert (forall r1 r2 : string, skip (ws +:+ "," +:+ r1) = "," +:+ r1) as Hskip.
    { intros r1 _. specialize (Hws r1). by apply strip_split in Hws. }
    rewrite Hskip in Hend |- * by exact ""%string.
    by rewrite (strip_one_local close "," (ws' +:+ p +:+ r')).
Qed.

Lemma string_local s t rest :
  read_string s = Some (t, rest) ->
  exists p, s = p +:+ rest /\ starts_value p /\
    forall rest', read_string (p +:+ rest') = Some (t, rest').
Proof.
  unfold read_string. destruct (strip dquote s) as [s1|] eqn:Hs; [|done].
  apply strip_split in Hs as ->. cbn [mbind option_bind].
  destruct (scan_string s1) as [[raw r]|] eqn:Hscan; [|done]. cbn [mbind option_bind].
  destruct (unquote raw) as [t'|] eqn:Hu; [|done]. intros [= <- <-].
  apply scannable_scan in Hscan as [-> Hsc]. exists (dquote +:+ raw +:+ dquote).
  rewrite !string_app_assoc. split_and!; [done|by do 2 eexists|].
  intros rest'. rewrite !string_app_assoc. by apply read_string_scanned.
Qed.

Lemma members_local_S n :
  value_local n -> sequence_local (read_members n) -> sequence_local (read_members (S n)).
Proof.
  intros Hv Hm d s v rest. cbn [read_members].
  destruct (read_string s) as [[key s1]|] eqn:Hkey; [|done]. cbn [mbind option_bind].
  apply string_local in Hkey as (pk & -> & Hstart & Hkey).
  destruct (strip ":" (skip s1)) as [s2|] eqn:Hcolon; [|done]. cbn [mbind option_bind].
  destruct (skip_to _ _ _ Hcolon) as (ws & -> & Hws); [done..|].
  destruct (read_value n d (skip s2)) as [[x s3]|] eqn:Hx; [|done]. cbn [mbind option_bind].
  destruct (skip_split s2) as (ws2 & Hs2 & Hsp2).
  apply Hv in Hx as (pv & Hpv & Hstartv & Hx). rewrite Hpv in Hs2 |- *. rewrite raw_of_app.
  subst s2. intros Hnext.
  eapply next_local in Hnext as (t & -> & Ht & Hnext); [|done|done].
  exists (pk +:+ ws +:+ ":" +:+ ws2 +:+ pv +:+ t). rewrite !string_app_assoc.
  split_and!; [done|destruct Hstart as (c & p' & -> & Hc); by do 2 eexists|].
  intros d' rest' Hd. rewrite !string_app_assoc, Hkey. cbn [mbind option_bind].
  rewrite Hws. cbn [mbind option_bind]. rewrite skip_spaces, starts_skip by done.
  rewrite Hx by (done || by apply tail_app). cbn [mbind option_bind]. rewrite raw_of_app.
  by apply Hnext.
Qed.

Lemma elements_local_S n :
  value_local n -> sequence_local (read_elements n) -> sequence_local (read_elements (S n)).
Proof.
  intros Hv He d s v rest. cbn [read_elements].
  destruct (read_value n d s) as [[x s1]|] eqn:Hx; [|done]. cbn [mbind option_bind].
  apply Hv in Hx as (pv & -> & Hstart & Hx). intros Hnext.
  eapply next_local in Hnext as (t & -> & Ht & Hnext); [|done|done].
  exists (pv +:+ t). rewrite string_app_assoc. 
  split_and!; [done|destruct Hstart as (c & p' & -> & Hc); by do 2 eexists|].
  intros d' rest' Hd. rewrite string_app_assoc, Hx by (done || by apply tail_app).
  cbn [mbind option_bind]. by apply Hnext.
Qed.

Lemma value_local_S n :
  sequence_local (read_members n) -> sequence_local (read_elements n) -> value_local (S n).
Proof.
  intros Hm He d s v rest. destruct s as [|c s]; [done|]. cbn [read_value].
  destruct (Ascii.eqb_spec c "{") as [->|Hc1]; [|destruct (Ascii.eqb_spec c "[") as [->|Hc2];
    [|destruct (Ascii.eqb_spec c quote) as [->|Hc3]]].
  - destruct (read_bracket _ _ _ _ _) as [[ms r]|] eqn:Hr; [|done]. intros [= <- <-].
    eapply bracket_local in Hr as (p & Hp & Hstart & Hloc); [|done..].
    exists p. split_and!; [done..|]. intros d' rest' Hd _. specialize (Hloc d' rest' Hd).
    destruct Hstart as (c & p' & -> & Hc). rewrite string_app_cons in *. injection Hp as <- _.
    cbn [read_value]. by rewrite Ascii.eqb_refl, Hloc.
  - destruct (read_bracket _ _ _ _ _) as [[ms r]|] eqn:Hr; [|done]. intros [= <- <-].
    eapply bracket_local in Hr as (p & Hp & Hstart & Hloc); [|done..].
    exists p. split_and!; [done..|]. intros d' rest' Hd _. specialize (Hloc d' rest' Hd).
    destruct Hstart as (c & p' & -> & Hc). rewrite string_app_cons in *. injection Hp as <- _.
    cbn [read_value]. change (Ascii.eqb "[" "{") with false. by rewrite Ascii.eqb_refl, Hloc.
  - destruct (read_string _) as [[t r]|] eqn:Hr; [|done]. intros [= <- <-].
    apply string_local in Hr as (p & Hp & Hstart & Hloc).
    exists p. split_and!; [done..|]. intros d' rest' _ _. specialize (Hloc rest').
    destruct Hstart as (c & p' & -> & Hc). rewrite string_app_cons in *. injection Hp as <- _.
    cbn [read_value]. change (Ascii.eqb quote "{") with false. change (Ascii.eqb quote "[") with false.
    by rewrite Ascii.eqb_refl, Hloc.
  - intros Hr. apply literal_local in Hr as (p & Hp & Hstart & Hloc).
    exists p. split_and!; [done..|]. intros d' rest' _ Htail. specialize (Hloc rest' Htail).
    destruct Hstart as (c' & p' & -> & Hc). rewrite string_app_cons in *. injection Hp as <- _.
    cbn [read_value]. by rewrite !(proj2 (Ascii.eqb_neq _ _)) by done.
Qed.

Lemma read_local n :
  value_local n /\ sequence_local (read_members n) /\ sequence_local (read_elements n).
Proof.
  induction n as [|n (IHv & IHm & IHe)]; [by split_and!; intros d s v rest|].
  split_and!; [by apply value_local_S|by apply members_local_S|by apply elements_local_S].
Qed.

(** ** Fuel: more bytes than there are, and the depth of nesting

    A byte costs at most two units: one for the value it begins and one for
    the sequence that value is in. *)

Lemma skip_length s : (String.length (skip s) <= String.length s)%nat.
Proof. induction s as [|c s IH]; [done|]. cbn. destruct (space c); cbn; lia. Qed.

Lemma strip_length p s r :
  strip p s = Some r -> String.length s = (String.length p + String.length r)%nat.
Proof. intros ->%strip_split. apply length_string_app. Qed.

Definition fuelled {A} (k : nat) (read read' : Z -> string -> option (A * string)) (m : nat) : Prop :=
  forall d s x, (2 * String.length s + k < m)%nat -> read d s = Some x -> read' d s = Some x.

Lemma bracket_fuel {A} open close (read read' : Z -> string -> option (list A * string)) m :
  fuelled 1 read read' m ->
  fuelled 0 (read_bracket open close read) (read_bracket open close read') (S m).
Proof.
  intros Hf d s x Hlen. unfold read_bracket.
  destruct (strip (String open "") s) as [s1|] eqn:Hs; [|done]. apply strip_length in Hs.
  cbn [mbind option_bind]. destruct (maxNestingDepth <=? d); [done|].
  destruct (strip (String close "") (skip s1)); [done|]. apply Hf.
  pose proof (skip_length s1). cbn [String.length] in Hs. lia.
Qed.

Lemma next_fuel {A} close (read read' : Z -> string -> option (list A * string)) m d x s y :
  fuelled 1 read read' m -> (2 * String.length s <= m)%nat ->
  read_next close (read d) x s = Some y -> read_next close (read' d) x s = Some y.
Proof.
  intros Hf Hlen. unfold read_next. destruct (strip (String close "") (skip s)); [done|].
  destruct (strip "," (skip s)) as [r|] eqn:Hs; [|done]. apply strip_length in Hs.
  destruct (read d (skip r)) as [z|] eqn:Hr; [|done].
  rewrite (Hf d (skip r) z ltac:(pose proof (skip_length s); pose proof (skip_length r);
    cbn [String.length] in Hs; lia) Hr). done.
Qed.

Lemma starts_length p s : starts_value p -> (String.length s < String.length (p +:+ s))%nat.
Proof. intros (c & p' & -> & _). rewrite length_string_app. cbn [String.length]. lia. Qed.

Lemma read_fuel n : forall m,
  fuelled 0 (read_value n) (read_value m) m /\ fuelled 1 (read_members n) (read_members m) m /\
  fuelled 1 (read_elements n) (read_elements m) m.
Proof.
  induction n as [|n IH]; intros m; [by split_and!; intros d s x|].
  destruct m as [|m]; [split_and!; intros d s x Hlen; lia|].
  destruct (IH m) as (IHv & IHm & IHe). destruct (read_local n) as (Hv & _ & _).
  split_and!; intros d s x Hlen.
  - destruct s as [|c s]; [done|]. cbn [read_value].
    destruct (Ascii.eqb c "{"); [|destruct (Ascii.eqb c "["); [|done]].
    + destruct (read_bracket _ _ (read_members n) _ _) as [y|] eqn:Hr; [|done].
      by rewrite (bracket_fuel _ _ _ _ _ IHm _ _ _ Hlen Hr).
    + destruct (read_bracket _ _ (read_elements n) _ _) as [y|] eqn:Hr; [|done].
      by rewrite (bracket_fuel _ _ _ _ _ IHe _ _ _ Hlen Hr).
  - cbn [read_members]. destruct (read_string s) as [[key s1]|] eqn:Hkey; [|done].
    apply string_local in Hkey as (p & -> & Hstart & _). apply (starts_length _ s1) in Hstart.
    cbn [mbind option_bind]. destruct (strip ":" (skip s1)) as [s2|] eqn:Hs2; [|done].
    apply strip_length in Hs2. cbn [mbind option_bind].
    pose proof (skip_length s1). pose proof (skip_length s2). cbn [String.length] in Hs2.
    destruct (read_value n d (skip s2)) as [[v s3]|] eqn:Hr; [|done].
    erewrite (IHv d) by (exact Hr || lia). cbn [mbind option_bind].
    destruct (Hv _ _ _ _ Hr) as (pv & Hpv & Hstartv & _). apply (starts_length _ s3) in Hstartv.
    rewrite <- Hpv in Hstartv. apply (next_fuel _ _ _ m); [exact IHm|lia].
  - cbn [read_elements]. destruct (read_value n d s) as [[v s1]|] eqn:Hr; [|done].
    erewrite (IHv d) by (exact Hr || lia). cbn [mbind option_bind].
    destruct (Hv _ _ _ _ Hr) as (p & -> & Hstart & _). apply (starts_length _ s1) in Hstart.
    apply (next_fuel _ _ _ m); [exact IHe|lia].
Qed.

(** ** The text of a value is a text of its own *)

Lemma read_whole n d s v :
  read_value n d s = Some (v, ""%string) -> 0 <= d -> parse s = Some v.
Proof.
  intros Hr Hd. destruct (read_local n) as (Hv & _).
  destruct (Hv _ _ _ _ Hr) as (p & Hs & Hstart & Hloc).
  specialize (Hloc 0 ""%string Hd I). rewrite <- Hs in Hloc.
  assert (skip s = s) as Hskip by (rewrite Hs; by apply starts_skip).
  unfold parse. rewrite Hskip. destruct (read_fuel n (S (2 * String.length s))) as (Hf & _).
  rewrite (Hf 0 s _ ltac:(lia) Hloc). done.
Qed.

Lemma read_raw n d s v rest :
  read_value n d s = Some (v, rest) -> 0 <= d -> parse (raw_of s rest) = Some v.
Proof.
  intros Hr Hd. destruct (read_local n) as (Hv & _).
  destruct (Hv _ _ _ _ Hr) as (p & -> & Hstart & Hloc). rewrite raw_of_app.
  apply (read_whole n d); [|done]. rewrite <- (string_app_nil_r p). by apply Hloc.
Qed.

(** The members of an object come with texts that denote their values. *)
Lemma members_raw n d s ms rest :
  read_members n d s = Some (ms, rest) -> 0 <= d ->
  Forall (fun m => parse m.1.2 = Some m.2) ms.
Proof.
  intros Hr Hd. revert s ms rest Hr. induction n as [|n IH]; intros s ms rest; [done|].
  cbn [read_members]. destruct (read_string s) as [[key s1]|]; [|done]. cbn [mbind option_bind].
  destruct (strip ":" (skip s1)) as [s2|]; [|done]. cbn [mbind option_bind].
  destruct (read_value n d (skip s2)) as [[v s3]|] eqn:Hv; [|done]. cbn [mbind option_bind].
  apply read_raw in Hv; [|done]. unfold read_next.
  destruct (strip _ _); [intros [= <- _]; by constructor|].
  destruct (strip _ _) as [r|]; [|done].
  destruct (read_members n d (skip r)) as [[xs r']|] eqn:Hxs; [|done]. intros [= <- _].
  constructor; [done|]. by eapply IH.
Qed.

Lemma object_raw s ms :
  parse s = Some (JObj ms) -> Forall (fun m => parse m.1.2 = Some m.2) ms.
Proof.
  unfold parse. destruct (skip s) as [|c s']; [done|]. cbn [read_value].
  destruct (Ascii.eqb c "{").
  - unfold read_bracket. destruct (strip _ _) as [s1|]; [|done]. cbn [mbind option_bind].
    destruct (maxNestingDepth <=? 0); [done|]. destruct (strip _ _) as [r|].
    + cbn [mbind option_bind]. destruct (String.eqb _ _); [|done]. intros [= <-]. constructor.
    + destruct (read_members _ _ _) as [[ms' r]|] eqn:Hm; [|done]. cbn [mbind option_bind].
      destruct (String.eqb _ _); [|done]. intros [= <-]. by eapply members_raw.
  - assert (forall (o : option (json * string)), (forall r, o <> Some (JObj ms, r)) ->
      ('(v, rest) ← o; if String.eqb (skip rest) "" then Some v else None) <> Some (JObj ms)) as Ho.
    { intros [[v r]|] Hno; [|done]. cbn. destruct (String.eqb _ _); [|done]. intros [= ->].
      by apply (Hno r). }
    intros Hp. exfalso. revert Hp. apply Ho. intros r. destruct (Ascii.eqb c "[").
    { by destruct (read_bracket _ _ _ _ _) as [[]|]. }
    destruct (Ascii.eqb c quote); [by destruct (read_string _) as [[]|]|].
    unfold read_literal. repeat case_match; try done; congruence.
Qed.
