(* ===== verification/Json.v ===== *)
(** * JSON and Go types: encoding/json on structs

    [json.Unmarshal] (Go 1.24) into the structs of the repository, on every
    text: how a field is found by its key, what each type of field takes and
    what it does with null, and [json.Marshal] of [domain.Task], which is what
    Redis stores under the meta key and what the Kafka messages carry.  Only
    the texts of the decoder's errors are a parameter. *)

From stdpp Require Import pretty.
From S2P Require Import Prelude GoStrings GoTime Domain JsonText.

(** ** Fields *)

(** What decoding into a value of type [B] does: from the text of a JSON
    value, the value itself and what is there already, to the new value, or
    an error.  [Unmarshal] goes on after some errors, but none of its callers
    looks at a value that came with one. *)
Definition loader (B : Type) : Type := string -> json -> B -> option B.

Definition load_string : loader string := fun _ v old =>
  match v with JStr s => Some s | JNull => Some old | _ => None end.

Definition in_int64b (z : Z) : bool := in_range MinInt64 MaxInt64 z.

Definition load_int : loader Z := fun _ v old =>
  match v with
  | JNum t => z ← ParseInt t; if in_int64b z then Some z else None
  | JNull => Some old
  | _ => None
  end.

(** [Time.UnmarshalJSON] goes by the text, escapes and all. *)
Definition time_text (raw : string) : option Time :=
  parseStrictRFC3339 (String.substring 1 (String.length raw - 2) raw).
Definition load_time : loader Time := fun raw v old =>
  match v with JStr _ => time_text raw | JNull => Some old | _ => None end.
Definition load_opt_time : loader (option Time) := fun raw v _ =>
  match v with JStr _ => Some <$> time_text raw | JNull => Some None | _ => None end.

(** [json.RawMessage] keeps the text, null included. *)
Definition load_raw : loader (option string) := fun raw _ _ => Some (Some raw).

(** [map[string]string]: into the map that is there; null in it is the zero
    value. *)
Fixpoint load_entries (ms : list (string * string * json)) (m : gmap string string)
  : option (gmap string string) :=
  match ms with
  | [] => Some m
  | (k, _, JStr s) :: ms' => load_entries ms' (<[k := s]> m)
  | (k, _, JNull) :: ms' => load_entries ms' (<[k := ""%string]> m)
  | _ => None
  end.
Definition load_map : loader (gmap string string) := fun _ v old =>
  match v with JObj ms => load_entries ms old | JNull => Some ∅ | _ => None end.

(** ** Bytes: base64 with padding, an array of numbers, or null for nil *)

Definition base64_alphabet : string :=
  "ABCDEFGHIJKLMNOPQRSTUVWXYZabcdefghijklmnopqrstuvwxyz0123456789+/".

Definition base64_char (v : Z) : ascii :=
  default "="%char (String.get (Z.to_nat v) base64_alphabet).

Definition base64_val (c : ascii) : option Z :=
  Z.of_nat <$> String.index 0 (String c "") base64_alphabet.

Fixpoint base64 (s : string) : string :=
  match s with
  | EmptyString => ""
  | String a EmptyString =>
      let a := byte_val a in
      String (base64_char (a / 4)) (String (base64_char (a mod 4 * 16)) "==")
  | String a (String b EmptyString) =>
      let a := byte_val a in let b := byte_val b in
      String (base64_char (a / 4)) (String (base64_char (a mod 4 * 16 + b / 16))
        (String (base64_char (b mod 16 * 4)) "="))
  | String a (String b (String c s')) =>
      let a := byte_val a in let b := byte_val b in let c := byte_val c in
      String (base64_char (a / 4)) (String (base64_char (a mod 4 * 16 + b / 16))
        (String (base64_char (b mod 16 * 4 + c / 64)) (String (base64_char (c mod 64))
          (base64 s'))))
  end.

(** [base64.StdEncoding]: line breaks are skipped, stray bits of the last
    sextet ignored. *)
Fixpoint unbase64 (s : string) : option string :=
  match s with
  | EmptyString => Some ""%string
  | String c1 (String c2 (String c3 (String c4 s4))) =>
      v1 ← base64_val c1; v2 ← base64_val c2;
      let b1 := byte_of (v1 * 4 + v2 / 16) in
      if Ascii.eqb c3 "=" && Ascii.eqb c4 "=" then
        if String.eqb s4 "" then Some (String b1 "") else None
      else
        v3 ← base64_val c3;
        let b2 := byte_of (v2 mod 16 * 16 + v3 / 4) in
        if Ascii.eqb c4 "=" then
          if String.eqb s4 "" then Some (String b1 (String b2 "")) else None
        else
          v4 ← base64_val c4;
          x ← unbase64 s4;
          Some (String b1 (String b2 (String (byte_of (v3 mod 4 * 64 + v4)) x)))
  | _ => None
  end.
Fixpoint no_breaks (s : string) : string :=
  match s with
  | EmptyString => ""
  | String c s' =>
      if Ascii.eqb c (byte_of 10) || Ascii.eqb c (byte_of 13) then no_breaks s'
      else String c (no_breaks s')
  end.

Definition write_bytes (b : option string) : string :=
  match b with None => "null" | Some s => dquote +:+ base64 s +:+ dquote end.

(** A slice with the bytes of its backing array, as far as they are not
    zero: an element that is null keeps what was there. *)
Definition slice : Type := option string * string.

Fixpoint load_array (l : list json) (buf : string) : option string :=
  match l with
  | [] => Some ""%string
  | v :: l' =>
      let '(old, buf') := match buf with String c s => (c, s) | EmptyString => (zero, buf) end in
      c ← match v with
          | JNum t => z ← parse_digits 0 t; if z <=? 255 then Some (byte_of z) else None
          | JNull => Some old
          | _ => None
          end;
      String c <$> load_array l' buf'
  end.
Definition load_bytes : loader slice := fun _ v '(_, buf) =>
  match v with
  | JStr s => b ← unbase64 (no_breaks s); Some (Some b, b)
  | JArr [] => Some (Some ""%string, ""%string)
  | JArr l =>
      b ← load_array l buf; Some (Some b, b +:+ drop_bytes (String.length b) buf)
  | JNull => Some (None, ""%string)
  | _ => None
  end.

Example bytes_ex :
  write_bytes (Some "light work.") = dquote +:+ "bGlnaHQgd29yay4=" +:+ dquote /\
  load_bytes "" (JStr ("bGlnaHQg" +:+ String (byte_of 10) "d28=")) (None, "")
    = Some (Some "light wo", "light wo")%string /\
  load_bytes "" (JArr [JNull; JNum "98"; JNull]) (Some "xy", "xyz")
    = Some (Some "xbz", "xbz")%string /\
  load_bytes "" (JArr [JNum "256"]) (None, "") = None /\
  load_bytes "" (JArr [JNum "1.0"]) (None, "") = None.
Proof. vm_compute. done. Qed.

(** ** Structs *)

(** A field of a struct [A]: its name and what a member of that name does. *)
Definition fields (A : Type) : Type := list (string * loader A).

(** A field of type [B], read and written by [get] and [put]. *)
Definition field_of {A B} (load : loader B) (get : A -> B) (put : B -> A -> A) : loader A :=
  fun raw v a => b ← load raw v (get a); Some (put b a).

(** [foldName], as far as it can meet the name of a field: no other rune folds
    into ASCII. *)
Definition fold_rune (r : Z) : Z :=
  if in_range 97 122 r then r - 32
  else if r =? 383 then 83 else if r =? 8490 then 75 else r.
Definition fold_name (s : string) : string :=
  foldr (fun x acc => encode_rune (fold_rune x.1.1) +:+ acc) "" (runes s).

Fixpoint find_field {A} (same : string -> bool) (fs : fields A) : option (loader A) :=
  match fs with
  | [] => None
  | (name, set) :: fs' => if same name then Some set else find_field same fs'
  end.

(** The field of a key: by its exact name, or else by case folding. *)
Definition lookup_field {A} (fs : fields A) (key : string) : option (loader A) :=
  match find_field (String.eqb key) fs with
  | Some set => Some set
  | None => find_field (fun name => String.eqb (fold_name name) (fold_name key)) fs
  end.

(** The members one after the other; one without a field is skipped. *)
Fixpoint decode_members {A} (fs : fields A) (ms : list (string * string * json)) (a : A) : option A :=
  match ms with
  | [] => Some a
  | (key, raw, v) :: ms' =>
      a' ← match lookup_field fs key with Some set => set raw v a | None => Some a end;
      decode_members fs ms' a'
  end.

Definition decode_struct {A} (fs : fields A) (v : json) (a : A) : option A :=
  match v with JObj ms => decode_members fs ms a | JNull => Some a | _ => None end.

(** The text of the error for a type and a text that does not decode. *)
Class JsonTexts := json_error : string -> string -> string.

(** [json.Unmarshal] into a variable of the struct type [ty] that holds [a]. *)
Definition Unmarshal `{JsonTexts} {A} (ty : string) (fs : fields A) (a : A) (s : string) : goresult A :=
  match v ← parse s; decode_struct fs v a with
  | Some a' => Ok a'
  | None => Err (ErrNew (json_error ty s))
  end.

(** ** A task as text (task.go:24-36) *)

(** [MarshalJSON] of a [time.Time] field. *)
Definition write_time (ty : string) (t : Time) : goresult string :=
  match MarshalTime t with
  | Ok s => Ok s
  | Err e => Err (ErrWrap ("json: error calling MarshalJSON for type " +:+ ty) e)
  end.

Definition field (name : string) : string := dquote +:+ name +:+ dquote +:+ ":".

(** [omitempty] leaves a nil pointer out. *)
Definition write_opt_time (name : string) (t : option Time) : goresult string :=
  match t with
  | None => Ok ""%string
  | Some t =>
      match write_time "*time.Time" t with
      | Ok s => Ok ("," +:+ field name +:+ s)
      | Err e => Err e
      end
  end.

Definition json_marshalTask (t : Task.t) : goresult string :=
  match write_time "time.Time" t.(Task.CreatedAt) with
  | Err e => Err e
  | Ok created =>
    match write_time "time.Time" t.(Task.UpdatedAt) with
    | Err e => Err e
    | Ok updated =>
      match write_opt_time "scheduled_at" t.(Task.ScheduledAt) with
      | Err e => Err e
      | Ok scheduled =>
        match write_opt_time "completed_at" t.(Task.CompletedAt) with
        | Err e => Err e
        | Ok completed =>
            Ok ("{" +:+ field "id" +:+ write_string t.(Task.ID) +:+
                "," +:+ field "type" +:+ write_string t.(Task.Type_) +:+
                "," +:+ field "payload" +:+ write_bytes t.(Task.Payload) +:+
                "," +:+ field "status" +:+ write_string t.(Task.Status_) +:+
                "," +:+ field "priority" +:+ Itoa t.(Task.Priority) +:+
                "," +:+ field "attempts" +:+ Itoa t.(Task.Attempts) +:+
                "," +:+ field "max_retries" +:+ Itoa t.(Task.MaxRetries) +:+
                "," +:+ field "created_at" +:+ created +:+
                "," +:+ field "updated_at" +:+ updated +:+
                scheduled +:+ completed +:+ "}")
        end
      end
    end
  end.

(** The fields of [domain.Task], decoded next to the backing array of the
    payload. *)
Definition task_field {B} (load : loader B) (get : Task.t -> B) (put : B -> Task.t -> Task.t)
  : loader (Task.t * string) :=
  field_of load (fun a => get a.1) (fun b a => (put b a.1, a.2)).

Definition task_json : fields (Task.t * string) := [
  ("id", task_field load_string Task.ID Task.set_ID);
  ("type", task_field load_string Task.Type_ Task.set_Type);
  ("payload", field_of load_bytes (fun a => (a.1.(Task.Payload), a.2))
                (fun b a => (Task.set_Payload b.1 a.1, b.2)));
  ("status", task_field load_string Task.Status_ Task.set_Status);
  ("priority", task_field load_int Task.Priority Task.set_Priority);
  ("attempts", task_field load_int Task.Attempts Task.set_Attempts);
  ("max_retries", task_field load_int Task.MaxRetries Task.set_MaxRetries);
  ("created_at", task_field load_time Task.CreatedAt Task.set_CreatedAt);
  ("updated_at", task_field load_time Task.UpdatedAt Task.set_UpdatedAt);
  ("scheduled_at", task_field load_opt_time Task.ScheduledAt Task.set_ScheduledAt);
  ("completed_at", task_field load_opt_time Task.CompletedAt Task.set_CompletedAt)]%string.

(** [json.Unmarshal] into a fresh [domain.Task]. *)
Definition json_unmarshalTask `{JsonTexts} (s : string) : goresult Task.t :=
  match Unmarshal "domain.Task" task_json (Task.zero, ""%string) s with
  | Ok (t, _) => Ok t
  | Err e => Err e
  end.

(** What the struct's types and encoding/json's UTF-8 allow. *)
Definition wf_task (t : Task.t) : bool :=
  ValidString t.(Task.ID) && ValidString t.(Task.Type_) && ValidString t.(Task.Status_) &&
  in_int64b t.(Task.Priority) && in_int64b t.(Task.Attempts) && in_int64b t.(Task.MaxRetries).

(** ** Base64 there and back *)

Definition base64_ok (v : Z) : bool :=
  let c := base64_char v in
  bool_decide (base64_val c = Some v) && negb (Ascii.eqb c "=").

Lemma base64_char_ok v :
  0 <= v < 64 ->
  base64_val (base64_char v) = Some v /\ Ascii.eqb (base64_char v) "=" = false.
Proof.
  intros Hv. assert (forallb base64_ok (seqZ 0 64) = true) as Hall by (vm_compute; reflexivity).
  rewrite forallb_forall in Hall.
  assert (base64_ok v = true) as Hok by (apply Hall, list_elem_of_In, elem_of_seqZ; lia).
  unfold base64_ok in Hok.
  by apply andb_true_iff in Hok as [?%bool_decide_eq_true ?%negb_true_iff].
Qed.

(** The sextets of three bytes, and the bytes of four sextets. *)
Lemma sextet_ranges a b :
  0 <= a < 256 -> 0 <= b < 256 ->
  0 <= a / 4 < 64 /\ 0 <= a mod 4 * 16 + b / 16 < 64 /\ 0 <= b mod 16 * 4 < 64 /\
  0 <= a mod 4 * 16 < 64 /\ 0 <= b mod 64 < 64 /\ 0 <= a mod 16 * 4 + b / 64 < 64.
Proof. intros Ha Hb. Z.to_euclidean_division_equations. lia. Qed.

Lemma sextets a b :
  0 <= a < 256 -> 0 <= b < 256 ->
  a / 4 * 4 + (a mod 4 * 16 + b / 16) / 16 = a /\
  (a mod 4 * 16 + b / 16) mod 16 = b / 16 /\
  a / 4 * 4 + a mod 4 * 16 / 16 = a /\ a mod 4 * 16 mod 16 = 0 /\
  b / 16 * 16 + (b mod 16 * 4) / 4 = b /\ b mod 16 * 4 mod 4 = 0 /\
  a / 16 * 16 + (a mod 16 * 4 + b / 64) / 4 = a /\ (a mod 16 * 4 + b / 64) mod 4 = b / 64 /\
  b / 64 * 64 + b mod 64 = b.
Proof. intros Ha Hb. split_and!; Z.to_euclidean_division_equations; lia. Qed.

Lemma string_ind3 (P : string -> Prop) :
  P ""%string -> (forall a, P (String a "")) -> (forall a b, P (String a (String b ""))) ->
  (forall a b c s, P s -> P (String a (String b (String c s)))) -> forall s, P s.
Proof.
  intros H0 H1 H2 H3. fix IH 1. intros [|a [|b [|c s]]]; [done..|]. apply H3, IH.
Qed.

Lemma unbase64_base64 s : unbase64 (base64 s) = Some s.
Proof.
  induction s as [|a|a b|a b c s IH] using string_ind3; [done| | |];
    pose proof (byte_val_range a) as Ha.
  - cbn [base64].
    destruct (sextet_ranges (byte_val a) 0 Ha) as (R1 & _ & _ & R2 & _); [done|].
    destruct (sextets (byte_val a) 0 Ha) as (_ & _ & S1 & S2 & _); [done|].
    destruct (base64_char_ok _ R1) as (E1 & _). destruct (base64_char_ok _ R2) as (E2 & _).
    cbn [unbase64]. rewrite E1, E2. cbn -[Z.div Z.modulo Z.mul]. by rewrite S1, byte_of_val.
  - pose proof (byte_val_range b) as Hb. cbn [base64].
    destruct (sextet_ranges _ _ Ha Hb) as (R1 & R2 & R3 & _).
    destruct (sextets _ _ Ha Hb) as (S1 & S2 & _ & _ & S3 & S4 & _).
    destruct (base64_char_ok _ R1) as (E1 & _). destruct (base64_char_ok _ R2) as (E2 & _).
    destruct (base64_char_ok _ R3) as (E3 & P3).
    cbn [unbase64]. rewrite P3, E1, E2, E3.
    cbn -[Z.div Z.modulo Z.mul]. by rewrite S1, S2, S3, !byte_of_val.
  - pose proof (byte_val_range b) as Hb. pose proof (byte_val_range c) as Hc.
    cbn [base64].
    destruct (sextet_ranges _ _ Ha Hb) as (R1 & R2 & _).
    destruct (sextet_ranges _ _ Hb Hc) as (_ & _ & _ & _ & R4 & R3).
    destruct (sextets _ _ Ha Hb) as (S1 & S2 & _).
    destruct (sextets _ _ Hb Hc) as (_ & _ & _ & _ & _ & _ & S3 & S4 & S5).
    destruct (base64_char_ok _ R1) as (E1 & _). destruct (base64_char_ok _ R2) as (E2 & _).
    destruct (base64_char_ok _ R3) as (E3 & P3). destruct (base64_char_ok _ R4) as (E4 & P4).
    cbn [unbase64]. rewrite P3, P4, E1, E2, E3, E4, IH.
    cbn -[Z.div Z.modulo Z.mul]. by rewrite S1, S2, S3, S4, S5, !byte_of_val.
Qed.

(** Its text: plain and in one line. *)
Definition base64_plain (c : ascii) : bool :=
  plain c && negb (Ascii.eqb c (byte_of 10)) && negb (Ascii.eqb c (byte_of 13)).

Lemma base64_chars s : string_forallb base64_plain (base64 s) = true.
Proof.
  assert (forall v, base64_plain (base64_char v) = true) as Hc.
  { intros v. unfold base64_char. destruct (String.get _ _) as [c|] eqn:Hg; [|done]. cbn [default].
    assert (string_forallb base64_plain base64_alphabet = true) as Hall by (vm_compute; done).
    revert Hg Hall. generalize (Z.to_nat v) base64_alphabet. intros n s0. revert n.
    induction s0 as [|a s0 IH]; intros [|n]; [done..| |]; cbn [String.get string_forallb].
    - intros [= ->] Hall. by apply andb_true_iff in Hall as [? _].
    - intros Hg [_ Hall]%andb_true_iff. by apply (IH n). }
  induction s as [|a|a b|a b c s IH] using string_ind3; [done| | |]; cbn [base64 string_forallb];
    rewrite !Hc; [done..|]. by rewrite IH.
Qed.

Lemma base64_text s : string_forallb plain (base64 s) = true /\ no_breaks (base64 s) = base64 s.
Proof.
  pose proof (base64_chars s) as Hs. revert Hs. generalize (base64 s). clear s.
  induction s as [|c s IH]; [done|]. cbn [string_forallb no_breaks].
  intros [[[Hp H1%negb_true_iff]%andb_true_iff H2%negb_true_iff]%andb_true_iff Hs]%andb_true_iff.
  destruct (IH Hs) as [-> Hn]. rewrite Hp, H1, H2. cbn [orb]. by rewrite Hn.
Qed.

(** ** Reading what was written *)

(** The text [t] denotes [v], whatever comes after it that is not part of a
    number. *)
Definition reads (t : string) (v : json) : Prop :=
  forall n d rest, stops number_byte rest = true -> read_value (S n) d (t +:+ rest) = Some (v, rest).

Lemma reads_string s : ValidString s = true -> reads (write_string s) (JStr s).
Proof. intros Hs n d rest _. by apply read_write_string. Qed.

Lemma reads_plain s : string_forallb plain s = true -> reads (dquote +:+ s +:+ dquote) (JStr s).
Proof. intros Hs n d rest _. rewrite !string_app_assoc. by apply read_plain. Qed.

Lemma reads_int z : reads (Itoa z) (JNum (Itoa z)).
Proof. intros n d rest. apply read_Itoa. Qed.

Definition bytes_value (b : option string) : json :=
  match b with None => JNull | Some s => JStr (base64 s) end.
Lemma reads_bytes b : reads (write_bytes b) (bytes_value b).
Proof.
  destruct b as [s|]; [apply reads_plain, base64_text|]. intros n d rest _.
  cbn [write_bytes read_value bytes_value]. reflexivity.
Qed.

Lemma digit_text_plain l : Forall is_dec l -> string_forallb plain (digit_text l) = true.
Proof.
  induction 1 as [|d l Hd _ IH]; [done|]. cbn [digit_text string_forallb]. rewrite IH, andb_true_r.
  assert (forallb (fun d => plain (digit_char d)) (seqZ 0 10) = true) as Hall by (vm_compute; done).
  rewrite forallb_forall in Hall. apply Hall, list_elem_of_In, elem_of_seqZ. unfold is_dec in Hd. lia.
Qed.

Lemma trim_zeros_dec l : Forall is_dec l -> Forall is_dec (trim_zeros l).
Proof. destruct (trim_zeros_spec l) as [k Hk]. rewrite Hk at 1. by intros [? _]%Forall_app. Qed.

Lemma format_time_plain t : string_forallb plain (format_time t) = true.
Proof.
  unfold format_time, two, frac_text. destruct (civil_of_days _) as [[y m] d].
  assert (string_forallb plain (match trim_zeros (digits 9 (t mod Second)) with
            | [] => "" | l => "." +:+ digit_text l end) = true) as Hfrac.
  { pose proof (trim_zeros_dec _ (digits_dec 9 (t mod Second))) as Hd.
    destruct (trim_zeros _) as [|x l]; [done|]. rewrite string_forallb_app.
    by apply digit_text_plain in Hd as ->. }
  rewrite !string_forallb_app, Hfrac, !digit_text_plain by apply digits_dec. done.
Qed.

(** An object of members that are read as they should. *)
Fixpoint members_text (ms : list (string * string * json)) : string :=
  match ms with
  | [] => "}"
  | m :: ms' => "," +:+ field m.1.1 +:+ m.1.2 +:+ members_text ms'
  end.
Definition good_member (m : string * string * json) : Prop :=
  string_forallb plain m.1.1 = true /\ reads m.1.2 m.2.

Lemma read_members_text ms m n d :
  Forall good_member (m :: ms) -> (length ms < n)%nat ->
  read_members (S n) d (field m.1.1 +:+ m.1.2 +:+ members_text ms) = Some (m :: ms, ""%string).
Proof.
  revert m n. induction ms as [|m' ms IH]; intros [[k t] v] n Hall Hn;
    apply Forall_cons in Hall as [[Hk Hv] Hall]; cbn [fst snd length] in *;
    apply plain_text in Hk as [Hk1 Hk2];
    unfold field at 1; rewrite !string_app_assoc; cbn [read_members];
    rewrite (read_string_scanned _ _ _ Hk1 Hk2); cbn [mbind option_bind].
  all: change (skip (":" +:+ ?x)) with (":" +:+ x); rewrite strip_text; cbn [mbind option_bind];
    destruct n as [|n]; [lia|].
  - pose proof (Hv n d "}" eq_refl) as Hread.
    destruct (read_local (S n)) as (Hl & _). destruct (Hl _ _ _ _ Hread) as (p & Hp & Hstart & _).
    cbn [members_text]. rewrite Hp, starts_skip by done. rewrite <- Hp, Hread.
    cbn [mbind option_bind]. by rewrite raw_of_app.
  - cbn [members_text]. set (rest := "," +:+ _).
    pose proof (Hv n d rest eq_refl) as Hread.
    destruct (read_local (S n)) as (Hl & _). destruct (Hl _ _ _ _ Hread) as (p & Hp & Hstart & _).
    rewrite Hp, starts_skip by done. rewrite <- Hp, Hread.
    cbn [mbind option_bind]. rewrite raw_of_app. unfold rest, read_next.
    change (strip "}" (skip ("," +:+ ?x))) with (None : option string).
    change (skip ("," +:+ ?x)) with ("," +:+ x). rewrite strip_text.
    change (skip (field ?x +:+ ?y)) with (field x +:+ y). rewrite IH by (done || lia). done.
Qed.

Lemma parse_object m ms :
  Forall good_member (m :: ms) ->
  parse ("{" +:+ field m.1.1 +:+ m.1.2 +:+ members_text ms) = Some (JObj (m :: ms)).
Proof.
  intros Hall. apply (read_whole (S (S (S (length ms)))) 0); [|done].
  change ("{" +:+ ?x) with (String "{" x). cbn [read_value]. rewrite Ascii.eqb_refl.
  unfold read_bracket. change (strip "{" (String "{" ?x)) with (Some x). cbn [mbind option_bind].
  change (maxNestingDepth <=? 0) with false.
  change (strip "}" (skip (field ?x +:+ ?y))) with (None : option string).
  change (skip (field ?x +:+ ?y)) with (field x +:+ y). cbv iota.
  by rewrite read_members_text by (done || lia).
Qed.

(** ** A task there and back *)

Definition time_member (name : string) (t : Time) : string * string * json :=
  (name, dquote +:+ format_time t +:+ dquote, JStr (format_time t)).
Definition opt_time_member (name : string) (t : option Time) : list (string * string * json) :=
  match t with Some t => [time_member name t] | None => [] end.

Definition task_members (t : Task.t) : list (string * string * json) :=
  [("type", write_string t.(Task.Type_), JStr t.(Task.Type_));
   ("payload", write_bytes t.(Task.Payload), bytes_value t.(Task.Payload));
   ("status", write_string t.(Task.Status_), JStr t.(Task.Status_));
   ("priority", Itoa t.(Task.Priority), JNum (Itoa t.(Task.Priority)));
   ("attempts", Itoa t.(Task.Attempts), JNum (Itoa t.(Task.Attempts)));
   ("max_retries", Itoa t.(Task.MaxRetries), JNum (Itoa t.(Task.MaxRetries)));
   time_member "created_at" t.(Task.CreatedAt); time_member "updated_at" t.(Task.UpdatedAt)] ++
  opt_time_member "scheduled_at" t.(Task.ScheduledAt) ++
  opt_time_member "completed_at" t.(Task.CompletedAt).
Definition id_member (t : Task.t) : string * string * json :=
  ("id", write_string t.(Task.ID), JStr t.(Task.ID))%string.

Definition years (t : Task.t) : list Time :=
  [t.(Task.CreatedAt); t.(Task.UpdatedAt)] ++ from_option (fun x => [x]) [] t.(Task.ScheduledAt) ++
  from_option (fun x => [x]) [] t.(Task.CompletedAt).
Definition four_digits (t : Time) : bool := in_range 0 9999 (Year t).

Lemma write_time_inv ty t s :
  write_time ty t = Ok s -> four_digits t = true /\ s = dquote +:+ format_time t +:+ dquote.
Proof.
  unfold write_time, MarshalTime, four_digits. by destruct (in_range _ _ _); [intros [= <-]|].
Qed.

Lemma write_opt_time_inv name o s :
  write_opt_time name o = Ok s ->
  forallb four_digits (from_option (fun x => [x]) [] o) = true /\
  forall rest, s +:+ members_text rest = members_text (opt_time_member name o ++ rest).
Proof.
  unfold write_opt_time. destruct o as [t|]; [|intros [= <-]; by split].
  destruct (write_time _ t) as [x|] eqn:Hx; [|done]. apply write_time_inv in Hx as [Hy ->].
  intros [= <-]. cbn. rewrite Hy. split; [done|]. intros rest. by rewrite !string_app_assoc.
Qed.

Lemma task_text t s :
  json_marshalTask t = Ok s ->
  forallb four_digits (years t) = true /\
  s = "{" +:+ field "id" +:+ write_string t.(Task.ID) +:+ members_text (task_members t).
Proof.
  unfold json_marshalTask, years. rewrite !forallb_app.
  destruct (write_time _ t.(Task.CreatedAt)) as [c|] eqn:Hc; [|done].
  destruct (write_time _ t.(Task.UpdatedAt)) as [u|] eqn:Hu; [|done].
  destruct (write_opt_time _ t.(Task.ScheduledAt)) as [sc|] eqn:Hsc; [|done].
  destruct (write_opt_time _ t.(Task.CompletedAt)) as [co|] eqn:Hco; [|done].
  apply write_time_inv in Hc as [Hc ->]. apply write_time_inv in Hu as [Hu ->].
  apply write_opt_time_inv in Hsc as [-> Hsc]. apply write_opt_time_inv in Hco as [-> Hco].
  intros [= <-]. cbn [forallb]. rewrite Hc, Hu. split; [done|].
  specialize (Hco []). cbn [members_text] in Hco. rewrite app_nil_r in Hco.
  unfold task_members. cbn [app members_text fst snd time_member]. rewrite <- Hsc, <- Hco.
  by rewrite !string_app_assoc.
Qed.

Lemma task_members_good t : wf_task t = true -> Forall good_member (id_member t :: task_members t).
Proof.
  unfold wf_task. rewrite !andb_true_iff. intros [[[[[Hid Hty] Hst] _] _] _].
  assert (forall name x, string_forallb plain name = true -> good_member (time_member name x)) as Ht
    by (intros name x Hn; split; [done|apply reads_plain, format_time_plain]).
  assert (forall name o, string_forallb plain name = true -> Forall good_member (opt_time_member name o)) as Ho
    by (intros name [x|] Hn; cbn; by auto).
  unfold task_members. rewrite app_comm_cons, !Forall_app. split; [|by split; apply Ho].
  unfold id_member, time_member.
  repeat (apply Forall_cons; split; [split; [vm_compute; reflexivity|cbn [fst snd]]|]);
    [by apply reads_string|by apply reads_string|apply reads_bytes|by apply reads_string
    |apply reads_int..|apply reads_plain, format_time_plain|apply reads_plain, format_time_plain
    |constructor].
Qed.

Lemma load_format_time t :
  four_digits t = true -> time_text (dquote +:+ format_time t +:+ dquote) = Some t.
Proof.
  intros Hy. unfold time_text. rewrite !length_string_app.
  replace (String.length dquote + (String.length (format_time t) + String.length dquote) - 2)%nat
    with (String.length (format_time t)) by (cbn [String.length dquote]; lia).
  change (dquote +:+ ?x) with (String quote x). cbn [String.substring].
  rewrite substring_prefix. by apply parse_format_time.
Qed.

Lemma load_write_bytes raw b old :
  exists buf, load_bytes raw (bytes_value b) old = Some (b, buf).
Proof.
  destruct old as [o buf], b as [s|]; cbn [load_bytes bytes_value]; [|by eexists].
  destruct (base64_text s) as [_ ->]. rewrite unbase64_base64. by eexists.
Qed.

(** A member whose key is the name of a field. *)
Lemma decode_exact {A} (fs : fields A) name set raw v ms a b :
  lookup_field fs name = Some set -> set raw v a = Some b ->
  decode_members fs ((name, raw, v) :: ms) a = decode_members fs ms b.
Proof. intros Hl Hs. cbn [decode_members]. by rewrite Hl, Hs. Qed.

Lemma load_Itoa raw z old : in_int64b z = true -> load_int raw (JNum (Itoa z)) old = Some z.
Proof. intros Hz. cbn [load_int]. rewrite ParseInt_Itoa. cbn [mbind option_bind]. by rewrite Hz. Qed.

Lemma decode_task_members t :
  wf_task t = true -> forallb four_digits (years t) = true ->
  exists buf, decode_members task_json (id_member t :: task_members t) (Task.zero, ""%string)
    = Some (t, buf).
Proof.
  destruct t as [id ty payload st prio att retr created updated sched compl].
  unfold wf_task, years, task_members, id_member, time_member. task_fields.
  intros [[[_ Hprio]%andb_true_iff Hatt]%andb_true_iff Hretr]%andb_true_iff.
  rewrite !forallb_app. cbn [forallb]. intros [[Hc [Hu _]%andb_true_iff]%andb_true_iff
    [Hsc Hco]%andb_true_iff]%andb_true_iff.
  destruct (load_write_bytes (write_bytes payload) payload (None, ""%string)) as [buf Hbuf].
  exists buf. cbn [app].
  do 2 (erewrite decode_exact; [|reflexivity|reflexivity]).
  erewrite decode_exact; [|reflexivity|unfold field_of;
    cbn [Task.Payload Task.zero Task.set_ID Task.set_Type fst snd]; rewrite Hbuf; reflexivity].
  erewrite decode_exact; [|reflexivity|reflexivity].
  do 3 (erewrite decode_exact;
    [|reflexivity|unfold task_field, field_of; rewrite load_Itoa by done; reflexivity]).
  do 2 (erewrite decode_exact; [|reflexivity|unfold task_field, field_of, load_time;
    rewrite load_format_time by done; reflexivity]).
  destruct sched as [sc|], compl as [co|]; cbn [opt_time_member app from_option forallb] in *;
    rewrite ?andb_true_r in *; unfold time_member;
    repeat (erewrite decode_exact; [|reflexivity|unfold task_field, field_of, load_opt_time;
      rewrite load_format_time by done; reflexivity]); reflexivity.
Qed.

Lemma json_read_written `{JsonTexts} t s :
  wf_task t = true -> json_marshalTask t = Ok s -> json_unmarshalTask s = Ok t.
Proof.
  intros Hwf Hm. apply task_text in Hm as [Hy ->].
  pose proof (parse_object (id_member t) (task_members t) (task_members_good t Hwf)) as Hp.
  destruct (decode_task_members t Hwf Hy) as [buf Hd].
  unfold json_unmarshalTask, Unmarshal. cbn [id_member fst snd] in Hp. rewrite Hp.
  cbn [mbind option_bind decode_struct]. by rewrite Hd.
Qed.

(** ** What a decoder can yield *)

(** A member whose text denotes its value. *)
Definition sound_member (m : string * string * json) : Prop := parse m.1.2 = Some m.2.

(** A property that every field keeps, a struct keeps. *)
Lemma find_field_keeps {A} (P : (loader A) -> Prop) same (fs : fields A) set :
  Forall (fun f => P f.2) fs -> find_field same fs = Some set -> P set.
Proof.
  induction 1 as [|[name f] fs Hf _ IH]; [done|]. cbn. destruct (same name); [|done].
  by intros [= <-].
Qed.

Lemma lookup_field_keeps {A} (P : (loader A) -> Prop) (fs : fields A) key set :
  Forall (fun f => P f.2) fs -> lookup_field fs key = Some set -> P set.
Proof.
  intros Hall. unfold lookup_field. destruct (find_field (String.eqb key) fs) as [f|] eqn:Hf.
  - intros [= <-]. by eapply find_field_keeps.
  - by apply find_field_keeps.
Qed.

Definition keeps_fields {A} (P : A -> Prop) (fs : fields A) : Prop :=
  Forall (fun f => forall raw v a a', parse raw = Some v -> P a -> f.2 raw v a = Some a' -> P a') fs.

Lemma decode_members_keeps {A} (P : A -> Prop) (fs : fields A) ms a a' :
  keeps_fields P fs -> Forall sound_member ms -> P a -> decode_members fs ms a = Some a' -> P a'.
Proof.
  intros Hfs Hms. revert a. induction Hms as [|[[key raw] v] ms Hm _ IH]; intros a Ha; cbn [decode_members].
  - by intros [= <-].
  - destruct (lookup_field fs key) as [set|] eqn:Hl; [|apply IH, Ha].
    pose proof (lookup_field_keeps (fun set => forall raw v a a', parse raw = Some v -> P a ->
      set raw v a = Some a' -> P a') fs key set Hfs Hl) as Hset.
    destruct (set raw v a) as [b|] eqn:Hs; [|done]. cbn [mbind option_bind]. apply IH.
    by apply (Hset raw v a).
Qed.

Lemma decode_keeps {A} (P : A -> Prop) (fs : fields A) s v a a' :
  keeps_fields P fs -> P a -> parse s = Some v -> decode_struct fs v a = Some a' -> P a'.
Proof.
  intros Hfs Ha Hp. destruct v as [| | | | |ms]; cbn [decode_struct]; try done; [by intros [= <-]|].
  by apply (decode_members_keeps P fs ms), Ha; [|apply (object_raw s)].
Qed.

Lemma parse_string_valid s t : parse s = Some (JStr t) -> ValidString t = true.
Proof.
  unfold parse. destruct (skip s) as [|c s']; [done|]. cbn [read_value].
  destruct (Ascii.eqb c "{"); [by destruct (read_bracket _ _ _ _ _) as [[]|]; cbn; [case_match|]|].
  destruct (Ascii.eqb c "["); [by destruct (read_bracket _ _ _ _ _) as [[]|]; cbn; [case_match|]|].
  destruct (Ascii.eqb c quote).
  - unfold read_string. destruct (strip _ _) as [s1|]; [|done]. cbn [mbind option_bind].
    destruct (scan_string s1) as [[raw rest]|]; [|done]. cbn [mbind option_bind].
    destruct (unquote raw) as [u|] eqn:Hu; [|done]. cbn [mbind option_bind].
    destruct (String.eqb _ _); [|done]. intros [= <-]. by eapply unquote_fuel_valid.
  - unfold read_literal. repeat case_match; try done; cbn; repeat case_match; congruence.
Qed.

Lemma load_string_valid raw v old s :
  parse raw = Some v -> ValidString old = true -> load_string raw v old = Some s ->
  ValidString s = true.
Proof.
  intros Hp Hold. destruct v; try done; intros [= <-]; [done|by eapply parse_string_valid].
Qed.

Lemma load_int_range raw v old z :
  in_int64b old = true -> load_int raw v old = Some z -> in_int64b z = true.
Proof.
  intros Hold. destruct v as [| |t| | |]; cbn [load_int]; try done; [by intros [= <-]|].
  destruct (ParseInt t) as [x|]; [|done]. cbn [mbind option_bind].
  destruct (in_int64b x) eqn:Hx; [|done]. by intros [= <-].
Qed.

Lemma field_of_keeps {A B} (load : loader B) (get : A -> B) put (P : A -> Prop) (Q : B -> Prop)
    raw v a a' :
  (forall b b', Q b -> load raw v b = Some b' -> Q b') -> (P a -> Q (get a)) ->
  (forall b, P a -> Q b -> P (put b a)) ->
  P a -> field_of load get put raw v a = Some a' -> P a'.
Proof.
  intros Hload Hget Hput Ha. unfold field_of. destruct (load raw v (get a)) as [b|] eqn:Hb; [|done].
  intros [= <-]. apply Hput; [done|]. by eapply Hload; [apply Hget|].
Qed.

(** Tasks that come out of the decoder are well formed. *)
Definition wf_state (a : Task.t * string) : Prop := wf_task a.1 = true.

Lemma wf_string_field get put raw v a a' :
  (forall t, wf_task t = true -> ValidString (get t) = true) ->
  (forall b t, ValidString b = true -> wf_task t = true -> wf_task (put b t) = true) ->
  parse raw = Some v -> wf_state a -> task_field load_string get put raw v a = Some a' -> wf_state a'.
Proof.
  intros Hget Hput Hp. apply (field_of_keeps _ _ _ wf_state (fun s => ValidString s = true)).
  - intros b b'. by apply load_string_valid.
  - apply Hget.
  - intros b Ha Hb. by apply Hput.
Qed.

Lemma wf_int_field get put raw v a a' :
  (forall t, wf_task t = true -> in_int64b (get t) = true) ->
  (forall b t, in_int64b b = true -> wf_task t = true -> wf_task (put b t) = true) ->
  parse raw = Some v -> wf_state a -> task_field load_int get put raw v a = Some a' -> wf_state a'.
Proof.
  intros Hget Hput Hp. apply (field_of_keeps _ _ _ wf_state (fun z => in_int64b z = true)).
  - intros b b'. apply load_int_range.
  - apply Hget.
  - intros b Ha Hb. by apply Hput.
Qed.

Lemma wf_free_field {B} (load : loader B) get put raw v a a' :
  (forall b a, wf_state a -> wf_state (put b a)) ->
  parse raw = Some v -> wf_state a -> field_of load get put raw v a = Some a' -> wf_state a'.
Proof. intros Hput _. apply (field_of_keeps _ _ _ wf_state (fun _ => True)); auto. Qed.

Lemma task_json_keeps : keeps_fields wf_state task_json.
Proof.
  unfold keeps_fields, task_json.
  repeat match goal with |- Forall _ (_ :: _) => constructor; cbn [snd]; [intros raw v a a'|] end;
    [..|constructor];
    first [apply wf_string_field|apply wf_int_field|apply wf_free_field];
    unfold wf_state, wf_task; intros; repeat match goal with x : Task.t |- _ => destruct x | x : _ * _ |- _ => destruct x end;
    cbn in *; rewrite ?andb_true_iff in *; tauto.
Qed.

Lemma json_unmarshal_wf `{JsonTexts} s t : json_unmarshalTask s = Ok t -> wf_task t = true.
Proof.
  unfold json_unmarshalTask, Unmarshal. destruct (parse s) as [v|] eqn:Hp; [|done].
  cbn [mbind option_bind]. destruct (decode_struct _ v _) as [[t' buf]|] eqn:Hd; [|done].
  intros [= <-]. by apply (decode_keeps wf_state task_json s v (Task.zero, ""%string) (t', buf) task_json_keeps).
Qed.

(** ** The codec *)

Definition JsonTaskCodec `{JsonTexts} : TaskCodec := {|
  marshalTask := json_marshalTask;
  unmarshalTask := json_unmarshalTask |}.
#[local] Existing Instance JsonTaskCodec | 0.

#[export] Instance json_spec `{JsonTexts} : TaskCodecSpec (fun t => wf_task t = true).
Proof. intros t s Hwf Hm. by apply json_read_written. Qed.

(** [Marshal] fails for a year that RFC 3339 cannot write, and only then. *)
Lemma write_time_ok ty t : is_ok (write_time ty t) = in_range 0 9999 (Year t).
Proof. unfold write_time, MarshalTime. by destruct (in_range 0 9999 (Year t)). Qed.

Lemma write_opt_time_ok name t :
  is_ok (write_opt_time name t) =
  forallb (fun x => in_range 0 9999 (Year x)) (from_option (fun x => [x]) [] t).
Proof.
  destruct t as [t|]; [|done]. cbn [from_option forallb]. rewrite andb_true_r.
  rewrite <- (write_time_ok "*time.Time"). unfold write_opt_time. by destruct (write_time _ t).
Qed.

Lemma json_marshal_total t :
  is_ok (json_marshalTask t) = forallb (fun x => in_range 0 9999 (Year x)) (years t).
Proof.
  unfold json_marshalTask, years. rewrite !forallb_app. cbn [forallb].
  rewrite <- (write_opt_time_ok "scheduled_at"), <- (write_opt_time_ok "completed_at").
  rewrite <- !(write_time_ok "time.Time").
  destruct (write_time _ _); [|done]. destruct (write_time _ _); [|done].
  destruct (write_opt_time _ _); [|done]. by destruct (write_opt_time _ _).
Qed.

(** C19: a task whose strings are UTF-8, whose integers are Go's and whose
    years have four digits is written as JSON and comes back as it was: every
    field, the payload byte by byte (a nil one included), the times to the
    nanosecond. *)
Theorem json_roundtrip `{JsonTexts} t :
  wf_task t = true -> forallb (fun x => in_range 0 9999 (Year x)) (years t) = true ->
  exists s, marshalTask t = Ok s /\ unmarshalTask s = Ok t.
Proof.
  intros Hwf Hyears. pose proof (json_marshal_total t) as Ht. rewrite Hyears in Ht.
  destruct (json_marshalTask t) as [s|] eqn:Hm; [|done]. exists s. split; [done|].
  by apply (unmarshal_marshal t).
Qed.

Definition json_demo : Task.t :=
  Task.mk "t-1" "email" (Some "{}") StatusPending 5 0 3 1735689600123000000
    1735689600000000000 None (Some 1735689601000000001).

Example json_demo_text :
  json_marshalTask json_demo =
  Ok ("{" +:+ field "id" +:+ dquote +:+ "t-1" +:+ dquote +:+ "," +:+
      field "type" +:+ dquote +:+ "email" +:+ dquote +:+ "," +:+
      field "payload" +:+ dquote +:+ "e30=" +:+ dquote +:+ "," +:+
      field "status" +:+ dquote +:+ "PENDING" +:+ dquote +:+ "," +:+
      field "priority" +:+ "5," +:+ field "attempts" +:+ "0," +:+ field "max_retries" +:+ "3," +:+
      field "created_at" +:+ dquote +:+ "2025-01-01T00:00:00.123Z" +:+ dquote +:+ "," +:+
      field "updated_at" +:+ dquote +:+ "2025-01-01T00:00:00Z" +:+ dquote +:+ "," +:+
      field "completed_at" +:+ dquote +:+ "2025-01-01T00:00:01.000000001Z" +:+ dquote +:+ "}").
Proof. vm_compute. done. Qed.

(** Texts that Marshal would not write: white space, keys in any case, an
    unknown member, a repeated one, null, bytes as numbers, an escape. *)
Definition json_other_text : string :=
  "{ " +:+ dquote +:+ "ID" +:+ dquote +:+ ": " +:+ dquote +:+ "t\u002d1" +:+ dquote +:+ " ," +:+
  field "type" +:+ dquote +:+ "sms" +:+ dquote +:+ "," +:+
  field "TYPE" +:+ dquote +:+ "email" +:+ dquote +:+ "," +:+ field "tags" +:+ "[{}, 1.5e3]," +:+
  field "payload" +:+ "[123, 125]," +:+ field "priority" +:+ "null," +:+
  field "created_at" +:+ dquote +:+ "2025-01-01T2:00:00+02:00" +:+ dquote +:+ "}".

Example json_other_ex :
  parse json_other_text <> None /\
  match parse json_other_text with
  | Some v => fst <$> decode_struct task_json v (Task.zero, ""%string)
  | None => None
  end = Some (Task.mk "t-1" "email" (Some "{}") "" 0 0 0 1735689600000000000 zeroTime None None).
Proof. vm_compute. done. Qed.

(** The error texts of the examples. *)
Definition plain_texts : JsonTexts := fun ty _ => "json: " +:+ ty.

Lemma json_roundtrip_witness :
  let texts := plain_texts in
  exists s, json_marshalTask json_demo = Ok s /\ unmarshalTask s = Ok json_demo.
Proof. apply (@json_roundtrip plain_texts json_demo); vm_compute; reflexivity. Defined.
