(* ===== verification/Effects.v ===== *)
(** * The interfaces of the services as effect signatures

    One signature per Go interface a service is written against
    ([redisstore.StateStore], [redisstore.RateLimiter], [postgres.TaskRepository],
    [kafka.Producer], [handlers.Handler]) and one for what the runtime gives
    (clock, identifiers, timers, metrics).  [SvcE] is their sum, the signature
    of a whole service. *)

From S2P Require Import Prelude Prog GoStrings Domain GoFloat.

(** ** Contexts

    A [context.Context] by what can cancel it: nothing, the context the
    service was started with (cancelled at shutdown, or when a client goes
    away), or a deadline on top of a parent.  The values a context carries
    (trace spans) are not modelled. *)
Inductive Ctx : Type :=
| CtxBackground
| CtxRun
| CtxTimeout (parent : Ctx) (d : Duration).

#[export] Instance Ctx_eq_dec : EqDecision Ctx.
Proof. solve_decision. Defined.

(** [child] is cancelled whenever [c] is. *)
Fixpoint derives_from (child c : Ctx) : bool :=
  bool_decide (child = c) ||
  match child with CtxTimeout p _ => derives_from p c | _ => false end.

(** ** Redis-backed stores: internal/redis *)

Inductive StoreE : Type -> Type :=
| SetStatus (ctx : Ctx) (taskID : string) (status : Status) : StoreE (option error)
| GetStatus (ctx : Ctx) (taskID : string) : StoreE (goresult Status)
| SetTaskMeta (ctx : Ctx) (task : Task.t) : StoreE (option error)
| GetTaskMeta (ctx : Ctx) (taskID : string) : StoreE (goresult Task.t)
| SetResult (ctx : Ctx) (taskID : string) (res : string) (ttl : Duration)
  : StoreE (option error)
| GetResult (ctx : Ctx) (taskID : string) : StoreE (goresult string).

Inductive LimiterE : Type -> Type :=
| Allow (ctx : Ctx) (key : string) : LimiterE (goresult bool)
| Limit : LimiterE Z.

(** ** PostgreSQL repository: internal/postgres *)

Inductive RepoE : Type -> Type :=
| Create (ctx : Ctx) (task : Task.t) : RepoE (option error)
| UpdateStatus (ctx : Ctx) (id : string) (status : Status) : RepoE (option error)
| RecordExecution (ctx : Ctx) (exec : TaskExecution.t) : RepoE (option error)
| GetByID (ctx : Ctx) (id : string) : RepoE (goresult Task.t)
| ListByStatus (ctx : Ctx) (status : Status) (limit : Z)
  : RepoE (list Task.t * option error).

(** ** Kafka producer: internal/kafka *)

Inductive ProducerE : Type -> Type :=
| Publish (ctx : Ctx) (topic key value : string) : ProducerE (option error).

(** ** Clock, identifiers and timers *)

Inductive SysE : Type -> Type :=
| Now : SysE Time                                 (* time.Now().UTC() *)
| Since (start : Time) : SysE Duration            (* time.Since(start), monotonic *)
| NewUUID : SysE string                           (* uuid.New().String() *)
| SelectAfter (ctx : Ctx) (d : Duration) : SysE (option error).
    (* select on time.After(d) and ctx.Done(): [None] when the timer fired,
       [Some ctx.Err()] when the context was done *)

(** ** Prometheus metrics: pkg/telemetry/metrics.go *)

Inductive Metric : Type :=
| APITasksSubmitted (type : string)
| WorkerTasksProcessed (worker_type status : string)
| WorkerTasksInFlight (worker_type : string)
| WorkerTaskDurationSeconds (worker_type : string)
| WorkerRetriesTotal (worker_type : string)
| WorkerDLQTotal (worker_type : string)
| DispatcherTasksRouted (task_type : string)
| DispatcherDLQTotal
| DispatcherRateLimitedTotal.

#[export] Instance Metric_eq_dec : EqDecision Metric.
Proof. solve_decision. Defined.

Inductive MetricE : Type -> Type :=
| Inc (m : Metric) : MetricE unit
| Dec (m : Metric) : MetricE unit
| Observe (m : Metric) (v : float64) : MetricE unit.

(** ** Task handlers: internal/handlers/handler.go

    [HandlerE] is what the two handlers of the package do to the outside: one
    SMTP session raced against the context, and an HTTP request built and
    sent.  [RangeMap] is [range] over a Go map: the entries in an order the
    language leaves unspecified. *)

Inductive SendOutcome : Type :=
| SendDone (err : option error)       (* <-done *)
| SendCtxDone (err : error).          (* <-ctx.Done(), with ctx.Err() *)

Record PlainAuth := mkPlainAuth {
  auth_identity : string; auth_username : string;
  auth_password : string; auth_host : string }.

Record HttpRequest := mkHttpRequest {
  req_Ctx : Ctx;
  req_Method : string;
  req_URL : string;
  req_Body : option string;
  req_Header : gmap string string }.

Inductive HandlerE : Type -> Type :=
| SelectSendMail (ctx : Ctx) (addr : string) (auth : option PlainAuth)
    (from : string) (to : list string) (msg : string) : HandlerE SendOutcome
| NewRequest (ctx : Ctx) (method url : string) (body : option string)
    : HandlerE (option error)
| RangeMap (m : gmap string string) : HandlerE (list (string * string))
| HttpDo (timeout : Duration) (req : HttpRequest) : HandlerE (goresult Z).

(** [type Handler interface { Handle; TaskType }] *)
Record Handler := mkHandler {
  Handle : Ctx -> Task.t -> prog HandlerE (option error);
  TaskType : string }.

(** The worker's [sync.WaitGroup] and its in-flight counter. *)
Inductive WorkerE : Type -> Type :=
| WgAdd (delta : Z) : WorkerE unit
| InFlightAdd (delta : Z) : WorkerE unit.

(** ** The signature of a service *)

Inductive SvcE : Type -> Type :=
| OnStore {X} (e : StoreE X) : SvcE X
| OnLimiter {X} (e : LimiterE X) : SvcE X
| OnRepo {X} (e : RepoE X) : SvcE X
| OnProducer {X} (e : ProducerE X) : SvcE X
| OnSys {X} (e : SysE X) : SvcE X
| OnMetric {X} (e : MetricE X) : SvcE X
| OnWorker {X} (e : WorkerE X) : SvcE X
| OnHandle (h : Handler) (ctx : Ctx) (task : Task.t) : SvcE (option error).

#[export] Instance SubE_Store : SubE StoreE SvcE := @OnStore.
#[export] Instance SubE_Limiter : SubE LimiterE SvcE := @OnLimiter.
#[export] Instance SubE_Repo : SubE RepoE SvcE := @OnRepo.
#[export] Instance SubE_Producer : SubE ProducerE SvcE := @OnProducer.
#[export] Instance SubE_Sys : SubE SysE SvcE := @OnSys.
#[export] Instance SubE_Metric : SubE MetricE SvcE := @OnMetric.
#[export] Instance SubE_Worker : SubE WorkerE SvcE := @OnWorker.

(** [e ~> x]: the call [e] was made and answered [x]. *)
Definition answered {E F} `{SubE E F} {X} (e : E X) (x : X) : event F := Ev (inj e) x.
Declare Scope go_scope.
Notation "e ~> x" := (answered e x) (at level 70, no associativity) : go_scope.
#[global] Open Scope go_scope.

Abbreviation svc_trace := (list (event SvcE)).

(** ** What a trace of a service contains *)

(** A status write that was attempted: task, status, and whether it worked. *)
Definition status_write (ev : event SvcE) : option (string * Status * option error) :=
  match ev with
  | @Ev _ X e x =>
      match e in SvcE X return X -> option (string * Status * option error) with
      | OnStore e' =>
          match e' in StoreE X return X -> option (string * Status * option error) with
          | SetStatus _ id s => fun r => Some (id, s, r)
          | _ => fun _ => None
          end
      | _ => fun _ => None
      end x
  end.

(** A task that was written to the store, whether or not that worked. *)
Definition meta_write (ev : event SvcE) : option (Task.t * option error) :=
  match ev with
  | @Ev _ X e x =>
      match e in SvcE X return X -> option (Task.t * option error) with
      | OnStore e' =>
          match e' in StoreE X return X -> option (Task.t * option error) with
          | SetTaskMeta _ t => fun r => Some (t, r)
          | _ => fun _ => None
          end
      | _ => fun _ => None
      end x
  end.

(** A status read: task and answer. *)
Definition status_read (ev : event SvcE) : option (string * goresult Status) :=
  match ev with
  | @Ev _ X e x =>
      match e in SvcE X return X -> option (string * goresult Status) with
      | OnStore e' =>
          match e' in StoreE X return X -> option (string * goresult Status) with
          | GetStatus _ id => fun r => Some (id, r)
          | _ => fun _ => None
          end
      | _ => fun _ => None
      end x
  end.

(** A publish that was attempted: topic, key, value and its outcome. *)
Definition publication (ev : event SvcE)
  : option (string * string * string * option error) :=
  match ev with
  | @Ev _ X e x =>
      match e in SvcE X return X -> option (string * string * string * option error) with
      | OnProducer e' =>
          match e' in ProducerE X
                return X -> option (string * string * string * option error) with
          | Publish _ topic key value => fun r => Some (topic, key, value, r)
          end
      | _ => fun _ => None
      end x
  end.

(** A handler call: the context and task it was given and what it returned. *)
Definition handler_call (ev : event SvcE) : option (Ctx * Task.t * option error) :=
  match ev with
  | @Ev _ X e x =>
      match e in SvcE X return X -> option (Ctx * Task.t * option error) with
      | OnHandle _ ctx task => fun r => Some (ctx, task, r)
      | _ => fun _ => None
      end x
  end.

(** The change a trace makes to the worker's WaitGroup. *)
Definition wg_delta (ev : event SvcE) : option Z :=
  match ev with
  | Ev (OnWorker (WgAdd d)) _ => Some d
  | _ => None
  end.

Definition metric_inc (ev : event SvcE) : option Metric :=
  match ev with
  | Ev (OnMetric (Inc m)) _ => Some m
  | _ => None
  end.

Definition exec_record (ev : event SvcE) : option TaskExecution.t :=
  match ev with
  | Ev (OnRepo (RecordExecution _ x)) _ => Some x
  | _ => None
  end.

(** A status written to the database: task, status, and whether it worked. *)
Definition repo_write (ev : event SvcE) : option (string * Status * option error) :=
  match ev with
  | @Ev _ X e x =>
      match e in SvcE X return X -> option (string * Status * option error) with
      | OnRepo e' =>
          match e' in RepoE X return X -> option (string * Status * option error) with
          | UpdateStatus _ id s => fun r => Some (id, s, r)
          | _ => fun _ => None
          end
      | _ => fun _ => None
      end x
  end.

(** A task that was to be inserted into the database. *)
Definition creation (ev : event SvcE) : option (Task.t * option error) :=
  match ev with
  | @Ev _ X e x =>
      match e in SvcE X return X -> option (Task.t * option error) with
      | OnRepo e' =>
          match e' in RepoE X return X -> option (Task.t * option error) with
          | Create _ t => fun r => Some (t, r)
          | _ => fun _ => None
          end
      | _ => fun _ => None
      end x
  end.

(** A call of a server: the context it was made under, and whether it worked. *)
Definition server_call (ev : event SvcE) : option (Ctx * bool) :=
  match ev with
  | @Ev _ X e x =>
      match e in SvcE X return X -> option (Ctx * bool) with
      | OnStore e' =>
          match e' in StoreE X return X -> option (Ctx * bool) with
          | SetStatus c _ _ | SetTaskMeta c _ | SetResult c _ _ _ =>
              fun r => Some (c, bool_decide (r = None))
          | GetStatus c _ => fun r => Some (c, is_ok r)
          | GetTaskMeta c _ => fun r => Some (c, is_ok r)
          | GetResult c _ => fun r => Some (c, is_ok r)
          end
      | OnLimiter e' =>
          match e' in LimiterE X return X -> option (Ctx * bool) with
          | Allow c _ => fun r => Some (c, is_ok r)
          | Limit => fun _ => None
          end
      | OnRepo e' =>
          match e' in RepoE X return X -> option (Ctx * bool) with
          | Create c _ | UpdateStatus c _ _ | RecordExecution c _ =>
              fun r => Some (c, bool_decide (r = None))
          | GetByID c _ => fun r => Some (c, is_ok r)
          | ListByStatus c _ _ => fun r => Some (c, bool_decide (r.2 = None))
          end
      | OnProducer e' =>
          match e' in ProducerE X return X -> option (Ctx * bool) with
          | Publish c _ _ _ => fun r => Some (c, bool_decide (r = None))
          end
      | _ => fun _ => None
      end x
  end.

(** [ctx] is done: the clients of the servers refuse every call made under a
    context that derives from it; calls under other contexts may work. *)
Definition ctx_done (ctx : Ctx) (tr : list (event SvcE)) : Prop :=
  Forall (fun ev => forall c ok, server_call ev = Some (c, ok) ->
                    derives_from c ctx = true -> ok = false) tr.

(** What the clock said. *)
Definition clock_reading (ev : event SvcE) : option Time :=
  match ev with
  | @Ev _ X e x =>
      match e in SvcE X return X -> option Time with
      | OnSys e' => match e' in SysE X return X -> option Time with
                    | Now => fun t => Some t
                    | _ => fun _ => None
                    end
      | _ => fun _ => None
      end x
  end.

Definition clock_readings (tr : svc_trace) := omap clock_reading tr.
Definition status_writes (tr : svc_trace) := omap status_write tr.
Definition meta_writes (tr : svc_trace) := omap meta_write tr.
Definition status_reads (tr : svc_trace) := omap status_read tr.
Definition publications (tr : svc_trace) := omap publication tr.
Definition handler_calls (tr : svc_trace) := omap handler_call tr.
Definition metric_incs (tr : svc_trace) := omap metric_inc tr.
Definition exec_records (tr : svc_trace) := omap exec_record tr.
Definition repo_writes (tr : svc_trace) := omap repo_write tr.
Definition creations (tr : svc_trace) := omap creation tr.
Definition wg_count (tr : svc_trace) : Z := foldr Z.add 0 (omap wg_delta tr).

(** The projections distribute over concatenation. *)
Lemma status_writes_app t1 t2 : status_writes (t1 ++ t2) = status_writes t1 ++ status_writes t2.
Proof. apply omap_app. Qed.
Lemma meta_writes_app t1 t2 : meta_writes (t1 ++ t2) = meta_writes t1 ++ meta_writes t2.
Proof. apply omap_app. Qed.
Lemma status_reads_app t1 t2 : status_reads (t1 ++ t2) = status_reads t1 ++ status_reads t2.
Proof. apply omap_app. Qed.
Lemma publications_app t1 t2 : publications (t1 ++ t2) = publications t1 ++ publications t2.
Proof. apply omap_app. Qed.
Lemma handler_calls_app t1 t2 : handler_calls (t1 ++ t2) = handler_calls t1 ++ handler_calls t2.
Proof. apply omap_app. Qed.
Lemma metric_incs_app t1 t2 : metric_incs (t1 ++ t2) = metric_incs t1 ++ metric_incs t2.
Proof. apply omap_app. Qed.
Lemma exec_records_app t1 t2 : exec_records (t1 ++ t2) = exec_records t1 ++ exec_records t2.
Proof. apply omap_app. Qed.
Lemma repo_writes_app t1 t2 : repo_writes (t1 ++ t2) = repo_writes t1 ++ repo_writes t2.
Proof. apply omap_app. Qed.
Lemma creations_app t1 t2 : creations (t1 ++ t2) = creations t1 ++ creations t2.
Proof. apply omap_app. Qed.
Lemma wg_count_app t1 t2 : wg_count (t1 ++ t2) = wg_count t1 + wg_count t2.
Proof.
  unfold wg_count. rewrite omap_app, foldr_app.
  generalize (omap wg_delta t1) as l, (foldr Z.add 0 (omap wg_delta t2)) as z.
  induction l as [|a l IH]; intros z; simpl; [lia|]. rewrite IH. lia.
Qed.

#[export] Hint Rewrite status_writes_app meta_writes_app status_reads_app publications_app handler_calls_app
  metric_incs_app exec_records_app repo_writes_app creations_app wg_count_app : trace.
