(* ===== verification/Retry.v ===== *)
(** * Retries with backoff: pkg/retry/retry.go

    [Do] over any signature: [fn] and [OnRetry] are closures over a captured
    state [S], threaded explicitly; [select] waits for the delay or for the
    context.  [attempting] is the specification as a big-step relation, one
    rule per way an attempt can go, and [Do_refines] says the loop implements
    it. *)

From S2P Require Import Prelude Prog GoStrings Domain GoFloat Effects.

Section Retry.
Context {E : Type -> Type} `{SubE SysE E} {S : Type}.

(** [retry.Config] (retry.go:10-18). [OnRetry] may be nil. *)
Record Config := mkConfig {
  MaxAttempts : Z;
  BaseDelay : Duration;
  OnRetry : option (Z -> error -> S -> prog E S) }.

Implicit Types (cfg : Config) (ctx : Ctx) (tr : list (event E)) (s : S)
  (fn : S -> prog E (option error * S)).

(** [cfg.BaseDelay * time.Duration(attempt*attempt)] in int64 arithmetic. *)
Definition backoff (base : Duration) (attempt : Z) : Duration :=
  int64 (base * int64 (attempt * attempt)).

(** [if cfg.OnRetry != nil { cfg.OnRetry(attempt, lastErr) }] *)
Definition call_OnRetry cfg (attempt : Z) (err : error) (s : S) : prog E S :=
  match cfg.(OnRetry) with
  | Some f => f attempt err s
  | None => mret s
  end.

(** The error of the branch [<-ctx.Done()]. *)
Definition cancelled (attempt : Z) (err : error) : error :=
  ErrWrap ("retry cancelled after attempt " +:+ Itoa attempt) err.

(** The loop of retry.go:34-56 from [attempt] on.  [fuel] bounds the
    iterations left; [Do] gives it [MaxAttempts] of them, which
    [Do_loop_fuel] shows is all the loop can use. *)
Fixpoint Do_loop (fuel : nat) ctx cfg fn (attempt : Z) (lastErr : option error)
    (s : S) : prog E (option error * S) :=
  match fuel with
  | O => mret (lastErr, s)
  | Datatypes.S fuel' =>
      if cfg.(MaxAttempts) <? attempt then mret (lastErr, s)
      else
        '(err, s1) ← fn s;
        match err with
        | None => mret (None, s1)
        | Some e =>
            if attempt =? cfg.(MaxAttempts) then mret (Some e, s1)
            else
              s2 ← call_OnRetry cfg attempt e s1;
              done ← trigger (SelectAfter ctx (backoff cfg.(BaseDelay) attempt));
              match done with
              | None => Do_loop fuel' ctx cfg fn (attempt + 1) (Some e) s2
              | Some cerr => mret (Some (cancelled attempt cerr), s2)
              end
        end
  end.

(** [if cfg.MaxAttempts <= 0 { cfg.MaxAttempts = 1 }] *)
Definition normalize cfg : Config :=
  if cfg.(MaxAttempts) <=? 0 then mkConfig 1 cfg.(BaseDelay) cfg.(OnRetry) else cfg.

(** [retry.Do] (retry.go:28-57). *)
Definition Do ctx cfg fn (s : S) : prog E (option error * S) :=
  let cfg := normalize cfg in
  Do_loop (Z.to_nat cfg.(MaxAttempts)) ctx cfg fn 1 None s.

(** What holds of every call of the closures and of the timers holds of every
    call of [Do]. *)
Lemma only_Do (P : event E -> Prop) ctx cfg fn s :
  (forall s, only P (fn s)) -> (forall a e s, only P (call_OnRetry cfg a e s)) ->
  (forall d x, P (SelectAfter ctx d ~> x)) -> only P (Do ctx cfg fn s).
Proof.
  intros Hfn Hon Hsel. unfold Do.
  assert (Hnorm : forall a e s, only P (call_OnRetry (normalize cfg) a e s)).
  { intros a e s'. unfold normalize. destruct (MaxAttempts cfg <=? 0); [|done].
    apply (Hon a e s'). }
  clear Hon. revert Hnorm. generalize (normalize cfg) as c. intros c Hon.
  generalize (Z.to_nat (MaxAttempts c)) as fuel, 1 as a, (@None error) as last.
  intros fuel. revert s. induction fuel as [|fuel IH]; intros s a last; cbn [Do_loop];
    [apply only_ret|].
  destruct (MaxAttempts c <? a); [apply only_ret|].
  apply only_bind; [apply Hfn|]. intros [[e|] s1]; [|apply only_ret].
  destruct (a =? MaxAttempts c); [apply only_ret|].
  apply only_bind; [apply Hon|]. intros s2.
  apply only_bind; [apply only_trigger; intros x; apply Hsel|]. intros [|]; [apply only_ret|apply IH].
Qed.

(** An invariant of the captured state is one of [Do], and what holds of the
    errors of [fn] and of a cancelled wait holds of the error it returns. *)
Lemma triple_Do (answer request : event E -> Prop) (I : S -> Prop) (Q : error -> Prop) ctx cfg fn s :
  let good (x : option error * S) := I x.2 /\ forall e, x.1 = Some e -> Q e in
  (forall s, I s -> triple answer request (fn s) good) ->
  (forall a e s, 1 <= a <= Z.max 1 cfg.(MaxAttempts) -> I s ->
     triple answer request (call_OnRetry cfg a e s) I) ->
  (forall d x, request (SelectAfter ctx d ~> x)) ->
  (forall d a e, answer (SelectAfter ctx d ~> Some e) -> Q (cancelled a e)) ->
  I s -> triple answer request (Do ctx cfg fn s) good.
Proof.
  intros good Hfn Hon Hsel Hcan Hs. unfold Do.
  assert (forall a e s, 1 <= a <= (normalize cfg).(MaxAttempts) -> I s ->
    triple answer request (call_OnRetry (normalize cfg) a e s) I) as Hnorm.
  { intros a e s' Ha. specialize (Hon a e s'). unfold normalize in *.
    destruct (Z.leb_spec (MaxAttempts cfg) 0); cbn [MaxAttempts] in Ha; apply Hon; lia. }
  clear Hon. revert Hs Hnorm. generalize (normalize cfg) as c. intros c Hs Hon.
  assert (1 <= 1) as Ha by done. revert Ha. generalize 1 at 2 3 as a.
  assert (forall e, @None error = Some e -> Q e) as Hlast by done. revert Hlast.
  generalize (Z.to_nat (MaxAttempts c)) as fuel, (@None error) as last.
  intros fuel. revert s Hs. induction fuel as [|fuel IH]; intros s Hs last Hlast a Ha; cbn [Do_loop];
    [by apply triple_ret|].
  destruct (Z.ltb_spec (MaxAttempts c) a) as [|Hle]; [by apply triple_ret|].
  eapply triple_bind; [by apply Hfn|]. intros [[e|] s1] [Hs1 He]; [|by apply triple_ret].
  cbn [fst snd] in *. destruct (a =? MaxAttempts c); [by apply triple_ret|].
  eapply triple_bind; [by apply Hon|]. intros s2 Hs2.
  apply triple_call; [apply Hsel|]. intros [cerr|] Hans.
  - apply triple_ret. split; [done|]. intros e' [= <-]. by eapply Hcan.
  - apply IH; [done| |lia]. intros e' [= <-]. by apply He.
Qed.

(** ** Specification *)

Inductive attempting ctx cfg fn : Z -> S -> list (event E) -> option error -> S -> Prop :=
| att_success a s tr s' :
    exec (fn s) tr (None, s') ->
    attempting ctx cfg fn a s tr None s'
| att_exhausted a s tr e s' :
    a = cfg.(MaxAttempts) ->
    exec (fn s) tr (Some e, s') ->
    attempting ctx cfg fn a s tr (Some e) s'
| att_cancelled a s t1 e s1 t2 s2 cerr :
    a < cfg.(MaxAttempts) ->
    exec (fn s) t1 (Some e, s1) ->
    exec (call_OnRetry cfg a e s1) t2 s2 ->
    attempting ctx cfg fn a s
      (t1 ++ t2 ++ [SelectAfter ctx (backoff cfg.(BaseDelay) a) ~> Some cerr])
      (Some (cancelled a cerr)) s2
| att_again a s t1 e s1 t2 s2 t3 r s3 :
    a < cfg.(MaxAttempts) ->
    exec (fn s) t1 (Some e, s1) ->
    exec (call_OnRetry cfg a e s1) t2 s2 ->
    attempting ctx cfg fn (a + 1) s2 t3 r s3 ->
    attempting ctx cfg fn a s
      (t1 ++ t2 ++ (SelectAfter ctx (backoff cfg.(BaseDelay) a) ~> None) :: t3) r s3.

(** With [MaxAttempts - a + 1] iterations of fuel the loop never runs dry. *)
Lemma Do_loop_refines ctx cfg fn fuel a lastErr s tr r s' :
  1 <= a <= cfg.(MaxAttempts) ->
  Z.of_nat fuel = cfg.(MaxAttempts) - a + 1 ->
  exec (Do_loop fuel ctx cfg fn a lastErr s) tr (r, s') <->
  attempting ctx cfg fn a s tr r s'.
Proof.
  revert a lastErr s tr. induction fuel as [|fuel IH]; intros a lastErr s tr Ha Hf;
    [lia|].
  cbn [Do_loop]. destruct (Z.ltb_spec cfg.(MaxAttempts) a) as [?|Hle]; [lia|].
  rewrite exec_bind. split.
  - intros (t1 & t2 & [err s1] & -> & Hfn & Hk).
    destruct err as [e|]; [|exec_inv; rewrite app_nil_r; by apply att_success].
    destruct (Z.eqb_spec a cfg.(MaxAttempts)) as [->|Hne].
    { exec_inv. rewrite app_nil_r. by apply att_exhausted. }
    rewrite exec_bind in Hk. destruct Hk as (t3 & t4 & s2 & -> & Hon & Hk).
    exec_inv.
    + eapply att_cancelled; eauto. lia.
    + eapply att_again; eauto; [lia|]. eapply IH, Hk; lia.
  - intros Hatt. inversion Hatt; subst.
    + exists tr, [], (None, s'). by rewrite app_nil_r.
    + exists tr, [], (Some e, s'). by rewrite app_nil_r, Z.eqb_refl.
    + exists t1, (t2 ++ [SelectAfter ctx (backoff cfg.(BaseDelay) a) ~> Some cerr]),
        (Some e, s1). split; [done|]. split; [done|].
      destruct (Z.eqb_spec a cfg.(MaxAttempts)); [lia|].
      rewrite exec_bind. eexists t2, _, s'. split; [done|]. split; [done|].
      rewrite exec_call. by eexists (Some cerr), [].
    + eexists t1, (t2 ++ _), (Some e, s1). split; [done|]. split; [done|].
      destruct (Z.eqb_spec a cfg.(MaxAttempts)); [lia|].
      rewrite exec_bind. eexists t2, _, s2. split; [done|]. split; [done|].
      rewrite exec_call. exists None, t3. split; [done|]. by apply IH; [lia|lia|].
Qed.

(** Fuel beyond the attempts left changes nothing. *)
Lemma Do_loop_fuel ctx cfg fn n m a lastErr s :
  1 <= a <= cfg.(MaxAttempts) ->
  Z.of_nat n = cfg.(MaxAttempts) - a + 1 ->
  Do_loop (n + m) ctx cfg fn a lastErr s ≡ Do_loop n ctx cfg fn a lastErr s.
Proof.
  revert a lastErr s. induction n as [|n IH]; intros a lastErr s Ha Hn; [lia|].
  cbn [Do_loop Nat.add]. destruct (cfg.(MaxAttempts) <? a); [done|].
  apply bind_proper; [done|]. intros [[e|] s1]; [|done].
  destruct (Z.eqb_spec a cfg.(MaxAttempts)); [done|].
  apply bind_proper; [done|]. intros s2. apply bind_proper; [done|].
  intros [cerr|]; [done|]. apply IH; lia.
Qed.

Lemma normalize_pos cfg : 1 <= (normalize cfg).(MaxAttempts).
Proof. unfold normalize. destruct (Z.leb_spec cfg.(MaxAttempts) 0); simpl; lia. Qed.

Lemma Do_refines ctx cfg fn s tr r s' :
  exec (Do ctx cfg fn s) tr (r, s') <->
  attempting ctx (normalize cfg) fn 1 s tr r s'.
Proof.
  unfold Do. pose proof (normalize_pos cfg). apply Do_loop_refines; lia.
Qed.

(** C18: [Do] ends by itself. Its loop is done within [MaxAttempts] rounds
    (one, if that is not positive): given more, it behaves in the same way. *)
Theorem Do_terminates ctx cfg fn s m :
  let rounds := Z.to_nat (Z.max 1 cfg.(MaxAttempts)) in
  Do_loop (rounds + m) ctx (normalize cfg) fn 1 None s ≡ Do ctx cfg fn s.
Proof.
  cbn zeta. unfold Do. pose proof (normalize_pos cfg).
  assert ((normalize cfg).(MaxAttempts) = Z.max 1 cfg.(MaxAttempts)) as <-.
  { unfold normalize. destruct (Z.leb_spec cfg.(MaxAttempts) 0); cbn; lia. }
  apply Do_loop_fuel; lia.
Qed.
End Retry.
Arguments Config E S : clear implicits.

(** ** What a caller sees

    [RetryE] makes the closure calls of [Do] visible: each call of [fn], each
    call of [OnRetry], and the waits in between. *)

Inductive RetryE : Type -> Type :=
| CallFn : RetryE (option error)
| CallOnRetry (attempt : Z) (err : error) : RetryE unit
| RetrySys {X} (e : SysE X) : RetryE X.

#[export] Instance SubE_RetrySys : SubE SysE RetryE := @RetrySys.

Definition observed_fn (s : unit) : prog RetryE (option error * unit) :=
  err ← trigger CallFn; mret (err, tt).
Definition observed_cfg (max : Z) (base : Duration) : Config RetryE unit :=
  mkConfig max base (Some (fun a e _ => trigger (CallOnRetry a e))).

(** One failed attempt that is followed by another one; [delay a] is the wait
    after attempt [a]. *)
Definition failed_attempt ctx (delay : Z -> Duration) (a : Z) (e : error) : list (event RetryE) :=
  [CallFn ~> Some e; CallOnRetry a e ~> tt; SelectAfter ctx (delay a) ~> None].

Fixpoint failed_attempts ctx delay (a : Z) (errs : list error) : list (event RetryE) :=
  match errs with
  | [] => []
  | e :: errs' => failed_attempt ctx delay a e ++ failed_attempts ctx delay (a + 1) errs'
  end.

(** How the last attempt, number [a], ends the call. *)
Inductive last_attempt ctx (delay : Z -> Duration) (max a : Z)
  : list (event RetryE) -> option error -> Prop :=
| last_ok : a <= max -> last_attempt ctx delay max a [CallFn ~> None] None
| last_error e : a = max -> last_attempt ctx delay max a [CallFn ~> Some e] (Some e)
| last_cancelled e cerr :
    a < max ->
    last_attempt ctx delay max a
      [CallFn ~> Some e; CallOnRetry a e ~> tt;
       SelectAfter ctx (delay a) ~> Some cerr]
      (Some (cancelled a cerr)).

(** The attempts from number [a] on, of [max]: the failed ones, then the last. *)
Definition observed_run ctx delay (max a : Z) (tr : list (event RetryE)) (r : option error) : Prop :=
  exists errs last,
    tr = failed_attempts ctx delay a errs ++ last /\
    last_attempt ctx delay max (a + Z.of_nat (length errs)) last r.

Lemma attempting_observed ctx max base a tr r :
  1 <= a <= max ->
  attempting ctx (observed_cfg max base) observed_fn a tt tr r tt <->
  observed_run ctx (backoff base) max a tr r.
Proof.
  intros Ha. split.
  - intros Hatt. remember tt as s eqn:Hs in Hatt at 1. remember tt as s' in Hatt.
    clear Hs Heqs'.
    induction Hatt as [a s tr s' Hfn|a s tr e s' Hmax Hfn
      |a s t1 e s1 t2 s2 cerr Hlt Hfn Hon|a s t1 e s1 t2 s2 t3 r s3 Hlt Hfn Hon Hatt IH].
    all: unfold observed_fn, call_OnRetry, observed_cfg in *; cbn [OnRetry MaxAttempts BaseDelay] in *.
    all: exec_inv.
    + exists [], [CallFn ~> None]. split; [done|]. constructor. simpl. lia.
    + exists [], [CallFn ~> Some e]. split; [done|]. constructor. simpl. lia.
    + eexists [], _. split; [reflexivity|]. simpl.
      rewrite Z.add_0_r. destruct s2. constructor. done.
    + destruct IH as (errs & last & -> & Hlast); [lia|].
      exists (e :: errs), last. destruct s2. split; [done|].
      replace (a + Z.of_nat (length (e :: errs))) with (a + 1 + Z.of_nat (length errs))
        by (simpl; lia). done.
  - intros (errs & last & -> & Hlast). revert a Ha Hlast.
    induction errs as [|e errs IH]; intros a Ha Hlast.
    + rewrite Z.add_0_r in Hlast. inversion Hlast; subst; simpl.
      * apply att_success. by exists None, [].
      * apply att_exhausted; [done|]. by exists (Some e), [].
      * apply (att_cancelled ctx (observed_cfg max base) observed_fn a tt [CallFn ~> Some e] e tt [CallOnRetry a e ~> tt] tt);
          [done| |]. { by exists (Some e), []. } { by exists tt, []. }
    + replace (a + Z.of_nat (length (e :: errs))) with (a + 1 + Z.of_nat (length errs))
        in Hlast by (simpl; lia).
      assert (a < max) by (inversion Hlast; lia).
      apply (att_again ctx (observed_cfg max base) observed_fn a tt [CallFn ~> Some e] e tt [CallOnRetry a e ~> tt] tt);
        [done| | |apply IH; [lia|done]]. { by exists (Some e), []. } { by exists tt, []. }
Qed.

(** Only the delays between the first and the last attempt matter. *)
Lemma observed_run_delays ctx d d' max a tr r :
  (forall k, a <= k < max -> d k = d' k) ->
  observed_run ctx d max a tr r -> observed_run ctx d' max a tr r.
Proof.
  intros Hd (errs & l & -> & Hl). exists errs, l.
  assert (a + Z.of_nat (length errs) <= max) as Hle by (inversion Hl; lia). split.
  - f_equal. clear Hl. revert a Hd Hle. induction errs as [|e errs IH]; intros a Hd Hle; [done|].
    cbn [failed_attempts length] in *. unfold failed_attempt. rewrite Hd by lia. f_equal.
    apply IH; [|lia]. intros k Hk. apply Hd. lia.
  - destruct Hl as [Hle'|e Heq|e cerr Hlt]; [by constructor..|]. rewrite Hd by lia. by constructor.
Qed.

(** What the code computes is the product, wrapped around once. *)
Lemma backoff_formula base a : backoff base a = int64 (base * a ^ 2).
Proof.
  unfold backoff, int64, wrap. rewrite <- Z.pow_2_r. set (q := a ^ 2). f_equal.
  set (m := 2 ^ 64). set (h := 2 ^ (64 - 1)). assert (m <> 0) as Hm by done.
  rewrite <- (Zplus_mod_idemp_l _ h m), <- (Zplus_mod_idemp_l (base * q) h m). do 2 f_equal.
  rewrite Z.mul_sub_distr_l.
  rewrite Zminus_mod, (Zmult_mod base ((q + h) mod m)), Z.mod_mod, <- Zmult_mod by done.
  rewrite <- Zminus_mod. f_equal. lia.
Qed.

(** C17: [Do] with [MaxAttempts = max] runs [fn] until it succeeds, the
    attempts run out or the context is done while it waits: the trace is the
    failed attempts, in order, each with its call of [OnRetry] and a wait, then
    the last one; nothing else can happen, and every such trace can.  The wait
    after attempt [a] is [base * a^2] wrapped around to 64 bits, and so is
    [base * a^2] itself as long as that fits for the last attempt. *)
Theorem Do_trace ctx max base tr r :
  (exec (Do ctx (observed_cfg max base) observed_fn tt) tr (r, tt) <->
   observed_run ctx (fun a => (base * a ^ 2 + 2 ^ 63) mod 2 ^ 64 - 2 ^ 63) (Z.max 1 max) 1 tr r) /\
  (0 <= base -> base * Z.max 1 max ^ 2 < 2 ^ 63 ->
   exec (Do ctx (observed_cfg max base) observed_fn tt) tr (r, tt) <->
   observed_run ctx (fun a => base * a ^ 2) (Z.max 1 max) 1 tr r).
Proof.
  assert (exec (Do ctx (observed_cfg max base) observed_fn tt) tr (r, tt) <->
    observed_run ctx (backoff base) (Z.max 1 max) 1 tr r) as Hrun.
  { rewrite Do_refines.
    assert (normalize (observed_cfg max base) = observed_cfg (Z.max 1 max) base) as ->.
    { unfold normalize. cbn. destruct (Z.leb_spec max 0); unfold observed_cfg; f_equal; lia. }
    apply attempting_observed. lia. }
  rewrite Hrun. split.
  - split; apply observed_run_delays; intros k _; by rewrite backoff_formula.
  - intros Hb Hmax.
    assert (forall k, 1 <= k < Z.max 1 max -> backoff base k = base * k ^ 2) as Hexact.
    { intros k Hk. rewrite backoff_formula. apply int64_small. unfold in_int64.
      assert (0 <= k ^ 2 <= Z.max 1 max ^ 2) as Hsq by (rewrite !Z.pow_2_r; nia). nia. }
    split; apply observed_run_delays; intros k Hk; by rewrite Hexact.
Qed.

(** Four attempts a second apart at first: three of them fail. *)
Lemma Do_trace_witness :
  exec (Do CtxRun (observed_cfg 4 Second) observed_fn tt)
    [CallFn ~> Some ContextCanceled; CallOnRetry 1 ContextCanceled ~> tt;
     SelectAfter CtxRun (1 * Second) ~> None;
     CallFn ~> Some ContextCanceled; CallOnRetry 2 ContextCanceled ~> tt;
     SelectAfter CtxRun (4 * Second) ~> None;
     CallFn ~> Some ContextCanceled; CallOnRetry 3 ContextCanceled ~> tt;
     SelectAfter CtxRun (9 * Second) ~> None; CallFn ~> None] (None, tt).
Proof.
  apply (proj2 (Do_trace CtxRun 4 Second _ None)); [discriminate|reflexivity|].
  exists [ContextCanceled; ContextCanceled; ContextCanceled], [CallFn ~> None].
  split; [reflexivity|]. constructor. cbn. lia.
Defined.
