(* ===== verification/Handlers.v ===== *)
(** * Task handlers: internal/handlers

    The registry (handler.go) and the two handlers of the package, email
    (email.go) and webhook (webhook.go).  A handler is a program over
    [HandlerE]; spans are not modelled. *)

From S2P Require Import Prelude Prog GoStrings Domain GoFloat JsonText Json Effects.

(** ** Registry (handler.go:16-44)

    Every access holds the mutex for its whole duration, so the operations are
    atomic transitions of the map. *)

Module Registry.
Abbreviation t := (gmap string Handler).

Definition NewRegistry : t := ∅.

Definition Register (h : Handler) (r : t) : t := <[h.(TaskType) := h]> r.

Definition Get (r : t) (taskType : string) : goresult Handler :=
  match r !! taskType with
  | Some h => Ok h
  | None => Err (InvalidTaskTypeError taskType)
  end.

(** Every handler is filed under its own type. *)
Definition wf (r : t) : Prop := forall ty h, r !! ty = Some h -> h.(TaskType) = ty.

Lemma wf_New : wf NewRegistry.
Proof. intros ty h H. unfold NewRegistry in H. simplify_map_eq. Qed.

Lemma wf_Register h r : wf r -> wf (Register h r).
Proof.
  intros Hwf ty h' H. unfold Register in H. rewrite lookup_insert in H.
  case_decide; simplify_eq; eauto.
Qed.

Lemma Get_Register h r ty :
  Get (Register h r) ty = if decide (h.(TaskType) = ty) then Ok h else Get r ty.
Proof.
  unfold Get, Register. rewrite lookup_insert. by destruct (decide _).
Qed.

(** Every handler was put there by [Register]: the registry a service
    builds by registering [hs] in order returns the last one of each type. *)
Definition build (hs : list Handler) : t := foldl (fun r h => Register h r) NewRegistry hs.

Lemma wf_build hs : wf (build hs).
Proof.
  unfold build. generalize wf_New. generalize NewRegistry.
  induction hs as [|h hs IH]; intros r Hr; simpl; [done|]. by apply IH, wf_Register.
Qed.
End Registry.

(** ** Handler payloads *)

Record emailPayload := mkEmailPayload { To : string; Subject : string; Body : string }.

Record webhookPayload := mkWebhookPayload {
  wh_URL : string; wh_Method : string; wh_Headers : gmap string string; wh_Body : string }.

(** [json.Unmarshal] of a task's payload into the two payload structs; a nil
    payload is the empty text. *)
Definition email_json : fields emailPayload := [
  ("to", field_of load_string To (fun v p => mkEmailPayload v p.(Subject) p.(Body)));
  ("subject", field_of load_string Subject (fun v p => mkEmailPayload p.(To) v p.(Body)));
  ("body", field_of load_string Body (fun v p => mkEmailPayload p.(To) p.(Subject) v))]%string.

Definition webhook_json : fields webhookPayload := [
  ("url", field_of load_string wh_URL
            (fun v p => mkWebhookPayload v p.(wh_Method) p.(wh_Headers) p.(wh_Body)));
  ("method", field_of load_string wh_Method
               (fun v p => mkWebhookPayload p.(wh_URL) v p.(wh_Headers) p.(wh_Body)));
  ("headers", field_of load_map wh_Headers
                (fun v p => mkWebhookPayload p.(wh_URL) p.(wh_Method) v p.(wh_Body)));
  ("body", field_of load_string wh_Body
             (fun v p => mkWebhookPayload p.(wh_URL) p.(wh_Method) p.(wh_Headers) v))]%string.

Definition unmarshalEmail `{JsonTexts} (payload : option string) : goresult emailPayload :=
  Unmarshal "handlers.emailPayload" email_json (mkEmailPayload "" "" "") (default "" payload).

Definition unmarshalWebhook `{JsonTexts} (payload : option string) : goresult webhookPayload :=
  Unmarshal "handlers.webhookPayload" webhook_json (mkWebhookPayload "" "" ∅ "")
    (default "" payload).

Definition payload_ex (fields : string) : option string := Some ("{" +:+ fields +:+ "}").
Example unmarshal_ex `{JsonTexts} :
  unmarshalEmail (payload_ex (field "to" +:+ write_string "a@b.c" +:+ "," +:+
      field "Body" +:+ write_string "<hi>"))
    = Ok (mkEmailPayload "a@b.c" "" "<hi>") /\
  unmarshalWebhook (payload_ex (field "url" +:+ write_string "http://x" +:+ "," +:+
      field "headers" +:+ "{" +:+ field "A" +:+ write_string "1" +:+ "}"))
    = Ok (mkWebhookPayload "http://x" "" {["A" := "1"]} "") /\
  is_ok (unmarshalEmail None) = false /\
  is_ok (unmarshalWebhook (payload_ex (field "headers" +:+ "[]"))) = false.
Proof. vm_compute. done. Qed.

(** ** Email (email.go) *)

Definition CR : ascii := byte_of 13.
Definition LF : ascii := byte_of 10.
Definition CRLF : string := String CR (String LF "").

(** [buildMIME] (email.go:95-101). *)
Definition buildMIME (from to subject body : string) : string :=
  "From: " +:+ from +:+ CRLF +:+
  "To: " +:+ to +:+ CRLF +:+
  "Subject: " +:+ subject +:+ CRLF +:+
  "MIME-Version: 1.0" +:+ CRLF +:+
  "Content-Type: text/plain; charset=UTF-8" +:+ CRLF +:+ CRLF +:+ body.

Record EmailConfig := mkEmailConfig {
  Host : string; Port : Z; From : string; Username : string; Password : string }.

Section Handle.
Context `{JsonTexts}.

(** [EmailHandler.Handle] (email.go:45-93). The goroutine running
    [smtp.SendMail] and the [select] on its result or the context are one
    call, answered by whichever came first. *)
Definition EmailHandle (cfg : EmailConfig) (ctx : Ctx) (task : Task.t)
  : prog HandlerE (option error) :=
  match unmarshalEmail task.(Task.Payload) with
  | Err err => mret (Some (ErrWrap "invalid email payload" err))
  | Ok p =>
      if String.eqb p.(To) "" then
        mret (Some (ErrNew "email payload missing required field 'to'"))
      else
        let addr := cfg.(Host) +:+ ":" +:+ Itoa cfg.(Port) in
        let msg := buildMIME cfg.(From) p.(To) p.(Subject) p.(Body) in
        let auth :=
          if String.eqb cfg.(Username) "" then None
          else Some (mkPlainAuth "" cfg.(Username) cfg.(Password) cfg.(Host)) in
        res ← trigger (SelectSendMail ctx addr auth cfg.(From) [p.(To)] msg);
        match res with
        | SendDone (Some err) => mret (Some (ErrWrap ("smtp send to " +:+ p.(To)) err))
        | SendDone None => mret None
        | SendCtxDone err => mret (Some (ErrWrap "email send timed out" err))
        end
  end.

Definition NewEmailHandler (cfg : EmailConfig) : Handler :=
  mkHandler (EmailHandle cfg) "email".
End Handle.

(** ** Webhook (webhook.go) *)

(** [http.Header.Set]: the key in canonical form, replacing earlier values. A
    key with a byte outside the token alphabet is kept as it is. *)
Definition token_byte (a : ascii) : bool :=
  let c := byte_val a in
  in_range 48 57 c || in_range 65 90 c || in_range 97 122 c ||
  existsb (Z.eqb c) [33; 35; 36; 37; 38; 39; 42; 43; 45; 46; 94; 95; 96; 124; 126].

Fixpoint canon_key (upper : bool) (s : string) : string :=
  match s with
  | "" => ""
  | String a s' =>
      let c := byte_val a in
      let c' := if upper && in_range 97 122 c then c - 32
                else if negb upper && in_range 65 90 c then c + 32 else c in
      String (byte_of c') (canon_key (c' =? 45) s')
  end.

Definition CanonicalHeaderKey (s : string) : string :=
  if string_forallb token_byte s then canon_key true s else s.

Definition HeaderSet (h : gmap string string) (kv : string * string) : gmap string string :=
  <[CanonicalHeaderKey kv.1 := kv.2]> h.

Definition MethodPost : string := "POST".
Definition StatusBadRequest : Z := 400.

Section Webhook.
Context `{JsonTexts}.

(** [WebhookHandler.Handle] (webhook.go:42-99); the client has a timeout of
    15 seconds (webhook.go:36). *)
Definition WebhookHandle (ctx : Ctx) (task : Task.t) : prog HandlerE (option error) :=
  match unmarshalWebhook task.(Task.Payload) with
  | Err err => mret (Some (ErrWrap "invalid webhook payload" err))
  | Ok p =>
      if String.eqb p.(wh_URL) "" then
        mret (Some (ErrNew "webhook payload missing required field 'url'"))
      else
        let method := if String.eqb p.(wh_Method) "" then MethodPost else p.(wh_Method) in
        let bodyReader := if String.eqb p.(wh_Body) "" then None else Some p.(wh_Body) in
        err ← trigger (NewRequest ctx method p.(wh_URL) bodyReader);
        match err with
        | Some err => mret (Some (ErrWrap "build webhook request" err))
        | None =>
            kvs ← trigger (RangeMap p.(wh_Headers));
            let req := mkHttpRequest ctx method p.(wh_URL) bodyReader
                         (foldl HeaderSet ∅ kvs) in
            resp ← trigger (HttpDo (15 * Second) req);
            match resp with
            | Err err => mret (Some (ErrWrap ("webhook call to " +:+ p.(wh_URL)) err))
            | Ok status =>
                if StatusBadRequest <=? status then
                  mret (Some (ErrNew ("webhook " +:+ p.(wh_URL) +:+ " returned status "
                                      +:+ Itoa status)))
                else mret None
            end
        end
  end.

Definition NewWebhookHandler : Handler := mkHandler WebhookHandle "webhook".
End Webhook.

(** ** A reader of messages, to say what [buildMIME] means

    Header lines end in CRLF and an empty line ends the header; a header line
    is a name, a colon and a space, and a value. *)

Definition is_crlf_byte (a : ascii) : bool := bool_decide (a = CR) || bool_decide (a = LF).
Definition no_crlf (s : string) : bool := string_forallb (fun a => negb (is_crlf_byte a)) s.

Fixpoint take_line (s : string) : option (string * string) :=
  match s with
  | String a s' =>
      match s' with
      | String b s'' =>
          if bool_decide (a = CR) && bool_decide (b = LF) then Some ("", s'')
          else '(l, rest) ← take_line s'; Some (String a l, rest)
      | "" => None
      end
  | "" => None
  end.

Fixpoint split_header (s : string) : option (string * string) :=
  match s with
  | "" => None
  | String a s' =>
      match s' with
      | String b s'' =>
          if (byte_val a =? 58) && (byte_val b =? 32) then Some ("", s'')
          else '(n, v) ← split_header s'; Some (String a n, v)
      | "" => None
      end
  end.

Fixpoint read_message (fuel : nat) (s : string)
  : option (list (string * string) * string) :=
  match fuel with
  | O => None
  | S fuel' =>
      '(line, rest) ← take_line s;
      if String.eqb line "" then Some ([], rest)
      else
        header ← split_header line;
        '(hs, body) ← read_message fuel' rest;
        Some (header :: hs, body)
  end.

Lemma take_line_app l rest :
  no_crlf l = true -> take_line (l +:+ CRLF +:+ rest) = Some (l, rest).
Proof.
  induction l as [|a l IH]; intros Hl; [done|].
  unfold no_crlf in Hl. cbn in Hl. apply andb_true_iff in Hl as [Ha Hl].
  specialize (IH Hl). unfold is_crlf_byte in Ha.
  apply negb_true_iff, orb_false_iff in Ha as [Ha _].
  change (String a l +:+ CRLF +:+ rest) with (String a (l +:+ CRLF +:+ rest)).
  cbn [take_line].
  destruct (l +:+ CRLF +:+ rest) as [|b s] eqn:E; [by destruct l|].
  by rewrite Ha, IH.
Qed.

Lemma no_crlf_app s1 s2 : no_crlf (s1 +:+ s2) = no_crlf s1 && no_crlf s2.
Proof. apply string_forallb_app. Qed.

(** A message built from fields without line breaks is read back as
    exactly the five headers, with the given values, and the body. *)
Theorem buildMIME_roundtrip from to subject body :
  no_crlf from = true -> no_crlf to = true -> no_crlf subject = true ->
  read_message 6 (buildMIME from to subject body) =
  Some ([("From", from); ("To", to); ("Subject", subject); ("MIME-Version", "1.0");
         ("Content-Type", "text/plain; charset=UTF-8")], body).
Proof.
  intros Hf Ht Hs. unfold buildMIME.
  rewrite <- (string_app_assoc "From: " from), <- (string_app_assoc "To: " to),
    <- (string_app_assoc "Subject: " subject).
  cbn [read_message mbind option_bind].
  repeat (rewrite take_line_app; [|rewrite ?no_crlf_app, ?Hf, ?Ht, ?Hs; reflexivity];
          cbn [mbind option_bind String.eqb]).
  reflexivity.
Qed.

(** A line break in the subject of the payload adds a header
    of the caller's choice to the message that is sent. *)
Theorem buildMIME_injection :
  exists subject hs body,
    read_message 8 (buildMIME "noreply@taskflow.dev" "a@example.com" subject "hi")
      = Some (hs, body)
    /\ ("Bcc", "b@example.com") ∈ hs.
Proof.
  exists ("x" +:+ CRLF +:+ "Bcc: b@example.com").
  eexists _, _. split; [vm_compute; reflexivity|].
  rewrite list_elem_of_In. simpl. tauto.
Qed.

(** ** When a handler reports success *)

Section HandlerSpec.
Context `{JsonTexts}.

(** C39: the email handler returns nil exactly when the payload decodes,
    names a recipient, and SMTP accepted the one message built from it. *)
Theorem EmailHandle_nil cfg ctx task tr :
  exec (EmailHandle cfg ctx task) tr None <->
  exists p auth,
    unmarshalEmail task.(Task.Payload) = Ok p /\ p.(To) <> "" /\
    (auth = None <-> cfg.(Username) = "") /\
    tr = [SelectSendMail ctx (cfg.(Host) +:+ ":" +:+ Itoa cfg.(Port)) auth cfg.(From)
            [p.(To)] (buildMIME cfg.(From) p.(To) p.(Subject) p.(Body))
          ~> SendDone None]
    /\ forall a, auth = Some a ->
         a = mkPlainAuth "" cfg.(Username) cfg.(Password) cfg.(Host).
Proof.
  unfold EmailHandle. split.
  - intros Hex. destruct (unmarshalEmail _) as [p|e]; [|exec_inv].
    destruct (String.eqb_spec p.(To) "") as [?|Hto]; [exec_inv|].
    exec_inv. eexists p, _. split_and!; eauto.
    + by destruct (String.eqb_spec cfg.(Username) "").
    + destruct (String.eqb_spec cfg.(Username) ""); congruence.
  - intros (p & auth & Hp & Hto & Hauth & -> & Ha). rewrite Hp.
    destruct (String.eqb_spec p.(To) "") as [?|_]; [done|].
    rewrite exec_call. exists (SendDone None), []. split; [|done].
    do 3 f_equal. destruct auth as [a|], (String.eqb_spec cfg.(Username) "") as [He|He];
      try done; [by apply Hauth in He|by rewrite (Ha a)|].
    by destruct He; apply Hauth.
Qed.

(** C40: the webhook handler returns nil exactly when the payload
    decodes with a URL, the request could be built with the method (POST by
    default), body and headers of the payload, and the response status was
    below 400. *)
Theorem WebhookHandle_nil ctx task tr :
  exec (WebhookHandle ctx task) tr None <->
  exists p kvs status,
    let method := if String.eqb p.(wh_Method) "" then "POST" else p.(wh_Method) in
    let body := if String.eqb p.(wh_Body) "" then None else Some p.(wh_Body) in
    unmarshalWebhook task.(Task.Payload) = Ok p /\ p.(wh_URL) <> "" /\ status < 400 /\
    tr = [NewRequest ctx method p.(wh_URL) body ~> None;
          RangeMap p.(wh_Headers) ~> kvs;
          HttpDo (15 * Second)
            (mkHttpRequest ctx method p.(wh_URL) body (foldl HeaderSet ∅ kvs))
          ~> Ok status].
Proof.
  unfold WebhookHandle. split.
  - intros Hex. destruct (unmarshalWebhook _) as [p|e]; [|exec_inv].
    destruct (String.eqb_spec p.(wh_URL) "") as [?|Hurl]; [exec_inv|].
    exec_call in Hex as [e|]; [exec_inv|].
    exec_call in Hex as kvs. exec_call in Hex as [st|e]; [|exec_inv].
    destruct (Z.leb_spec StatusBadRequest st); [exec_inv|]. exec_inv.
    exists p, kvs, st. by split_and!.
  - intros (p & kvs & st & Hp & Hurl & Hst & ->). rewrite Hp.
    destruct (String.eqb_spec p.(wh_URL) "") as [?|_]; [done|].
    exec_do None. exec_do kvs. exec_do (Ok st).
    destruct (Z.leb_spec StatusBadRequest st); [unfold StatusBadRequest in *; lia|done].
Qed.
End HandlerSpec.

(** ** Header order *)

Lemma foldl_HeaderSet_lookup kvs h k :
  NoDup (map (fun kv => CanonicalHeaderKey kv.1) kvs) ->
  foldl HeaderSet h kvs !! k =
  match list_find (fun kv => CanonicalHeaderKey kv.1 = k) kvs with
  | Some (_, kv) => Some kv.2
  | None => h !! k
  end.
Proof.
  revert h. induction kvs as [|kv kvs IH]; intros h Hnd; [done|].
  cbn [map] in Hnd. apply NoDup_cons in Hnd as [Hni Hnd].
  cbn [foldl list_find]. rewrite IH by done. unfold HeaderSet at 1.
  case_decide as Hk.
  - subst k.
    destruct (list_find _ kvs) as [[i kv']|] eqn:Hf.
    + apply list_find_Some in Hf as (Hi & Heq & _). destruct Hni.
      apply list_elem_of_lookup_2 in Hi. rewrite <- Heq.
      apply list_elem_of_In, in_map_iff. exists kv'. by rewrite <- list_elem_of_In.
    + by rewrite lookup_insert_eq.
  - destruct (list_find _ kvs) as [[i kv']|] eqn:Hf; cbn; [done|].
    by rewrite lookup_insert_ne.
Qed.

Lemma NoDup_find_perm {A} (f : A -> string) (l1 l2 : list A) k :
  l1 ≡ₚ l2 -> NoDup (map f l1) ->
  snd <$> list_find (fun x => f x = k) l1 = snd <$> list_find (fun x => f x = k) l2.
Proof.
  intros Hp Hnd.
  assert (Hnd2 : NoDup (map f l2)) by by rewrite <- Hp.
  destruct (list_find (fun x => f x = k) l1) as [[i x]|] eqn:H1,
           (list_find (fun x => f x = k) l2) as [[j y]|] eqn:H2; cbn; [| | |done].
  - apply list_find_Some in H1 as (H1 & Hx & _), H2 as (H2 & Hy & _). f_equal.
    apply list_elem_of_lookup_2 in H1, H2. rewrite <- Hp in H2.
    apply list_elem_of_lookup in H1 as [i' H1], H2 as [j' H2].
    assert (i' = j') as ->; [|congruence].
    eapply (NoDup_lookup _ _ _ (f x) Hnd); rewrite list_lookup_fmap.
    + by rewrite H1.
    + rewrite H2. cbn. congruence.
  - apply list_find_Some in H1 as (H1 & Hx & _). apply list_elem_of_lookup_2 in H1.
    rewrite Hp in H1. apply list_find_None in H2.
    rewrite Forall_forall in H2. by destruct (H2 x).
  - apply list_find_Some in H2 as (H2 & Hx & _). apply list_elem_of_lookup_2 in H2.
    rewrite <- Hp in H2. apply list_find_None in H1.
    rewrite Forall_forall in H1. by destruct (H1 y).
Qed.

(** The headers of a webhook request do not depend on the order in
    which Go ranges over the payload's map, as long as no two of its keys have
    the same canonical form. *)
Theorem webhook_headers_order (m : gmap string string) kvs1 kvs2 :
  NoDup (map (fun kv => CanonicalHeaderKey kv.1) (map_to_list m)) ->
  kvs1 ≡ₚ map_to_list m -> kvs2 ≡ₚ map_to_list m ->
  foldl HeaderSet ∅ kvs1 = foldl HeaderSet ∅ kvs2.
Proof.
  intros Hnd H1 H2. apply map_eq. intros k.
  rewrite !foldl_HeaderSet_lookup; [|by rewrite H2|by rewrite H1].
  pose proof (NoDup_find_perm (fun kv => CanonicalHeaderKey kv.1) kvs1 kvs2 k) as Hf.
  cbn beta in Hf. specialize (Hf ltac:(by rewrite H1, H2) ltac:(by rewrite H1)).
  destruct (list_find _ kvs1) as [[i x]|], (list_find _ kvs2) as [[j y]|];
    cbn in Hf; congruence.
Qed.

(** ** Concrete runs *)

Lemma buildMIME_roundtrip_witness :
  read_message 6 (buildMIME "noreply@taskflow.dev" "a@example.com" "hello" "body") =
  Some ([("From", "noreply@taskflow.dev"); ("To", "a@example.com"); ("Subject", "hello");
         ("MIME-Version", "1.0"); ("Content-Type", "text/plain; charset=UTF-8")]%string,
        "body"%string).
Proof.
  exact (buildMIME_roundtrip "noreply@taskflow.dev" "a@example.com" "hello" "body"
    eq_refl eq_refl eq_refl).
Defined.
