(* ===== verification/Kafka.v ===== *)
(** * Kafka: internal/kafka

    The header carrier (carrier.go) on a slice with its backing array, the
    producer (producer.go), the consumer loop (consumer.go), and what the loop
    means for the offsets of a consumer group. *)

From S2P Require Import Prelude Prog GoStrings Domain GoFloat Effects.

Record Header := mkHeader { h_Key : string; h_Value : string }.

#[export] Instance Header_eq_dec : EqDecision Header.
Proof. solve_decision. Defined.

(** ** HeaderCarrier (carrier.go)

    A Go slice: the backing array (its length is the capacity) and the length
    of the slice.  [Set] filters the slice in place, so the loop reads and
    writes the same array. *)

Module HeaderCarrier.
Record t := mk { arr : list Header; len : nat }.

Definition contents (c : t) : list Header := take c.(len) c.(arr).
Definition wf (c : t) : Prop := (c.(len) <= length c.(arr))%nat.

(** [make(HeaderCarrier, 0)] *)
Definition make : t := mk [] 0.

(** carrier.go:11-18 *)
Fixpoint get (hs : list Header) (key : string) : string :=
  match hs with
  | [] => ""
  | h :: hs' => if String.eqb h.(h_Key) key then h.(h_Value) else get hs' key
  end.
Definition Get (c : t) (key : string) : string := get (contents c) key.

(** The loop of [Set] (carrier.go:22-27): [i] is the next index read, [w] the
    length of [filtered], [n] the iterations left; [range *c] evaluated the
    slice once, so the bound is the old length. *)
Fixpoint filter_loop (key : string) (n i w : nat) (arr : list Header)
  : list Header * nat :=
  match n with
  | O => (arr, w)
  | S n' =>
      match arr !! i with
      | None => (arr, w)
      | Some h =>
          if String.eqb h.(h_Key) key then filter_loop key n' (S i) w arr
          else filter_loop key n' (S i) (S w) (<[w := h]> arr)
      end
  end.

(** [append(s, h)]: in place when the capacity allows, else a new array. *)
Definition append (arr : list Header) (n : nat) (h : Header) : t :=
  if (n <? length arr)%nat then mk (<[n := h]> arr) (S n)
  else mk (take n arr ++ [h]) (S n).

(** carrier.go:21-29 *)
Definition Set_ (c : t) (key value : string) : t :=
  let '(arr', w) := filter_loop key c.(len) 0 0 c.(arr) in
  append arr' w (mkHeader key value).

(** carrier.go:32-38 *)
Definition Keys (c : t) : list string := map h_Key (contents c).

Definition other (key : string) (h : Header) : Prop := h.(h_Key) <> key.
#[local] Instance other_dec key h : Decision (other key h).
Proof. unfold other. apply _. Defined.

(** The elements not read yet are where they were, because the write index
    never overtakes the read index. *)
Lemma filter_loop_spec key n i w arr arr0 :
  (w <= i)%nat -> (i + n <= length arr0)%nat -> length arr = length arr0 ->
  drop i arr = drop i arr0 ->
  let '(arr', w') := filter_loop key n i w arr in
  take w' arr' = take w arr ++ filter (other key) (take n (drop i arr0)) /\
  length arr' = length arr0 /\ (w' <= i + n)%nat.
Proof.
  revert i w arr. induction n as [|n IH]; intros i w arr Hwi Hn Hlen Hdrop; simpl.
  { rewrite app_nil_r. split_and!; [done|done|lia]. }
  destruct (lookup_lt_is_Some_2 arr0 i ltac:(lia)) as [h Hh].
  assert (arr !! i = Some h) as Harr.
  { rewrite <- (Nat.add_0_r i), <- lookup_drop, Hdrop, lookup_drop, Nat.add_0_r. done. }
  rewrite Harr, (drop_S _ _ _ Hh). simpl.
  assert (drop (S i) arr = drop (S i) arr0) as HdropS.
  { rewrite (drop_S _ _ _ Harr), (drop_S _ _ _ Hh) in Hdrop. congruence. }
  destruct (String.eqb_spec h.(h_Key) key) as [Hk|Hk].
  - rewrite filter_cons_False by (unfold other; tauto).
    specialize (IH (S i) w arr ltac:(lia) ltac:(lia) Hlen HdropS).
    destruct (filter_loop key n (S i) w arr) as [arr' w'].
    destruct IH as (? & ? & ?). split_and!; [done|done|lia].
  - rewrite filter_cons_True by done.
    specialize (IH (S i) (S w) (<[w := h]> arr) ltac:(lia) ltac:(lia)).
    rewrite length_insert in IH. rewrite drop_insert_lt in IH by lia.
    specialize (IH Hlen HdropS).
    destruct (filter_loop key n (S i) (S w) _) as [arr' w'].
    destruct IH as (Htake & ? & ?). split_and!; [|done|lia].
    rewrite Htake.
    rewrite (take_S_r _ _ h) by (apply list_lookup_insert_eq; lia).
    rewrite take_insert_ge by lia. by rewrite <- app_assoc.
Qed.

Lemma contents_append arr n h :
  (n <= length arr)%nat ->
  contents (append arr n h) = take n arr ++ [h] /\ wf (append arr n h).
Proof.
  intros Hn. unfold append, contents, wf. destruct (Nat.ltb_spec n (length arr)); simpl.
  - rewrite length_insert. split; [|lia].
    rewrite (take_S_r _ _ h) by (apply list_lookup_insert_eq; lia).
    by rewrite take_insert_ge by lia.
  - assert (length (take n arr ++ [h]) = S n) as Hl.
    { rewrite length_app, length_take. simpl. lia. }
    rewrite take_ge by (rewrite Hl; lia). split; [done|lia].
Qed.

(** Although it filters the slice in place, [Set] leaves
    exactly the headers with other keys, in their order, followed by the new
    one. *)
Theorem Set_contents c key value :
  wf c ->
  contents (Set_ c key value) =
    filter (other key) (contents c) ++ [mkHeader key value] /\
  wf (Set_ c key value).
Proof.
  intros Hwf. unfold Set_.
  pose proof (filter_loop_spec key c.(len) 0 0 c.(arr) c.(arr)) as Hspec.
  rewrite drop_0 in Hspec.
  destruct (filter_loop key c.(len) 0 0 c.(arr)) as [arr' w].
  destruct Hspec as (Htake & Hlen & Hw); [lia|exact Hwf|done|done|].
  destruct (contents_append arr' w (mkHeader key value)) as [Hc Hwf'].
  { unfold wf in Hwf. lia. }
  rewrite Hc, Htake. done.
Qed.

Lemma get_app hs1 hs2 key :
  get (hs1 ++ hs2) key =
  if decide (key ∈ map h_Key hs1) then get hs1 key else get hs2 key.
Proof.
  induction hs1 as [|h hs IH]; cbn [app map get].
  { case_decide as Hin; [by apply not_elem_of_nil in Hin|done]. }
  destruct (String.eqb_spec h.(h_Key) key) as [<-|Hne].
  - by rewrite decide_True by set_solver.
  - rewrite IH. apply decide_ext. set_solver.
Qed.

Lemma get_filter_ne hs key key' :
  key <> key' -> get (filter (other key) hs) key' = get hs key'.
Proof.
  intros Hne. induction hs as [|h hs IH]; [done|].
  rewrite filter_cons. case_decide as Ho; simpl; rewrite IH; [done|].
  unfold other in Ho. destruct (String.eqb_spec h.(h_Key) key'); [|done].
  destruct Ho. congruence.
Qed.

Lemma filter_other_keys hs key : key ∉ map h_Key (filter (other key) hs).
Proof.
  rewrite list_elem_of_In, in_map_iff. intros (h & Hk & Hin).
  apply list_elem_of_In, list_elem_of_filter in Hin as [Ho _]. done.
Qed.

(** Reading back what [Set] wrote, and every other key is
    read as before. *)
Theorem Get_Set c key value key' :
  wf c ->
  Get (Set_ c key value) key' = if decide (key = key') then value else Get c key'.
Proof.
  intros Hwf. unfold Get. destruct (Set_contents c key value Hwf) as [-> _].
  rewrite get_app. destruct (decide (key = key')) as [<-|Hne].
  - rewrite decide_False by apply filter_other_keys. simpl.
    by rewrite String.eqb_refl.
  - rewrite get_filter_ne by done. case_decide as Hin; [done|].
    assert (get [mkHeader key value] key' = "") as ->.
    { simpl. by destruct (String.eqb_spec key key'). }
    assert (Hno : key' ∉ map h_Key (contents c)).
    { intros Hc. apply Hin. apply list_elem_of_In, in_map_iff in Hc as (h & Hk & Hh).
      apply list_elem_of_In, in_map_iff. exists h. split; [done|].
      apply list_elem_of_In, list_elem_of_filter. split; [|by apply list_elem_of_In].
      unfold other. congruence. }
    clear -Hno. induction (contents c) as [|h hs IH]; [done|]. simpl in *.
    destruct (String.eqb_spec h.(h_Key) key'); [set_solver|apply IH; set_solver].
Qed.
End HeaderCarrier.

(** ** Messages *)

(** [kafka.Message] of the client library, as far as it is used. *)
Record KMessage := mkKMessage {
  k_Topic : string; k_Partition : Z; k_Offset : Z;
  k_Key : string; k_Value : string; k_Headers : list Header }.

(** [Message] (consumer.go:14-20). *)
Record Message := mkMessage {
  Topic : string; Key : string; Value : string; Offset : Z; Headers : list Header }.

Definition toMessage (m : KMessage) : Message :=
  mkMessage m.(k_Topic) m.(k_Key) m.(k_Value) m.(k_Offset) m.(k_Headers).

(** ** Producer (producer.go:38-55)

    [InjectTrace] is the propagator writing the trace context through the
    carrier: the key/value pairs it [Set]s, in order.  The message time is not
    modelled. *)

Inductive KafkaE : Type -> Type :=
| InjectTrace (ctx : Ctx) : KafkaE (list (string * string))
| WriteMessages (ctx : Ctx) (topic key value : string) (headers : list Header)
  : KafkaE (option error).

(** [kafka.Writer] as the constructor fills it in (producer.go:22-36). *)
Inductive Balancer : Type := Hash | RoundRobin.
Inductive RequiredAcks : Type := RequireNone | RequireOne | RequireAll.
Record WriterConfig := mkWriter {
  wc_Addr : list string; wc_Balancer : Balancer; wc_RequiredAcks : RequiredAcks;
  wc_MaxAttempts : Z; wc_BatchSize : Z; wc_WriteTimeout : Duration; wc_ReadTimeout : Duration;
  wc_AllowAutoTopicCreation : bool }.

Definition NewProducer (brokers : list string) : WriterConfig :=
  mkWriter brokers Hash RequireOne 3 1 (10 * Second) (10 * Second) true.

Definition producer_Publish (ctx : Ctx) (topic key value : string)
  : prog KafkaE (option error) :=
  kvs ← trigger (InjectTrace ctx);
  let headers := foldl (fun c kv => HeaderCarrier.Set_ c kv.1 kv.2) HeaderCarrier.make kvs in
  err ← trigger (WriteMessages ctx topic key value (HeaderCarrier.contents headers));
  match err with
  | Some err => mret (Some (ErrWrap ("kafka publish to " +:+ topic) err))
  | None => mret None
  end.

(** ** Consumer (consumer.go:54-98)

    [Subscribe] loops for as long as messages arrive, so it takes the number
    of fetches it may make; [None] is a loop that is still running. *)

(** [kafka.ReaderConfig] as the constructor fills it in (consumer.go:38-50). *)
Inductive StartOffset : Type := FirstOffset | LastOffset.
Record ReaderConfig := mkReader {
  rc_Brokers : list string; rc_Topic : string; rc_GroupID : string;
  rc_MinBytes : Z; rc_MaxBytes : Z; rc_MaxWait : Duration; rc_CommitInterval : Duration;
  rc_StartOffset : StartOffset }.

Definition NewConsumer (brokers : list string) (topic groupID : string) : ReaderConfig :=
  mkReader brokers topic groupID 1 10000000 (500 * Millisecond) 0 FirstOffset.

Inductive ConsumerE : Type -> Type :=
| FetchMessage (ctx : Ctx) : ConsumerE (goresult KMessage)
| CtxErr (ctx : Ctx) : ConsumerE (option error)
| CommitMessages (ctx : Ctx) (m : KMessage) : ConsumerE (option error).

Section Subscribe.
Context {E : Type -> Type} `{SubE ConsumerE E}.
Context (ctx : Ctx) (handle : Ctx -> Message -> prog E (option error)).

Fixpoint Subscribe (n : nat) : prog E (option (option error)) :=
  match n with
  | O => mret None
  | S n' =>
      r ← trigger (FetchMessage ctx);
      match r with
      | Err err =>
          cerr ← trigger (CtxErr ctx);
          match cerr with
          | Some _ => mret (Some None)
          | None => mret (Some (Some (ErrWrap "kafka fetch" err)))
          end
      | Ok m =>
          err ← handle ctx (toMessage m);
          match err with
          | Some _ => Subscribe n'
          | None =>
              _ ← trigger (CommitMessages CtxBackground m);
              Subscribe n'
          end
      end
  end.
End Subscribe.

(** ** What the loop does, message by message

    [SubscribeE] makes the calls of the handler visible. A [delivery] is one
    message the loop got through: what the handler answered and, after a nil
    answer, what the commit answered. *)

Inductive SubscribeE : Type -> Type :=
| OnConsumer {X} (e : ConsumerE X) : SubscribeE X
| HandleMsg (ctx : Ctx) (msg : Message) : SubscribeE (option error).

#[export] Instance SubE_Consumer : SubE ConsumerE SubscribeE := @OnConsumer.

Definition observed_handle (ctx : Ctx) (msg : Message) : prog SubscribeE (option error) :=
  trigger (HandleMsg ctx msg).

Inductive delivery : Type :=
| Refused (m : KMessage) (err : error)
| Handled (m : KMessage) (commit : option error).

Definition delivery_msg (d : delivery) : KMessage :=
  match d with Refused m _ => m | Handled m _ => m end.

Definition delivery_trace (ctx : Ctx) (d : delivery) : list (event SubscribeE) :=
  match d with
  | Refused m e =>
      [FetchMessage ctx ~> Ok m; HandleMsg ctx (toMessage m) ~> Some e]
  | Handled m c =>
      [FetchMessage ctx ~> Ok m; HandleMsg ctx (toMessage m) ~> None;
       CommitMessages CtxBackground m ~> c]
  end.

Definition session_trace ctx (ds : list delivery) : list (event SubscribeE) :=
  ds ≫= delivery_trace ctx.

(** How a session of at most [n] fetches, [k] of them delivered, ends. *)
Inductive session_end ctx (n k : nat)
  : list (event SubscribeE) -> option (option error) -> Prop :=
| still_running : k = n -> session_end ctx n k [] None
| shut_down e cerr :
    (k < n)%nat ->
    session_end ctx n k [FetchMessage ctx ~> Err e; CtxErr ctx ~> Some cerr] (Some None)
| fetch_failed e :
    (k < n)%nat ->
    session_end ctx n k [FetchMessage ctx ~> Err e; CtxErr ctx ~> None]
      (Some (Some (ErrWrap "kafka fetch" e))).

Lemma Subscribe_sessions ctx n tr r :
  exec (Subscribe ctx observed_handle n) tr r <->
  exists ds last,
    tr = session_trace ctx ds ++ last /\ session_end ctx n (length ds) last r.
Proof.
  revert tr. induction n as [|n IH]; intros tr; cbn [Subscribe]; split.
  - intros Hex. exec_inv. exists [], []. split; [done|]. by constructor.
  - intros (ds & last & -> & Hend). inversion Hend; [|lia|lia]; subst.
    by destruct ds.
  - intros Hex. exec_call in Hex as [m|e].
    + unfold observed_handle in Hex. exec_call in Hex as [e|].
      * apply IH in Hex as (ds & last & -> & Hend).
        exists (Refused m e :: ds), last. split; [done|].
        inversion Hend; subst; constructor; simpl; lia.
      * exec_call in Hex as c. apply IH in Hex as (ds & last & -> & Hend).
        exists (Handled m c :: ds), last. split; [done|].
        inversion Hend; subst; constructor; simpl; lia.
    + exec_call in Hex as [cerr|]; exec_inv; (eexists [], _; split; [reflexivity|]);
        constructor; simpl; lia.
  - intros (ds & last & -> & Hend). destruct ds as [|d ds].
    + inversion Hend; subst; [done| |]; exec_do (Err e).
      * by exec_do (Some cerr).
      * by exec_do None.
    + assert (exec (Subscribe ctx observed_handle n) (session_trace ctx ds ++ last) r) as Hex.
      { apply IH. exists ds, last. split; [done|].
        inversion Hend; subst; constructor; simpl in *; lia. }
      unfold session_trace. rewrite bind_cons.
      destruct d as [m e|m c]; cbn [delivery_trace app];
        (rewrite exec_call; exists (Ok m); eexists; split; [reflexivity|]);
        unfold observed_handle.
      * by exec_do (Some e).
      * exec_do None. by exec_do c.
Qed.

(** C20: the loop takes the messages one at a time; an offset is
    committed, with the background context, right after its handler returned
    nil and in no other case; the loop returns only when a fetch fails, nil if
    the context was done and the wrapped fetch error otherwise. *)
Theorem Subscribe_trace ctx n tr r :
  exec (Subscribe ctx observed_handle n) tr r <->
  exists ds last,
    tr = session_trace ctx ds ++ last /\ session_end ctx n (length ds) last r.
Proof. apply Subscribe_sessions. Qed.

(** ** Offsets of the consumer group

    The documentation of the client: committing a message sets the committed
    offset of its partition, and the message with the highest offset of a
    partition determines it; a consumer that restarts resumes every partition
    at its committed offset. *)

Class GroupOffsets (G : Type) := {
  committed : G -> Z -> Z;
  commit : G -> KMessage -> G;
  committed_commit g m p :
    committed (commit g m) p =
    if decide (p = m.(k_Partition)) then Z.max (committed g p) (m.(k_Offset) + 1)
    else committed g p }.

Section Offsets.
Context {G : Type} `{GroupOffsets G}.

(** The commits of a session that succeeded. *)
Definition commit_delivery (g : G) (d : delivery) : G :=
  match d with
  | Handled m None => commit g m
  | _ => g
  end.
Definition after (g : G) (ds : list delivery) : G := foldl commit_delivery g ds.

(** The message is fetched again after a restart. *)
Definition redelivered (g : G) (m : KMessage) : Prop :=
  committed g m.(k_Partition) <= m.(k_Offset).

Definition acked (p : Z) (off : Z) (d : delivery) : Prop :=
  exists m, d = Handled m None /\ m.(k_Partition) = p /\ off <= m.(k_Offset).

Lemma after_lt g ds p off :
  off < committed (after g ds) p <-> off < committed g p \/ Exists (acked p off) ds.
Proof.
  unfold after. revert g. induction ds as [|d ds IH]; intros g; simpl.
  { rewrite Exists_nil. tauto. }
  rewrite IH, Exists_cons. unfold commit_delivery at 1, acked at 2.
  destruct d as [m e|m [e|]].
  1, 2: split; [tauto|intros [?|[(? & ? & _)|?]]; [tauto|congruence|tauto]].
  rewrite committed_commit. case_decide as Hp.
  - split.
    + intros [Hlt|?]; [|tauto].
      destruct (Z.lt_ge_cases off (committed g p)); [tauto|].
      right. left. exists m. split_and!; [done|done|lia].
    + intros [?|[(m' & [= <-] & _ & ?)|?]]; [left; lia|left; lia|tauto].
  - split; [tauto|]. intros [?|[(m' & [= <-] & ? & _)|?]]; [tauto|congruence|tauto].
Qed.

(** Messages of a session arrive in offset order within each partition, from
    the committed offset of the group on. *)
Definition in_order (g : G) (ds : list delivery) : Prop :=
  Forall (fun d => redelivered g (delivery_msg d)) ds /\
  forall i j d d', ds !! i = Some d -> ds !! j = Some d' -> (i < j)%nat ->
    (delivery_msg d).(k_Partition) = (delivery_msg d').(k_Partition) ->
    (delivery_msg d).(k_Offset) < (delivery_msg d').(k_Offset).

(** Which refused messages of a session are fetched again. *)
Lemma session_redelivered g ds i m err :
  in_order g ds -> ds !! i = Some (Refused m err) ->
  redelivered (after g ds) m <->
  forall j m', (i < j)%nat -> ds !! j = Some (Handled m' None) ->
    m'.(k_Partition) <> m.(k_Partition).
Proof.
  intros [Hfrom Hord] Hi. unfold redelivered at 1.
  assert (Hg : redelivered g m).
  { rewrite Forall_lookup in Hfrom. by apply (Hfrom i (Refused m err)). }
  unfold redelivered in Hg.
  split.
  - intros Hle j m' Hij Hj Hp.
    assert (m.(k_Offset) < committed (after g ds) m.(k_Partition)); [|lia].
    apply after_lt. right. apply Exists_exists. exists (Handled m' None).
    split; [by apply list_elem_of_lookup_2 in Hj|].
    exists m'. split_and!; [done|done|].
    specialize (Hord i j _ _ Hi Hj Hij). simpl in Hord. rewrite Hp in Hord. lia.
  - intros Hno. apply Z.le_ngt. intros Hlt. apply after_lt in Hlt as [?|Hex]; [lia|].
    apply Exists_exists in Hex as (d & Hd & m' & -> & Hp & Hoff).
    apply list_elem_of_lookup in Hd as [j Hj].
    destruct (Nat.lt_trichotomy i j) as [Hij|[->|Hji]].
    + by apply (Hno j m').
    + congruence.
    + specialize (Hord j i _ _ Hj Hi Hji). simpl in Hord. rewrite Hp in Hord. lia.
Qed.

(** The successful commits of a trace, and what they leave. *)
Definition commit_ok (ev : event SubscribeE) : option KMessage :=
  match ev with
  | @Ev _ X e x =>
      match e in SubscribeE X return X -> option KMessage with
      | OnConsumer e' =>
          match e' in ConsumerE X return X -> option KMessage with
          | CommitMessages _ m => fun o => match o with None => Some m | Some _ => None end
          | _ => fun _ => None
          end
      | HandleMsg _ _ => fun _ => None
      end x
  end.
Definition after_commits (g : G) (tr : list (event SubscribeE)) : G :=
  foldl commit g (omap commit_ok tr).

Lemma after_session ctx g ds : after_commits g (session_trace ctx ds) = after g ds.
Proof.
  unfold after_commits, after. revert g. induction ds as [|d ds IH]; intros g; [done|].
  change (session_trace ctx (d :: ds)) with (delivery_trace ctx d ++ session_trace ctx ds).
  rewrite omap_app, foldl_app, IH. cbn [foldl]. f_equal. by destruct d as [m e|m [e|]].
Qed.

Lemma session_end_commits ctx n k last r :
  session_end ctx n k last r -> omap commit_ok last = [].
Proof. by destruct 1. Qed.

(** The consumer keeps no record of a message whose handler
    returned an error: it is fetched again after a restart exactly when no
    later message of its partition was handled and committed in the same
    session. *)
Theorem refused_redelivered ctx n tr r g :
  exec (Subscribe ctx observed_handle n) tr r ->
  exists ds last,
    tr = session_trace ctx ds ++ last /\
    (in_order g ds -> forall i m err, ds !! i = Some (Refused m err) ->
     redelivered (after_commits g tr) m <->
     forall j m', (i < j)%nat -> ds !! j = Some (Handled m' None) ->
       m'.(k_Partition) <> m.(k_Partition)).
Proof.
  intros Hex. apply Subscribe_sessions in Hex as (ds & last & -> & Hend).
  exists ds, last. split; [done|]. intros Hord i m err Hi.
  assert (after_commits g (session_trace ctx ds ++ last) = after g ds) as ->.
  { rewrite <- (after_session ctx). unfold after_commits.
    by rewrite omap_app, (session_end_commits _ _ _ _ _ Hend), app_nil_r. }
  by apply (session_redelivered g ds i m err).
Qed.
End Offsets.

(** A group of one topic, its committed offsets as a function. *)
#[export] Instance map_offsets : GroupOffsets (Z -> Z).
Proof.
  refine {| committed g p := g p;
            commit g m := fun p => if decide (p = m.(k_Partition))
                                   then Z.max (g p) (m.(k_Offset) + 1) else g p |}.
  done.
Defined.

(** ** Concrete runs *)

Definition demo_kmsg (off : Z) : KMessage :=
  mkKMessage "tasks.pending" 0 off "k" "v" [].

(** A broker with two messages in one partition, and a handler that refuses
    the first: the second one's commit covers both. *)
Definition demo_broker : handler SubscribeE Z := fun X e =>
  match e in SubscribeE X return Z -> X * Z with
  | OnConsumer e' =>
      match e' in ConsumerE X return Z -> X * Z with
      | FetchMessage _ => fun off =>
          (if off <? 2 then Ok (demo_kmsg off) else Err ContextCanceled, off + 1)
      | CtxErr _ => fun off => (Some ContextCanceled, off)
      | CommitMessages _ _ => fun off => (None, off)
      end
  | HandleMsg _ m => fun off =>
      (if m.(Offset) =? 0 then Some (ErrNew "set running status") else None, off)
  end.

Definition demo_session : list (event SubscribeE) :=
  run_trace demo_broker (Subscribe CtxRun observed_handle 5) 0.

Example demo_session_skips_refused :
  committed (after_commits (fun _ => 0) demo_session) 0 = 2.
Proof. vm_compute. reflexivity. Qed.

Lemma refused_redelivered_witness :
  exists ds last, demo_session = session_trace CtxRun ds ++ last.
Proof.
  destruct (refused_redelivered CtxRun 5 demo_session _ (fun _ => 0)
    (run_exec demo_broker (Subscribe CtxRun observed_handle 5) 0)) as (ds & last & Htr & _).
  exists ds, last. exact Htr.
Defined.

Lemma Get_Set_witness :
  HeaderCarrier.Get (HeaderCarrier.Set_ HeaderCarrier.make "traceparent" "00-01") "traceparent"
  = "00-01".
Proof.
  exact (HeaderCarrier.Get_Set HeaderCarrier.make "traceparent" "00-01" "traceparent"
    (Nat.le_0_l _)).
Defined.
