(* ===== verification/Worker.v ===== *)
(** * The worker: services/worker/worker.go

    [processMessage] with its retry loop, the success and failure epilogues,
    and what every execution of it does to the outside, whatever Redis,
    PostgreSQL, Kafka and the handler answer.  Logs and spans are not
    modelled. *)

From S2P Require Import Prelude Prog GoStrings Domain GoFloat Effects Retry Handlers Kafka.

Definition topicDLQ : string := "tasks.dlq".

(** [Worker] (worker.go:29-44): its interfaces are effects, the WaitGroup and
    the in-flight counter are [WorkerE] calls. *)
Record Worker := mkWorker {
  registry : Registry.t;
  workerID : string;
  workerType : string;
  maxRetries : Z;
  timeout : Duration;
  baseDelay : Duration }.

(** Options and constructor (worker.go:47-81). *)
Definition WithRetries (n : Z) (w : Worker) : Worker :=
  mkWorker w.(registry) w.(workerID) w.(workerType) n w.(timeout) w.(baseDelay).
Definition WithTimeout (d : Duration) (w : Worker) : Worker :=
  mkWorker w.(registry) w.(workerID) w.(workerType) w.(maxRetries) d w.(baseDelay).
Definition WithWorkerType (t : string) (w : Worker) : Worker :=
  mkWorker w.(registry) w.(workerID) t w.(maxRetries) w.(timeout) w.(baseDelay).
Definition WithBaseDelay (d : Duration) (w : Worker) : Worker :=
  mkWorker w.(registry) w.(workerID) w.(workerType) w.(maxRetries) w.(timeout) d.

Definition NewWorker (id : string) (reg : Registry.t) (opts : list (Worker -> Worker))
  : Worker :=
  foldl (fun w opt => opt w)
    (mkWorker reg id "" 3 (30 * Second) Second) opts.

Section Worker.
Context `{UnicodeTables} `{TaskCodec}.
Implicit Types (w : Worker) (ctx : Ctx) (task : Task.t) (tr : svc_trace).

(** [durationSec := time.Since(start).Seconds()] and
    [durationMs := int64(durationSec * 1000)] (worker.go:180-181). A
    Duration is below 2^63 ns, so the conversion is always in range. *)
Definition durationMs (d : Duration) : Z :=
  default 0 (f64_to_int64 (f64_mul (Seconds d) (f64_of_Z 1000))).

(** worker.go:205-230 *)
Definition finishSuccess w ctx task (ms : Z) : prog SvcE unit :=
  now ← trigger Now;
  let task := Task.set_UpdatedAt now
                (Task.set_Status StatusDone (Task.set_CompletedAt (Some now) task)) in
  _ ← trigger (SetStatus ctx task.(Task.ID) StatusDone);
  _ ← trigger (SetTaskMeta ctx task);
  let exec := TaskExecution.mk "" task.(Task.ID) w.(workerID) task.(Task.Attempts)
                StatusDone ms "" now in
  _ ← trigger (RecordExecution ctx exec);
  _ ← trigger (UpdateStatus ctx task.(Task.ID) StatusDone);
  trigger (Inc (WorkerTasksProcessed w.(workerType) "done")).

(** worker.go:232-262 *)
Definition finishFailure w ctx task (taskErr : error) (ms : Z) (raw : string)
  : prog SvcE unit :=
  now ← trigger Now;
  let task := Task.set_UpdatedAt now (Task.set_Status StatusDead task) in
  _ ← trigger (SetStatus ctx task.(Task.ID) StatusDead);
  _ ← trigger (SetTaskMeta ctx task);
  let exec := TaskExecution.mk "" task.(Task.ID) w.(workerID) task.(Task.Attempts)
                StatusDead ms (Error taskErr) now in
  _ ← trigger (RecordExecution ctx exec);
  _ ← trigger (UpdateStatus ctx task.(Task.ID) StatusDead);
  _ ← trigger (Publish ctx topicDLQ task.(Task.ID) raw);
  _ ← trigger (Inc (WorkerTasksProcessed w.(workerType) "dead"));
  trigger (Inc (WorkerDLQTotal w.(workerType))).

(** The closure given to [retry.Do] (worker.go:167-177); its state is the
    captured variable [attempts]. The handler runs under a timeout on a
    fresh background context. *)
Definition attempt w (h : Handler) task (attempts : Z)
  : prog SvcE (option error * Z) :=
  err ← trigger (OnHandle h (CtxTimeout CtxBackground w.(timeout)) task);
  mret (err, int64 (attempts + 1)).

(** [OnRetry] (worker.go:158-166). *)
Definition onRetry w ctx task (att : Z) (_ : error) (_ : Z) : prog SvcE Z :=
  _ ← trigger (Inc (WorkerRetriesTotal w.(workerType)));
  _ ← trigger (SetStatus ctx task.(Task.ID) StatusRetrying);
  mret att.

Definition retryConfig w ctx task : Config SvcE Z :=
  mkConfig (int64 (w.(maxRetries) + 1)) w.(baseDelay) (Some (onRetry w ctx task)).

(** worker.go:152-200, from the start of the clock to the epilogue *)
Definition execute w ctx (h : Handler) task (raw : string) : prog SvcE unit :=
  start ← trigger Now;
  '(execErr, attempts) ← Do ctx (retryConfig w ctx task) (attempt w h task) 0;
  let task := Task.set_Attempts attempts task in
  elapsed ← trigger (Since start);
  _ ← trigger (Observe (WorkerTaskDurationSeconds w.(workerType)) (Seconds elapsed));
  match execErr with
  | None => finishSuccess w ctx task (durationMs elapsed)
  | Some err => finishFailure w ctx task err (durationMs elapsed) raw
  end.

(** worker.go:93-203; [ctx] is the consumer context with the span. The
    deferred function runs after the epilogue. *)
Definition processMessage w ctx (msg : Message) : prog SvcE (option error) :=
  match unmarshalTask msg.(Value) with
  | Err _ => mret None
  | Ok task =>
      st ← trigger (GetStatus ctx task.(Task.ID));
      let terminal := match st with Ok s => IsTerminal s | Err _ => false end in
      if terminal then mret None
      else
        match Registry.Get w.(registry) task.(Task.Type_) with
        | Err _ =>
            _ ← trigger (SetStatus ctx task.(Task.ID) StatusDead);
            _ ← trigger (Publish ctx topicDLQ task.(Task.ID) msg.(Value));
            _ ← trigger (Inc (WorkerDLQTotal w.(workerType)));
            mret None
        | Ok h =>
            err ← trigger (SetStatus ctx task.(Task.ID) StatusRunning);
            match err with
            | Some err => mret (Some (ErrWrap "set running status" err))
            | None =>
                _ ← trigger (WgAdd 1);
                _ ← trigger (InFlightAdd 1);
                _ ← trigger (Inc (WorkerTasksInFlight w.(workerType)));
                _ ← execute w ctx h task msg.(Value);
                _ ← trigger (Dec (WorkerTasksInFlight w.(workerType)));
                _ ← trigger (InFlightAdd (-1));
                _ ← trigger (WgAdd (-1));
                mret None
            end
        end
  end.

(** ** What the retry loop leaves in the trace

    [errs] are the errors of the failed attempts, in order. *)

Definition handler_answers (errs : list error) (r : option error) : list (option error) :=
  map Some errs ++ match r with None => [None] | Some _ => [] end.

(** How a loop that started at attempt [a] with [max] attempts in all ended,
    with [k] retries announced. *)
Inductive loop_end (max a : Z) (errs : list error) : option error -> nat -> Prop :=
| loop_ok :
    a + Z.of_nat (length errs) <= max -> loop_end max a errs None (length errs)
| loop_exhausted e :
    last errs = Some e -> a - 1 + Z.of_nat (length errs) = max ->
    loop_end max a errs (Some e) (length errs - 1)
| loop_cancelled c :
    errs <> [] -> a - 1 + Z.of_nat (length errs) < max ->
    loop_end max a errs (Some (cancelled (a - 1 + Z.of_nat (length errs)) c)) (length errs).

Record loop_summary w (task : Task.t) (max a : Z) tr (r : option error) (att : Z)
  (errs : list error) (k : nat) : Prop := {
  ls_end : loop_end max a errs r k;
  ls_calls : handler_calls tr =
    map (fun o => (CtxTimeout CtxBackground w.(timeout), task, o)) (handler_answers errs r);
  ls_att : att = a - 1 + Z.of_nat (length (handler_answers errs r));
  ls_statuses : exists outs, length outs = k /\
    status_writes tr = map (fun o => (task.(Task.ID), StatusRetrying, o)) outs;
  ls_metas : meta_writes tr = [];
  ls_reads : status_reads tr = [];
  ls_publications : publications tr = [];
  ls_records : exec_records tr = [];
  ls_repo : repo_writes tr = [] /\ creations tr = [];
  ls_wg : omap wg_delta tr = [] }.

Lemma exec_attempt w h task att tr err att' :
  exec (attempt w h task att) tr (err, att') <->
  tr = [OnHandle h (CtxTimeout CtxBackground w.(timeout)) task ~> err] /\
  att' = int64 (att + 1).
Proof.
  unfold attempt. split.
  - intros Hex. by exec_inv.
  - intros [-> ->]. by exec_do err.
Qed.

Lemma exec_onRetry w ctx task a e att tr att' :
  exec (onRetry w ctx task a e att) tr att' <->
  exists o, tr = [Inc (WorkerRetriesTotal w.(workerType)) ~> tt;
                  SetStatus ctx task.(Task.ID) StatusRetrying ~> o] /\ att' = a.
Proof.
  unfold onRetry. split.
  - intros Hex. exec_call in Hex as []. exec_call in Hex as o. exec_inv. eauto.
  - intros (o & -> & ->). exec_do tt. by exec_do o.
Qed.

Lemma loop_end_cons max a e errs r k :
  1 <= a -> a < max -> loop_end max (a + 1) errs r k -> loop_end max a (e :: errs) r (S k).
Proof.
  intros Ha Hlt Hend. inversion Hend as [Hle|e' Hlast Hmax|c Hne Hlt']; subst.
  - apply (loop_ok max a (e :: errs)). simpl. lia.
  - destruct errs as [|e1 errs]; [done|].
    replace (S (length (e1 :: errs) - 1)) with (length (e :: e1 :: errs) - 1)%nat
      by (simpl; lia).
    apply loop_exhausted; [done|]. simpl in *. lia.
  - replace (a + 1 - 1 + Z.of_nat (length errs)) with (a - 1 + Z.of_nat (length (e :: errs)))
      by (simpl; lia).
    apply (loop_cancelled max a (e :: errs)); [done|]. simpl. lia.
Qed.

Lemma loop_inv w ctx h task cfg max a tr r att :
  cfg = mkConfig max w.(baseDelay) (Some (onRetry w ctx task)) ->
  1 <= a <= max -> max < 2 ^ 63 ->
  attempting ctx cfg (attempt w h task) a (a - 1) tr r att ->
  exists errs k, loop_summary w task max a tr r att errs k.
Proof.
  intros -> Ha Hmax Hatt. remember (a - 1) as s eqn:Hs.
  induction Hatt as [a s tr s' Hfn|a s tr e s' Heq Hfn
    |a s t1 e s1 t2 s2 cerr Hlt Hfn Hon|a s t1 e s1 t2 s2 t3 r s3 Hlt Hfn Hon Hatt IH];
    unfold call_OnRetry in *; cbn [OnRetry MaxAttempts BaseDelay] in *; subst s;
    apply exec_attempt in Hfn as [-> ->];
    try apply exec_onRetry in Hon as (o & -> & ->);
    try rewrite int64_small by (unfold in_int64; lia).
  - exists [], 0%nat. split; try done; [apply loop_ok; simpl; lia|by exists []].
  - exists [e], 0%nat. split; try done; [|by exists []].
    apply loop_exhausted; [done|simpl; lia].
  - exists [e], 1%nat. split; try done; [|simpl; lia|by exists [o]].
    replace a with (a - 1 + Z.of_nat (length [e])) at 2 by (simpl; lia).
    apply (loop_cancelled max a [e]); [done|simpl; lia].
  - destruct IH as (errs & k & [Hend Hcalls Hatt' (outs & Hk & Hst) Hmeta Hread Hpub Hrec Hrepo Hwg]);
      [lia|lia|].
    exists (e :: errs), (S k). split.
    + by apply loop_end_cons; [lia| |].
    + unfold handler_calls in *. cbn. by rewrite Hcalls.
    + rewrite Hatt'. unfold handler_answers. simpl. lia.
    + exists (o :: outs). split; [by simpl; rewrite Hk|].
      unfold status_writes in *. cbn. by rewrite Hst.
    + done.
    + done.
    + done.
    + done.
    + done.
    + done.
Qed.

(** ** The outcomes of a message *)

Definition not_terminal (st : goresult Status) : Prop :=
  forall s, st = Ok s -> IsTerminal s = false.

Definition maxAttempts w : Z := Z.max 1 (int64 (w.(maxRetries) + 1)).

Lemma maxAttempts_range w : 1 <= maxAttempts w < 2 ^ 63.
Proof.
  unfold maxAttempts. pose proof (int64_range (w.(maxRetries) + 1)) as Hr.
  unfold in_int64 in Hr. lia.
Qed.

(** The epilogue of a task that ran for [d] and ended with [r]; [o1]..[o5]
    are the answers of the writes. *)
Inductive epilogue w ctx task (raw : string) (d : Duration)
  : option error -> svc_trace -> Prop :=
| ep_success now o1 o2 o3 o4 :
    epilogue w ctx task raw d None
      [Now ~> now;
       SetStatus ctx task.(Task.ID) StatusDone ~> o1;
       SetTaskMeta ctx (Task.set_UpdatedAt now (Task.set_Status StatusDone
                          (Task.set_CompletedAt (Some now) task))) ~> o2;
       RecordExecution ctx (TaskExecution.mk "" task.(Task.ID) w.(workerID)
         task.(Task.Attempts) StatusDone (durationMs d) "" now) ~> o3;
       UpdateStatus ctx task.(Task.ID) StatusDone ~> o4;
       Inc (WorkerTasksProcessed w.(workerType) "done") ~> tt]
| ep_failure err now o1 o2 o3 o4 o5 :
    epilogue w ctx task raw d (Some err)
      [Now ~> now;
       SetStatus ctx task.(Task.ID) StatusDead ~> o1;
       SetTaskMeta ctx (Task.set_UpdatedAt now (Task.set_Status StatusDead task)) ~> o2;
       RecordExecution ctx (TaskExecution.mk "" task.(Task.ID) w.(workerID)
         task.(Task.Attempts) StatusDead (durationMs d) (Error err) now) ~> o3;
       UpdateStatus ctx task.(Task.ID) StatusDead ~> o4;
       Publish ctx topicDLQ task.(Task.ID) raw ~> o5;
       Inc (WorkerTasksProcessed w.(workerType) "dead") ~> tt;
       Inc (WorkerDLQTotal w.(workerType)) ~> tt].

Inductive outcome w ctx (raw : string) task : svc_trace -> option error -> Prop :=
| oc_skipped s :
    IsTerminal s = true ->
    outcome w ctx raw task [GetStatus ctx task.(Task.ID) ~> Ok s] None
| oc_no_handler st e o1 o2 :
    not_terminal st -> Registry.Get w.(registry) task.(Task.Type_) = Err e ->
    outcome w ctx raw task
      [GetStatus ctx task.(Task.ID) ~> st;
       SetStatus ctx task.(Task.ID) StatusDead ~> o1;
       Publish ctx topicDLQ task.(Task.ID) raw ~> o2;
       Inc (WorkerDLQTotal w.(workerType)) ~> tt] None
| oc_not_started st h e :
    not_terminal st -> Registry.Get w.(registry) task.(Task.Type_) = Ok h ->
    outcome w ctx raw task
      [GetStatus ctx task.(Task.ID) ~> st;
       SetStatus ctx task.(Task.ID) StatusRunning ~> Some e]
      (Some (ErrWrap "set running status" e))
| oc_executed st h start loop r att errs k d ep :
    not_terminal st -> Registry.Get w.(registry) task.(Task.Type_) = Ok h ->
    loop_summary w task (maxAttempts w) 1 loop r att errs k ->
    epilogue w ctx (Task.set_Attempts att task) raw d r ep ->
    outcome w ctx raw task
      ([GetStatus ctx task.(Task.ID) ~> st;
        SetStatus ctx task.(Task.ID) StatusRunning ~> None;
        WgAdd 1 ~> tt; InFlightAdd 1 ~> tt;
        Inc (WorkerTasksInFlight w.(workerType)) ~> tt; Now ~> start]
       ++ loop ++
       [Since start ~> d;
        Observe (WorkerTaskDurationSeconds w.(workerType)) (Seconds d) ~> tt]
       ++ ep ++
       [Dec (WorkerTasksInFlight w.(workerType)) ~> tt;
        InFlightAdd (-1) ~> tt; WgAdd (-1) ~> tt]) None.

Lemma finish_epilogue w ctx task raw d r tr u :
  exec (match r with
        | None => finishSuccess w ctx task (durationMs d)
        | Some err => finishFailure w ctx task err (durationMs d) raw
        end) tr u ->
  epilogue w ctx task raw d r tr.
Proof.
  intros Hex. destruct r as [err|]; unfold finishFailure, finishSuccess in Hex; exec_inv;
    repeat match goal with x : unit |- _ => destruct x end.
  - apply (ep_failure w ctx task raw d err).
  - apply (ep_success w ctx task raw d).
Qed.

Lemma execute_inv w ctx h task raw tr u :
  exec (execute w ctx h task raw) tr u ->
  exists start loop r att errs k d ep,
    loop_summary w task (maxAttempts w) 1 loop r att errs k /\
    epilogue w ctx (Task.set_Attempts att task) raw d r ep /\
    tr = [Now ~> start] ++ loop ++
         [Since start ~> d;
          Observe (WorkerTaskDurationSeconds w.(workerType)) (Seconds d) ~> tt] ++ ep.
Proof.
  unfold execute. intros Hex. exec_call in Hex as start.
  apply exec_bind in Hex as (loop & t2 & [r att] & -> & Hloop & Hex).
  cbn beta iota in Hex. exec_call in Hex as d. exec_call in Hex as [].
  apply finish_epilogue in Hex.
  apply Do_refines in Hloop.
  eapply (loop_inv w ctx h task _ (maxAttempts w)) in Hloop as (errs & k & Hloop).
  - eexists start, loop, r, att, errs, k, d, _. by split_and!.
  - unfold normalize, retryConfig, maxAttempts. cbn.
    destruct (Z.leb_spec (int64 (w.(maxRetries) + 1)) 0); f_equal; lia.
  - pose proof (maxAttempts_range w). lia.
  - apply maxAttempts_range.
Qed.

Lemma processMessage_inv w ctx msg task tr r :
  unmarshalTask msg.(Value) = Ok task ->
  exec (processMessage w ctx msg) tr r ->
  outcome w ctx msg.(Value) task tr r.
Proof.
  intros Hu Hex. unfold processMessage in Hex. rewrite Hu in Hex.
  exec_call in Hex as st. cbn zeta in Hex.
  destruct (match st with Ok s => IsTerminal s | Err _ => false end) eqn:Hterm.
  { destruct st as [s|]; [|done]. exec_inv. by constructor. }
  assert (Hnt : not_terminal st) by (intros s ->; done).
  destruct (Registry.Get w.(registry) task.(Task.Type_)) as [h|e] eqn:Hreg.
  - exec_call in Hex as [e|]; [exec_inv; by econstructor|].
    exec_call in Hex as []. exec_call in Hex as []. exec_call in Hex as [].
    apply exec_bind in Hex as (t1 & t2 & [] & -> & Hrun & Hex).
    exec_call in Hex as []. exec_call in Hex as []. exec_call in Hex as [].
    exec_inv.
    apply execute_inv in Hrun as (start & loop & r & att & errs & k & d & ep & Hl & He & ->).
    pose proof (oc_executed w ctx msg.(Value) task st h start loop r att errs k d ep
                  Hnt Hreg Hl He) as Hoc.
    cbn [app] in *. rewrite <- !app_assoc. exact Hoc.
  - exec_call in Hex as o1. exec_call in Hex as o2. exec_call in Hex as [].
    exec_inv. by econstructor.
Qed.

(** ** Reading the projections off an outcome *)

Lemma epilogue_projections w ctx task raw d r ep :
  epilogue w ctx task raw d r ep ->
  exists o x,
    status_writes ep =
      [(task.(Task.ID), match r with None => StatusDone | Some _ => StatusDead end, o)] /\
    status_reads ep = [] /\ handler_calls ep = [] /\ omap wg_delta ep = [] /\
    exec_records ep = [x] /\
    x.(TaskExecution.TaskID) = task.(Task.ID) /\
    x.(TaskExecution.WorkerID) = w.(workerID) /\
    x.(TaskExecution.Attempt) = task.(Task.Attempts) /\
    match r with
    | None => publications ep = [] /\
              x.(TaskExecution.Status_) = StatusDone /\ x.(TaskExecution.Error) = ""
    | Some err => (exists o', publications ep = [(topicDLQ, task.(Task.ID), raw, o')]) /\
                  x.(TaskExecution.Status_) = StatusDead /\
                  x.(TaskExecution.Error) = Error err
    end.
Proof.
  intros Hep. destruct Hep as [now o1 o2 o3 o4|err now o1 o2 o3 o4 o5];
    eexists o1, _; split_and!; try reflexivity. by eexists.
Qed.

(** What the trace of an executed message contains. *)
Lemma executed_projections w ctx raw task tr st start loop r att errs k d ep :
  loop_summary w task (maxAttempts w) 1 loop r att errs k ->
  epilogue w ctx (Task.set_Attempts att task) raw d r ep ->
  tr = [GetStatus ctx task.(Task.ID) ~> st;
        SetStatus ctx task.(Task.ID) StatusRunning ~> None;
        WgAdd 1 ~> tt; InFlightAdd 1 ~> tt;
        Inc (WorkerTasksInFlight w.(workerType)) ~> tt; Now ~> start]
       ++ loop ++
       [Since start ~> d;
        Observe (WorkerTaskDurationSeconds w.(workerType)) (Seconds d) ~> tt]
       ++ ep ++
       [Dec (WorkerTasksInFlight w.(workerType)) ~> tt;
        InFlightAdd (-1) ~> tt; WgAdd (-1) ~> tt] ->
  status_reads tr = [(task.(Task.ID), st)] /\
  status_writes tr =
    (task.(Task.ID), StatusRunning, None) :: status_writes loop ++ status_writes ep /\
  handler_calls tr = handler_calls loop /\
  publications tr = publications ep /\ exec_records tr = exec_records ep /\
  omap wg_delta tr = [1; -1].
Proof.
  intros Hl Hep ->. destruct (epilogue_projections _ _ _ _ _ _ _ Hep)
    as (o & x & Hw & Hr & Hh & Hwg & _).
  unfold status_reads, status_writes, handler_calls, publications, exec_records in *.
  pose proof (ls_reads _ _ _ _ _ _ _ _ _ Hl) as Hlr.
  pose proof (ls_publications _ _ _ _ _ _ _ _ _ Hl) as Hlp.
  pose proof (ls_records _ _ _ _ _ _ _ _ _ Hl) as Hlx.
  pose proof (ls_wg _ _ _ _ _ _ _ _ _ Hl) as Hlw.
  unfold status_reads, publications, exec_records in *.
  rewrite !omap_app. rewrite Hr, Hh, Hwg, Hlr, Hlp, Hlx, Hlw.
  cbn. rewrite !app_nil_r. by split_and!.
Qed.
End Worker.
