(* ===== verification/Fakes.v ===== *)
(** * In-memory fakes

    A concrete environment for the services, in the style of the fakes of
    services/worker/worker_test.go and services/dispatcher/dispatcher_test.go:
    statuses, metadata and published messages in maps and lists, errors on
    demand, a scripted handler, and a service context that can be cancelled
    (every call made on a cancelled context fails with its error).  The
    examples and counterexamples of the development run in it. *)

From S2P Require Import Prelude Prog GoStrings Domain GoFloat Effects.

(** ASCII text only is printable. *)
#[export] Instance ascii_tables : UnicodeTables := fun _ => false.

(** A wire format for the examples: the one message is the demo task. *)
Definition demo_task : Task.t :=
  Task.mk "task-1" "email" (Some "{}") StatusPending 0 0 3 0 0 None None.
Definition demo_raw : string := "demo".
#[export] Instance demo_codec : TaskCodec := {|
  marshalTask t := Ok (if String.eqb t.(Task.ID) "task-1" then demo_raw else t.(Task.ID));
  unmarshalTask s := if String.eqb s demo_raw then Ok demo_task
                     else Err (ErrNew "invalid character") |}.

Record fake := mkFake {
  f_states : gmap string Status;
  f_meta : gmap string Task.t;
  f_db : gmap string Status;
  f_execs : list TaskExecution.t;
  f_published : list (string * string * string);
  f_setErrFor : list Status;            (* SetStatus fails for these *)
  f_publishErr : bool;                  (* Publish fails *)
  f_limiter : goresult bool;            (* what the rate limiter answers *)
  f_script : list (option error);       (* answers of the handler *)
  f_cancelAtWait : bool;                (* shutdown during the next backoff *)
  f_cancelInHandler : bool;             (* shutdown during the next handler call *)
  f_cancelled : bool;
  f_clock : Time }.

Definition fake_init : fake :=
  mkFake ∅ ∅ ∅ [] [] [] false (Ok true) [] false false false 0.

Definition f_dead (f : fake) (ctx : Ctx) : bool :=
  f.(f_cancelled) && derives_from ctx CtxRun.

Definition f_cancel (f : fake) : fake :=
  mkFake f.(f_states) f.(f_meta) f.(f_db) f.(f_execs) f.(f_published) f.(f_setErrFor)
    f.(f_publishErr) f.(f_limiter) f.(f_script) false false true f.(f_clock).

Definition f_with_states (f : fake) (s : gmap string Status) : fake :=
  mkFake s f.(f_meta) f.(f_db) f.(f_execs) f.(f_published) f.(f_setErrFor)
    f.(f_publishErr) f.(f_limiter) f.(f_script) f.(f_cancelAtWait)
    f.(f_cancelInHandler) f.(f_cancelled) f.(f_clock).
Definition f_with_meta (f : fake) (m : gmap string Task.t) : fake :=
  mkFake f.(f_states) m f.(f_db) f.(f_execs) f.(f_published) f.(f_setErrFor)
    f.(f_publishErr) f.(f_limiter) f.(f_script) f.(f_cancelAtWait)
    f.(f_cancelInHandler) f.(f_cancelled) f.(f_clock).
Definition f_with_db (f : fake) (m : gmap string Status) : fake :=
  mkFake f.(f_states) f.(f_meta) m f.(f_execs) f.(f_published) f.(f_setErrFor)
    f.(f_publishErr) f.(f_limiter) f.(f_script) f.(f_cancelAtWait)
    f.(f_cancelInHandler) f.(f_cancelled) f.(f_clock).
Definition f_with_execs (f : fake) (x : list TaskExecution.t) : fake :=
  mkFake f.(f_states) f.(f_meta) f.(f_db) x f.(f_published) f.(f_setErrFor)
    f.(f_publishErr) f.(f_limiter) f.(f_script) f.(f_cancelAtWait)
    f.(f_cancelInHandler) f.(f_cancelled) f.(f_clock).
Definition f_with_published (f : fake) (x : list (string * string * string)) : fake :=
  mkFake f.(f_states) f.(f_meta) f.(f_db) f.(f_execs) x f.(f_setErrFor)
    f.(f_publishErr) f.(f_limiter) f.(f_script) f.(f_cancelAtWait)
    f.(f_cancelInHandler) f.(f_cancelled) f.(f_clock).
Definition f_with_script (f : fake) (x : list (option error)) : fake :=
  mkFake f.(f_states) f.(f_meta) f.(f_db) f.(f_execs) f.(f_published) f.(f_setErrFor)
    f.(f_publishErr) f.(f_limiter) x f.(f_cancelAtWait)
    f.(f_cancelInHandler) f.(f_cancelled) f.(f_clock).
Definition f_with_setErrFor (f : fake) (x : list Status) : fake :=
  mkFake f.(f_states) f.(f_meta) f.(f_db) f.(f_execs) f.(f_published) x
    f.(f_publishErr) f.(f_limiter) f.(f_script) f.(f_cancelAtWait)
    f.(f_cancelInHandler) f.(f_cancelled) f.(f_clock).
Definition f_with_publishErr (f : fake) (x : bool) : fake :=
  mkFake f.(f_states) f.(f_meta) f.(f_db) f.(f_execs) f.(f_published) f.(f_setErrFor)
    x f.(f_limiter) f.(f_script) f.(f_cancelAtWait)
    f.(f_cancelInHandler) f.(f_cancelled) f.(f_clock).
Definition f_with_limiter (f : fake) (x : goresult bool) : fake :=
  mkFake f.(f_states) f.(f_meta) f.(f_db) f.(f_execs) f.(f_published) f.(f_setErrFor)
    f.(f_publishErr) x f.(f_script) f.(f_cancelAtWait)
    f.(f_cancelInHandler) f.(f_cancelled) f.(f_clock).
Definition f_with_shutdown (f : fake) (at_wait in_handler : bool) : fake :=
  mkFake f.(f_states) f.(f_meta) f.(f_db) f.(f_execs) f.(f_published) f.(f_setErrFor)
    f.(f_publishErr) f.(f_limiter) f.(f_script) at_wait in_handler
    f.(f_cancelled) f.(f_clock).

Definition f_store {X} (e : StoreE X) : fake -> X * fake :=
  match e in StoreE X return fake -> X * fake with
  | SetStatus ctx id s => fun f =>
      if f_dead f ctx then (Some ContextCanceled, f)
      else if bool_decide (s ∈ f.(f_setErrFor)) then (Some (ErrNew "redis unavailable"), f)
      else (None, f_with_states f (<[id := s]> f.(f_states)))
  | GetStatus ctx id => fun f =>
      if f_dead f ctx then (Err ContextCanceled, f)
      else (match f.(f_states) !! id with
            | Some s => Ok s | None => Err (TaskNotFoundError id) end, f)
  | SetTaskMeta ctx t => fun f =>
      if f_dead f ctx then (Some ContextCanceled, f)
      else (None, f_with_meta f (<[t.(Task.ID) := t]> f.(f_meta)))
  | GetTaskMeta ctx id => fun f =>
      if f_dead f ctx then (Err ContextCanceled, f)
      else (match f.(f_meta) !! id with
            | Some s => Ok s | None => Err (TaskNotFoundError id) end, f)
  | SetResult _ _ _ _ => fun f => (None, f)
  | GetResult _ id => fun f => (Err (TaskNotFoundError id), f)
  end.

Definition f_repo {X} (e : RepoE X) : fake -> X * fake :=
  match e in RepoE X return fake -> X * fake with
  | Create ctx t => fun f =>
      if f_dead f ctx then (Some ContextCanceled, f)
      else (None, f_with_db f (<[t.(Task.ID) := t.(Task.Status_)]> f.(f_db)))
  | UpdateStatus ctx id s => fun f =>
      if f_dead f ctx then (Some ContextCanceled, f)
      else (None, f_with_db f (<[id := s]> f.(f_db)))
  | RecordExecution ctx x => fun f =>
      if f_dead f ctx then (Some ContextCanceled, f)
      else (None, f_with_execs f (f.(f_execs) ++ [x]))
  | GetByID _ _ => fun f => (Err (TaskNotFoundError "unknown"), f)
  | ListByStatus _ _ _ => fun f => ([], None, f)
  end.

Definition f_producer {X} (e : ProducerE X) : fake -> X * fake :=
  match e in ProducerE X return fake -> X * fake with
  | Publish ctx topic key value => fun f =>
      if f_dead f ctx then (Some ContextCanceled, f)
      else if f.(f_publishErr) then (Some (ErrNew "broker unavailable"), f)
      else (None, f_with_published f (f.(f_published) ++ [(topic, key, value)]))
  end.

Definition f_sys {X} (e : SysE X) : fake -> X * fake :=
  match e in SysE X return fake -> X * fake with
  | Now => fun f => (f.(f_clock), f)
  | Since _ => fun f => (1001000000, f)
  | NewUUID => fun f => ("task-1", f)
  | SelectAfter ctx d => fun f =>
      if f.(f_cancelAtWait) || f_dead f ctx then (Some ContextCanceled, f_cancel f)
      else (None, f)
  end.

(** The whole environment. *)
Definition fake_env : handler SvcE fake := fun X e =>
  match e in SvcE X return fake -> X * fake with
  | OnStore e' => f_store e'
  | OnLimiter e' =>
      match e' in LimiterE X return fake -> X * fake with
      | Allow _ _ => fun f => (f.(f_limiter), f)
      | Limit => fun f => (100, f)
      end
  | OnRepo e' => f_repo e'
  | OnProducer e' => f_producer e'
  | OnSys e' => f_sys e'
  | OnMetric e' =>
      match e' in MetricE X return fake -> X * fake with
      | Inc _ => fun f => (tt, f)
      | Dec _ => fun f => (tt, f)
      | Observe _ _ => fun f => (tt, f)
      end
  | OnWorker e' =>
      match e' in WorkerE X return fake -> X * fake with
      | WgAdd _ => fun f => (tt, f)
      | InFlightAdd _ => fun f => (tt, f)
      end
  | OnHandle _ _ _ => fun f =>
      let f' := if f.(f_cancelInHandler) then f_cancel f else f in
      match f.(f_script) with
      | [] => (None, f')
      | o :: os => (o, f_with_script f' os)
      end
  end.
