(* ===== verification/WorkerSpec.v ===== *)
(** * Properties of the worker

    What every execution of [processMessage] does, whatever its environment
    answers, and two executions that lose a task's outcome at shutdown. *)

From S2P Require Import Prelude Prog GoStrings Domain GoFloat Effects Retry Handlers Kafka.
From S2P Require Import Worker Fakes.

Section WorkerSpec.
Context `{UnicodeTables} `{TaskCodec}.
Implicit Types (w : Worker) (ctx : Ctx) (task : Task.t) (tr : svc_trace).

(** Case analysis on the outcome of a message, with the projections of an
    executed one at hand. *)
Ltac inv_outcome Hex :=
  match type of Hex with
  | exec (processMessage _ _ _) _ _ =>
      eapply processMessage_inv in Hex; [|eassumption];
      destruct Hex as [s Hterm|st e o1 o2 Hnt Hreg|st h e Hnt Hreg
        |st h start loop res att errs k d ep Hnt Hreg Hl Hep];
      [ | | |
        destruct (executed_projections _ _ _ _ _ st start loop res att errs k d ep
                    Hl Hep eq_refl) as (HPreads & HPwrites & HPcalls & HPpubs & HPrecs & HPwg);
        destruct (epilogue_projections _ _ _ _ _ _ _ Hep)
          as (o & x & HEw & HEr & HEh & HEwg & HErec & HExid & HExw & HExa & HEres) ]
  end.

(** The status writes of one message. *)
Inductive status_path : list Status -> Prop :=
| path_none : status_path []
| path_no_handler : status_path [StatusDead]
| path_not_started : status_path [StatusRunning]
| path_run k final :
    final = StatusDone \/ final = StatusDead ->
    status_path (StatusRunning :: replicate k StatusRetrying ++ [final]).

Lemma retry_count max a errs r k :
  loop_end max a errs r k -> 1 <= a -> Z.of_nat k <= max - a.
Proof. intros Hend Ha. destruct Hend as [?|e Hlast ?|? ?]; [| |lia]; destruct errs; simpl in *; (done || lia). Qed.

(** C8: all the status writes of a message are for its task and
    walk RUNNING, RETRYING*, DONE or DEAD (DEAD alone for an unknown type,
    nothing for a finished task); RETRYING is written at most
    [maxRetries] times. *)
Theorem worker_status_path w ctx msg task tr r :
  unmarshalTask msg.(Value) = Ok task ->
  exec (processMessage w ctx msg) tr r ->
  Forall (fun x => x.1.1 = task.(Task.ID)) (status_writes tr) /\
  status_path (map (fun x => x.1.2) (status_writes tr)) /\
  Z.of_nat (length (filter (fun x => x.1.2 = StatusRetrying) (status_writes tr)))
    <= Z.max 0 (int64 (w.(maxRetries) + 1) - 1).
Proof.
  intros Hu Hex. inv_outcome Hex.
  - split_and!; [constructor|constructor|simpl; lia].
  - cbn -[filter]. split_and!; [by apply Forall_singleton|apply path_no_handler|].
    rewrite filter_cons_False by done. cbn. lia.
  - cbn -[filter]. split_and!; [by apply Forall_singleton|apply path_not_started|].
    rewrite filter_cons_False by done. cbn. lia.
  - rewrite HPwrites, HEw. destruct (ls_statuses _ _ _ _ _ _ _ _ _ Hl) as (outs & Hk & ->).
    split_and!.
    + constructor; [done|]. apply Forall_app. split; [|by repeat constructor].
      apply Forall_map. by apply Forall_true.
    + cbn [map fst snd]. rewrite map_app. cbn [map fst snd].
      assert (map (fun x : string * Status * option error => x.1.2)
                (map (fun o => (task.(Task.ID), StatusRetrying, o)) outs)
              = replicate (length outs) StatusRetrying) as ->.
      { clear. induction outs as [|o outs IH]; [done|]. cbn. by f_equal. }
      apply path_run. destruct res; auto.
    + rewrite filter_cons_False by done. rewrite filter_app.
      rewrite (filter_cons_False _ _ []) by (destruct res; done). rewrite app_nil_r.
      assert (forall l : list (string * Status * option error),
        (length (filter (fun x => x.1.2 = StatusRetrying) l) <= length l)%nat) as Hf.
      { intros l. apply length_filter. }
      specialize (Hf (map (fun o => (task.(Task.ID), StatusRetrying, o)) outs)).
      rewrite length_map in Hf.
      pose proof (retry_count _ _ _ _ _ (ls_end _ _ _ _ _ _ _ _ _ Hl)) as Hc.
      unfold maxAttempts in Hc. lia.
Qed.

(** The first thing a message does is read its status;
    if the task is already terminal nothing else happens and the message is
    acknowledged. *)
Theorem worker_terminal_skipped w ctx msg task tr r :
  unmarshalTask msg.(Value) = Ok task ->
  exec (processMessage w ctx msg) tr r ->
  exists st, status_reads tr = [(task.(Task.ID), st)] /\
    forall s, st = Ok s -> IsTerminal s = true ->
      tr = [GetStatus ctx task.(Task.ID) ~> Ok s] /\ r = None.
Proof.
  intros Hu Hex. inv_outcome Hex.
  - exists (Ok s). split; [done|]. by intros s' [= <-] _.
  - exists st. split; [done|]. intros s Hs Ht. rewrite (Hnt s Hs) in Ht. done.
  - exists st. split; [done|]. intros s Hs Ht. rewrite (Hnt s Hs) in Ht. done.
  - exists st. split; [done|]. intros s Hs Ht. rewrite (Hnt s Hs) in Ht. done.
Qed.

(** C22: [processMessage] returns an error (and so holds back the
    offset) exactly when the RUNNING status could not be written; nothing
    has been executed then. *)
Theorem worker_ack w ctx msg task tr r err :
  unmarshalTask msg.(Value) = Ok task ->
  exec (processMessage w ctx msg) tr r ->
  r = Some err <->
  exists e, err = ErrWrap "set running status" e /\
    status_writes tr = [(task.(Task.ID), StatusRunning, Some e)] /\
    handler_calls tr = [] /\ publications tr = [] /\ exec_records tr = [].
Proof.
  intros Hu Hex. inv_outcome Hex; split; try done.
  - by intros (e & _ & [=] & _).
  - by intros (e' & _ & [=] & _).
  - intros [= <-]. by exists e.
  - by intros (e' & -> & [= <-] & _).
  - intros (e & _ & Hw & _). rewrite HPwrites in Hw. done.
Qed.

(** C1: a task whose handler ran ends in exactly one of two
    ways. Either the last attempt succeeded: DONE is written last, one DONE
    execution is recorded, nothing goes to the dead-letter queue. Or every
    attempt failed: DEAD is written last, one DEAD execution is recorded
    with the error, and the raw message is offered once to the dead-letter
    queue under the task's ID. The record counts the attempts made. *)
Theorem worker_verdict w ctx msg task tr r :
  unmarshalTask msg.(Value) = Ok task ->
  exec (processMessage w ctx msg) tr r ->
  handler_calls tr <> [] ->
  r = None /\ exists x o,
    exec_records tr = [x] /\ x.(TaskExecution.TaskID) = task.(Task.ID) /\
    x.(TaskExecution.WorkerID) = w.(workerID) /\
    x.(TaskExecution.Attempt) = Z.of_nat (length (handler_calls tr)) /\
    ((last (map snd (handler_calls tr)) = Some None /\
      last (status_writes tr) = Some (task.(Task.ID), StatusDone, o) /\
      publications tr = [] /\
      x.(TaskExecution.Status_) = StatusDone /\ x.(TaskExecution.Error) = "")
     \/
     (Forall (fun c => c.2 <> None) (handler_calls tr) /\
      last (status_writes tr) = Some (task.(Task.ID), StatusDead, o) /\
      (exists o', publications tr = [(topicDLQ, task.(Task.ID), msg.(Value), o')]) /\
      x.(TaskExecution.Status_) = StatusDead /\
      exists err, x.(TaskExecution.Error) = Error err)).
Proof.
  intros Hu Hex Hcalls. inv_outcome Hex; [done|done|done|].
  split; [done|]. exists x, o.
  rewrite HPrecs, HPcalls, HPwrites, HPpubs, HErec, HEw.
  rewrite (ls_calls _ _ _ _ _ _ _ _ _ Hl).
  split_and!; [done|done|done| |].
  { rewrite HExa, length_map. cbn. rewrite (ls_att _ _ _ _ _ _ _ _ _ Hl). lia. }
  assert (Hlast : forall s : Status, last ((task.(Task.ID), StatusRunning, None)
    :: status_writes loop ++ [(task.(Task.ID), s, o)]) = Some (task.(Task.ID), s, o)).
  { intros s. rewrite app_comm_cons. apply last_snoc. }
  destruct res as [err|].
  - right. destruct HEres as (Hpub & Hs & He). split_and!; eauto.
    unfold handler_answers. rewrite app_nil_r, map_map. apply Forall_map.
    by apply Forall_true.
  - left. destruct HEres as (Hpub & Hs & He). split_and!; auto.
    unfold handler_answers. rewrite !map_app. cbn. apply last_snoc.
Qed.

(** The task as the epilogue stores it, after the handler calls of [tr]. *)
Definition finished task tr (now : Time) : Task.t :=
  let task := Task.set_Attempts (Z.of_nat (length (handler_calls tr))) task in
  match last (map snd (handler_calls tr)) with
  | Some None => Task.set_UpdatedAt now
                   (Task.set_Status StatusDone (Task.set_CompletedAt (Some now) task))
  | _ => Task.set_UpdatedAt now (Task.set_Status StatusDead task)
  end.

Lemma ran_final w ctx msg task tr r :
  unmarshalTask msg.(Value) = Ok task ->
  exec (processMessage w ctx msg) tr r ->
  handler_calls tr <> [] ->
  exists now o1 o2, now ∈ clock_readings tr /\
    last (status_writes tr) = Some (task.(Task.ID), (finished task tr now).(Task.Status_), o1) /\
    meta_writes tr = [(finished task tr now, o2)] /\
    Z.of_nat (length (handler_calls tr)) <= maxAttempts w.
Proof.
  intros Hu Hex Hcalls. inv_outcome Hex; [done|done|done|].
  unfold finished. cbn zeta. rewrite HPcalls, HPwrites, (ls_calls _ _ _ _ _ _ _ _ _ Hl), length_map, map_map.
  cbn [snd]. rewrite map_id. pose proof (ls_att _ _ _ _ _ _ _ _ _ Hl) as Hatt.
  pose proof (ls_end _ _ _ _ _ _ _ _ _ Hl) as Hend.
  assert (Z.of_nat (length (handler_answers errs res)) <= maxAttempts w) as Hmax.
  { unfold handler_answers. rewrite length_app, length_map. pose proof (maxAttempts_range w).
    destruct Hend; simpl in *; lia. }
  replace (Z.of_nat (length (handler_answers errs res))) with att in * by lia.
  pose proof (ls_metas _ _ _ _ _ _ _ _ _ Hl) as Hm. unfold meta_writes in Hm.
  destruct Hep as [now o1 o2 o3 o4|err now o1 o2 o3 o4 o5]; exists now, o1, o2;
    unfold clock_readings, meta_writes; rewrite !omap_app; unfold handler_answers.
  - rewrite last_snoc.
    split_and!; [rewrite !elem_of_app; do 3 right; left; by left
                |rewrite app_comm_cons; apply last_snoc|by rewrite Hm|done].
  - rewrite (app_nil_r (map Some errs)).
    assert (forall A (x y : A), match last (map Some errs) with
      | Some None => x | _ => y end = y) as ->.
    { intros A a b. change (map Some errs) with (Some <$> errs). rewrite fmap_last. by destruct (last errs). }
    split_and!; [rewrite !elem_of_app; do 3 right; left; by left
                |rewrite app_comm_cons; apply last_snoc|by rewrite Hm|done].
Qed.

(** Every call of the handler is with the decoded task. *)
Lemma handler_task w ctx msg task tr r :
  unmarshalTask msg.(Value) = Ok task -> exec (processMessage w ctx msg) tr r ->
  Forall (fun c => c.1.2 = task) (handler_calls tr).
Proof.
  intros Hu Hex. inv_outcome Hex; try (by apply Forall_nil_2).
  rewrite HPcalls, (ls_calls _ _ _ _ _ _ _ _ _ Hl). apply Forall_map. by apply Forall_true.
Qed.

(** What it asks of the database: one record and one status, the verdict. *)
Lemma ran_archived w ctx msg task tr r now :
  unmarshalTask msg.(Value) = Ok task ->
  exec (processMessage w ctx msg) tr r ->
  handler_calls tr <> [] ->
  creations tr = [] /\
  (exists x, exec_records tr = [x] /\ x.(TaskExecution.TaskID) = task.(Task.ID)) /\
  exists o, repo_writes tr = [(task.(Task.ID), (finished task tr now).(Task.Status_), o)].
Proof.
  intros Hu Hex Hcalls. inv_outcome Hex; [done|done|done|].
  unfold finished. cbn zeta. rewrite HPcalls, (ls_calls _ _ _ _ _ _ _ _ _ Hl), map_map.
  cbn [snd]. rewrite map_id. destruct (ls_repo _ _ _ _ _ _ _ _ _ Hl) as [Hrepo Hcre].
  unfold creations, repo_writes in *. rewrite !omap_app, Hrepo, Hcre. unfold handler_answers.
  destruct Hep as [now' o1 o2 o3 o4|err now' o1 o2 o3 o4 o5];
    (split; [done|split; [exists x; by rewrite HPrecs, HErec|exists o4]]).
  - by rewrite last_snoc.
  - rewrite (app_nil_r (map Some errs)).
    change (map Some errs) with (Some <$> errs). rewrite fmap_last. by destruct (last errs).
Qed.

Lemma finished_terminal task tr now : IsTerminal (finished task tr now).(Task.Status_) = true.
Proof. unfold finished. by repeat case_match. Qed.

Lemma finished_ID task tr now : (finished task tr now).(Task.ID) = task.(Task.ID).
Proof. unfold finished. by repeat case_match. Qed.

(** The status a task ends with. *)
Definition verdict (tr : svc_trace) : Status :=
  if decide (last (map snd (handler_calls tr)) = Some None) then StatusDone else StatusDead.

Lemma verdict_finished task tr now : (finished task tr now).(Task.Status_) = verdict tr.
Proof. unfold finished, verdict. by destruct (last _) as [[e|]|]. Qed.

Lemma verdict_terminal tr : IsTerminal (verdict tr) = true.
Proof. unfold verdict. by case_decide. Qed.

(** A loop calls the handler at least once. *)
Lemma loop_calls w task max a loop r att errs k :
  loop_summary w task max a loop r att errs k -> handler_calls loop <> [].
Proof.
  intros Hl. rewrite (ls_calls _ _ _ _ _ _ _ _ _ Hl). unfold handler_answers.
  destruct (ls_end _ _ _ _ _ _ _ _ _ Hl) as [|e Hlast|c Hne]; by destruct errs.
Qed.

(** When nothing stands in its way the handler is called. *)
Lemma handler_runs w ctx msg task tr r st0 h0 :
  unmarshalTask msg.(Value) = Ok task -> exec (processMessage w ctx msg) tr r ->
  head tr ≫= status_read = Some (task.(Task.ID), st0) -> not_terminal st0 ->
  Registry.Get w.(registry) task.(Task.Type_) = Ok h0 ->
  Forall (fun x => x.2 = None) (status_writes tr) -> handler_calls tr <> [].
Proof.
  intros Hu Hex Hst Hnt0 Hreg0 Hw. inv_outcome Hex.
  - injection Hst as <-. by rewrite (Hnt0 s eq_refl) in Hterm.
  - congruence.
  - by apply Forall_inv in Hw.
  - rewrite HPcalls. by eapply loop_calls.
Qed.

(** C23: the handler is called with the decoded task, under
    the per-attempt timeout on a background context (never the consumer's),
    at most [max(1, maxRetries + 1)] times; fewer failing calls than that
    mean the context was done during a backoff. *)
Theorem worker_attempts w ctx msg task tr r :
  unmarshalTask msg.(Value) = Ok task ->
  exec (processMessage w ctx msg) tr r ->
  Forall (fun c => c.1 = (CtxTimeout CtxBackground w.(timeout), task)) (handler_calls tr) /\
  Z.of_nat (length (handler_calls tr)) <= maxAttempts w /\
  (Forall (fun c => c.2 <> None) (handler_calls tr) -> handler_calls tr <> [] ->
   Z.of_nat (length (handler_calls tr)) < maxAttempts w ->
   exists x c, exec_records tr = [x] /\
     x.(TaskExecution.Error) =
     Error (cancelled (Z.of_nat (length (handler_calls tr))) c)).
Proof.
  intros Hu Hex. pose proof (maxAttempts_range w) as Hmax.
  inv_outcome Hex; [cbn; split_and!; [done|lia|done]..|].
  rewrite HPcalls, HPrecs, HErec, (ls_calls _ _ _ _ _ _ _ _ _ Hl), length_map.
  pose proof (ls_end _ _ _ _ _ _ _ _ _ Hl) as Hend. unfold handler_answers. split_and!.
  - apply Forall_map. by apply Forall_true.
  - rewrite length_app, length_map. destruct Hend; simpl in *; lia.
  - intros Hall _ Hlt. rewrite length_app, length_map in *.
    destruct Hend as [Hle|e Hlast Hm|c Hne Hm]; simpl in *.
    + rewrite map_app, Forall_app in Hall. destruct Hall as [_ Hall].
      apply Forall_cons in Hall as [Hall _]. done.
    + lia.
    + exists x, c. split; [done|]. destruct HEres as (_ & _ & ->).
      by rewrite Nat.add_0_r.
Qed.

(** The WaitGroup along a trace: balanced at the end, within 0..1 on the way,
    and 1 whenever a handler is called. *)
Definition wg_ok tr : Prop :=
  wg_count tr = 0 /\
  (forall t1 t2, tr = t1 ++ t2 -> 0 <= wg_count t1 <= 1) /\
  (forall t1 ev t2, tr = t1 ++ ev :: t2 -> handler_call ev <> None -> wg_count t1 = 1).

Lemma wg_ok_nil : wg_ok [].
Proof.
  split_and!; [done| |]; intros t1 *.
  - destruct t1; [cbn; lia|done].
  - by destruct t1.
Qed.

Lemma wg_ok_app t1 t2 : wg_ok t1 -> wg_ok t2 -> wg_ok (t1 ++ t2).
Proof.
  intros (H1 & P1 & C1) (H2 & P2 & C2). split_and!.
  - rewrite wg_count_app. lia.
  - intros a b [(k & -> & ->)|(k & -> & ->)]%app_eq_inv.
    + by apply (P1 a k).
    + rewrite wg_count_app, H1. by apply (P2 k b).
  - intros a ev b [(k & -> & Hk)|(k & -> & ->)]%app_eq_inv Hev.
    + destruct k as [|ev' k]; cbn in Hk.
      * rewrite app_nil_r in *. rewrite H1. by apply (C2 [] ev b).
      * injection Hk as <- ->. by apply (C1 a ev k).
    + rewrite wg_count_app, H1. by apply (C2 k ev b).
Qed.

Lemma processMessage_wg w ctx msg tr r : exec (processMessage w ctx msg) tr r -> wg_ok tr.
Proof.
  intros Hex. destruct (unmarshalTask msg.(Value)) as [task|e] eqn:Hu.
  2:{ unfold processMessage in Hex. rewrite Hu in Hex. exec_inv. apply wg_ok_nil. }
  assert (Hcase : omap wg_delta tr = [] \/ omap wg_delta tr = [1; -1]).
  { inv_outcome Hex; auto. }
  split_and!.
  - unfold wg_count. by destruct Hcase as [-> | ->].
  - intros t1 t2 Hsplit.
    assert (Hpre : omap wg_delta t1 ++ omap wg_delta t2 = omap wg_delta tr)
      by by rewrite Hsplit, omap_app.
    unfold wg_count.
    destruct Hcase as [Hc|Hc]; rewrite Hc in Hpre;
      destruct (omap wg_delta t1) as [|a [|b l]]; simplify_list_eq; simpl; try lia.
    destruct l; simplify_list_eq. simpl. lia.
  - intros t1 ev t2 Hsplit Hev. clear Hcase. inv_outcome Hex.
    1-3: exfalso; apply (f_equal handler_calls) in Hsplit;
         unfold handler_calls in Hsplit; rewrite omap_app in Hsplit; cbn in Hsplit;
         destruct (handler_call ev); [|done]; by destruct (omap handler_call t1).
    apply (omap_split_after handler_call) in Hsplit as (t1' & -> & Hsplit); [|done|done].
    apply (omap_split_before handler_call) in Hsplit as (t2' & -> & _); [| |done].
    + pose proof (ls_wg _ _ _ _ _ _ _ _ _ Hl) as Hwg.
      apply omap_nil_split in Hwg as [Hwg _].
      unfold wg_count. rewrite omap_app, Hwg. done.
    + rewrite !omap_app. unfold handler_calls in HEh. rewrite HEh. done.
Qed.

(** A message that does not decode is acknowledged and
    dropped: no status, no record, no dead letter. *)
Theorem worker_malformed w ctx msg err tr r :
  unmarshalTask msg.(Value) = Err err ->
  exec (processMessage w ctx msg) tr r <-> tr = [] /\ r = None.
Proof. intros Hu. unfold processMessage. by rewrite Hu. Qed.

(** Under a context that is done nothing gets written. *)
Lemma done_refuses ctx tr :
  ctx_done ctx tr -> Forall (fun ev => forall c ok, server_call ev = Some (c, ok) -> c = ctx) tr ->
  Forall (fun x => x.2 <> None) (status_writes tr) /\
  Forall (fun x => x.2 <> None) (publications tr) /\
  Forall (fun x => x.2 <> None) (repo_writes tr).
Proof.
  intros Hd Hc. assert (derives_from ctx ctx = true) as Hself.
  { destruct ctx; cbn; by rewrite bool_decide_true by done. }
  unfold status_writes, publications, repo_writes.
  induction Hd as [|ev tr Hev Hd IH]; [done|]. apply Forall_cons in Hc as [Hcev Hc].
  destruct (IH Hc) as (IH1 & IH2 & IH3).
  destruct ev as [X e x]. destruct e as [X e|X e|X e|X e|X e|X e|X e|h c t]; try done;
    destruct e; try done; cbn [omap list_omap status_write publication repo_write];
    specialize (Hcev _ _ eq_refl); subst; specialize (Hev _ _ eq_refl Hself);
    apply bool_decide_eq_false in Hev; split_and!; try done; by constructor.
Qed.

(** The epilogue calls the servers under the consumer's context. *)
Lemma epilogue_ctx w ctx task raw d r ep :
  epilogue w ctx task raw d r ep ->
  Forall (fun ev => forall c ok, server_call ev = Some (c, ok) -> c = ctx) ep.
Proof. intros []; repeat constructor; intros c ok [=]; done. Qed.

Lemma ctx_done_app ctx t1 t2 : ctx_done ctx (t1 ++ t2) <-> ctx_done ctx t1 /\ ctx_done ctx t2.
Proof. apply Forall_app. Qed.

(** C25: the epilogue runs under the consumer's context.  If that context is
    done when the handler's last call is over, so that from then on the clients
    of Redis, PostgreSQL and Kafka refuse whatever is asked under it or a
    context derived from it, the message is acknowledged although no terminal
    status was stored in Redis, none in PostgreSQL, and no dead letter was
    published: the task's outcome is lost. *)
Theorem worker_shutdown_loses_outcome w ctx msg task tr r t1 ev t2 :
  unmarshalTask msg.(Value) = Ok task ->
  exec (processMessage w ctx msg) tr r ->
  tr = t1 ++ ev :: t2 -> handler_call ev <> None -> handler_calls t2 = [] ->
  ctx_done ctx t2 ->
  r = None /\
  (forall id s, (id, s, None) ∈ status_writes tr -> IsTerminal s = false) /\
  Forall (fun x => x.2 <> None) (repo_writes tr) /\
  Forall (fun x => x.2 <> None) (publications tr).
Proof.
  intros Hu Hex Hsplit Hev Ht2 Hdone.
  assert (Hin : handler_calls tr <> []).
  { rewrite Hsplit, handler_calls_app. unfold handler_calls. simpl.
    destruct (handler_call ev); [by destruct (omap _ t1)|done]. }
  inv_outcome Hex; [done|done|done|]. split; [done|].
  assert (repo_writes loop = []) as Hlrepo by apply (ls_repo _ _ _ _ _ _ _ _ _ Hl).
  rewrite HPwrites, HPpubs, !repo_writes_app, Hlrepo. clear HPreads HPwrites HPcalls HPpubs HPrecs HPwg Hin.
  rewrite app_assoc in Hsplit.
  eapply (omap_split_before handler_call) in Hsplit as (t2' & _ & ->); [| |done].
  2:{ rewrite !omap_app. unfold handler_calls in HEh. by rewrite HEh. }
  rewrite !ctx_done_app in Hdone. destruct Hdone as (_ & _ & Hdone & _).
  destruct (done_refuses ctx ep Hdone (epilogue_ctx _ _ _ _ _ _ _ Hep)) as (Hsw & Hpub & Hrepo).
  split; [|by rewrite app_nil_r].
  intros id s Hin. destruct (ls_statuses _ _ _ _ _ _ _ _ _ Hl) as (outs & _ & Hst).
  rewrite Hst in Hin. apply elem_of_cons in Hin as [[= -> ->]|Hin]; [done|].
  apply elem_of_app in Hin as [Hin|Hin].
  - apply list_elem_of_fmap in Hin as (o' & [= -> -> _] & _). done.
  - rewrite Forall_forall in Hsw. by destruct (Hsw _ Hin).
Qed.
End WorkerSpec.

(** ** Concrete runs *)

Definition demo_handler : Handler := mkHandler (fun _ _ => mret None) "email".
Definition demo_worker : Worker :=
  NewWorker "worker-1" (Registry.build [demo_handler]) [WithRetries 2; WithWorkerType "email"].
Definition demo_msg : Message := mkMessage "tasks.worker.email" "task-1" demo_raw 7 [].

Lemma demo_decodes : unmarshalTask demo_msg.(Value) = Ok demo_task.
Proof. reflexivity. Qed.

(** What a run of the demo worker on the demo message leaves behind. *)
Definition demo_trace (f : fake) : svc_trace :=
  run_trace fake_env (processMessage demo_worker CtxRun demo_msg) f.
Definition demo_verdict (f : fake) : option error :=
  run_result fake_env (processMessage demo_worker CtxRun demo_msg) f.
Definition demo_world (f : fake) : fake :=
  run_world fake_env (processMessage demo_worker CtxRun demo_msg) f.

Definition boom : error := ErrNew "boom".
(** fails twice, then succeeds *)
Definition fake_flaky : fake := f_with_script fake_init [Some boom; Some boom; None].
(** fails every attempt *)
Definition fake_failing : fake := f_with_script fake_init [Some boom; Some boom; Some boom].
(** shut down during the first backoff *)
Definition fake_shutdown : fake := f_with_shutdown fake_failing true false.

Example durationMs_truncates : durationMs 1001000000 = 1000.
Proof. vm_compute. reflexivity. Qed.

Example demo_flaky_statuses :
  map (fun x => x.1.2) (status_writes (demo_trace fake_flaky))
  = [StatusRunning; StatusRetrying; StatusRetrying; StatusDone].
Proof. vm_compute. reflexivity. Qed.

Example demo_shutdown_loses :
  (demo_verdict fake_shutdown, (demo_world fake_shutdown).(f_states) !! "task-1",
   (demo_world fake_shutdown).(f_published), (demo_world fake_shutdown).(f_execs))
  = (None, Some StatusRetrying, [], []).
Proof. vm_compute. reflexivity. Qed.

Lemma worker_status_path_witness :
  status_path [StatusRunning; StatusRetrying; StatusRetrying; StatusDone].
Proof.
  exact (proj1 (proj2 (worker_status_path demo_worker CtxRun demo_msg demo_task
    (demo_trace fake_flaky) (demo_verdict fake_flaky) demo_decodes (run_exec _ _ _)))).
Defined.

Lemma worker_terminal_skipped_witness :
  let f := f_with_states fake_init {["task-1" := StatusDead]} in
  demo_trace f = [GetStatus CtxRun "task-1" ~> Ok StatusDead] /\ demo_verdict f = None.
Proof.
  intros f.
  destruct (worker_terminal_skipped demo_worker CtxRun demo_msg demo_task
    (demo_trace f) (demo_verdict f) demo_decodes (run_exec _ _ _)) as (st & Hst & Hskip).
  apply Hskip; [|reflexivity]. injection Hst as <-. reflexivity.
Defined.

Lemma worker_ack_witness :
  let f := f_with_setErrFor fake_init [StatusRunning] in
  exists e, ErrWrap "set running status" (ErrNew "redis unavailable")
            = ErrWrap "set running status" e /\ handler_calls (demo_trace f) = [].
Proof.
  intros f.
  destruct (proj1 (worker_ack demo_worker CtxRun demo_msg demo_task
    (demo_trace f) (demo_verdict f) (ErrWrap "set running status" (ErrNew "redis unavailable"))
    demo_decodes (run_exec _ _ _)) ltac:(vm_compute; reflexivity)) as (e & He & _ & Hc & _).
  exists e. exact (conj He Hc).
Defined.

Lemma worker_verdict_witness :
  exists x, exec_records (demo_trace fake_failing) = [x] /\
    x.(TaskExecution.Attempt) = 3 /\ demo_verdict fake_failing = None.
Proof.
  destruct (worker_verdict demo_worker CtxRun demo_msg demo_task
    (demo_trace fake_failing) (demo_verdict fake_failing) demo_decodes (run_exec _ _ _)
    ltac:(vm_compute; discriminate)) as (Hr & x & o & Hx & _ & _ & Ha & _).
  exists x. split; [exact Hx|]. split; [|exact Hr]. rewrite Ha. vm_compute. reflexivity.
Defined.

Lemma worker_attempts_witness :
  Z.of_nat (length (handler_calls (demo_trace fake_failing))) <= maxAttempts demo_worker.
Proof.
  exact (proj1 (proj2 (worker_attempts demo_worker CtxRun demo_msg demo_task
    (demo_trace fake_failing) (demo_verdict fake_failing) demo_decodes (run_exec _ _ _)))).
Defined.

Lemma worker_malformed_witness :
  exec (processMessage demo_worker CtxRun (mkMessage "t" "k" "not json" 0 [])) [] None.
Proof.
  apply (worker_malformed demo_worker CtxRun (mkMessage "t" "k" "not json" 0 [])
    (ErrNew "invalid character")); [reflexivity|split; reflexivity].
Defined.

Lemma worker_shutdown_loses_outcome_witness :
  let f := f_with_shutdown fake_init false true in
  demo_verdict f = None /\
  (forall id s, (id, s, None) ∈ status_writes (demo_trace f) -> IsTerminal s = false) /\
  Forall (fun x => x.2 <> None) (repo_writes (demo_trace f)) /\
  Forall (fun x => x.2 <> None) (publications (demo_trace f)).
Proof.
  intros f.
  eapply (worker_shutdown_loses_outcome demo_worker CtxRun demo_msg demo_task
    (demo_trace f) (demo_verdict f)
    (take 6 (demo_trace f)) _ (drop 7 (demo_trace f))).
  - reflexivity.
  - apply run_exec.
  - vm_compute. reflexivity.
  - vm_compute. discriminate.
  - vm_compute. reflexivity.
  - vm_compute. repeat constructor; intros c ok [= <- <-]; reflexivity.
Defined.
