(* ===== verification/Dispatcher.v ===== *)
(** * The dispatcher: services/dispatcher/dispatcher.go

    [route] moves a message of tasks.pending to the topic of its task type,
    or to the dead-letter queue.  What every execution of it publishes,
    acknowledges and writes. *)

From S2P Require Import Prelude Prog GoStrings Domain GoFloat Effects Kafka Fakes.

Definition TopicPending : string := "tasks.pending".
Definition topicDLQ : string := "tasks.dlq".
Definition workerTopic (taskType : string) : string := "tasks.worker." +:+ taskType.

(** [Dispatcher] (dispatcher.go:29-51): its interfaces are effects; the
    limiter may be nil, which disables it. *)
Record Dispatcher := NewDispatcher { has_limiter : bool }.

(** What the rate limiter answered, and for which key. *)
Definition limiter_answer (ev : event SvcE) : option (string * goresult bool) :=
  match ev with
  | @Ev _ X e x =>
      match e in SvcE X return X -> option (string * goresult bool) with
      | OnLimiter e' =>
          match e' in LimiterE X return X -> option (string * goresult bool) with
          | Allow _ key => fun r => Some (key, r)
          | Limit => fun _ => None
          end
      | _ => fun _ => None
      end x
  end.
Definition limiter_answers (tr : svc_trace) := omap limiter_answer tr.

Section Dispatcher.
Context `{TaskCodec}.
Implicit Types (d : Dispatcher) (ctx : Ctx) (msg : Message) (task : Task.t) (tr : svc_trace).

(** [toDLQ] (dispatcher.go:124-130) *)
Definition toDLQ ctx (payload : string) : prog SvcE (option error) :=
  trigger (Publish ctx topicDLQ "" payload).

(** The rate limiter's part of [route] (dispatcher.go:89-103): whether the
    task is rejected. An error of the limiter lets the task through. *)
Definition limited d ctx (taskType : string) : prog SvcE bool :=
  if d.(has_limiter) then
    allowed ← trigger (Allow ctx taskType);
    match allowed with
    | Err _ => mret false
    | Ok true => mret false
    | Ok false => _ ← trigger Limit; mret true
    end
  else mret false.

(** dispatcher.go:58-121 *)
Definition route d ctx msg : prog SvcE (option error) :=
  match unmarshalTask msg.(Value) with
  | Err _ =>
      _ ← trigger (Inc DispatcherDLQTotal);
      toDLQ ctx msg.(Value)
  | Ok task =>
      if String.eqb task.(Task.Type_) "" then
        _ ← trigger (Inc DispatcherDLQTotal);
        toDLQ ctx msg.(Value)
      else
        reject ← limited d ctx task.(Task.Type_);
        if reject : bool then
          _ ← trigger (Inc DispatcherRateLimitedTotal);
          _ ← trigger (Inc DispatcherDLQTotal);
          toDLQ ctx msg.(Value)
        else
          let target := workerTopic task.(Task.Type_) in
          err ← trigger (Publish ctx target task.(Task.ID) msg.(Value));
          match err with
          | Some err => mret (Some (ErrWrap ("publish to " +:+ target) err))
          | None =>
              _ ← trigger (SetStatus ctx task.(Task.ID) StatusQueued);
              _ ← trigger (Inc (DispatcherTasksRouted task.(Task.Type_)));
              mret None
          end
  end.

(** ** The executions of [route] *)

Inductive limited_run d ctx ty : svc_trace -> bool -> Prop :=
| lim_off : d.(has_limiter) = false -> limited_run d ctx ty [] false
| lim_pass a :
    d.(has_limiter) = true -> a <> Ok false ->
    limited_run d ctx ty [Allow ctx ty ~> a] false
| lim_reject n :
    d.(has_limiter) = true ->
    limited_run d ctx ty [Allow ctx ty ~> Ok false; Limit ~> n] true.

Lemma limited_inv d ctx ty tr b :
  exec (limited d ctx ty) tr b -> limited_run d ctx ty tr b.
Proof.
  unfold limited. intros Hex. exec_inv; by constructor.
Qed.

(** Malformed bytes and an empty type are refused before the limiter. *)
Definition refused msg : Prop :=
  match unmarshalTask msg.(Value) with
  | Err _ => True
  | Ok task => task.(Task.Type_) = ""
  end.

Inductive routing d ctx msg : svc_trace -> option error -> Prop :=
| rt_refused o :
    refused msg ->
    routing d ctx msg
      [Inc DispatcherDLQTotal ~> tt; Publish ctx topicDLQ "" msg.(Value) ~> o] o
| rt_limited task lim o :
    unmarshalTask msg.(Value) = Ok task -> task.(Task.Type_) <> "" ->
    limited_run d ctx task.(Task.Type_) lim true ->
    routing d ctx msg
      (lim ++ [Inc DispatcherRateLimitedTotal ~> tt; Inc DispatcherDLQTotal ~> tt;
               Publish ctx topicDLQ "" msg.(Value) ~> o]) o
| rt_unpublished task lim e :
    unmarshalTask msg.(Value) = Ok task -> task.(Task.Type_) <> "" ->
    limited_run d ctx task.(Task.Type_) lim false ->
    routing d ctx msg
      (lim ++ [Publish ctx (workerTopic task.(Task.Type_)) task.(Task.ID) msg.(Value)
               ~> Some e])
      (Some (ErrWrap ("publish to " +:+ workerTopic task.(Task.Type_)) e))
| rt_routed task lim o :
    unmarshalTask msg.(Value) = Ok task -> task.(Task.Type_) <> "" ->
    limited_run d ctx task.(Task.Type_) lim false ->
    routing d ctx msg
      (lim ++ [Publish ctx (workerTopic task.(Task.Type_)) task.(Task.ID) msg.(Value) ~> None;
               SetStatus ctx task.(Task.ID) StatusQueued ~> o;
               Inc (DispatcherTasksRouted task.(Task.Type_)) ~> tt]) None.

Lemma route_inv d ctx msg tr r :
  exec (route d ctx msg) tr r -> routing d ctx msg tr r.
Proof.
  unfold route, toDLQ. intros Hex.
  destruct (unmarshalTask msg.(Value)) as [task|e] eqn:Hu.
  2:{ exec_call in Hex as []. apply exec_trigger in Hex as ->.
      apply rt_refused. unfold refused. by rewrite Hu. }
  destruct (String.eqb_spec task.(Task.Type_) "") as [Hty|Hty].
  { exec_call in Hex as []. apply exec_trigger in Hex as ->.
    apply rt_refused. unfold refused. by rewrite Hu. }
  apply exec_bind in Hex as (lim & t2 & b & -> & Hlim & Hex).
  apply limited_inv in Hlim. cbn beta zeta in Hex. destruct b.
  - exec_call in Hex as []. exec_call in Hex as []. apply exec_trigger in Hex as ->.
    by apply (rt_limited d ctx msg task).
  - exec_call in Hex as [e|].
    + exec_inv. by apply (rt_unpublished d ctx msg task).
    + exec_call in Hex as o. exec_call in Hex as []. exec_inv.
      by apply (rt_routed d ctx msg task).
Qed.

(** The limiter's part of a trace holds nothing but its own calls. *)
Lemma limited_run_projections d ctx ty lim b :
  limited_run d ctx ty lim b ->
  publications lim = [] /\ status_writes lim = [] /\
  (d.(has_limiter) = false -> limiter_answers lim = []) /\
  (b = true <-> (ty, Ok false) ∈ limiter_answers lim) /\
  (d.(has_limiter) = true -> exists a, limiter_answers lim = [(ty, a)]).
Proof.
  destruct 1 as [Hd|a Hd Ha|n Hd]; rewrite Hd; unfold limiter_answers; cbn;
    split_and!; try done.
  - split; [done|]. by intros Hin%elem_of_nil.
  - split; [done|]. intros Hin%list_elem_of_singleton. congruence.
  - by exists a.
  - split; [|done]. intros _. by apply list_elem_of_singleton.
  - by exists (Ok false).
Qed.

Ltac inv_routing Hex :=
  apply route_inv in Hex;
  destruct Hex as [o Href|task lim o Hu Hty Hlim|task lim e Hu Hty Hlim|task lim o Hu Hty Hlim];
  try (pose proof (limited_run_projections _ _ _ _ _ Hlim) as (HLp & HLs & HLoff & HLrej & HLon));
  rewrite ?publications_app, ?status_writes_app;
  repeat match goal with
         | H : publications _ = [] |- _ => rewrite H; clear H
         | H : status_writes _ = [] |- _ => rewrite H; clear H
         end.

(** Every message leads to exactly one publish attempt
    of its bytes, unchanged, either to the topic of its type under its ID or
    to the dead-letter queue under the empty key; the offset is held back
    exactly when that attempt failed. *)
Lemma route_publishes d ctx msg tr r :
  exec (route d ctx msg) tr r ->
  exists topic key o,
    publications tr = [(topic, key, msg.(Value), o)] /\ (r = None <-> o = None) /\
    ((topic = topicDLQ /\ key = "") \/
     exists task, unmarshalTask msg.(Value) = Ok task /\ task.(Task.Type_) <> "" /\
       topic = workerTopic task.(Task.Type_) /\ key = task.(Task.ID)).
Proof.
  intros Hex. inv_routing Hex; do 3 eexists; (split; [reflexivity|]); (split; [done|]);
    (by left) || (right; by exists task).
Qed.

(** C10: a message goes to the dead-letter queue exactly when
    it does not decode, has an empty type, or the limiter was asked about
    its type and answered "no"; a limiter that fails lets it through. The
    limiter is asked once, about the type, if there is one. *)
Theorem dispatcher_dlq_iff d ctx msg tr r :
  exec (route d ctx msg) tr r ->
  ((exists o, publications tr = [(topicDLQ, "", msg.(Value), o)]) <->
   refused msg \/
   exists task, unmarshalTask msg.(Value) = Ok task /\
     (task.(Task.Type_), Ok false) ∈ limiter_answers tr) /\
  (forall task, unmarshalTask msg.(Value) = Ok task -> ~ refused msg ->
   if d.(has_limiter) then exists a, limiter_answers tr = [(task.(Task.Type_), a)]
   else limiter_answers tr = []).
Proof.
  intros Hex.
  assert (Hnr : forall task, unmarshalTask msg.(Value) = Ok task ->
    task.(Task.Type_) <> "" -> ~ refused msg).
  { intros task Hu Hty. unfold refused. by rewrite Hu. }
  inv_routing Hex.
  - split.
    + split; [by left|]. intros _. by exists o.
    + intros task Hu Hn. by destruct Hn.
  - unfold limiter_answers in *. rewrite omap_app. cbn. rewrite app_nil_r. split.
    + split; [|intros _; by exists o]. intros _. right. exists task.
      split; [done|]. by apply HLrej.
    + intros task' Hu' _. rewrite Hu in Hu'. injection Hu' as <-. destruct d.(has_limiter); auto.
  - unfold limiter_answers in *. rewrite omap_app. cbn. rewrite app_nil_r. split.
    + split; [by intros [o [=]]|]. intros [Href|(task' & Hu' & Hin)].
      * by destruct (Hnr task Hu Hty).
      * rewrite Hu in Hu'. injection Hu' as <-. by apply HLrej in Hin.
    + intros task' Hu' _. rewrite Hu in Hu'. injection Hu' as <-. destruct d.(has_limiter); auto.
  - unfold limiter_answers in *. rewrite omap_app. cbn. rewrite app_nil_r. split.
    + split; [by intros [o' [=]]|]. intros [Href|(task' & Hu' & Hin)].
      * by destruct (Hnr task Hu Hty).
      * rewrite Hu in Hu'. injection Hu' as <-. by apply HLrej in Hin.
    + intros task' Hu' _. rewrite Hu in Hu'. injection Hu' as <-. destruct d.(has_limiter); auto.
Qed.

(** QUEUED is written exactly when the task has just
    been published to its worker topic, once, right after the publish, and
    its failure does not hold the message back. *)
Theorem dispatcher_queued_after_publish d ctx msg tr r :
  exec (route d ctx msg) tr r ->
  (status_writes tr = [] /\
   forall topic key v, (topic, key, v, None) ∈ publications tr -> topic = topicDLQ) \/
  (exists task t1 o,
     unmarshalTask msg.(Value) = Ok task /\
     status_writes tr = [(task.(Task.ID), StatusQueued, o)] /\
     tr = t1 ++ [Publish ctx (workerTopic task.(Task.Type_)) task.(Task.ID) msg.(Value) ~> None;
                 SetStatus ctx task.(Task.ID) StatusQueued ~> o;
                 Inc (DispatcherTasksRouted task.(Task.Type_)) ~> tt] /\
     r = None).
Proof.
  intros Hex. inv_routing Hex.
  - left. split; [done|]. cbn. intros topic key v Hin%list_elem_of_singleton. congruence.
  - left. split; [done|]. cbn. intros topic key v Hin%list_elem_of_singleton. congruence.
  - left. split; [done|]. cbn. intros topic key v Hin%list_elem_of_singleton. congruence.
  - right. by exists task, lim, o.
Qed.
End Dispatcher.

(** Routing reads nothing of a task but its ID and its
    type: two decodings of the same bytes that agree on those are routed by the
    same calls. In particular [ScheduledAt] does not defer anything. *)
Theorem dispatcher_reads_id_and_type (c1 c2 : TaskCodec) d ctx msg t1 t2 :
  @unmarshalTask c1 msg.(Value) = Ok t1 -> @unmarshalTask c2 msg.(Value) = Ok t2 ->
  t1.(Task.ID) = t2.(Task.ID) -> t1.(Task.Type_) = t2.(Task.Type_) ->
  @route c1 d ctx msg = @route c2 d ctx msg.
Proof. unfold route. intros -> -> -> ->. done. Qed.

(** ** Concrete runs *)

Definition demo_route_msg : Message := mkMessage TopicPending "task-1" demo_raw 3 [].
Definition route_trace (f : fake) : svc_trace :=
  run_trace fake_env (route (NewDispatcher true) CtxRun demo_route_msg) f.
Definition route_verdict (f : fake) : option error :=
  run_result fake_env (route (NewDispatcher true) CtxRun demo_route_msg) f.
Definition fake_denying : fake := f_with_limiter fake_init (Ok false).

Lemma dispatcher_dlq_iff_witness :
  exists o, publications (route_trace fake_denying) = [(topicDLQ, "", demo_raw, o)].
Proof.
  apply (dispatcher_dlq_iff (NewDispatcher true) CtxRun demo_route_msg
    (route_trace fake_denying) (route_verdict fake_denying) (run_exec _ _ _)).
  right. exists demo_task. split; [reflexivity|]. vm_compute. constructor.
Defined.

Lemma dispatcher_queued_after_publish_witness :
  exists t o, status_writes (route_trace fake_init) = [(t.(Task.ID), StatusQueued, o)].
Proof.
  destruct (dispatcher_queued_after_publish (NewDispatcher true) CtxRun demo_route_msg
    (route_trace fake_init) (route_verdict fake_init) (run_exec _ _ _))
    as [[Hs _]|(task & t1 & o & _ & Hs & _)].
  - vm_compute in Hs. discriminate.
  - exists task, o. exact Hs.
Defined.

(** The demo task, scheduled for far in the future. *)
Definition later_task : Task.t :=
  Task.mk "task-1" "email" (Some "{}") StatusPending 0 0 3 0 0 (Some (100000 * Hour)) None.
Definition later_codec : TaskCodec := {|
  marshalTask := @marshalTask demo_codec;
  unmarshalTask s := if String.eqb s demo_raw then Ok later_task
                     else Err (ErrNew "invalid character") |}.

Lemma dispatcher_reads_id_and_type_witness :
  @route later_codec (NewDispatcher true) CtxRun demo_route_msg
  = @route demo_codec (NewDispatcher true) CtxRun demo_route_msg.
Proof.
  apply (dispatcher_reads_id_and_type later_codec demo_codec (NewDispatcher true) CtxRun
    demo_route_msg later_task demo_task); reflexivity.
Defined.
