(* ===== verification/Redis.v ===== *)
(** * The Redis client interface

    The commands the services send ([RedisE]) and the documented behaviour of
    the server they rely on: [RedisServer] is its state and its commands,
    [RedisLaws] what the manual says of them, for keys that hold the right
    type.  The server itself is not part of the repository.  [redis_env] puts
    a network that may lose requests or replies between client and server. *)

From S2P Require Import Prelude Prog GoStrings Domain GoFloat Effects.

(** ** Lua scripts: programs over the commands [redis.call] gives them *)

Inductive LuaE : Type -> Type :=
| LGet (key : string) : LuaE (option string)            (* redis.call("get", key) *)
| LPexpire (key : string) (ms : Z) : LuaE Z.            (* redis.call("pexpire", key, ms) *)

(** ** Commands queued in a [TxPipeline] *)

Inductive PipeCmd : Type :=
| ZRemRangeByScore (key min max : string)
| ZAdd (key : string) (score : Z) (member : string)
| ZCard (key : string)
| Expire (key : string) (ttl : Duration).

Inductive RedisE : Type -> Type :=
| RSet (ctx : Ctx) (key value : string) (ttl : Duration) : RedisE (option error)
| RGet (ctx : Ctx) (key : string) : RedisE (goresult string)
| RSetNX (ctx : Ctx) (key value : string) (ttl : Duration) : RedisE (option error)
    (* SetArgs with Mode NX: redis.Nil when the key exists *)
| RTxPipeline (ctx : Ctx) (cmds : list PipeCmd) : RedisE (goresult (list Z))
| REval (ctx : Ctx) (script : prog LuaE Z) : RedisE (goresult Z).

(** ** The server *)

Inductive rvalue : Type :=
| RString (s : string)
| RZSet (members : gmap string Z).

Record rentry := mkEntry { r_val : rvalue; r_expire : option Time }.

Class RedisServer (W : Type) := {
  srv_now : W -> Time;
  srv_view : W -> string -> option rentry;      (* the keys that have not expired *)
  srv_elapse : Duration -> W -> W;
  srv_SET : string -> string -> Duration -> W -> W;
  srv_GET : W -> string -> option string;
  srv_SETNX : string -> string -> Duration -> W -> bool * W;
  srv_PEXPIRE : string -> Z -> W -> Z * W;
  srv_EXPIRE : string -> Duration -> W -> Z * W;
  srv_ZREMRANGEBYSCORE : string -> string -> string -> W -> Z * W;
  srv_ZADD : string -> Z -> string -> W -> Z * W;
  srv_ZCARD : W -> string -> Z }.

Section Views.
Context `{RedisServer W}.

(** The string and the sorted set a key holds. *)
Definition str_at (w : W) (k : string) : option string :=
  match srv_view w k with
  | Some (mkEntry (RString s) _) => Some s
  | _ => None
  end.
Definition zset_at (w : W) (k : string) : gmap string Z :=
  match srv_view w k with
  | Some (mkEntry (RZSet z) _) => z
  | _ => ∅
  end.

(** A key that is free, or holds a string, or a non-empty sorted set. *)
Definition is_str (w : W) (k : string) : Prop :=
  forall e, srv_view w k = Some e -> exists s, e.(r_val) = RString s.
Definition is_zset (w : W) (k : string) : Prop :=
  forall e, srv_view w k = Some e -> exists z, e.(r_val) = RZSet z /\ z <> ∅.

(** A sorted set that loses its last member is deleted. *)
Definition zentry (z : gmap string Z) (exp : option Time) : option rentry :=
  if decide (z = ∅) then None else Some (mkEntry (RZSet z) exp).

Definition expire_of (w : W) (k : string) : option Time :=
  match srv_view w k with Some e => e.(r_expire) | None => None end.

(** Writing an entry under [k] leaves the clock and the other keys alone. *)
Definition updates (k : string) (e : option rentry) (w w' : W) : Prop :=
  srv_now w' = srv_now w /\ srv_view w' k = e /\
  forall k', k' <> k -> srv_view w' k' = srv_view w k'.
End Views.

(** The members a range by score selects, with the bounds as the server parses
    them: a decimal int64 is read as the nearest float64. *)
Definition in_scores (lo hi : Z) (x : string * Z) : Prop := lo <= x.2 <= hi.
#[export] Instance in_scores_dec lo hi x : Decision (in_scores lo hi x).
Proof. unfold in_scores. apply _. Defined.

(** What the manual says. Expiry times are for durations of whole seconds,
    the only ones used here ([go-redis] truncates others). *)
Class RedisLaws (W : Type) `{RedisServer W} := {
  law_live w k e t :
    srv_view w k = Some e -> e.(r_expire) = Some t -> srv_now w < t;
  law_elapse_now d w : 0 <= d -> srv_now (srv_elapse d w) = srv_now w + d;
  law_elapse d w k : 0 <= d ->
    srv_view (srv_elapse d w) k =
    match srv_view w k with
    | Some e => match e.(r_expire) with
                | Some t => if srv_now w + d <? t then Some e else None
                | None => Some e
                end
    | None => None
    end;
  law_SET k v ttl w : 0 < ttl -> ttl mod Second = 0 ->
    updates k (Some (mkEntry (RString v) (Some (srv_now w + ttl)))) w (srv_SET k v ttl w);
  law_GET w k : is_str w k -> srv_GET w k = str_at w k;
  law_SETNX k v ttl w : 0 < ttl -> ttl mod Second = 0 ->
    match srv_view w k with
    | Some _ => (srv_SETNX k v ttl w).1 = false /\
                forall k', srv_view (srv_SETNX k v ttl w).2 k' = srv_view w k'
    | None => (srv_SETNX k v ttl w).1 = true /\
              updates k (Some (mkEntry (RString v) (Some (srv_now w + ttl)))) w
                (srv_SETNX k v ttl w).2
    end;
  law_SETNX_now k v ttl w : srv_now (srv_SETNX k v ttl w).2 = srv_now w;
  law_PEXPIRE k ms w : 0 < ms ->
    match srv_view w k with
    | Some e => (srv_PEXPIRE k ms w).1 = 1 /\
                updates k (Some (mkEntry e.(r_val) (Some (srv_now w + ms * Millisecond)))) w
                  (srv_PEXPIRE k ms w).2
    | None => (srv_PEXPIRE k ms w).1 = 0 /\ updates k None w (srv_PEXPIRE k ms w).2
    end;
  law_EXPIRE k ttl w : 0 < ttl -> ttl mod Second = 0 ->
    match srv_view w k with
    | Some e => (srv_EXPIRE k ttl w).1 = 1 /\
                updates k (Some (mkEntry e.(r_val) (Some (srv_now w + ttl)))) w
                  (srv_EXPIRE k ttl w).2
    | None => (srv_EXPIRE k ttl w).1 = 0 /\ updates k None w (srv_EXPIRE k ttl w).2
    end;
  law_ZREMRANGEBYSCORE k lo hi w :
    is_zset w k -> in_int64 lo -> in_int64 hi ->
    updates k (zentry (filter (fun x => ~ in_scores (round53 lo) (round53 hi) x) (zset_at w k))
                 (expire_of w k)) w
      (srv_ZREMRANGEBYSCORE k (Itoa lo) (Itoa hi) w).2;
  law_ZADD k score member w :
    is_zset w k ->
    updates k (zentry (<[member := score]> (zset_at w k)) (expire_of w k)) w
      (srv_ZADD k score member w).2;
  law_ZCARD w k : is_zset w k -> srv_ZCARD w k = Z.of_nat (size (zset_at w k)) }.

(** ** Running the commands *)

Section Client.
Context `{RedisServer W}.

(** A script runs atomically. *)
Definition lua_env : handler LuaE W := fun X e =>
  match e in LuaE X return W -> X * W with
  | LGet k => fun w => (srv_GET w k, w)
  | LPexpire k ms => fun w => srv_PEXPIRE k ms w
  end.

Definition run_cmd (c : PipeCmd) (w : W) : Z * W :=
  match c with
  | ZRemRangeByScore k lo hi => srv_ZREMRANGEBYSCORE k lo hi w
  | ZAdd k s m => srv_ZADD k s m w
  | ZCard k => (srv_ZCARD w k, w)
  | Expire k ttl => srv_EXPIRE k ttl w
  end.

(** MULTI ... EXEC: the commands in order, nothing in between. *)
Fixpoint run_cmds (cs : list PipeCmd) (w : W) : list Z * W :=
  match cs with
  | [] => ([], w)
  | c :: cs' =>
      let '(x, w1) := run_cmd c w in
      let '(xs, w2) := run_cmds cs' w1 in
      (x :: xs, w2)
  end.

(** A command that arrives. *)
Definition srv_exec : handler RedisE W := fun X e =>
  match e in RedisE X return W -> X * W with
  | RSet _ k v ttl => fun w => (None, srv_SET k v ttl w)
  | RGet _ k => fun w => (match srv_GET w k with
                          | Some v => Ok v | None => Err RedisNil end, w)
  | RSetNX _ k v ttl => fun w =>
      let '(b, w') := srv_SETNX k v ttl w in
      (if b : bool then None else Some RedisNil, w')
  | RTxPipeline _ cs => fun w => let '(xs, w') := run_cmds cs w in (Ok xs, w')
  | REval _ script => fun w => (Ok (run_result lua_env script w), run_world lua_env script w)
  end.

(** How the client reports an error of the connection or of the context. *)
Definition redis_fail {X} (e : RedisE X) (err : error) : X :=
  match e in RedisE X return X with
  | RSet _ _ _ _ => Some err
  | RGet _ _ => Err err
  | RSetNX _ _ _ _ => Some err
  | RTxPipeline _ _ => Err err
  | REval _ _ => Err err
  end.
End Client.

(** What the network does to a call: it goes through, the request is lost, or
    the command runs and the reply is lost. *)
Inductive fault : Type :=
| Delivered
| RequestLost (e : error)
| ReplyLost (e : error).

(** Connection and context errors are neither [redis.Nil] nor the domain's
    not-found error, and wrap neither. *)
Definition net_error (e : error) : Prop :=
  errors_Is e RedisNil = false /\ errors_As_TaskNotFound e = None.

Definition wf_fault (f : fault) : Prop :=
  match f with Delivered => True | RequestLost e | ReplyLost e => net_error e end.

Record net (W : Type) := mkNet { server : W; faults : list fault }.
Arguments mkNet {W}. Arguments server {W}. Arguments faults {W}.

Section Env.
Context `{RedisServer W}.

Definition redis_env : handler RedisE (net W) := fun X e n =>
  match n.(faults) with
  | [] => let '(x, w) := srv_exec X e n.(server) in (x, mkNet w [])
  | Delivered :: fs => let '(x, w) := srv_exec X e n.(server) in (x, mkNet w fs)
  | RequestLost err :: fs => (redis_fail e err, mkNet n.(server) fs)
  | ReplyLost err :: fs => (redis_fail e err, mkNet (srv_exec X e n.(server)).2 fs)
  end.

Definition net_elapse (d : Duration) (n : net W) : net W :=
  mkNet (srv_elapse d n.(server)) n.(faults).

(** What a call on the network can do. *)
Lemma redis_env_cases {X} (e : RedisE X) n x n' :
  Forall wf_fault n.(faults) -> redis_env X e n = (x, n') ->
  Forall wf_fault n'.(faults) /\
  ((x, n'.(server)) = srv_exec X e n.(server) \/
   exists err, net_error err /\ x = redis_fail e err /\
     (n'.(server) = n.(server) \/ n'.(server) = (srv_exec X e n.(server)).2)).
Proof.
  destruct n as [w fs]. unfold redis_env. cbn [faults server].
  destruct (srv_exec X e w) as [y w'].
  intros Hf. destruct fs as [|[|err|err] fs]; intros [= <- <-]; cbn [faults server snd];
    [by auto|apply Forall_cons in Hf as [Hf1 Hf]..]; (split; [done|]); eauto 10.
Qed.
End Env.
