(* ===== verification/RedisFake.v ===== *)
(** * An in-memory Redis

    A server that keeps the laws of [RedisLaws]: the hypotheses of the
    theorems on the state store, the rate limiter and the leader election can
    be met, and the concrete runs happen in it. *)

From S2P Require Import Prelude Prog GoStrings Domain GoFloat Effects Redis.

Record mem := mkMem { m_now : Time; m_keys : gmap string rentry }.
Definition mem_init : mem := mkMem 0 ∅.

Definition live (now : Time) (e : rentry) : bool :=
  match e.(r_expire) with Some t => now <? t | None => true end.

Definition mem_view (w : mem) (k : string) : option rentry :=
  match w.(m_keys) !! k with
  | Some e => if live w.(m_now) e then Some e else None
  | None => None
  end.

Definition mem_put (k : string) (e : option rentry) (w : mem) : mem :=
  mkMem w.(m_now) (match e with
                   | Some e => <[k := e]> w.(m_keys)
                   | None => delete k w.(m_keys)
                   end).

Definition mem_zset (w : mem) (k : string) : gmap string Z :=
  match mem_view w k with Some (mkEntry (RZSet z) _) => z | _ => ∅ end.
Definition mem_exp (w : mem) (k : string) : option Time :=
  match mem_view w k with Some e => e.(r_expire) | None => None end.
Definition mem_zentry (z : gmap string Z) (exp : option Time) : option rentry :=
  if decide (z = ∅) then None else Some (mkEntry (RZSet z) exp).

Definition mem_touch (k : string) (d : Z) (w : mem) : Z * mem :=
  match mem_view w k with
  | Some e => (1, mem_put k (Some (mkEntry e.(r_val) (Some (w.(m_now) + d)))) w)
  | None => (0, mem_put k None w)
  end.

#[export] Instance mem_redis : RedisServer mem := {|
  srv_now := m_now;
  srv_view := mem_view;
  srv_elapse d w := mkMem (w.(m_now) + d) w.(m_keys);
  srv_SET k v ttl w := mem_put k (Some (mkEntry (RString v) (Some (w.(m_now) + ttl)))) w;
  srv_GET w k := match mem_view w k with Some (mkEntry (RString s) _) => Some s | _ => None end;
  srv_SETNX k v ttl w :=
    match mem_view w k with
    | Some _ => (false, w)
    | None => (true, mem_put k (Some (mkEntry (RString v) (Some (w.(m_now) + ttl)))) w)
    end;
  srv_PEXPIRE k ms w := mem_touch k (ms * Millisecond) w;
  srv_EXPIRE k ttl w := mem_touch k ttl w;
  srv_ZREMRANGEBYSCORE k lo hi w :=
    match ParseInt lo, ParseInt hi with
    | Some lo, Some hi =>
        let z := filter (fun x => ~ in_scores (round53 lo) (round53 hi) x) (mem_zset w k) in
        (Z.of_nat (size (mem_zset w k) - size z), mem_put k (mem_zentry z (mem_exp w k)) w)
    | _, _ => (0, w)
    end;
  srv_ZADD k s m w :=
    (1, mem_put k (mem_zentry (<[m := s]> (mem_zset w k)) (mem_exp w k)) w);
  srv_ZCARD w k := Z.of_nat (size (mem_zset w k)) |}.

(** An entry that is written is seen if it has not expired. *)
Lemma mem_put_updates k e w :
  (forall x, e = Some x -> live w.(m_now) x = true) -> updates k e w (mem_put k e w).
Proof.
  intros Hlive. split_and!; [done| |].
  - cbn. unfold mem_view, mem_put. cbn. destruct e as [x|].
    + rewrite lookup_insert_eq. by rewrite Hlive.
    + by rewrite lookup_delete_eq.
  - intros k' Hne. cbn. unfold mem_view, mem_put. cbn. destruct e as [x|].
    + by rewrite lookup_insert_ne.
    + by rewrite lookup_delete_ne.
Qed.

Lemma mem_exp_live w k t : mem_exp w k = Some t -> w.(m_now) < t.
Proof.
  unfold mem_exp, mem_view. destruct (w.(m_keys) !! k) as [e|]; [|done].
  destruct (live _ e) eqn:Hl; [|done]. unfold live in Hl. intros He.
  rewrite He in Hl. by apply Z.ltb_lt.
Qed.

Lemma mem_zentry_live w k z x :
  mem_zentry z (mem_exp w k) = Some x -> live w.(m_now) x = true.
Proof.
  unfold mem_zentry. case_decide; [done|]. intros [= <-]. unfold live. cbn.
  destruct (mem_exp w k) eqn:He; [|done]. by apply Z.ltb_lt, (mem_exp_live w k).
Qed.

Lemma mem_touch_updates k d w : 0 < d ->
  match mem_view w k with
  | Some e => (mem_touch k d w).1 = 1 /\
              updates k (Some (mkEntry e.(r_val) (Some (w.(m_now) + d)))) w (mem_touch k d w).2
  | None => (mem_touch k d w).1 = 0 /\ updates k None w (mem_touch k d w).2
  end.
Proof.
  intros Hd. unfold mem_touch. destruct (mem_view w k) as [e|]; split; try done;
    apply mem_put_updates; [|done]. intros x [= <-]. cbn. apply Z.ltb_lt. lia.
Qed.

#[export] Instance mem_laws : RedisLaws mem.
Proof.
  split.
  - intros w k e t. cbn. unfold mem_view. destruct (m_keys w !! k) as [e'|]; [|done].
    destruct (live _ e') eqn:Hl; [|done]. intros [= ->] He. unfold live in Hl.
    rewrite He in Hl. by apply Z.ltb_lt.
  - done.
  - intros d w k Hd. cbn. unfold mem_view. cbn. destruct (m_keys w !! k) as [e|]; [|done].
    unfold live. destruct (r_expire e) as [t|] eqn:He; [|by rewrite He].
    destruct (Z.ltb_spec (m_now w) t); [by rewrite He|].
    destruct (Z.ltb_spec (m_now w + d) t); [lia|done].
  - intros k v ttl w Hp _. apply mem_put_updates. intros x [= <-]. cbn.
    apply Z.ltb_lt. lia.
  - intros w k Hs. cbn. unfold str_at. cbn. done.
  - intros k v ttl w Hp _. cbn. destruct (mem_view w k); [done|]. split; [done|].
    apply mem_put_updates. intros x [= <-]. cbn. apply Z.ltb_lt. lia.
  - intros k v ttl w. cbn. by destruct (mem_view w k).
  - intros k ms w Hms. apply mem_touch_updates. unfold Millisecond. lia.
  - intros k ttl w Hp _. by apply mem_touch_updates.
  - intros k lo hi w _ _ _. cbn. rewrite !ParseInt_Itoa. cbn.
    apply mem_put_updates. intros x. apply mem_zentry_live.
  - intros k s m w _. cbn. apply mem_put_updates. intros x. apply mem_zentry_live.
  - done.
Qed.
