(* ===== verification/RedisStore.v ===== *)
(** * The state store: internal/redis/state_store.go

    The implementation of [StateStore] over the Redis client, an abstract
    specification of it (a store of three kinds of slots whose operations may
    fail, with a not-found error that means absence and nothing else), and
    the refinement between them on a network that loses requests and
    replies. *)

From S2P Require Import Prelude Prog GoStrings Domain GoFloat Effects Redis RedisFake Fakes.

Definition stateTTL : Duration := 24 * Hour.
Definition resultTTL : Duration := Hour.

Definition stateKey (taskID : string) : string := "task:state:" +:+ taskID.
Definition metaKey (taskID : string) : string := "task:meta:" +:+ taskID.
Definition resultKey (taskID : string) : string := "task:result:" +:+ taskID.

Section Impl.
Context `{TaskCodec}.

(** state_store.go:53-59 *)
Definition stateStore_SetStatus (ctx : Ctx) (taskID : string) (status : Status)
  : prog RedisE (option error) :=
  err ← trigger (RSet ctx (stateKey taskID) status stateTTL);
  match err with
  | Some err => mret (Some (ErrWrap ("redis set status for " +:+ taskID) err))
  | None => mret None
  end.

(** state_store.go:61-70 *)
Definition stateStore_GetStatus (ctx : Ctx) (taskID : string)
  : prog RedisE (goresult Status) :=
  val ← trigger (RGet ctx (stateKey taskID));
  match val with
  | Err err =>
      if errors_Is err RedisNil then mret (Err (TaskNotFoundError taskID))
      else mret (Err (ErrWrap ("redis get status for " +:+ taskID) err))
  | Ok val => mret (Ok val)
  end.

(** state_store.go:72-82 *)
Definition stateStore_SetTaskMeta (ctx : Ctx) (task : Task.t)
  : prog RedisE (option error) :=
  match marshalTask task with
  | Err err => mret (Some (ErrWrap "marshal task meta" err))
  | Ok data =>
      err ← trigger (RSet ctx (metaKey task.(Task.ID)) data stateTTL);
      match err with
      | Some err => mret (Some (ErrWrap ("redis set meta for " +:+ task.(Task.ID)) err))
      | None => mret None
      end
  end.

(** state_store.go:84-97 *)
Definition stateStore_GetTaskMeta (ctx : Ctx) (taskID : string)
  : prog RedisE (goresult Task.t) :=
  data ← trigger (RGet ctx (metaKey taskID));
  match data with
  | Err err =>
      if errors_Is err RedisNil then mret (Err (TaskNotFoundError taskID))
      else mret (Err (ErrWrap ("redis get meta for " +:+ taskID) err))
  | Ok data =>
      match unmarshalTask data with
      | Err err => mret (Err (ErrWrap "unmarshal task meta" err))
      | Ok task => mret (Ok task)
      end
  end.

(** state_store.go:99-108 *)
Definition stateStore_SetResult (ctx : Ctx) (taskID res : string) (ttl : Duration)
  : prog RedisE (option error) :=
  let ttl := if ttl =? 0 then resultTTL else ttl in
  err ← trigger (RSet ctx (resultKey taskID) res ttl);
  match err with
  | Some err => mret (Some (ErrWrap ("redis set result for " +:+ taskID) err))
  | None => mret None
  end.

(** state_store.go:110-119 *)
Definition stateStore_GetResult (ctx : Ctx) (taskID : string)
  : prog RedisE (goresult string) :=
  data ← trigger (RGet ctx (resultKey taskID));
  match data with
  | Err err =>
      if errors_Is err RedisNil then mret (Err (TaskNotFoundError taskID))
      else mret (Err (ErrWrap ("redis get result for " +:+ taskID) err))
  | Ok data => mret (Ok data)
  end.

(** The method table of [*stateStore]. *)
Definition stateStore : forall X, StoreE X -> prog RedisE X := fun X e =>
  match e with
  | SetStatus ctx id s => stateStore_SetStatus ctx id s
  | GetStatus ctx id => stateStore_GetStatus ctx id
  | SetTaskMeta ctx t => stateStore_SetTaskMeta ctx t
  | GetTaskMeta ctx id => stateStore_GetTaskMeta ctx id
  | SetResult ctx id res ttl => stateStore_SetResult ctx id res ttl
  | GetResult ctx id => stateStore_GetResult ctx id
  end.
End Impl.

(** ** Specification *)

Inductive slot : Type :=
| StateSlot (id : string)
| MetaSlot (id : string)
| ResultSlot (id : string).

#[export] Instance slot_eq_dec : EqDecision slot.
Proof. solve_decision. Defined.

Definition slotKey (sl : slot) : string :=
  match sl with
  | StateSlot id => stateKey id
  | MetaSlot id => metaKey id
  | ResultSlot id => resultKey id
  end.

(** The key spaces are disjoint and no two tasks share a key. *)
#[export] Instance slotKey_inj : Inj (=) (=) slotKey.
Proof.
  intros [i|i|i] [j|j|j]; cbn; unfold stateKey, metaKey, resultKey;
    intros Heq; try discriminate Heq; by simplify_eq.
Qed.

Definition astore : Type := slot -> option string.
Definition upd (sl : slot) (v : string) (a : astore) : astore :=
  fun sl' => if decide (sl' = sl) then Some v else a sl'.

(** An error that does not mean "no such task". *)
Definition failure (e : error) : Prop := errors_As_TaskNotFound e = None.

Section Spec.
Context `{TaskCodec}.

(** A write that succeeds is done; one that fails may have been done. *)
Inductive write_spec (sl : slot) (v : string) (a : astore) : option error -> astore -> Prop :=
| write_ok : write_spec sl v a None (upd sl v a)
| write_not_done e : failure e -> write_spec sl v a (Some e) a
| write_done e : failure e -> write_spec sl v a (Some e) (upd sl v a).

(** A read that says "not found" means the slot is empty. *)
Inductive read_spec (sl : slot) (id : string) (a : astore) : goresult string -> Prop :=
| read_hit v : a sl = Some v -> read_spec sl id a (Ok v)
| read_miss : a sl = None -> read_spec sl id a (Err (TaskNotFoundError id))
| read_fail e : failure e -> read_spec sl id a (Err e).

(** What an answer of [GetTaskMeta] says of the bytes read. *)
Definition decoded (raw : goresult string) (x : goresult Task.t) : Prop :=
  match raw with
  | Err e => x = Err e
  | Ok s => match unmarshalTask s with
            | Ok t => x = Ok t
            | Err _ => exists e, failure e /\ x = Err e
            end
  end.

Definition store_spec {X} (e : StoreE X) : astore -> X -> astore -> Prop :=
  match e in StoreE X return astore -> X -> astore -> Prop with
  | SetStatus _ id s => fun a x a' => write_spec (StateSlot id) s a x a'
  | GetStatus _ id => fun a x a' => read_spec (StateSlot id) id a x /\ a' = a
  | SetTaskMeta _ t => fun a x a' =>
      match marshalTask t with
      | Ok s => write_spec (MetaSlot t.(Task.ID)) s a x a'
      | Err _ => (exists e, failure e /\ x = Some e) /\ a' = a
      end
  | GetTaskMeta _ id => fun a x a' =>
      (exists raw, read_spec (MetaSlot id) id a raw /\ decoded raw x) /\ a' = a
  | SetResult _ id res _ => fun a x a' => write_spec (ResultSlot id) res a x a'
  | GetResult _ id => fun a x a' => read_spec (ResultSlot id) id a x /\ a' = a
  end.

(** Programs over the specification. *)
Fixpoint spec_run {A} (p : prog StoreE A) (a : astore) (r : A) (a' : astore) : Prop :=
  match p with
  | Ret r' => r = r' /\ a' = a
  | Vis e k => exists x a1, store_spec e a x a1 /\ spec_run (k x) a1 r a'
  end.

(** The time-to-live of a result: none, or whole seconds. *)
Definition op_ok {X} (e : StoreE X) : Prop :=
  match e with
  | SetResult _ _ _ ttl => 0 <= ttl /\ ttl mod Second = 0
  | _ => True
  end.
Fixpoint ops_ok {A} (p : prog StoreE A) : Prop :=
  match p with
  | Ret _ => True
  | Vis e k => op_ok e /\ forall x, ops_ok (k x)
  end.
End Spec.

(** Errors of the codec are its own. *)
Class CodecErrors `{TaskCodec} := {
  marshal_failure t e : marshalTask t = Err e -> failure e;
  unmarshal_failure s e : unmarshalTask s = Err e -> failure e }.

(** ** Refinement *)

Set Default Proof Using "Type*".
Section Refinement.
Context `{TaskCodec, !CodecErrors, RedisServer W, !RedisLaws W}.
Implicit Types (n : net W) (w : W) (a : astore).

(** The server holds the abstract store: its slots are strings (or free). *)
Definition represents w a : Prop :=
  forall sl, is_str w (slotKey sl) /\ str_at w (slotKey sl) = a sl.

Definition simulates n a : Prop :=
  represents n.(server) a /\ Forall wf_fault n.(faults).

Lemma represents_SET sl v ttl w a :
  0 < ttl -> ttl mod Second = 0 -> represents w a ->
  represents (srv_SET (slotKey sl) v ttl w) (upd sl v a).
Proof.
  intros Hp Hs Hr sl'. pose proof (law_SET (slotKey sl) v ttl w Hp Hs) as (_ & Hk & Hk').
  unfold upd. case_decide as Hsl.
  - subst sl'. unfold is_str, str_at. rewrite Hk. split; [|done].
    intros e [= <-]. eauto.
  - specialize (Hk' (slotKey sl')).
    assert (slotKey sl' <> slotKey sl) as Hne by (intros Heq; by apply slotKey_inj in Heq).
    specialize (Hk' Hne). destruct (Hr sl') as [His Hat].
    unfold is_str, str_at in *. by rewrite Hk'.
Qed.

(** A SET on the network: its answer and what the server holds after it. *)
Lemma set_env ctx sl v ttl n a x n' :
  0 < ttl -> ttl mod Second = 0 -> simulates n a ->
  redis_env _ (RSet ctx (slotKey sl) v ttl) n = (x, n') ->
  exists a', simulates n' a' /\
    ((x = None /\ a' = upd sl v a) \/
     exists e, x = Some e /\ net_error e /\ (a' = a \/ a' = upd sl v a)).
Proof.
  intros Hp Hs [Hr Hf]. destruct n as [w fs]. unfold redis_env. cbn [faults server].
  pose proof (represents_SET sl v ttl w a Hp Hs Hr) as Hr'.
  destruct fs as [|[|e|e] fs]; cbn in Hf |- *; intros [= <- <-].
  - exists (upd sl v a). split; [by split|]. by left.
  - exists (upd sl v a). inversion Hf; subst. split; [by split|]. by left.
  - exists a. inversion Hf; subst. split; [by split|]. right. eauto 10.
  - exists (upd sl v a). inversion Hf; subst. split; [by split|]. right. eauto 10.
Qed.

(** A GET on the network. *)
Lemma get_env ctx sl n a x n' :
  simulates n a ->
  redis_env _ (RGet ctx (slotKey sl)) n = (x, n') ->
  simulates n' a /\
  ((exists v, x = Ok v /\ a sl = Some v) \/ (x = Err RedisNil /\ a sl = None) \/
   exists e, x = Err e /\ net_error e).
Proof.
  intros [Hr Hf]. destruct n as [w fs]. unfold redis_env. cbn [faults server].
  destruct (Hr sl) as [His Hat].
  assert (Hget : srv_GET w (slotKey sl) = a sl) by (by rewrite law_GET).
  destruct fs as [|[|e|e] fs]; cbn in Hf |- *; rewrite ?Hget; intros [= <- <-].
  - split; [by split|]. destruct (a sl); eauto.
  - inversion Hf; subst. split; [by split|]. destruct (a sl); eauto.
  - inversion Hf; subst. split; [by split|]. eauto.
  - inversion Hf; subst. split; [by split|]. eauto.
Qed.

Lemma failure_wrap msg e : failure e -> failure (ErrWrap msg e).
Proof. done. Qed.

Hint Resolve failure_wrap : goflow.
Hint Constructors write_spec read_spec : goflow.

Ltac run_one := unfold run_result, run_world, trigger; cbn -[redis_env upd slotKey].

Lemma write_refines ctx sl v ttl msg n a :
  0 < ttl -> ttl mod Second = 0 -> simulates n a ->
  let p := err ← trigger (RSet ctx (slotKey sl) v ttl);
           match err with
           | Some err => mret (Some (ErrWrap msg err))
           | None => mret None
           end : prog RedisE (option error) in
  exists a', write_spec sl v a (run_result redis_env p n) a' /\
    simulates (run_world redis_env p n) a'.
Proof.
  intros Hp Hs Hsim. run_one.
  destruct (redis_env _ (inj (RSet ctx (slotKey sl) v ttl)) n) as [x n'] eqn:Henv.
  destruct (set_env ctx sl v ttl n a x n' Hp Hs Hsim Henv)
    as (a' & Hsim' & [[-> ->]|(e & -> & [_ He] & [-> | ->])]); cbn;
    eexists; (split; [|exact Hsim']); auto with goflow.
Qed.

Lemma read_refines ctx sl id msg n a :
  simulates n a ->
  let p := val ← trigger (RGet ctx (slotKey sl));
           match val with
           | Err err => if errors_Is err RedisNil then mret (Err (TaskNotFoundError id))
                        else mret (Err (ErrWrap msg err))
           | Ok val => mret (Ok val)
           end : prog RedisE (goresult string) in
  read_spec sl id a (run_result redis_env p n) /\
  simulates (run_world redis_env p n) a.
Proof.
  intros Hsim. run_one.
  destruct (redis_env _ (inj (RGet ctx (slotKey sl))) n) as [x n'] eqn:Henv.
  destruct (get_env ctx sl n a x n' Hsim Henv)
    as (Hsim' & [(v & -> & Hv)|[[-> Hv]|(e & -> & [Hnil He])]]); cbn -[errors_Is];
    [|rewrite errors_Is_refl|rewrite Hnil]; (split; [cbn|exact Hsim']); auto with goflow.
Qed.

(** [GetTaskMeta] is a read of the meta slot followed by the decoding. *)
Lemma meta_refines ctx id n a :
  simulates n a ->
  (exists raw, read_spec (MetaSlot id) id a raw /\
     decoded raw (run_result redis_env (stateStore_GetTaskMeta ctx id) n)) /\
  simulates (run_world redis_env (stateStore_GetTaskMeta ctx id) n) a.
Proof.
  intros Hsim. unfold stateStore_GetTaskMeta.
  change (metaKey id) with (slotKey (MetaSlot id)). run_one.
  destruct (redis_env _ (inj (RGet ctx (slotKey (MetaSlot id)))) n) as [x n'] eqn:Henv.
  destruct (get_env ctx (MetaSlot id) n a x n' Hsim Henv)
    as (Hsim' & [(v & -> & Hv)|[[-> Hv]|(e & -> & [Hnil He])]]); cbn -[errors_Is];
    [|rewrite errors_Is_refl|rewrite Hnil].
  - split; [|by destruct (unmarshalTask v)]. exists (Ok v).
    split; [auto with goflow|]. unfold decoded.
    destruct (unmarshalTask v) as [t|err] eqn:Hu; cbn; [done|].
    exists (ErrWrap "unmarshal task meta" err). split; [|done].
    by apply failure_wrap, (unmarshal_failure v).
  - split; [|done]. exists (Err (TaskNotFoundError id)). split; [by apply read_miss|done].
  - split; [|done]. eexists (Err _). split; [by apply read_fail, failure_wrap|done].
Qed.

Lemma stateTTL_ok : 0 < stateTTL /\ stateTTL mod Second = 0.
Proof. done. Qed.
Lemma resultTTL_ok ttl : 0 <= ttl -> ttl mod Second = 0 ->
  0 < (if ttl =? 0 then resultTTL else ttl) /\
  (if ttl =? 0 then resultTTL else ttl) mod Second = 0.
Proof. intros ? ?. destruct (Z.eqb_spec ttl 0); [done|]. split; [lia|done]. Qed.

(** Every operation of the implementation is one of the specification. *)
Lemma op_refines {X} (e : StoreE X) n a :
  op_ok e -> simulates n a ->
  exists a', store_spec e a (run_result redis_env (stateStore X e) n) a' /\
    simulates (run_world redis_env (stateStore X e) n) a'.
Proof.
  intros Hok Hsim. destruct stateTTL_ok as [Hp Hs]. destruct e as [ctx id s|ctx id|ctx t|ctx id|ctx id v ttl|ctx id].
  - by apply (write_refines ctx (StateSlot id)).
  - destruct (read_refines ctx (StateSlot id) id ("redis get status for " +:+ id) n a Hsim).
    by exists a.
  - cbn [store_spec stateStore]. unfold stateStore_SetTaskMeta.
    destruct (marshalTask t) as [s|err] eqn:Hm.
    + by apply (write_refines ctx (MetaSlot t.(Task.ID))).
    + exists a. split; [|done]. split; [|done]. eexists. split; [|done].
      by apply failure_wrap, (marshal_failure t).
  - exists a. destruct (meta_refines ctx id n a Hsim). by split.
  - cbn [op_ok] in Hok. destruct Hok as [Hge Hmod].
    destruct (resultTTL_ok ttl Hge Hmod). by apply (write_refines ctx (ResultSlot id)).
  - destruct (read_refines ctx (ResultSlot id) id ("redis get result for " +:+ id) n a Hsim).
    by exists a.
Qed.

(** C14: a program over [StateStore], run against Redis through
    a network that may lose requests and replies, behaves as the abstract
    store allows: reads return what was last written, "not found" means
    absent (never a failed connection), and a failed write may or may not
    have happened. *)
Theorem stateStore_refines {A} (p : prog StoreE A) n a :
  ops_ok p -> simulates n a ->
  exists a', spec_run p a (run_result redis_env (interp stateStore p) n) a' /\
    simulates (run_world redis_env (interp stateStore p) n) a'.
Proof.
  revert n a. induction p as [r|X e k IH]; intros n a Hok Hsim; [by exists a|].
  destruct Hok as [Hok Hk].
  destruct (op_refines e n a Hok Hsim) as (a1 & Hstep & Hsim1).
  unfold run_result, run_world in *. cbn [interp]. rewrite run_bind.
  destruct (run redis_env (stateStore X e) n) as [[x t1] n1]. cbn [fst snd] in *.
  specialize (IH x n1 a1 (Hk x) Hsim1). destruct IH as (a' & Hrun & Hsim').
  destruct (run redis_env (interp stateStore (k x)) n1) as [[r t2] n2]. cbn [fst snd] in *.
  exists a'. split; [|done]. by exists x, a1.
Qed.

(** A status that was written is read back for 24 hours, by
    the server's clock, and is gone from then on. *)
Theorem status_ttl ctx id s d w :
  0 <= d -> is_str w (stateKey id) ->
  let wrote := run redis_env (stateStore_SetStatus ctx id s) (mkNet w []) in
  run_result redis_env (stateStore_GetStatus ctx id) (net_elapse d wrote.2) =
  if d <? 24 * Hour then Ok s else Err (TaskNotFoundError id).
Proof.
  intros Hd His. unfold run_result. cbn -[errors_Is]. unfold net_elapse. cbn -[errors_Is].
  destruct stateTTL_ok as [Hp Hs].
  destruct (law_SET (stateKey id) s stateTTL w Hp Hs) as (Hnow & Hk & _).
  pose proof (law_elapse d (srv_SET (stateKey id) s stateTTL w) (stateKey id) Hd) as Hel.
  rewrite Hk in Hel. cbn [r_expire] in Hel. rewrite Hnow in Hel.
  replace (srv_now w + d <? srv_now w + stateTTL) with (d <? 24 * Hour) in Hel.
  2:{ unfold stateTTL. destruct (Z.ltb_spec d (24 * Hour)), (Z.ltb_spec (srv_now w + d)
        (srv_now w + 24 * Hour)); (done || lia). }
  rewrite law_GET.
  - unfold str_at. rewrite Hel. by destruct (d <? 24 * Hour).
  - intros e. rewrite Hel. destruct (d <? 24 * Hour); [intros [= <-]; eauto|done].
Qed.

(** [GetTaskMeta] returns the task [SetTaskMeta] stored, for
    every task the codec keeps. *)
Theorem meta_roundtrip (good : Task.t -> Prop) `{!TaskCodecSpec good} ctx ctx' task raw w :
  good task -> marshalTask task = Ok raw -> is_str w (metaKey task.(Task.ID)) ->
  let wrote := run redis_env (stateStore_SetTaskMeta ctx task) (mkNet w []) in
  wrote.1.1 = None /\
  run_result redis_env (stateStore_GetTaskMeta ctx' task.(Task.ID)) wrote.2 = Ok task.
Proof.
  intros Hgood Hm His. unfold stateStore_SetTaskMeta. rewrite Hm. cbn -[errors_Is].
  split; [done|]. destruct stateTTL_ok as [Hp Hs].
  destruct (law_SET (metaKey task.(Task.ID)) raw stateTTL w Hp Hs) as (_ & Hk & _).
  unfold stateStore_GetTaskMeta, run_result. cbn -[errors_Is]. rewrite law_GET.
  - unfold str_at. rewrite Hk. cbn. by rewrite (unmarshal_marshal task raw).
  - intros e. rewrite Hk. intros [= <-]. eauto.
Qed.
End Refinement.

(** ** Concrete runs *)

#[export] Instance demo_codec_errors : CodecErrors.
Proof.
  split.
  - done.
  - intros s e. cbn. destruct (String.eqb _ _); [done|]. by intros [= <-].
Qed.

#[export] Instance demo_codec_spec : TaskCodecSpec (fun t => t = demo_task).
Proof. intros t s -> Hm. cbn in Hm. by injection Hm as <-. Qed.

Definition no_slots : astore := fun _ => None.

Lemma mem_init_represents : represents mem_init no_slots.
Proof. intros sl. split; [|done]. by intros e. Qed.

Lemma stateStore_refines_witness :
  let p : prog StoreE (goresult Status) :=
    _ ← trigger (SetStatus CtxRun "t" StatusDone); trigger (GetStatus CtxRun "t") in
  let n := mkNet mem_init [ReplyLost ContextDeadlineExceeded; Delivered] in
  exists a', spec_run p no_slots (run_result redis_env (interp stateStore p) n) a' /\
    run_result redis_env (interp stateStore p) n = Ok StatusDone.
Proof.
  intros p n.
  destruct (stateStore_refines p n no_slots) as (a' & Hrun & _).
  - repeat split; intros; exact I.
  - split; [apply mem_init_represents|]. repeat constructor.
  - exists a'. split; [exact Hrun|]. reflexivity.
Defined.

Lemma status_ttl_witness :
  let wrote := run redis_env (stateStore_SetStatus CtxRun "t" StatusDone)
                 (mkNet mem_init []) in
  run_result redis_env (stateStore_GetStatus CtxRun "t") (net_elapse (25 * Hour) wrote.2)
  = Err (TaskNotFoundError "t").
Proof.
  apply (status_ttl CtxRun "t" StatusDone (25 * Hour) mem_init); [discriminate|].
  intros e He. discriminate He.
Defined.

Lemma meta_roundtrip_witness :
  let wrote := run redis_env (stateStore_SetTaskMeta CtxRun demo_task) (mkNet mem_init []) in
  wrote.1.1 = None /\
  run_result redis_env (stateStore_GetTaskMeta CtxRun "task-1") wrote.2 = Ok demo_task.
Proof.
  apply (meta_roundtrip (fun t => t = demo_task) CtxRun CtxRun demo_task demo_raw mem_init);
    [reflexivity|reflexivity|]. intros e He. discriminate He.
Defined.
