(* ===== verification/RateLimiter.v ===== *)
(** * The rate limiter: internal/redis/rate_limiter.go

    [Allow] over the Redis client and the clock, the sliding window it
    computes as a function of the calls made before ([window_allows]), the
    refinement between the two over a run of calls, and what the window does
    to a caller: how many calls it lets through, and that refused calls
    count. *)

From S2P Require Import Prelude Prog GoStrings Domain GoFloat Effects Redis RedisFake Fakes.

(** [slidingWindowLimiter] (rate_limiter.go:18-28) *)
Record slidingWindowLimiter := NewRateLimiter { limit : Z; window : Duration }.

(** What the limiter uses: the clock and Redis. *)
Inductive LimiterImplE : Type -> Type :=
| LimSys {X} (e : SysE X) : LimiterImplE X
| LimRedis {X} (e : RedisE X) : LimiterImplE X.
#[export] Instance SubE_LimSys : SubE SysE LimiterImplE := @LimSys.
#[export] Instance SubE_LimRedis : SubE RedisE LimiterImplE := @LimRedis.

Definition ratelimitKey (key : string) : string := "ratelimit:" +:+ key.

(** The pipeline of one call at [now] (rate_limiter.go:36-47). *)
Definition pipeline (r : slidingWindowLimiter) (rkey : string) (now : Z) : list PipeCmd :=
  let windowStart := int64 (now - r.(window)) in
  [ZRemRangeByScore rkey "0" (Itoa windowStart);
   ZAdd rkey (round53 now) (Itoa now);
   ZCard rkey;
   Expire rkey (int64 (r.(window) * 2))].

Section Impl.
Context `{UnicodeTables}.

(** rate_limiter.go:30 *)
Definition limiter_Limit (r : slidingWindowLimiter) : Z := r.(limit).

(** rate_limiter.go:32-54 *)
Definition limiter_Allow (r : slidingWindowLimiter) (ctx : Ctx) (key : string)
  : prog LimiterImplE (goresult bool) :=
  t ← trigger Now;
  let now := int64 t in
  let rkey := ratelimitKey key in
  res ← trigger (RTxPipeline ctx (pipeline r rkey now));
  match res with
  | Err err => mret (Err (ErrWrap ("rate limiter pipeline for " +:+ Quote key) err))
  | Ok replies => mret (Ok (nth 2 replies 0 <=? int64 r.(limit)))
  end.

(** The method table of [*slidingWindowLimiter]. *)
Definition rateLimiter (r : slidingWindowLimiter)
  : forall X, LimiterE X -> prog LimiterImplE X := fun X e =>
  match e with
  | Allow ctx key => limiter_Allow r ctx key
  | Limit => mret (limiter_Limit r)
  end.
End Impl.

(** ** The window

    [hs] are the instants of the calls made before on the same key, whatever
    they were answered. The scores are float64, so the edge of the window is
    where [round53] puts it. *)

Definition in_window (r : slidingWindowLimiter) (now m : Z) : Prop :=
  round53 (now - r.(window)) < round53 m.
#[export] Instance in_window_dec r now m : Decision (in_window r now m).
Proof. unfold in_window. apply _. Defined.

Definition counted (r : slidingWindowLimiter) (hs : list Z) (now : Z) : list Z :=
  remove_dups (now :: filter (in_window r now) hs).

Definition window_allows (r : slidingWindowLimiter) (hs : list Z) (now : Z) : bool :=
  Z.of_nat (length (counted r hs now)) <=? r.(limit).

(** The answers of a run of calls, each a key and an instant; [hist] are the
    calls before it, by key. *)
Definition remember (key : string) (n : Z) (hist : string -> list Z) : string -> list Z :=
  fun k => if decide (k = key) then n :: hist k else hist k.

Fixpoint window_run (r : slidingWindowLimiter) (hist : string -> list Z)
    (calls : list (string * Z)) : list bool :=
  match calls with
  | [] => []
  | (key, n) :: calls' =>
      window_allows r (hist key) n :: window_run r (remember key n hist) calls'
  end.

(** Calls of the past. *)
Definition past (hs : list Z) (now : Z) : Prop := forall m, m ∈ hs -> 0 <= m <= now.

(** ** What the window lets through *)

Section Window.
Implicit Types (r : slidingWindowLimiter) (hs : list Z).

Lemma counted_elem r hs now m :
  m ∈ counted r hs now <-> m = now \/ (m ∈ hs /\ in_window r now m).
Proof.
  unfold counted. rewrite elem_of_remove_dups, elem_of_cons, list_elem_of_filter. tauto.
Qed.

(** A call that is let through has few instants in its window, less the
    1024 ns that float64 scores may blur; a call with few instants in the
    whole window is let through. *)
Lemma window_bound r hs now :
  0 < r.(window) -> 0 <= now - r.(window) -> now < 2 ^ 63 -> past hs now ->
  (window_allows r hs now = true ->
   forall ms, NoDup ms ->
     (forall m, m ∈ ms -> m = now \/ (m ∈ hs /\ now - r.(window) + 1024 < m)) ->
     Z.of_nat (length ms) <= r.(limit)) /\
  (Z.of_nat (length (remove_dups (now :: filter (fun m => now - r.(window) < m) hs)))
     <= r.(limit) ->
   window_allows r hs now = true).
Proof.
  intros Hw Hpos Hlt Hpast. unfold window_allows. rewrite Z.leb_le. split.
  - intros Hle ms Hnd Hms. etransitivity; [|exact Hle]. apply inj_le.
    apply submseteq_length, NoDup_submseteq; [done|]. intros m Hin. apply counted_elem.
    destruct (Hms m Hin) as [->|[Hin' Hm]]; [by left|].
    right. split; [done|]. apply round53_strict; [lia|lia|]. pose proof (Hpast m Hin'). lia.
  - intros Hle. etransitivity; [|exact Hle]. apply inj_le.
    apply submseteq_length, NoDup_submseteq; [apply NoDup_remove_dups|]. intros m Hin.
    apply counted_elem in Hin. apply elem_of_remove_dups. rewrite elem_of_cons, list_elem_of_filter. destruct Hin as [->|[Hin Hm]]; [by left|].
    right. split; [|done]. unfold in_window in Hm. apply Z.lt_nge. intros Hle'.
    apply round53_mono in Hle'. lia.
Qed.

(** A caller that has been calling every [g], with [limit] of them fitting in
    the window, is refused. *)
Lemma window_refuses r hs now g :
  0 <= r.(limit) -> 0 < g -> r.(limit) * g + 1024 < r.(window) ->
  0 <= now - r.(window) -> now < 2 ^ 63 ->
  (forall i, 1 <= i <= r.(limit) -> now - i * g ∈ hs) ->
  window_allows r hs now = false.
Proof.
  intros Hl Hg Hw Hpos Hlt Hin. unfold window_allows. apply Z.leb_gt.
  set (ms := map (fun i => now - Z.of_nat i * g) (seq 0 (S (Z.to_nat r.(limit))))).
  assert (Hlen : length ms = S (Z.to_nat r.(limit))).
  { unfold ms. by rewrite length_map, length_seq. }
  assert (ms ⊆+ counted r hs now) as Hsub%submseteq_length; [|lia].
  apply NoDup_submseteq.
  - unfold ms. apply NoDup_fmap_2; [|apply NoDup_seq].
    intros i j Hij. assert (Z.of_nat i = Z.of_nat j) by nia. lia.
  - intros m [i [-> Hi]]%list_elem_of_fmap. apply elem_of_seq in Hi. apply counted_elem.
    destruct (decide (i = 0%nat)) as [->|Hi0]; [left; lia|]. right.
    split; [apply Hin; lia|]. apply round53_strict; nia.
Qed.

Lemma window_run_length r hist calls : length (window_run r hist calls) = length calls.
Proof.
  revert hist. induction calls as [|[k n] calls IH]; intros hist; [done|]. cbn. by rewrite IH.
Qed.

(** The history before the [i]-th call. *)
Lemma window_run_lookup r hist calls i b :
  window_run r hist calls !! i = Some b ->
  exists key n hs, calls !! i = Some (key, n) /\ b = window_allows r hs n /\
    forall m, m ∈ hs <-> m ∈ hist key \/ exists j, (j < i)%nat /\ calls !! j = Some (key, m).
Proof.
  revert hist i. induction calls as [|[k1 n1] calls IH]; intros hist i; [done|].
  destruct i as [|i]; cbn [window_run].
  - intros [= <-]. exists k1, n1, (hist k1). split; [done|]. split; [done|].
    intros m. split; [by left|]. intros [?|(j & Hj & _)]; [done|lia].
  - intros Hb. apply (IH (remember k1 n1 hist)) in Hb as (key & n & hs & Hc & -> & Hhs).
    exists key, n, hs. split; [done|]. split; [done|]. intros m. rewrite Hhs.
    unfold remember. split.
    + intros [Hin|(j & Hj & Hm)].
      * case_decide as Hk; [|by left]. apply elem_of_cons in Hin as [->|Hin]; [|by left].
        right. exists 0%nat. split; [lia|]. by subst.
      * right. exists (S j). split; [lia|done].
    + intros [Hin|([|j] & Hj & Hm)].
      * left. case_decide; [by right|done].
      * cbn in Hm. injection Hm as -> ->. left. rewrite decide_True by done. left.
      * right. exists j. split; [lia|done].
Qed.
End Window.

(** Limits and instants of the present: 64-bit nanoseconds after the epoch,
    a window of whole seconds. *)
Record sane (r : slidingWindowLimiter) : Prop := {
  sane_window : 0 < r.(window);
  sane_whole : r.(window) mod Second = 0;
  sane_double : r.(window) * 2 < 2 ^ 63;
  sane_limit : in_int64 r.(limit) }.

(** ** The pipeline on the server *)

Section Server.
Context `{UnicodeTables, RedisServer W, !RedisLaws W}.
Set Default Proof Using "Type*".
Implicit Types (w : W) (r : slidingWindowLimiter).

(** The server's clock runs [skew] behind the caller's. *)
Variable skew : Z.

Definition lim_env : handler LimiterImplE (net W) := fun X e =>
  match e in LimiterImplE X return net W -> X * net W with
  | LimSys e' =>
      match e' in SysE X return net W -> X * net W with
      | Now => fun n => (srv_now n.(server) + skew, n)
      | Since t => fun n => (Sub (srv_now n.(server) + skew) t, n)
      | NewUUID => fun n => ("", n)
      | SelectAfter _ _ => fun n => (None, n)
      end
  | LimRedis e' => fun n => redis_env _ e' n
  end.

(** What the key holds after the calls [hs]: their instants as far as they
    are still in the window, and an expiry two windows after the last. *)
Record holds r rkey (hs : list Z) w : Prop := {
  h_zset : is_zset w rkey;
  h_sound : forall k s, zset_at w rkey !! k = Some s ->
    exists m, m ∈ hs /\ k = Itoa m /\ s = round53 m;
  h_complete : forall m, m ∈ hs -> in_window r (srv_now w + skew) m ->
    zset_at w rkey !! Itoa m = Some (round53 m);
  h_expire : forall t m, expire_of w rkey = Some t -> m ∈ hs ->
    m + r.(window) * 2 <= t + skew }.

Lemma updates_trans k e1 e2 w1 w2 w3 :
  updates k e1 w1 w2 -> updates k e2 w2 w3 -> updates k e2 w1 w3.
Proof.
  intros (Hn1 & _ & Ho1) (Hn2 & He2 & Ho2). split_and!; [congruence|done|].
  intros k' Hne. rewrite Ho2, Ho1; done.
Qed.

(** An updated key that holds a sorted set. *)
Lemma updates_zentry k z exp w w' :
  updates k (zentry z exp) w w' ->
  is_zset w' k /\ zset_at w' k = z /\
  (z <> ∅ -> srv_view w' k = Some (mkEntry (RZSet z) exp)).
Proof.
  intros (_ & He & _). unfold zentry in He. unfold is_zset, zset_at. rewrite He.
  case_decide as Hz; split_and!; try done.
  intros e [= <-]. by exists z.
Qed.

Definition kept r (now : Z) (z : gmap string Z) : gmap string Z :=
  filter (fun x => ~ in_scores (round53 0) (round53 (now - r.(window))) x) z.

(** The four commands: evict, record, count, extend. *)
Lemma pipeline_exec r rkey now w replies w' :
  sane r -> 0 <= now -> now < 2 ^ 63 -> is_zset w rkey ->
  run_cmds (pipeline r rkey now) w = (replies, w') ->
  let z := <[Itoa now := round53 now]> (kept r now (zset_at w rkey)) in
  nth 2 replies 0 = Z.of_nat (size z) /\
  updates rkey (Some (mkEntry (RZSet z) (Some (srv_now w + r.(window) * 2)))) w w'.
Proof.
  intros [Hw Hwhole Hdbl _] Hn0 Hn63 Hz Hrun z. unfold pipeline in Hrun.
  assert (Hstart : int64 (now - r.(window)) = now - r.(window)).
  { apply int64_small. unfold in_int64. lia. }
  rewrite Hstart, int64_small in Hrun by (unfold in_int64; lia).
  cbn [run_cmds run_cmd] in Hrun.
  pose proof (law_ZREMRANGEBYSCORE rkey 0 (now - r.(window)) w Hz) as H1.
  change (Itoa 0) with "0" in H1.
  specialize (H1 ltac:(unfold in_int64; lia) ltac:(unfold in_int64; lia)).
  destruct (srv_ZREMRANGEBYSCORE rkey "0" (Itoa (now - window r)) w) as [x1 w1]. cbn [snd] in H1.
  destruct (updates_zentry _ _ _ _ _ H1) as (Hz1 & Hat1 & _).
  pose proof (law_ZADD rkey (round53 now) (Itoa now) w1 Hz1) as H2. rewrite Hat1 in H2.
  destruct (srv_ZADD rkey (round53 now) (Itoa now) w1) as [x2 w2]. cbn [snd] in H2.
  destruct (updates_zentry _ _ _ _ _ H2) as (Hz2 & Hat2 & Hv2).
  assert (Hne : z <> ∅) by apply insert_non_empty.
  specialize (Hv2 Hne).
  pose proof (law_EXPIRE rkey (r.(window) * 2) w2) as H3.
  rewrite Hv2 in H3. cbn [r_val] in H3.
  assert (Hmod : (r.(window) * 2) mod Second = 0).
  { rewrite Z.mul_mod, Hwhole by done. done. }
  specialize (H3 ltac:(lia) Hmod). destruct H3 as [_ H3].
  destruct (srv_EXPIRE rkey (window r * 2) w2) as [x4 w4]. cbn [snd] in H3.
  injection Hrun as <- <-. cbn [nth]. split.
  - rewrite law_ZCARD by done. by rewrite Hat2.
  - pose proof (updates_trans _ _ _ _ _ _ (updates_trans _ _ _ _ _ _ H1 H2) H3) as Hu.
    destruct H1 as (Hn1 & _), H2 as (Hn2 & _). rewrite Hn2, Hn1 in Hu. exact Hu.
Qed.

(** Whatever the clock says, the commands change one key, which stays a sorted
    set. *)
Lemma pipeline_touches r rkey now w :
  sane r -> is_zset w rkey ->
  let w' := (run_cmds (pipeline r rkey now) w).2 in
  is_zset w' rkey /\ exists e, updates rkey e w w'.
Proof.
  intros [Hw Hwhole Hdbl _] Hz. unfold pipeline. cbn [run_cmds run_cmd].
  pose proof (law_ZREMRANGEBYSCORE rkey 0 (int64 (now - r.(window))) w Hz) as H1.
  change (Itoa 0) with "0" in H1.
  specialize (H1 ltac:(unfold in_int64; lia) ltac:(apply int64_range)).
  destruct (srv_ZREMRANGEBYSCORE rkey "0" _ w) as [x1 w1]. cbn [snd] in H1.
  destruct (updates_zentry _ _ _ _ _ H1) as (Hz1 & Hat1 & _).
  pose proof (law_ZADD rkey (round53 now) (Itoa now) w1 Hz1) as H2.
  destruct (srv_ZADD rkey (round53 now) (Itoa now) w1) as [x2 w2]. cbn [snd] in H2.
  destruct (updates_zentry _ _ _ _ _ H2) as (Hz2 & Hat2 & Hv2).
  specialize (Hv2 (insert_non_empty _ _ _)).
  rewrite (int64_small (r.(window) * 2)) by (unfold in_int64; lia).
  pose proof (law_EXPIRE rkey (r.(window) * 2) w2) as H3. rewrite Hv2 in H3. cbn [r_val] in H3.
  assert (Hmod : (r.(window) * 2) mod Second = 0) by (by rewrite Z.mul_mod, Hwhole).
  specialize (H3 ltac:(lia) Hmod). destruct H3 as [_ H3].
  destruct (srv_EXPIRE rkey (r.(window) * 2) w2) as [x4 w4]. cbn [snd] in *. split.
  - intros e. rewrite (proj1 (proj2 H3)). intros [= <-]. eexists. split; [done|].
    apply insert_non_empty.
  - eexists. eapply updates_trans; [eapply updates_trans; [exact H1|exact H2]|exact H3].
Qed.

(** The members kept by the eviction are the instants in the window. *)
Lemma kept_lookup r rkey hs w m :
  holds r rkey hs w -> past hs (srv_now w + skew) ->
  let now := srv_now w + skew in
  is_Some (kept r now (zset_at w rkey) !! Itoa m) <-> m ∈ hs /\ in_window r now m.
Proof.
  intros [_ Hs Hc _] Hpast now. subst now. unfold kept, in_window. split.
  - intros [s [Hl Hf]%map_lookup_filter_Some].
    destruct (Hs _ _ Hl) as (m' & Hin & Heq & ->). apply Itoa_inj in Heq as <-.
    split; [done|]. unfold in_scores in Hf. cbn [fst snd] in Hf.
    pose proof (round53_nonneg m (proj1 (Hpast m Hin))). change (round53 0) with 0 in Hf. lia.
  - intros [Hin Hw]. exists (round53 m). apply map_lookup_filter_Some.
    split; [by apply Hc|]. unfold in_scores. cbn [fst snd]. lia.
Qed.

Lemma size_recorded r rkey hs w :
  holds r rkey hs w -> past hs (srv_now w + skew) ->
  let now := srv_now w + skew in
  size (<[Itoa now := round53 now]> (kept r now (zset_at w rkey)))
  = length (counted r hs now).
Proof.
  intros Hh Hpast now. rewrite <- size_dom.
  assert (dom (<[Itoa now := round53 now]> (kept r now (zset_at w rkey)))
          = (list_to_set (Itoa <$> counted r hs now) : gset string)) as ->.
  { apply set_eq. intros k. rewrite elem_of_dom, elem_of_list_to_set, list_elem_of_fmap.
    rewrite lookup_insert_is_Some. unfold counted.
    setoid_rewrite elem_of_remove_dups. setoid_rewrite elem_of_cons.
    setoid_rewrite list_elem_of_filter. split.
    - intros [<-|[Hne [s Hk]]]; [by exists now; auto|].
      pose proof Hk as [Hl _]%map_lookup_filter_Some.
      destruct (h_sound _ _ _ _ Hh _ _ Hl) as (m & Hin & -> & ->).
      exists m. split; [done|]. right.
      destruct (kept_lookup r rkey hs w m Hh Hpast) as [Hkl _].
      destruct Hkl as [_ Hw]; [by exists (round53 m)|]. done.
    - intros (m & -> & [->|[Hw Hin]]); [by left|].
      destruct (decide (Itoa now = Itoa m)); [by left|]. right. split; [done|].
      by apply (kept_lookup r rkey hs w m Hh Hpast). }
  rewrite size_list_to_set; [by rewrite length_fmap|].
  apply NoDup_fmap_2; [intros ? ?; apply Itoa_inj|]. apply NoDup_remove_dups.
Qed.

(** One call, with the history extended. *)
Lemma holds_recorded r rkey hs w w' :
  sane r -> holds r rkey hs w -> past hs (srv_now w + skew) ->
  let now := srv_now w + skew in
  updates rkey (Some (mkEntry (RZSet (<[Itoa now := round53 now]>
    (kept r now (zset_at w rkey)))) (Some (srv_now w + r.(window) * 2)))) w w' ->
  holds r rkey (now :: hs) w'.
Proof.
  intros Hsane Hh Hpast now (Hnow & Hv & _). split.
  - intros e. rewrite Hv. intros [= <-]. eexists. split; [done|]. apply insert_non_empty.
  - intros k s. unfold zset_at. rewrite Hv. rewrite lookup_insert_Some.
    intros [[<- <-]|[_ Hk]]; [exists now; split; [left|done]|].
    apply map_lookup_filter_Some in Hk as [Hk _].
    destruct (h_sound _ _ _ _ Hh _ _ Hk) as (m & Hin & -> & ->).
    exists m. split; [by right|done].
  - intros m Hin Hw. rewrite Hnow in Hw. unfold zset_at. rewrite Hv.
    destruct (decide (m = now)) as [->|Hne]; [by rewrite lookup_insert_eq|].
    apply elem_of_cons in Hin as [?|Hin]; [done|].
    rewrite lookup_insert_ne by (intros Heq; by apply Itoa_inj in Heq).
    apply map_lookup_filter_Some. split; [by apply (h_complete _ _ _ _ Hh)|].
    unfold in_scores, now. cbn [fst snd]. unfold in_window in Hw. lia.
  - intros t m. unfold expire_of. rewrite Hv. cbn. intros [= <-] Hin.
    apply elem_of_cons in Hin as [->|Hin]; [lia|]. pose proof (Hpast m Hin). lia.
Qed.

Lemma holds_updates_other r rkey hs k e w w' :
  holds r rkey hs w -> updates k e w w' -> k <> rkey -> holds r rkey hs w'.
Proof.
  intros [H1 H2 H3 H4] (Hnow & _ & Hother) Hne. specialize (Hother rkey ltac:(done)).
  split; unfold is_zset, zset_at, expire_of in *; rewrite Hother, ?Hnow; done.
Qed.

(** Waiting: what expires is out of every later window. *)
Lemma holds_elapse r rkey hs d w :
  sane r -> 0 <= d -> holds r rkey hs w -> holds r rkey hs (srv_elapse d w).
Proof.
  intros Hsane Hd [H1 H2 H3 H4]. pose proof (law_elapse d w rkey Hd) as He.
  pose proof (law_elapse_now d w Hd) as Hn. pose proof (sane_window r Hsane) as Hw.
  assert (Hearlier : forall m, in_window r (srv_now w + d + skew) m ->
            in_window r (srv_now w + skew) m).
  { intros m. unfold in_window. intros Hm.
    eapply Z.le_lt_trans; [|exact Hm]. apply round53_mono. lia. }
  unfold is_zset, zset_at, expire_of in *.
  split; unfold is_zset, zset_at, expire_of; rewrite He, ?Hn;
    destruct (srv_view w rkey) as [[v [t|]]|] eqn:Hv; cbn [r_expire] in *;
    try (destruct (Z.ltb_spec (srv_now w + d) t)); eauto; try done.
  intros m Hin Hm. exfalso. specialize (H4 t m eq_refl Hin).
  unfold in_window in Hm.
  pose proof (round53_mono m (srv_now w + d + skew - window r)). lia.
Qed.

Definition holds_all r (hist : string -> list Z) w : Prop :=
  forall key, holds r (ratelimitKey key) (hist key) w /\ past (hist key) (srv_now w + skew).

Lemma ratelimitKey_inj k1 k2 : ratelimitKey k1 = ratelimitKey k2 -> k1 = k2.
Proof. unfold ratelimitKey. by intros ?; simplify_eq. Qed.

Lemma allow_step r ctx key hist w :
  sane r -> 0 <= srv_now w + skew < 2 ^ 63 -> holds_all r hist w ->
  let now := srv_now w + skew in
  exists tr w',
    run lim_env (limiter_Allow r ctx key) (mkNet w [])
      = (Ok (window_allows r (hist key) now), tr, mkNet w' []) /\
    srv_now w' = srv_now w /\ holds_all r (remember key now hist) w'.
Proof.
  intros Hsane Hnow Hall now. destruct (Hall key) as [Hh Hpast].
  assert (Hi : int64 now = now) by (apply int64_small; unfold in_int64; lia).
  destruct (run_cmds (pipeline r (ratelimitKey key) now) w) as [replies w'] eqn:Hrun.
  destruct (pipeline_exec r (ratelimitKey key) now w replies w') as [Hn Hu];
    [done|lia|lia|apply (h_zset _ _ _ _ Hh)|done|].
  exists [Ev (inj Now) now; Ev (inj (RTxPipeline ctx (pipeline r (ratelimitKey key) now))) (Ok replies)], w'.
  split_and!.
  - unfold limiter_Allow. cbn -[pipeline nth int64 run_cmds]. fold now. rewrite Hi, Hrun.
    cbn -[pipeline nth int64]. rewrite Hn.
    rewrite (int64_small r.(limit)) by apply (sane_limit r Hsane).
    unfold now. rewrite (size_recorded r (ratelimitKey key) (hist key) w Hh Hpast). done.
  - apply Hu.
  - intros k. destruct (Hall k) as [Hk Hpk]. pose proof (proj1 Hu) as Hn'.
    unfold remember. case_decide as Hkey.
    + subst k. split; [by apply (holds_recorded r _ _ w)|].
      rewrite Hn'. intros m [->|Hin]%elem_of_cons; [unfold now in *; lia|]. by apply Hpk.
    + split; [|by rewrite Hn']. eapply holds_updates_other; [done|exact Hu|].
      intros Heq. by apply ratelimitKey_inj in Heq.
Qed.

Lemma elapse_step r hist d w :
  sane r -> 0 <= d -> holds_all r hist w -> holds_all r hist (srv_elapse d w).
Proof.
  intros Hsane Hd Hall key. destruct (Hall key) as [Hh Hpast]. split.
  - by apply holds_elapse.
  - rewrite law_elapse_now by done. intros m Hin. pose proof (Hpast m Hin). lia.
Qed.

(** A run of calls: each waits, then calls [Allow] on a key. *)
Fixpoint run_calls r ctx (calls : list (Duration * string)) (n : net W)
  : list (goresult bool) :=
  match calls with
  | [] => []
  | (d, key) :: calls' =>
      let '(x, _, n') := run lim_env (limiter_Allow r ctx key) (net_elapse d n) in
      x :: run_calls r ctx calls' n'
  end.

(** The instants of the calls by the caller's clock. *)
Fixpoint instants (t : Z) (calls : list (Duration * string)) : list (string * Z) :=
  match calls with
  | [] => []
  | (d, key) :: calls' => (key, t + d) :: instants (t + d) calls'
  end.

Lemma run_calls_window r ctx calls hist w :
  sane r -> 0 <= srv_now w + skew -> Forall (fun c => 0 <= c.1) calls ->
  Forall (fun c => c.2 < 2 ^ 63) (instants (srv_now w + skew) calls) ->
  holds_all r hist w ->
  run_calls r ctx calls (mkNet w []) =
  map Ok (window_run r hist (instants (srv_now w + skew) calls)).
Proof.
  intros Hsane. revert hist w. induction calls as [|[d key] calls IH];
    intros hist w Hnow Hd Hlt Hall; [done|].
  apply Forall_cons in Hd as [Hd0 Hd]. cbn [fst] in Hd0.
  cbn [instants] in Hlt. apply Forall_cons in Hlt as [Hlt0 Hlt]. cbn [snd] in Hlt0.
  cbn [run_calls instants window_run map]. unfold net_elapse. cbn [server faults].
  pose proof (law_elapse_now d w Hd0) as Hn.
  destruct (allow_step r ctx key hist (srv_elapse d w)) as (tr & w' & Hrun & Hnow' & Hall');
    [done|lia|by apply elapse_step|].
  rewrite Hrun. rewrite Hn in *.
  replace (srv_now w + skew + d) with (srv_now w + d + skew) in * by lia. f_equal.
  assert (0 <= srv_now w' + skew) by lia.
  replace (srv_now w + d) with (srv_now w') in * by lia. by apply IH.
Qed.

Lemma holds_all_fresh r w :
  (forall key, srv_view w (ratelimitKey key) = None) -> holds_all r (fun _ => []) w.
Proof.
  intros Hfresh key. specialize (Hfresh key). split; [|by intros m ?%elem_of_nil].
  split; unfold is_zset, zset_at, expire_of; rewrite Hfresh; try done;
    intros m ?%elem_of_nil; done.
Qed.

(** C16: on a Redis that starts without counters, a run of
    [Allow] calls on any keys answers exactly as the sliding window does
    that counts, per key, the distinct instants of all earlier calls,
    refused or not; keys do not influence each other. *)
Theorem limiter_refines_window r ctx calls w :
  sane r -> 0 <= srv_now w + skew ->
  Forall (fun c => 0 <= c.1) calls ->
  Forall (fun c => c.2 < 2 ^ 63) (instants (srv_now w + skew) calls) ->
  (forall key, srv_view w (ratelimitKey key) = None) ->
  run_calls r ctx calls (mkNet w []) =
  map Ok (window_run r (fun _ => []) (instants (srv_now w + skew) calls)).
Proof.
  intros Hsane Hnow Hd Hlt Hfresh. apply run_calls_window; try done.
  by apply holds_all_fresh.
Qed.

Lemma instants_sorted t calls i j ki kj mi mj :
  Forall (fun c => 0 <= c.1) calls -> (j <= i)%nat ->
  instants t calls !! i = Some (ki, mi) -> instants t calls !! j = Some (kj, mj) ->
  t <= mj <= mi.
Proof.
  revert t i j ki kj mi mj.
  induction calls as [|[d k] calls IH]; intros t i j ki kj mi mj Hd Hji; [done|].
  apply Forall_cons in Hd as [Hd0 Hd]. cbn [fst] in Hd0. cbn [instants].
  destruct i as [|i], j as [|j]; cbn [lookup list_lookup]; intros Hi Hj; simplify_eq; [lia|lia| |].
  - pose proof (IH (t + d) i i _ _ _ _ Hd ltac:(lia) Hi Hi). lia.
  - pose proof (IH (t + d) i j _ _ _ _ Hd ltac:(lia) Hi Hj). lia.
Qed.

(** In a run of calls on a Redis that starts without
    counters, a call that is let through has at most [limit] distinct
    instants of calls on its key, its own included and whatever they were
    answered, in the window that ends with it (less the 1024 ns that float64
    scores may blur). *)
Theorem limiter_window_bound r ctx calls w i key n ms :
  sane r -> r.(window) <= srv_now w + skew ->
  Forall (fun c => 0 <= c.1) calls ->
  Forall (fun c => c.2 < 2 ^ 63) (instants (srv_now w + skew) calls) ->
  (forall key, srv_view w (ratelimitKey key) = None) ->
  instants (srv_now w + skew) calls !! i = Some (key, n) ->
  run_calls r ctx calls (mkNet w []) !! i = Some (Ok true) ->
  NoDup ms ->
  (forall m, m ∈ ms -> m = n \/ (n - r.(window) + 1024 < m /\
     exists j, (j < i)%nat /\ instants (srv_now w + skew) calls !! j = Some (key, m))) ->
  Z.of_nat (length ms) <= r.(limit).
Proof.
  intros Hsane Hnow Hd Hlt Hfresh Hi Hrun Hnd Hms. pose proof (sane_window r Hsane) as Hw.
  rewrite run_calls_window with (hist := fun _ => []) in Hrun; [|done|lia|done|done|].
  2:{ by apply holds_all_fresh. }
  rewrite list_lookup_fmap in Hrun. apply fmap_Some in Hrun as (b & Hb & [= <-]).
  apply window_run_lookup in Hb as (key' & n' & hs & Hi' & Hb & Hhs).
  rewrite Hi in Hi'. injection Hi' as <- <-.
  assert (Hn : srv_now w + skew <= n < 2 ^ 63).
  { pose proof (instants_sorted _ calls i i key key n n Hd ltac:(lia) Hi Hi).
    rewrite Forall_lookup in Hlt. specialize (Hlt i _ Hi). cbn in Hlt. lia. }
  eapply (proj1 (window_bound r hs n ltac:(lia) ltac:(lia) ltac:(lia) _)); [done|done|].
  - intros m Hm. destruct (Hms m Hm) as [->|(Hlo & j & Hj & Hjm)]; [by left|]. right.
    split; [|done]. apply Hhs. right. by exists j.
  Unshelve.
  intros m [Hm%elem_of_nil|(j & Hj & Hjm)]%Hhs; [done|].
  pose proof (instants_sorted _ calls i j key key n m Hd ltac:(lia) Hi Hjm). lia.
Qed.

(** C32: refused calls count: a caller that has made a call
    every [g] on a key, [limit] of them fitting in the window, is refused,
    whatever those calls were answered, and stays so while it keeps
    calling. *)
Theorem limiter_refused_calls_count r ctx calls w i key n g :
  sane r -> r.(window) <= srv_now w + skew -> 0 <= r.(limit) -> 0 < g ->
  r.(limit) * g + 1024 < r.(window) ->
  Forall (fun c => 0 <= c.1) calls ->
  Forall (fun c => c.2 < 2 ^ 63) (instants (srv_now w + skew) calls) ->
  (forall key, srv_view w (ratelimitKey key) = None) ->
  instants (srv_now w + skew) calls !! i = Some (key, n) ->
  (forall k, 1 <= k <= r.(limit) -> exists j, (j < i)%nat /\
     instants (srv_now w + skew) calls !! j = Some (key, n - k * g)) ->
  run_calls r ctx calls (mkNet w []) !! i = Some (Ok false).
Proof.
  intros Hsane Hnow Hl Hg Hfit Hd Hlt Hfresh Hi Hprev. pose proof (sane_window r Hsane) as Hw.
  rewrite run_calls_window with (hist := fun _ => []); [|done|lia|done|done|].
  2:{ by apply holds_all_fresh. }
  rewrite list_lookup_fmap.
  destruct (window_run r (fun _ => []) (instants (srv_now w + skew) calls) !! i) as [b|] eqn:Hb.
  2:{ apply lookup_ge_None in Hb. apply lookup_lt_Some in Hi.
      rewrite window_run_length in Hb. lia. }
  cbn. do 2 f_equal. apply window_run_lookup in Hb as (key' & n' & hs & Hi' & -> & Hhs).
  rewrite Hi in Hi'. injection Hi' as <- <-.
  assert (Hn : srv_now w + skew <= n < 2 ^ 63).
  { pose proof (instants_sorted _ calls i i key key n n Hd ltac:(lia) Hi Hi).
    rewrite Forall_lookup in Hlt. specialize (Hlt i _ Hi). cbn in Hlt. lia. }
  apply (window_refuses r hs n g); try lia.
  intros k Hk. apply Hhs. right. by apply Hprev.
Qed.
End Server.

(** ** Concrete runs *)

(** Two calls per minute. *)
Definition demo_limiter : slidingWindowLimiter := NewRateLimiter 2 (60 * Second).
Definition demo_now : Time := 1700000000 * Second.
Definition mem_2023 : mem := mkMem demo_now ∅.

Lemma demo_limiter_sane : sane demo_limiter.
Proof. split; [done|by vm_compute|done|]. by vm_compute. Qed.

(** Calls 10 s apart on one key with one on another in between, then a wait. *)
Definition demo_calls : list (Duration * string) :=
  [(0, "email"); (10 * Second, "email"); (0, "webhook"); (10 * Second, "email");
   (55 * Second, "email"); (200 * Second, "email")].

Example demo_calls_answers :
  window_run demo_limiter (fun _ => []) (instants demo_now demo_calls)
  = [true; true; true; false; true; true].
Proof. vm_compute. reflexivity. Qed.

Lemma limiter_refines_window_witness :
  run_calls 0 demo_limiter CtxRun demo_calls (mkNet mem_2023 []) =
  map Ok (window_run demo_limiter (fun _ => []) (instants (srv_now mem_2023 + 0) demo_calls)).
Proof.
  apply (limiter_refines_window 0 demo_limiter CtxRun demo_calls mem_2023).
  - exact demo_limiter_sane.
  - discriminate.
  - repeat constructor; discriminate.
  - repeat constructor.
  - intros key. reflexivity.
Defined.

Lemma mem_2023_fresh key : srv_view mem_2023 (ratelimitKey key) = None.
Proof. reflexivity. Qed.

Lemma demo_calls_early :
  Forall (fun c => c.2 < 2 ^ 63) (instants (srv_now mem_2023 + 0) demo_calls).
Proof. repeat constructor. Qed.

Lemma demo_calls_later : Forall (fun c => 0 <= c.1) demo_calls.
Proof. repeat constructor; discriminate. Qed.

Lemma limiter_window_bound_witness :
  Z.of_nat (length [demo_now + 10 * Second; demo_now]) <= demo_limiter.(limit).
Proof.
  refine (limiter_window_bound 0 demo_limiter CtxRun demo_calls mem_2023 1 "email"
    (demo_now + 10 * Second) [demo_now + 10 * Second; demo_now]
    demo_limiter_sane _ demo_calls_later demo_calls_early mem_2023_fresh _ _ _ _).
  - discriminate.
  - vm_compute. reflexivity.
  - vm_compute. reflexivity.
  - apply NoDup_cons_2; [|apply NoDup_singleton].
    intros Hin%list_elem_of_singleton. discriminate Hin.
  - intros m [->|Hm%list_elem_of_singleton]%elem_of_cons; [left; reflexivity|]. subst m.
    right. split; [reflexivity|]. exists 0%nat. split; [constructor|vm_compute; reflexivity].
Defined.

Lemma limiter_refused_calls_count_witness :
  run_calls 0 demo_limiter CtxRun demo_calls (mkNet mem_2023 []) !! 3%nat = Some (Ok false).
Proof.
  refine (limiter_refused_calls_count 0 demo_limiter CtxRun demo_calls mem_2023 3 "email"
    (demo_now + 20 * Second) (10 * Second)
    demo_limiter_sane _ _ _ _ demo_calls_later demo_calls_early mem_2023_fresh _ _).
  - discriminate.
  - discriminate.
  - reflexivity.
  - reflexivity.
  - vm_compute. reflexivity.
  - intros k Hk. cbn in Hk. assert (k = 1 \/ k = 2) as [-> | ->] by lia.
    + exists 1%nat. split; [lia|vm_compute; reflexivity].
    + exists 0%nat. split; [lia|vm_compute; reflexivity].
Defined.
