(* ===== verification/Postgres.v ===== *)
(** * PostgreSQL: internal/postgres

    The repository (repository.go) over the pgx client, and what its SQL
    statements do to the tables the migrations create.  The server's types
    are a parameter ([PgTypes]): how it reads a UUID, a JSON document, a
    timestamp; the statements and the constraints of the schema are written
    out. *)

From S2P Require Import Prelude Prog GoStrings Domain GoFloat Effects Redis Fakes.

(** ** Rows (migrations/001_create_tasks.sql, 002_create_executions.sql) *)

Record task_row := mkTaskRow {
  t_id : string;
  t_type : string;
  t_payload : string;
  t_status : string;
  t_priority : Z;
  t_attempts : Z;
  t_max_retries : Z;
  t_created_at : Time;
  t_updated_at : Time;
  t_scheduled_at : option Time;
  t_completed_at : option Time }.

Record exec_row := mkExecRow {
  x_id : string;
  x_task_id : string;
  x_worker_id : string;
  x_attempt : Z;
  x_status : string;
  x_duration_ms : Z;
  x_error : string;
  x_executed_at : Time }.

Record db := mkDb {
  tasks : gmap string task_row;
  task_executions : gmap string exec_row }.

(** How the server reads what the client sends. [None]: the value is refused. *)
Class PgTypes := {
  pg_uuid : string -> option string;          (* text to UUID, in canonical form *)
  pg_jsonb : option string -> option string;  (* a document, normalised; NULL is refused *)
  pg_text : string -> bool;                   (* is text in the server's encoding, without NUL *)
  pg_varchar : Z -> string -> bool;           (* is such text and fits the length *)
  pg_time_ok : Time -> bool;                  (* is within the range of TIMESTAMPTZ *)
  pg_time : Time -> Time }.                   (* to microseconds *)

Definition pg_int4 (z : Z) : bool := in_range (- 2 ^ 31) (2 ^ 31 - 1) z.

(** ** The client: the statements of repository.go *)

Inductive stmt : Type :=
| InsertTask (id type : string) (payload : option string) (status : string)
    (priority attempts max_retries : Z) (created updated : Time) (scheduled : option Time)
| UpdateTask (status : string) (updated : Time) (completed : option Time) (id : string)
| InsertExecution (id task_id worker_id : string) (attempt : Z) (status : string)
    (duration_ms : Z) (err : string) (executed : Time).

Inductive PgE : Type -> Type :=
| PgExec (ctx : Ctx) (q : stmt) : PgE (option error)
| PgTaskById (ctx : Ctx) (id : string) : PgE (goresult task_row)      (* QueryRow, Scan *)
| PgTasksByStatus (ctx : Ctx) (status : string) (limit : Z)
    : PgE (goresult (list (goresult task_row) * option error)).
    (* Query; what each row scans to; rows.Err() *)

Inductive RepoImplE : Type -> Type :=
| RepoSys {X} (e : SysE X) : RepoImplE X
| RepoPg {X} (e : PgE X) : RepoImplE X.
#[export] Instance SubE_RepoSys : SubE SysE RepoImplE := @RepoSys.
#[export] Instance SubE_RepoPg : SubE PgE RepoImplE := @RepoPg.

(** ** The repository *)

(** [scanTask] (repository.go:139-157) *)
Definition scanTask (row : goresult task_row) : goresult Task.t :=
  match row with
  | Err err =>
      if errors_Is err PgxErrNoRows then Err (TaskNotFoundError "unknown")
      else Err (ErrWrap "scan task" err)
  | Ok r =>
      Ok (Task.mk r.(t_id) r.(t_type) (Some r.(t_payload)) r.(t_status) r.(t_priority)
            r.(t_attempts) r.(t_max_retries) r.(t_created_at) r.(t_updated_at)
            r.(t_scheduled_at) r.(t_completed_at))
  end.

(** repository.go:45-60 *)
Definition repository_Create (ctx : Ctx) (task : Task.t) : prog RepoImplE (option error) :=
  err ← trigger (PgExec ctx (InsertTask task.(Task.ID) task.(Task.Type_) task.(Task.Payload)
          task.(Task.Status_) task.(Task.Priority) task.(Task.Attempts) task.(Task.MaxRetries)
          task.(Task.CreatedAt) task.(Task.UpdatedAt) task.(Task.ScheduledAt)));
  match err with
  | Some err => mret (Some (ErrWrap ("create task " +:+ task.(Task.ID)) err))
  | None => mret None
  end.

(** repository.go:62-78 *)
Definition repository_UpdateStatus (ctx : Ctx) (id : string) (status : Status)
  : prog RepoImplE (option error) :=
  now ← trigger Now;
  let completedAt := if IsTerminal status then Some now else None in
  err ← trigger (PgExec ctx (UpdateTask status now completedAt id));
  match err with
  | Some err => mret (Some (ErrWrap ("update status for task " +:+ id) err))
  | None => mret None
  end.

(** repository.go:80-100. The defaults are written back to [exec], which the
    callers do not use again. *)
Definition repository_RecordExecution (ctx : Ctx) (exec : TaskExecution.t)
  : prog RepoImplE (option error) :=
  id ← (if String.eqb exec.(TaskExecution.ID) "" then trigger NewUUID
        else mret exec.(TaskExecution.ID));
  executedAt ← (if IsZero exec.(TaskExecution.ExecutedAt) then trigger Now
                else mret exec.(TaskExecution.ExecutedAt));
  err ← trigger (PgExec ctx (InsertExecution id exec.(TaskExecution.TaskID)
          exec.(TaskExecution.WorkerID) exec.(TaskExecution.Attempt)
          exec.(TaskExecution.Status_) exec.(TaskExecution.DurationMs)
          exec.(TaskExecution.Error) executedAt));
  match err with
  | Some err =>
      mret (Some (ErrWrap ("record execution for task " +:+ exec.(TaskExecution.TaskID)) err))
  | None => mret None
  end.

(** repository.go:102-111 *)
Definition repository_GetByID (ctx : Ctx) (id : string) : prog RepoImplE (goresult Task.t) :=
  row ← trigger (PgTaskById ctx id);
  mret (scanTask row).

(** The loop over the rows (repository.go:127-135). *)
Fixpoint scan_rows (rows : list (goresult task_row)) (rows_err : option error)
    (acc : list Task.t) : list Task.t * option error :=
  match rows with
  | [] => (acc, rows_err)
  | row :: rows' =>
      match scanTask row with
      | Err err => ([], Some err)
      | Ok task => scan_rows rows' rows_err (acc ++ [task])
      end
  end.

(** repository.go:113-136 *)
Definition repository_ListByStatus (ctx : Ctx) (status : Status) (limit : Z)
  : prog RepoImplE (list Task.t * option error) :=
  res ← trigger (PgTasksByStatus ctx status limit);
  match res with
  | Err err => mret ([], Some (ErrWrap ("list tasks by status " +:+ status) err))
  | Ok (rows, rows_err) => mret (scan_rows rows rows_err [])
  end.

(** The method table of [*repository]. *)
Definition repository : forall X, RepoE X -> prog RepoImplE X := fun X e =>
  match e with
  | Create ctx t => repository_Create ctx t
  | UpdateStatus ctx id s => repository_UpdateStatus ctx id s
  | RecordExecution ctx x => repository_RecordExecution ctx x
  | GetByID ctx id => repository_GetByID ctx id
  | ListByStatus ctx s n => repository_ListByStatus ctx s n
  end.

(** ** What the statements do *)

Section Sql.
Context `{PgTypes}.

Definition opt_time (t : option Time) : option Time := option_map pg_time t.
Definition opt_time_ok (t : option Time) : bool := default true (option_map pg_time_ok t).

(** One statement: the new tables, or the constraint that refuses it.  The
    times of an update are those of the host's clock, which is taken to be
    within the range of the type. *)
Definition exec_stmt (q : stmt) (d : db) : result error db :=
  match q with
  | InsertTask id ty payload status priority attempts max_retries created updated scheduled =>
      match pg_uuid id, pg_jsonb payload with
      | Some u, Some doc =>
          if pg_varchar 100 ty && pg_varchar 50 status &&
             pg_int4 priority && pg_int4 attempts && pg_int4 max_retries &&
             pg_time_ok created && pg_time_ok updated && opt_time_ok scheduled then
            match d.(tasks) !! u with
            | Some _ => Err (ErrNew "tasks_pkey")
            | None =>
                Ok (mkDb (<[u := mkTaskRow u ty doc status priority attempts max_retries
                             (pg_time created) (pg_time updated) (opt_time scheduled) None]>
                             d.(tasks)) d.(task_executions))
            end
          else Err (ErrNew "value out of range")
      | _, _ => Err (ErrNew "invalid input syntax")
      end
  | UpdateTask status updated completed id =>
      match pg_uuid id with
      | None => Err (ErrNew "invalid input syntax")
      | Some u =>
          if pg_varchar 50 status then
            match d.(tasks) !! u with
            | None => Ok d                        (* UPDATE 0 *)
            | Some r =>
                Ok (mkDb (<[u := mkTaskRow u r.(t_type) r.(t_payload) status r.(t_priority)
                             r.(t_attempts) r.(t_max_retries) r.(t_created_at)
                             (pg_time updated) r.(t_scheduled_at) (opt_time completed)]>
                             d.(tasks)) d.(task_executions))
            end
          else Err (ErrNew "value too long")
      end
  | InsertExecution id task_id worker_id attempt status duration_ms err executed =>
      match pg_uuid id, pg_uuid task_id with
      | Some u, Some tu =>
          if pg_varchar 100 worker_id && pg_varchar 50 status &&
             pg_int4 attempt && pg_int4 duration_ms && pg_text err && pg_time_ok executed then
            match d.(task_executions) !! u, d.(tasks) !! tu with
            | Some _, _ => Err (ErrNew "task_executions_pkey")
            | None, None => Err (ErrNew "task_executions_task_id_fkey")
            | None, Some _ =>
                Ok (mkDb d.(tasks)
                      (<[u := mkExecRow u tu worker_id attempt status duration_ms err
                           (pg_time executed)]> d.(task_executions)))
            end
          else Err (ErrNew "value out of range")
      | _, _ => Err (ErrNew "invalid input syntax")
      end
  end.

(** SELECT ... WHERE id = $1 *)
Definition select_task (id : string) (d : db) : goresult task_row :=
  match pg_uuid id with
  | None => Err (ErrNew "invalid input syntax")
  | Some u => match d.(tasks) !! u with
              | Some r => Ok r
              | None => Err PgxErrNoRows
              end
  end.
End Sql.

(** The database and the clock and identifiers of the host, behind a network
    that may lose requests and replies. [rows_by_status] is the order the
    server returns the rows of a status in. *)
Record pg_net := mkPgNet {
  pg_db : db;
  pg_faults : list fault;
  pg_clock : Time;
  pg_ids : list string }.

Section PgEnv.
Context `{PgTypes}.
Variable rows_by_status : db -> string -> Z -> list task_row.

Definition pop_fault (n : pg_net) : fault * pg_net :=
  match n.(pg_faults) with
  | [] => (Delivered, n)
  | f :: fs => (f, mkPgNet n.(pg_db) fs n.(pg_clock) n.(pg_ids))
  end.

Definition with_db (d : db) (n : pg_net) : pg_net :=
  mkPgNet d n.(pg_faults) n.(pg_clock) n.(pg_ids).

Definition stmt_world (q : stmt) (d : db) : db :=
  match exec_stmt q d with Ok d' => d' | Err _ => d end.

Definition pg_exec (q : stmt) (n : pg_net) : option error * pg_net :=
  let '(f, n) := pop_fault n in
  match f with
  | Delivered => (match exec_stmt q n.(pg_db) with Ok _ => None | Err e => Some e end,
                  with_db (stmt_world q n.(pg_db)) n)
  | RequestLost e => (Some e, n)
  | ReplyLost e => (Some e, with_db (stmt_world q n.(pg_db)) n)
  end.

Definition pg_read {A} (x : goresult A) (n : pg_net) : goresult A * pg_net :=
  let '(f, n) := pop_fault n in
  match f with
  | Delivered => (x, n)
  | RequestLost e | ReplyLost e => (Err e, n)
  end.

Definition repo_env : handler RepoImplE pg_net := fun X e =>
  match e in RepoImplE X return pg_net -> X * pg_net with
  | RepoSys e' =>
      match e' in SysE X return pg_net -> X * pg_net with
      | Now => fun n => (n.(pg_clock), n)
      | Since t => fun n => (Sub n.(pg_clock) t, n)
      | NewUUID => fun n => match n.(pg_ids) with
                            | [] => ("", n)
                            | u :: us => (u, mkPgNet n.(pg_db) n.(pg_faults) n.(pg_clock) us)
                            end
      | SelectAfter _ _ => fun n => (None, n)
      end
  | RepoPg e' =>
      match e' in PgE X return pg_net -> X * pg_net with
      | PgExec _ q => pg_exec q
      | PgTaskById _ id => fun n => pg_read (select_task id n.(pg_db)) n
      | PgTasksByStatus _ s lim => fun n =>
          pg_read (Ok (map Ok (rows_by_status n.(pg_db) s lim), None)) n
      end
  end.
End PgEnv.

(** ** Properties *)

(** Connection errors are neither of the sentinels nor the not-found error. *)
Definition pg_fault_ok (f : fault) : Prop :=
  match f with
  | Delivered => True
  | RequestLost e | ReplyLost e => errors_Is e PgxErrNoRows = false /\ errors_As_TaskNotFound e = None
  end.

(** Tasks and executions are filed under their IDs, a task has a completion
    time exactly when its status is terminal, and every execution belongs to a
    task. *)
Record db_ok (d : db) : Prop := {
  ok_id : forall u r, d.(tasks) !! u = Some r -> r.(t_id) = u;
  ok_completed : forall u r, d.(tasks) !! u = Some r ->
    is_Some r.(t_completed_at) <-> IsTerminal r.(t_status) = true;
  ok_exec_id : forall u x, d.(task_executions) !! u = Some x -> x.(x_id) = u;
  ok_exec_task : forall u x, d.(task_executions) !! u = Some x ->
    is_Some (d.(tasks) !! x.(x_task_id)) }.

(** Tasks are created open, as the gateway does. *)
Definition creates_open {X} (e : RepoE X) : Prop :=
  match e with
  | Create _ t => IsTerminal t.(Task.Status_) = false
  | _ => True
  end.
Fixpoint all_creates_open {A} (p : prog RepoE A) : Prop :=
  match p with
  | Ret _ => True
  | Vis e k => creates_open e /\ forall x, all_creates_open (k x)
  end.

Section Properties.
Context `{PgTypes}.
Variable rows_by_status : db -> string -> Z -> list task_row.
Abbreviation env := (repo_env rows_by_status).

(** Statements the repository issues. *)
Definition stmt_ok (q : stmt) : Prop :=
  match q with
  | InsertTask _ _ _ status _ _ _ _ _ _ => IsTerminal status = false
  | UpdateTask status _ completed _ => is_Some completed <-> IsTerminal status = true
  | InsertExecution _ _ _ _ _ _ _ _ => True
  end.

Lemma opt_time_some t : is_Some (opt_time t) <-> is_Some t.
Proof. destruct t; split; intros [? [=]]; eauto. Qed.

Lemma stmt_world_ok q d : stmt_ok q -> db_ok d -> db_ok (stmt_world q d).
Proof.
  intros Hq Hok. pose proof Hok as [H1 H2 H3 H4].
  unfold stmt_world. destruct (exec_stmt q d) as [d'|e] eqn:He; [|done].
  destruct q; cbn in He, Hq; repeat (case_match; simplify_eq); try done; split; cbn;
    intros u x; rewrite ?lookup_insert_Some; intros Hl; destr_hyps;
    try (destruct Hl as [[<- <-]|[_ Hl]]); cbn; eauto; try done.
  - split; [by intros []|]. by rewrite Hq.
  - destruct (decide (s = x_task_id x)) as [->|]; [by rewrite lookup_insert_eq|].
    rewrite lookup_insert_ne by done. eauto.
  - by rewrite opt_time_some.
  - destruct (decide (s = x_task_id x)) as [->|]; [by rewrite lookup_insert_eq|].
    rewrite lookup_insert_ne by done. eauto.
Qed.

Lemma pg_exec_db_ok q n :
  stmt_ok q -> db_ok n.(pg_db) -> db_ok (pg_exec q n).2.(pg_db).
Proof.
  intros Hq Hok. unfold pg_exec, pop_fault. pose proof (stmt_world_ok q _ Hq Hok).
  by destruct (pg_faults n) as [|[] ?].
Qed.

Ltac run_one := unfold run_result, run_world, trigger; cbn -[pg_exec exec_stmt errors_Is].

(** One operation keeps the invariant. *)
Lemma op_db_ok {X} (e : RepoE X) n :
  creates_open e -> db_ok n.(pg_db) -> db_ok (run_world env (repository X e) n).(pg_db).
Proof.
  intros Ho Hok. destruct e as [ctx t|ctx id s|ctx x|ctx id|ctx s lim]; cbn [repository].
  - run_one. match goal with |- context [pg_exec ?q n] =>
      pose proof (pg_exec_db_ok q n Ho Hok) as Hd; destruct (pg_exec q n) as [r n'] end.
    by destruct r.
  - run_one. match goal with |- context [pg_exec ?q n] =>
      assert (stmt_ok q) as Hq; [|pose proof (pg_exec_db_ok q n Hq Hok) as Hd;
      destruct (pg_exec q n) as [r n']; by destruct r] end.
    cbn. destruct (IsTerminal s); split; try done; eauto.
  - unfold repository_RecordExecution, run_world.
    assert (Hsys : forall (p q : prog RepoImplE string) (b : bool),
      (forall m, (run env p m).2.(pg_db) = m.(pg_db)) ->
      (forall m, (run env q m).2.(pg_db) = m.(pg_db)) ->
      forall m, (run env (if b then p else q) m).2.(pg_db) = m.(pg_db)) by (by intros ?? []).
    rewrite run_bind.
    pose proof (Hsys (trigger NewUUID) (mret x.(TaskExecution.ID))
      (String.eqb x.(TaskExecution.ID) "")) as Hid.
    specialize (Hid ltac:(intros m; cbn; by destruct (pg_ids m)) ltac:(done) n).
    destruct (run env _ n) as [[id t1] n1]. cbn [fst snd] in Hid. clear Hsys.
    rewrite run_bind.
    assert (Hat : (run env (if IsZero x.(TaskExecution.ExecutedAt) then trigger Now
      else mret x.(TaskExecution.ExecutedAt)) n1).2.(pg_db) = n1.(pg_db))
      by (by destruct (IsZero _)).
    destruct (run env _ n1) as [[at_ t2] n2]. cbn [fst snd] in Hat.
    run_one. match goal with |- context [pg_exec ?q n2] =>
      pose proof (pg_exec_db_ok q n2 I) as Hd; destruct (pg_exec q n2) as [r n'] end.
    rewrite Hat, Hid in Hd. specialize (Hd Hok). by destruct r.
  - run_one. unfold pg_read, pop_fault. by destruct (pg_faults n) as [|[] ?].
  - run_one. unfold pg_read, pop_fault. by destruct (pg_faults n) as [|[] ?].
Qed.

(** C21: a program over the repository that creates tasks only in statuses
    that are not terminal, as both submissions of the gateway do
    ([submissions_create_open], Archive.v), keeps the integrity of the tables,
    whatever requests and replies the network loses: a task has a completion
    time exactly when its status is terminal, and every execution record
    belongs to a stored task. *)
Theorem repository_keeps_integrity {A} (p : prog RepoE A) n :
  all_creates_open p -> db_ok n.(pg_db) ->
  db_ok (run_world env (interp repository p) n).(pg_db).
Proof.
  revert n. induction p as [r|X e k IH]; intros n Ho Hok; [done|].
  destruct Ho as [Ho Hk]. pose proof (op_db_ok e n Ho Hok) as Hok1.
  unfold run_world in *. cbn [interp]. rewrite run_bind.
  destruct (run env (repository X e) n) as [[x t1] n1]. cbn [fst snd] in *.
  specialize (IH x n1 (Hk x) Hok1).
  by destruct (run env (interp repository (k x)) n1) as [[r t2] n2].
Qed.

(** The task the tables hold for a task that was created. *)
Definition stored (u doc : string) (t : Task.t) : Task.t :=
  Task.mk u t.(Task.Type_) (Some doc) t.(Task.Status_) t.(Task.Priority) t.(Task.Attempts)
    t.(Task.MaxRetries) (pg_time t.(Task.CreatedAt)) (pg_time t.(Task.UpdatedAt))
    (opt_time t.(Task.ScheduledAt)) None.

(** A task whose [Create] succeeds is read back by
    [GetByID], with its ID and its payload in the server's normal form, its
    times cut to microseconds and no completion time. *)
Theorem Create_GetByID ctx ctx' t d clock ids :
  let created := run env (repository_Create ctx t) (mkPgNet d [] clock ids) in
  created.1.1 = None ->
  exists u doc, pg_uuid t.(Task.ID) = Some u /\ pg_jsonb t.(Task.Payload) = Some doc /\
    d.(tasks) !! u = None /\
    run_result env (repository_GetByID ctx' t.(Task.ID)) created.2 = Ok (stored u doc t).
Proof.
  unfold repository_Create, repository_GetByID. run_one.
  unfold pg_exec, pop_fault. cbn -[exec_stmt errors_Is]. unfold stmt_world.
  match goal with |- context [exec_stmt ?q d] => destruct (exec_stmt q d) as [d'|e] eqn:He end;
    cbn -[errors_Is]; intros Hc; [|done]. clear Hc.
  cbn in He. repeat (case_match; simplify_eq).
  eexists _, _. split_and!; try done.
  unfold select_task. cbn -[errors_Is].
  match goal with Hu : pg_uuid _ = Some _ |- _ => rewrite Hu end.
  by rewrite lookup_insert_eq.
Qed.

(** What a row scans to, when the statement ran and when it failed. *)
Lemma scan_delivered id d e :
  scanTask (select_task id d) = Err e -> errors_As_TaskNotFound e <> None ->
  e = TaskNotFoundError "unknown" /\ exists u, pg_uuid id = Some u /\ d.(tasks) !! u = None.
Proof.
  unfold select_task. destruct (pg_uuid id) as [u|] eqn:Hu; cbn; [|by intros [= <-]].
  destruct (tasks d !! u) as [r|] eqn:Hr; cbn; [done|]. intros [= <-] _. eauto.
Qed.

Lemma scan_failed e e' :
  pg_fault_ok (RequestLost e) -> scanTask (Err e) = Err e' ->
  errors_As_TaskNotFound e' = None.
Proof. intros [Hn Ha]. unfold scanTask. rewrite Hn. by intros [= <-]. Qed.

(** [GetByID] says "not found" exactly when the request got
    through, the ID is a UUID and there is no such row; it names the task
    "unknown". An ID that is not a UUID, like a lost connection, is another
    error. *)
Theorem GetByID_not_found ctx id n :
  Forall pg_fault_ok n.(pg_faults) ->
  let r := run_result env (repository_GetByID ctx id) n in
  ((exists e, r = Err e /\ errors_As_TaskNotFound e <> None) <->
   match n.(pg_faults) with [] => True | f :: _ => f = Delivered end /\
   exists u, pg_uuid id = Some u /\ n.(pg_db).(tasks) !! u = None) /\
  (forall e, r = Err e -> errors_As_TaskNotFound e <> None ->
   e = TaskNotFoundError "unknown").
Proof.
  intros Hf. unfold repository_GetByID. run_one. unfold pg_read, pop_fault.
  destruct n as [d fs clock ids]. cbn [pg_faults pg_db] in *.
  assert (Hmiss : forall u, pg_uuid id = Some u -> d.(tasks) !! u = None ->
    scanTask (select_task id d) = Err (TaskNotFoundError "unknown")).
  { intros u Hu Hn. unfold select_task. by rewrite Hu, Hn. }
  destruct fs as [|f fs]; [|apply Forall_cons in Hf as [Hf _]; destruct f as [|e|e]];
    cbn [fst snd pg_db] in *.
  1,2: split; [split|]; [intros (e & He & Hne); split; [done|by eapply scan_delivered]
    |intros (_ & u & Hu & Hn); rewrite (Hmiss u Hu Hn); by eexists
    |intros e He Hne; by eapply scan_delivered].
  all: split; [split|]; [intros (e' & He & []); by eapply scan_failed|by intros [? _]
    |intros e' He []; by eapply scan_failed].
Qed.

(** The execution of a task without a row in [tasks] is
    refused by the foreign key, whatever the network does, and leaves no
    trace; updating the status of such a task succeeds and does nothing. *)
Theorem orphan_execution_refused ctx x id s u n :
  pg_uuid x.(TaskExecution.TaskID) = Some u -> n.(pg_db).(tasks) !! u = None ->
  (run_result env (repository_RecordExecution ctx x) n <> None /\
   (run_world env (repository_RecordExecution ctx x) n).(pg_db) = n.(pg_db)) /\
  (pg_uuid id = Some u -> pg_varchar 50 s = true -> n.(pg_faults) = [] ->
   run_result env (repository_UpdateStatus ctx id s) n = None /\
   (run_world env (repository_UpdateStatus ctx id s) n).(pg_db) = n.(pg_db)).
Proof.
  intros Htu Hno. split.
  - assert (Hins : forall i a m, m.(pg_db) = n.(pg_db) ->
      exists e, (pg_exec (InsertExecution i x.(TaskExecution.TaskID) x.(TaskExecution.WorkerID)
        x.(TaskExecution.Attempt) x.(TaskExecution.Status_) x.(TaskExecution.DurationMs)
        x.(TaskExecution.Error) a) m).1 = Some e /\
        (pg_exec (InsertExecution i x.(TaskExecution.TaskID) x.(TaskExecution.WorkerID)
        x.(TaskExecution.Attempt) x.(TaskExecution.Status_) x.(TaskExecution.DurationMs)
        x.(TaskExecution.Error) a) m).2.(pg_db) = n.(pg_db)).
    { intros i a m Hm. unfold pg_exec, pop_fault, stmt_world.
      assert (exists e, exec_stmt (InsertExecution i x.(TaskExecution.TaskID)
        x.(TaskExecution.WorkerID) x.(TaskExecution.Attempt) x.(TaskExecution.Status_)
        x.(TaskExecution.DurationMs) x.(TaskExecution.Error) a) m.(pg_db) = Err e) as [e He].
      { cbn. rewrite Htu, Hm, Hno. repeat case_match; eauto. }
      destruct (pg_faults m) as [|[] ?]; cbn [pg_db fst snd with_db]; rewrite ?He; eauto. }
    unfold repository_RecordExecution, run_result, run_world.
    destruct (String.eqb _ _), (IsZero _); cbn -[pg_exec];
      try (destruct (pg_ids n) as [|i0 ids0]; cbn -[pg_exec]);
      match goal with |- context [pg_exec (InsertExecution ?i _ _ _ _ _ _ ?a) ?m] =>
        destruct (Hins i a m eq_refl) as (e & He1 & He2);
        destruct (pg_exec _ m) as [r n']; cbn [fst snd] in *; subst r; cbn; split; done end.
  - intros Hid Hs Hf. unfold repository_UpdateStatus. run_one.
    unfold pg_exec, pop_fault, stmt_world. rewrite Hf. cbn. rewrite Hid, Hs, Hno. done.
Qed.
End Properties.

(** ** Concrete runs *)

(** A server for the examples: any non-empty text is an ID and any document is
    in normal form. *)
#[export] Instance demo_pg : PgTypes := {|
  pg_uuid s := if String.eqb s "" then None else Some s;
  pg_jsonb p := p;
  pg_text s := ValidString s && string_forallb (fun c => negb (Ascii.eqb c "000")) s;
  pg_varchar n s := Z.of_nat (String.length s) <=? n;
  pg_time_ok t := in_range (- 210866803200 * Second) (9224318016000 * Second) t;
  pg_time t := t / 1000 * 1000 |}.

Definition demo_rows (d : db) (s : string) (lim : Z) : list task_row := [].
Definition empty_pg : pg_net := mkPgNet (mkDb ∅ ∅) [] (1700000000 * Second) ["exec-1"].

Lemma empty_pg_ok : db_ok empty_pg.(pg_db).
Proof. by split. Qed.

Definition demo_exec : TaskExecution.t :=
  TaskExecution.mk "" "task-1" "worker-1" 1 StatusDone 1000 "" 0.

(** Create, finish and record the demo task. *)
Definition demo_repo_prog : prog RepoE (option error) :=
  _ ← trigger (Create CtxRun demo_task);
  _ ← trigger (RecordExecution CtxRun demo_exec);
  trigger (UpdateStatus CtxRun "task-1" StatusDone).

Lemma repository_keeps_integrity_witness :
  db_ok (run_world (repo_env demo_rows) (interp repository demo_repo_prog) empty_pg).(pg_db).
Proof.
  apply (repository_keeps_integrity demo_rows demo_repo_prog empty_pg).
  - repeat split; intros; exact I.
  - exact empty_pg_ok.
Defined.

Lemma Create_GetByID_witness :
  exists u doc,
    run_result (repo_env demo_rows) (repository_GetByID CtxRun "task-1")
      (run (repo_env demo_rows) (repository_Create CtxRun demo_task) empty_pg).2
    = Ok (stored u doc demo_task).
Proof.
  pose proof (Create_GetByID demo_rows CtxRun CtxRun demo_task (mkDb ∅ ∅)
    (1700000000 * Second) ["exec-1"]) as H. cbv zeta in H.
  destruct H as (u & doc & _ & _ & _ & H); [vm_compute; reflexivity|].
  exists u, doc. exact H.
Defined.

Lemma GetByID_not_found_witness :
  exists e, run_result (repo_env demo_rows) (repository_GetByID CtxRun "task-2") empty_pg = Err e
    /\ errors_As_TaskNotFound e <> None.
Proof.
  destruct (GetByID_not_found demo_rows CtxRun "task-2" empty_pg (Forall_nil_2 _)) as [[_ H] _].
  apply H. split; [exact I|]. exists "task-2". split; reflexivity.
Defined.

Lemma orphan_execution_refused_witness :
  run_result (repo_env demo_rows) (repository_RecordExecution CtxRun demo_exec) empty_pg <> None.
Proof.
  exact (proj1 (proj1 (orphan_execution_refused demo_rows CtxRun demo_exec "task-1" StatusDone
    "task-1" empty_pg eq_refl eq_refl))).
Defined.
