(* ===== verification/Scheduler.v ===== *)
(** * The scheduler: services/scheduler/scheduler.go

    Leader election on Redis, and the cron jobs the leader fires. *)

From stdpp Require Import sorting.
From S2P Require Import Prelude Prog GoStrings Domain GoFloat Effects Redis RedisFake Postgres Fakes.

Definition leaderKey : string := "scheduler:leader".
Definition leaderTTL : Duration := 30 * Second.
Definition checkInterval : Duration := 15 * Second.
Definition pendingTopic : string := "tasks.pending".

(** [ScheduledJob] (scheduler.go:29-38) *)
Record ScheduledJob := mkJob {
  j_ID : string;
  j_Name : string;
  j_CronExpr : string;
  j_TaskType : string;
  j_Payload : option string;
  j_Enabled : bool;
  j_LastRunAt : option Time;
  j_NextRunAt : option Time }.

(** [cron.ParseStandard] and [schedule.Next] of robfig/cron. *)
Class Cron := ParseStandard : string -> goresult (Time -> Time).

(** The job table as the scheduler uses it. *)
Inductive JobsE : Type -> Type :=
| QueryDueJobs (ctx : Ctx) : JobsE (goresult (list (goresult ScheduledJob) * option error))
    (* Query; what each row scans to; rows.Err() *)
| UpdateJob (ctx : Ctx) (last next : Time) (id : string) : JobsE (option error).

Inductive SchedE : Type -> Type :=
| SchedSys {X} (e : SysE X) : SchedE X
| SchedRedis {X} (e : RedisE X) : SchedE X
| SchedProducer {X} (e : ProducerE X) : SchedE X
| SchedJobs {X} (e : JobsE X) : SchedE X
| SelectTicker (ctx : Ctx) : SchedE bool.    (* [true]: ctx.Done(); [false]: a tick *)
#[export] Instance SubE_SchedSys : SubE SysE SchedE := @SchedSys.
#[export] Instance SubE_SchedRedis : SubE RedisE SchedE := @SchedRedis.
#[export] Instance SubE_SchedProducer : SubE ProducerE SchedE := @SchedProducer.
#[export] Instance SubE_SchedJobs : SubE JobsE SchedE := @SchedJobs.

(** The Lua script of scheduler.go:116-121, on its KEYS and ARGV. *)
Definition renewScript (key instance : string) (ttl_ms : Z) : prog LuaE Z :=
  v ← trigger (LGet key);
  if decide (v = Some instance) then trigger (LPexpire key ttl_ms) else mret 0.

(** scheduler.go:94-133 *)
Definition acquireOrRenewLeadership {E} `{SubE RedisE E} (instanceID : string) (ctx : Ctx)
  : prog E bool :=
  err ← trigger (RSetNX ctx leaderKey instanceID leaderTTL);
  match err with
  | None => mret true
  | Some err =>
      if errors_Is err RedisNil then
        res ← trigger (REval ctx (renewScript leaderKey instanceID (Milliseconds leaderTTL)));
        match res with
        | Ok result => mret (result =? 1)
        | Err err => if errors_Is err RedisNil then mret (0 =? 1) else mret false
        end
      else mret false
  end.

(** scheduler.go:163-174 *)
Fixpoint scan_jobs (rows : list (goresult ScheduledJob)) (rows_err : option error)
    (jobs : list ScheduledJob) : list ScheduledJob * option error :=
  match rows with
  | [] => (jobs, rows_err)
  | Err err :: _ => ([], Some (ErrWrap "scan scheduled_job" err))
  | Ok j :: rows' => scan_jobs rows' rows_err (jobs ++ [j])
  end.

(** scheduler.go:151-175 *)
Definition loadDueJobs (ctx : Ctx) : prog SchedE (list ScheduledJob * option error) :=
  res ← trigger (QueryDueJobs ctx);
  match res with
  | Err err => mret ([], Some (ErrWrap "query scheduled_jobs" err))
  | Ok (rows, rows_err) => mret (scan_jobs rows rows_err [])
  end.

Section Scheduler.
Context `{UnicodeTables, TaskCodec, Cron}.

(** The task of a firing (scheduler.go:181-188). *)
Definition job_task (job : ScheduledJob) (taskID : string) (now : Time) : Task.t :=
  Task.mk taskID job.(j_TaskType) job.(j_Payload) StatusPending 0 0 0 now now None None.

(** scheduler.go:177-217; the error of [json.Marshal] is dropped, and the
    value is then empty. *)
Definition runJob (ctx : Ctx) (job : ScheduledJob) : prog SchedE (option error) :=
  now ← trigger Now;
  taskID ← trigger NewUUID;
  let payload := match marshalTask (job_task job taskID now) with
                 | Ok data => data | Err _ => "" end in
  err ← trigger (Publish ctx pendingTopic taskID payload);
  match err with
  | Some err => mret (Some (ErrWrap ("publish task for job " +:+ Quote job.(j_Name)) err))
  | None =>
      match ParseStandard job.(j_CronExpr) with
      | Err err => mret (Some (ErrWrap ("parse cron " +:+ Quote job.(j_CronExpr) +:+
                                        " for job " +:+ Quote job.(j_Name)) err))
      | Ok schedule =>
          let nextRun := schedule now in
          err ← trigger (UpdateJob ctx now nextRun job.(j_ID));
          match err with
          | Some err => mret (Some (ErrWrap ("update scheduled_job " +:+ Quote job.(j_Name)) err))
          | None => mret None
          end
      end
  end.

(** The loop of scheduler.go:140-147: an error of a job is only logged. *)
Fixpoint run_jobs (ctx : Ctx) (jobs : list ScheduledJob) : prog SchedE unit :=
  match jobs with
  | [] => mret tt
  | job :: jobs' => _ ← runJob ctx job; run_jobs ctx jobs'
  end.

(** scheduler.go:135-149 *)
Definition processDueJobs (ctx : Ctx) : prog SchedE (option error) :=
  '(jobs, err) ← loadDueJobs ctx;
  match err with
  | Some err => mret (Some err)
  | None => _ ← run_jobs ctx jobs; mret None
  end.

(** scheduler.go:84-91 *)
Definition tick (instanceID : string) (ctx : Ctx) : prog SchedE unit :=
  leader ← acquireOrRenewLeadership instanceID ctx;
  if leader : bool then _ ← processDueJobs ctx; mret tt else mret tt.

(** The loop of scheduler.go:74-81, at most [n] ticks; [Some tt] when the
    context ended it. *)
Fixpoint Run_loop (n : nat) (instanceID : string) (ctx : Ctx) : prog SchedE (option unit) :=
  match n with
  | O => mret None
  | S n' =>
      done ← trigger (SelectTicker ctx);
      if done : bool then mret (Some tt)
      else _ ← tick instanceID ctx; Run_loop n' instanceID ctx
  end.

(** scheduler.go:67-82 *)
Definition Run (n : nat) (instanceID : string) (ctx : Ctx) : prog SchedE (option unit) :=
  _ ← tick instanceID ctx; Run_loop n instanceID ctx.

(** [Scheduler] (scheduler.go:40-63): its clients are effects. *)
Record Scheduler := NewScheduler { instanceID : string }.

Definition Scheduler_Run (s : Scheduler) (ctx : Ctx) (n : nat) : prog SchedE (option unit) :=
  Run n s.(instanceID) ctx.
End Scheduler.

(** ** What a trace of the scheduler contains *)

Definition sched_publication (ev : event SchedE)
  : option (string * string * string * option error) :=
  match ev with
  | @Ev _ X e x =>
      match e in SchedE X return X -> option (string * string * string * option error) with
      | SchedProducer e' =>
          match e' in ProducerE X
                return X -> option (string * string * string * option error) with
          | Publish _ topic key value => fun r => Some (topic, key, value, r)
          end
      | _ => fun _ => None
      end x
  end.

(** The job updates that were attempted: last run, next run, job, outcome. *)
Definition job_update (ev : event SchedE) : option (Time * Time * string * option error) :=
  match ev with
  | @Ev _ X e x =>
      match e in SchedE X return X -> option (Time * Time * string * option error) with
      | SchedJobs e' =>
          match e' in JobsE X return X -> option (Time * Time * string * option error) with
          | UpdateJob _ last next id => fun r => Some (last, next, id, r)
          | QueryDueJobs _ => fun _ => None
          end
      | _ => fun _ => None
      end x
  end.

(** The clock readings. *)
Definition sched_reading (ev : event SchedE) : option Time :=
  match ev with
  | @Ev _ X e x =>
      match e in SchedE X return X -> option Time with
      | SchedSys e' => match e' in SysE X return X -> option Time with
                       | Now => fun t => Some t
                       | _ => fun _ => None
                       end
      | _ => fun _ => None
      end x
  end.

Definition sched_readings (tr : list (event SchedE)) := omap sched_reading tr.
Definition sched_publications (tr : list (event SchedE)) := omap sched_publication tr.
Definition job_updates (tr : list (event SchedE)) := omap job_update tr.

(** ** Leader election *)

(** The lease as a state machine: its holder and its expiry. *)
Definition lease : Type := option (string * Time).

Definition lease_step (id : string) (now : Time) (l : lease) : bool * lease :=
  match l with
  | Some (h, exp) =>
      if now <? exp then
        if decide (h = id) then (true, Some (id, now + leaderTTL)) else (false, l)
      else (true, Some (id, now + leaderTTL))
  | None => (true, Some (id, now + leaderTTL))
  end.

(** A run of attempts: each instance waits, then tries. *)
Fixpoint lease_run (calls : list (Duration * string)) (now : Time) (l : lease) : list bool :=
  match calls with
  | [] => []
  | (d, id) :: calls' =>
      let '(b, l') := lease_step id (now + d) l in
      b :: lease_run calls' (now + d) l'
  end.

Section Election.
Context `{RedisServer W, !RedisLaws W}.
Set Default Proof Using "Type*".
Implicit Types (w : W) (n : net W).

Definition acquire (id : string) (ctx : Ctx) : prog RedisE bool :=
  acquireOrRenewLeadership id ctx.

(** The log of a run: time since its start, instance, answer. *)
Fixpoint election_log ctx (calls : list (Duration * string)) (t : Duration) n
  : list (Duration * string * bool) :=
  match calls with
  | [] => []
  | (d, id) :: calls' =>
      let '(b, _, n') := run redis_env (acquire id ctx) (net_elapse d n) in
      (t + d, id, b) :: election_log ctx calls' (t + d) n'
  end.

Definition lease_at w : lease :=
  match srv_view w leaderKey with
  | Some (mkEntry (RString h) (Some exp)) => Some (h, exp)
  | _ => None
  end.

(** The leader key is free or holds a string that expires. *)
Definition lease_ok w : Prop :=
  forall e, srv_view w leaderKey = Some e ->
    exists h exp, e = mkEntry (RString h) (Some exp).

Lemma leaderTTL_ok : 0 < leaderTTL /\ leaderTTL mod Second = 0 /\
  Milliseconds leaderTTL * Millisecond = leaderTTL.
Proof. done. Qed.

(** SETNX on the leader key. *)
Lemma setnx_lease id w :
  lease_ok w ->
  let r := srv_SETNX leaderKey id leaderTTL w in
  srv_now r.2 = srv_now w /\ lease_ok r.2 /\
  match lease_at w with
  | Some _ => r.1 = false /\ srv_view r.2 leaderKey = srv_view w leaderKey
  | None => r.1 = true /\ lease_at r.2 = Some (id, srv_now w + leaderTTL)
  end.
Proof.
  intros Hok r. destruct leaderTTL_ok as (Hp & Hs & _).
  pose proof (law_SETNX leaderKey id leaderTTL w Hp Hs) as Hl.
  pose proof (law_SETNX_now leaderKey id leaderTTL w) as Hn. fold r in Hl, Hn.
  split; [done|]. unfold lease_at, lease_ok in *.
  destruct (srv_view w leaderKey) as [e|] eqn:Hv.
  - destruct Hl as [Hb Hv']. rewrite Hv', Hv. split; [done|].
    destruct (Hok e eq_refl) as (h & exp & ->). done.
  - destruct Hl as [Hb (_ & Hv' & _)]. rewrite Hv'. split; [|done].
    intros e [= <-]. eauto.
Qed.

(** The renewal script, when the key is held. *)
Lemma renew_lease id h exp w :
  lease_ok w -> lease_at w = Some (h, exp) ->
  let script := renewScript leaderKey id (Milliseconds leaderTTL) in
  let x := run_result lua_env script w in
  let w' := run_world lua_env script w in
  srv_now w' = srv_now w /\ lease_ok w' /\
  if decide (h = id) then x = 1 /\ lease_at w' = Some (id, srv_now w + leaderTTL)
  else x = 0 /\ w' = w.
Proof.
  intros Hok Hat script x w'. destruct leaderTTL_ok as (_ & _ & Hms).
  unfold lease_at in Hat. destruct (srv_view w leaderKey) as [e|] eqn:Hv; [|done].
  destruct (Hok e Hv) as (h' & exp' & ->). injection Hat as -> ->.
  assert (Hget : srv_GET w leaderKey = Some h).
  { rewrite law_GET; [unfold str_at; by rewrite Hv|]. intros e. rewrite Hv. intros [= <-]. eauto. }
  subst x w' script. unfold run_result, run_world, renewScript. cbn. rewrite Hget.
  pose proof (law_PEXPIRE leaderKey (Milliseconds leaderTTL) w ltac:(done)) as Hp.
  rewrite Hv in Hp. cbn [r_val] in Hp. rewrite Hms in Hp. destruct Hp as [Hp1 (Hn & Hv' & _)].
  destruct (decide (Some h = Some id)) as [[= ->]|Hne].
  - rewrite decide_True by done. cbn.
    destruct (srv_PEXPIRE leaderKey (Milliseconds leaderTTL) w) as [x w']. cbn in *.
    split; [done|]. unfold lease_ok, lease_at. rewrite Hv'. split; [|by subst].
    intros e [= <-]. eauto.
  - rewrite decide_False by congruence. cbn. split_and!; done.
Qed.

(** An attempt of [id], split at its two calls. *)
Lemma acquire_calls ctx id n b n' :
  (run redis_env (acquire id ctx) n).1.1 = b ->
  (run redis_env (acquire id ctx) n).2 = n' ->
  exists err n1, redis_env _ (RSetNX ctx leaderKey id leaderTTL) n = (err, n1) /\
    match err with
    | None => b = true /\ n' = n1
    | Some e =>
        if errors_Is e RedisNil then
          exists res, redis_env _ (REval ctx (renewScript leaderKey id (Milliseconds leaderTTL))) n1
                      = (res, n') /\
            b = match res with Ok x => x =? 1 | Err _ => false end
        else b = false /\ n' = n1
    end.
Proof.
  unfold acquire, acquireOrRenewLeadership, trigger. cbn -[redis_env errors_Is renewScript].
  destruct (redis_env _ (inj (RSetNX ctx leaderKey id leaderTTL)) n) as [err n1] eqn:H1.
  intros Hb Hn. exists err, n1. split; [done|].
  destruct err as [e|]; [|by cbn in Hb, Hn; subst].
  destruct (errors_Is e RedisNil); [|by cbn in Hb, Hn; subst].
  cbn -[redis_env errors_Is renewScript] in Hb, Hn.
  destruct (redis_env _ (inj (REval _ _)) n1) as [res n2] eqn:H2.
  exists res. destruct res as [x|err]; [by cbn in Hb, Hn; subst|].
  destruct (errors_Is err RedisNil); by cbn in Hb, Hn; subst.
Qed.

(** Without faults an attempt is a step of the lease. *)
Lemma acquire_clean ctx id w :
  lease_ok w ->
  let r := run redis_env (acquire id ctx) (mkNet w []) in
  exists w', r.2 = mkNet w' [] /\ srv_now w' = srv_now w /\ lease_ok w' /\
    lease_step id (srv_now w) (lease_at w) = (r.1.1, lease_at w').
Proof.
  intros Hok r.
  pose proof (acquire_calls ctx id (mkNet w []) r.1.1 r.2 eq_refl eq_refl) as Hc.
  clearbody r. destruct r as [[b tr] n'], Hc as (err & n1 & H1 & Hr). cbn [fst snd] in *.
  pose proof (setnx_lease id w Hok) as (Hn1 & Hok1 & Hl1).
  unfold redis_env in H1. cbn [faults server srv_exec] in H1.
  destruct (srv_SETNX leaderKey id leaderTTL w) as [b1 w1]. cbn [fst snd] in *.
  injection H1 as <- <-.
  destruct (lease_at w) as [[h exp]|] eqn:Hat.
  2:{ destruct Hl1 as [-> Hl1]. destruct Hr as [-> Hr]. exists w1. by rewrite Hl1. }
  destruct Hl1 as [-> Hv1]. cbn -[renewScript run_result run_world] in Hr.
  destruct Hr as (res & H2 & Hb).
  unfold redis_env in H2. cbn [faults server srv_exec] in H2. injection H2 as <- H2.
  assert (Hat1 : lease_at w1 = Some (h, exp)) by (unfold lease_at in *; by rewrite Hv1).
  destruct (renew_lease id h exp w1 Hok1 Hat1) as (Hn2 & Hok2 & Hl2).
  eexists. split; [by symmetry|]. split; [congruence|]. split; [done|].
  assert (Hlive : srv_now w < exp).
  { unfold lease_at in Hat. destruct (srv_view w leaderKey) as [[[h'|] [exp'|]]|] eqn:Hv;
      simplify_eq. by apply (law_live _ _ _ _ Hv). }
  unfold lease_step. rewrite Hb, (proj2 (Z.ltb_lt _ _) Hlive). clear Hb.
  case_decide; destruct Hl2 as [-> Hl2].
  - by rewrite Hl2, Hn1.
  - by rewrite Hl2, Hat1.
Qed.

Lemma lease_elapse d w :
  0 <= d -> lease_ok w ->
  lease_ok (srv_elapse d w) /\
  lease_at (srv_elapse d w) =
    match lease_at w with
    | Some (h, exp) => if srv_now w + d <? exp then Some (h, exp) else None
    | None => None
    end.
Proof.
  intros Hd Hok. pose proof (law_elapse d w leaderKey Hd) as He. unfold lease_ok, lease_at in *.
  rewrite He. destruct (srv_view w leaderKey) as [e|] eqn:Hv; [|done].
  destruct (Hok e eq_refl) as (h & exp & ->). cbn [r_expire].
  destruct (srv_now w + d <? exp); by split.
Qed.

(** The lease as the server holds it: nothing once expired. *)
Definition current (now : Time) (l : lease) : lease :=
  match l with
  | Some (h, exp) => if now <? exp then l else None
  | None => None
  end.

Lemma lease_step_expired id now l : lease_step id now (current now l) = lease_step id now l.
Proof.
  destruct l as [[h exp]|]; [|done]. cbn. destruct (now <? exp) eqn:Hlt; cbn; by rewrite ?Hlt.
Qed.

(** On a Redis without faults, the answers of any run of
    election attempts by any instances are those of a 30-second lease:
    granted when free or expired, renewed by its holder, refused to the
    others. *)
Theorem election_refines_lease ctx calls w l :
  Forall (fun c => 0 <= c.1) calls -> lease_ok w -> lease_at w = current (srv_now w) l ->
  map snd (election_log ctx calls 0 (mkNet w [])) = lease_run calls (srv_now w) l.
Proof.
  intros Hd. generalize 0 at 1 as t. revert w l Hd. induction calls as [|[d id] calls IH];
    intros w l Hd t Hok Hat; [done|].
  apply Forall_cons in Hd as [Hd0 Hd]. cbn [fst] in Hd0.
  destruct (lease_elapse d w Hd0 Hok) as [Hok1 Hat1].
  assert (Hcur : lease_at (srv_elapse d w) = current (srv_now w + d) l).
  { rewrite Hat1, Hat. destruct l as [[h exp]|]; [|done]. cbn.
    destruct (Z.ltb_spec (srv_now w) exp); [done|].
    destruct (Z.ltb_spec (srv_now w + d) exp); [lia|done]. }
  destruct (acquire_clean ctx id (srv_elapse d w) Hok1) as (w' & Hr & Hn' & Hok' & Hstep).
  cbn [election_log lease_run]. unfold net_elapse. cbn [server faults].
  destruct (run redis_env (acquire id ctx) (mkNet (srv_elapse d w) [])) as [[b tr] n'].
  cbn [fst snd] in *. subst n'. rewrite Hcur in Hstep.
  rewrite law_elapse_now in * by done. rewrite lease_step_expired in Hstep. rewrite Hstep.
  cbn [map snd]. f_equal. rewrite <- Hn'. apply IH; [done|done|].
  destruct (lease_at w') as [[h exp]|] eqn:Hat'; [|done]. cbn.
  unfold lease_at in Hat'. destruct (srv_view w' leaderKey) as [[[h'|] [exp'|]]|] eqn:Hv;
    simplify_eq. pose proof (law_live _ _ _ _ Hv eq_refl) as Hlt.
  by rewrite (proj2 (Z.ltb_lt _ _) Hlt).
Qed.

(** ** On a faulty network *)

(** SETNX through the network: a reply other than OK is an error, and what
    the server holds follows from whether the command got there. *)
Lemma setnx_env ctx id n err n1 :
  Forall wf_fault n.(faults) -> lease_ok n.(server) ->
  redis_env _ (RSetNX ctx leaderKey id leaderTTL) n = (err, n1) ->
  Forall wf_fault n1.(faults) /\ lease_ok n1.(server) /\
  srv_now n1.(server) = srv_now n.(server) /\
  (err = None -> lease_at n1.(server) = Some (id, srv_now n.(server) + leaderTTL)) /\
  (forall l, lease_at n.(server) = Some l -> err <> None /\ lease_at n1.(server) = Some l) /\
  (forall e, err = Some e -> errors_Is e RedisNil = true -> lease_at n1.(server) <> None).
Proof.
  intros Hf Hok H1. apply (redis_env_cases _ _ _ _ Hf) in H1 as [Hf1 H1].
  split; [done|]. pose proof (setnx_lease id n.(server) Hok) as (Hn & Hok' & Hl).
  cbn [srv_exec] in H1. destruct (srv_SETNX leaderKey id leaderTTL (server n)) as [b w1].
  cbn [fst snd redis_fail] in *.
  assert (Hview : forall w w', srv_view w leaderKey = srv_view w' leaderKey ->
    lease_at w = lease_at w') by (intros w w'; unfold lease_at; by intros ->).
  destruct H1 as [[= -> ->]|(e & [He _] & -> & [-> | ->])].
  - split; [done|]. split; [done|]. destruct (lease_at (server n)) as [l|] eqn:Hat.
    + destruct Hl as [-> Hv]. apply Hview in Hv. rewrite Hat in Hv. rewrite Hv.
      split_and!; [done| |done]. by intros l' [= <-].
    + destruct Hl as [-> Hl]. by rewrite Hl.
  - split_and!; try done. intros e' [= <-] Hn'. congruence.
  - split; [done|]. split; [done|]. split; [done|]. split.
    + intros l Hat. rewrite Hat in Hl. destruct Hl as [_ Hv]. apply Hview in Hv.
      by rewrite Hv.
    + intros e' [= <-] Hn'. congruence.
Qed.

(** The renewal through the network, when the key is held by [h]. *)
Lemma renew_env ctx id h exp n res n1 :
  Forall wf_fault n.(faults) -> lease_ok n.(server) -> lease_at n.(server) = Some (h, exp) ->
  redis_env _ (REval ctx (renewScript leaderKey id (Milliseconds leaderTTL))) n = (res, n1) ->
  Forall wf_fault n1.(faults) /\ lease_ok n1.(server) /\
  srv_now n1.(server) = srv_now n.(server) /\
  (exists exp', lease_at n1.(server) = Some (h, exp') /\
     (exp' = exp \/ exp' = srv_now n.(server) + leaderTTL) /\
     (res = Ok 1 -> h = id /\ exp' = srv_now n.(server) + leaderTTL)).
Proof.
  intros Hf Hok Hat H1. apply (redis_env_cases _ _ _ _ Hf) in H1 as [Hf1 H1].
  split; [done|]. pose proof (renew_lease id h exp n.(server) Hok Hat) as Hl. cbv zeta in Hl.
  cbn -[renewScript run_result run_world] in H1.
  destruct Hl as (Hn & Hok' & Hl).
  destruct H1 as [[= -> ->]|(e & _ & -> & [-> | ->])].
  - split; [done|]. split; [done|]. destruct (decide (h = id)) as [->|Hne].
    + destruct Hl as [-> Hl]. eauto 10.
    + destruct Hl as [-> ->]. exists exp. split_and!; [done|by left|done].
  - split; [done|]. split; [done|]. exists exp. split_and!; [done|by left|done].
  - split; [done|]. split; [done|]. destruct (decide (h = id)) as [->|Hne].
    + destruct Hl as [_ Hl]. exists (srv_now n.(server) + leaderTTL). eauto.
    + destruct Hl as [_ Hl]. rewrite Hl. exists exp. split_and!; [done|by left|done].
Qed.

(** An attempt through the network: who wins holds the lease from now on,
    and while [a] holds it nobody else wins. *)
Lemma acquire_env ctx id n b n' :
  Forall wf_fault n.(faults) -> lease_ok n.(server) ->
  (run redis_env (acquire id ctx) n).1.1 = b ->
  (run redis_env (acquire id ctx) n).2 = n' ->
  Forall wf_fault n'.(faults) /\ lease_ok n'.(server) /\
  srv_now n'.(server) = srv_now n.(server) /\
  (b = true -> lease_at n'.(server) = Some (id, srv_now n.(server) + leaderTTL)) /\
  (forall a exp, lease_at n.(server) = Some (a, exp) -> exp <= srv_now n.(server) + leaderTTL ->
   (id <> a -> b = false) /\
   exists exp', lease_at n'.(server) = Some (a, exp') /\
     exp <= exp' <= srv_now n.(server) + leaderTTL).
Proof.
  intros Hf Hok Hb Hn. destruct (acquire_calls ctx id n b n' Hb Hn) as (err & n1 & H1 & Hr).
  clear Hb Hn.
  destruct (setnx_env ctx id n err n1 Hf Hok H1) as (Hf1 & Hok1 & Hnow1 & Hw & Hh & Hnil).
  destruct err as [e|].
  2:{ destruct Hr as [-> ->]. split_and!; auto. intros a exp Hat _.
      by destruct (Hh _ Hat) as [[] _]. }
  destruct (errors_Is e RedisNil) eqn:He.
  2:{ destruct Hr as [-> ->]. split_and!; auto; [done|]. intros a exp Hat Hle.
      destruct (Hh _ Hat) as [_ ->]. split; [done|]. exists exp. split; [done|]. lia. }
  destruct Hr as (res & H2 & ->). specialize (Hnil e eq_refl He).
  destruct (lease_at (server n1)) as [[h exp1]|] eqn:Hat1; [|done].
  destruct (renew_env ctx id h exp1 n1 res n' Hf1 Hok1 Hat1 H2)
    as (Hf2 & Hok2 & Hnow2 & exp2 & Hat2 & Hexp2 & Hres).
  rewrite Hnow1 in *. split_and!; auto.
  - destruct res as [x|]; [|done]. intros Hx%Z.eqb_eq. subst x.
    destruct (Hres eq_refl) as [-> ->]. done.
  - intros a exp Hat Hle. destruct (Hh _ Hat) as [_ [= -> ->]]. split.
    + intros Hne. destruct res as [x|]; [|done]. apply Z.eqb_neq. intros ->.
      by destruct (Hres eq_refl) as [? _].
    + exists exp2. split; [done|]. clear Hres. destruct Hexp2 as [-> | ->]; lia.
Qed.

Lemma election_log_later ctx calls t n :
  Forall (fun c => 0 <= c.1) calls ->
  Forall (fun x => t <= x.1.1) (election_log ctx calls t n).
Proof.
  revert t n. induction calls as [|[d id] calls IH]; intros t n Hd; [done|].
  apply Forall_cons in Hd as [Hd0 Hd]. cbn [election_log].
  destruct (run redis_env (acquire id ctx) (net_elapse d n)) as [[b tr] n'].
  apply Forall_cons. split; [cbn in *; lia|].
  eapply Forall_impl; [by apply IH|]. intros x Hx. cbn in *. lia.
Qed.

(** C15: once an instance has been told it leads, no other
    instance is told so in the next 30 seconds of server time, whatever
    attempts are made meanwhile and whatever requests and replies the
    network loses. *)
Theorem leader_exclusive ctx a n tr n1 calls :
  Forall wf_fault n.(faults) -> lease_ok n.(server) ->
  run redis_env (acquire a ctx) n = (true, tr, n1) ->
  Forall (fun c => 0 <= c.1) calls ->
  Forall (fun x => x.1.2 <> a -> x.1.1 < leaderTTL -> x.2 = false)
    (election_log ctx calls 0 n1).
Proof.
  intros Hf Hok Hrun Hd.
  destruct (acquire_env ctx a n true n1 Hf Hok) as (Hf1 & Hok1 & Hnow1 & Hwon & _);
    [by rewrite Hrun..|].
  specialize (Hwon eq_refl). remember (srv_now (server n)) as T0 eqn:HT0. clear HT0 Hf Hok Hrun tr.
  assert (Hinv : 0 < leaderTTL -> Forall wf_fault (faults n1) /\ lease_ok (server n1) /\
    srv_now (server n1) = T0 + 0 /\
    exists exp, lease_at (server n1) = Some (a, exp) /\
      T0 + leaderTTL <= exp <= srv_now (server n1) + leaderTTL).
  { intros _. split_and!; [done|done|lia|]. exists (T0 + leaderTTL). split; [done|lia]. }
  clear Hf1 Hok1 Hnow1 Hwon. clear n. revert n1 Hinv. generalize 0 at 1 2 3 as t.
  induction calls as [|[d id] calls IH]; intros t n1 Hinv; [done|].
  apply Forall_cons in Hd as [Hd0 Hd]. cbn [fst] in Hd0. cbn [election_log].
  destruct (run redis_env (acquire id ctx) (net_elapse d n1)) as [[b tr] n'] eqn:Hrun.
  destruct (Z.lt_ge_cases (t + d) leaderTTL) as [Hlt|Hge].
  2:{ apply Forall_cons. cbn [fst snd]. split; [intros; lia|].
      eapply Forall_impl; [by apply election_log_later|]. intros x Hx _ Hlt. cbn in Hx. lia. }
  destruct (Hinv ltac:(lia)) as (Hf & Hok & Hnow & exp & Hat & Hexp).
  destruct (lease_elapse d (server n1) Hd0 Hok) as [Hok1 Hat1].
  rewrite Hat, (proj2 (Z.ltb_lt _ _)) in Hat1 by lia.
  pose proof (law_elapse_now d (server n1) Hd0) as Hn1.
  destruct (acquire_env ctx id (net_elapse d n1) b n') as (Hf2 & Hok2 & Hnow2 & _ & Hheld);
    [done|done|by rewrite Hrun..|].
  cbn [net_elapse server] in *.
  destruct (Hheld a exp Hat1) as [Hb (exp' & Hat2 & Hexp')]; [lia|].
  apply Forall_cons. cbn [fst snd]. split; [auto|].
  apply IH; [done|]. intros _. split_and!; [done|done|lia|]. exists exp'. split; [done|lia].
Qed.
End Election.

(** ** Firing jobs *)

Lemma sched_publications_app t1 t2 :
  sched_publications (t1 ++ t2) = sched_publications t1 ++ sched_publications t2.
Proof. apply omap_app. Qed.
Lemma job_updates_app t1 t2 : job_updates (t1 ++ t2) = job_updates t1 ++ job_updates t2.
Proof. apply omap_app. Qed.

Section Firing.
Context `{UnicodeTables, TaskCodec, Cron}.

(** Firing a job publishes exactly one message, to
    tasks.pending under a fresh task ID, and then, if that worked and the
    cron expression parses, moves the job on to the next time of the
    expression; it reports success exactly when all of this worked. *)
Theorem runJob_publishes_then_updates ctx job tr r :
  exec (runJob ctx job) tr r ->
  exists id v o,
    sched_publications tr = [(pendingTopic, id, v, o)] /\
    ((o <> None \/ is_ok (ParseStandard job.(j_CronExpr)) = false) ->
     job_updates tr = [] /\ r <> None) /\
    (forall schedule, o = None -> ParseStandard job.(j_CronExpr) = Ok schedule ->
     exists now uo, job_updates tr = [(now, schedule now, job.(j_ID), uo)] /\
       (r = None <-> uo = None) /\
       (forall data, marshalTask (job_task job id now) = Ok data -> v = data)).
Proof.
  unfold runJob. intros Hex. exec_call in Hex as now. exec_call in Hex as id.
  cbn zeta in Hex. set (v := match marshalTask _ with Ok d => d | Err _ => _ end) in Hex.
  exec_call in Hex as o. exists id, v, o. destruct o as [e|].
  { exec_inv. by split_and!. }
  destruct (ParseStandard (j_CronExpr job)) as [schedule|e] eqn:Hp.
  - exec_call in Hex as uo. split; [destruct uo; by exec_inv|]. split; [by intros [|]|].
    intros s _ [= <-]. exists now, uo. split; [destruct uo; by exec_inv|].
    split; [destruct uo; by exec_inv|]. intros data Hd. unfold v. by rewrite Hd.
  - exec_inv. by split_and!.
Qed.

(** Every job the query returned is fired, in that order,
    whatever happens to the others; nothing is when the query fails. *)
Theorem processDueJobs_fires_all ctx tr r :
  exec (processDueJobs ctx) tr r ->
  exists answer t, tr = (QueryDueJobs ctx ~> answer) :: t /\
    match answer with
    | Ok (rows, rows_err) =>
        match scan_jobs rows rows_err [] with
        | (jobs, None) =>
            r = None /\ exists runs,
              t = concat runs /\
              Forall2 (fun job t1 => exists e, exec (runJob ctx job) t1 e) jobs runs
        | (_, Some e) => r = Some e /\ t = []
        end
    | Err e => r = Some (ErrWrap "query scheduled_jobs" e) /\ t = []
    end.
Proof.
  unfold processDueJobs, loadDueJobs. intros Hex.
  apply exec_bind in Hex as (t1 & t2 & [jobs err] & -> & Hload & Hex). cbn beta iota in Hex.
  exec_call in Hload as answer. exists answer.
  destruct answer as [[rows rows_err]|e]; apply exec_mret in Hload as [-> Hload]; cbn [app];
    eexists; (split; [reflexivity|]); [|injection Hload as -> ->; by exec_inv].
  rewrite <- Hload. destruct err as [e|]; [by exec_inv|].
  apply exec_bind in Hex as (t3 & t4 & [] & -> & Hrun & Hex). exec_inv. split; [done|].
  rewrite app_nil_r. clear Hload. revert t3 Hrun.
  induction jobs as [|job jobs IH]; intros t3 Hrun; cbn [run_jobs] in Hrun.
  - exec_inv. by exists [].
  - apply exec_bind in Hrun as (t1 & t2 & e & -> & Hjob & Hrun).
    destruct (IH t2 Hrun) as (runs & -> & Hall). exists (t1 :: runs).
    split; [done|]. constructor; eauto.
Qed.

(** An instance that does not lead touches no job. *)
Theorem tick_needs_leadership instanceID ctx tr r :
  exec (tick instanceID ctx) tr r ->
  exists t1 t2 b, tr = t1 ++ t2 /\ exec (acquireOrRenewLeadership instanceID ctx) t1 b /\
    sched_publications t1 = [] /\ job_updates t1 = [] /\
    (b = false -> t2 = []) /\ (b = true -> exists e, exec (processDueJobs ctx) t2 e).
Proof.
  unfold tick. intros Hex. apply exec_bind in Hex as (t1 & t2 & b & -> & Hacq & Hex).
  exists t1, t2, b. split; [done|]. split; [done|].
  assert (sched_publications t1 = [] /\ job_updates t1 = []) as [-> ->].
  { unfold acquireOrRenewLeadership in Hacq. exec_inv; done. }
  split; [done|]. split; [done|]. destruct b.
  - split; [done|]. intros _. apply exec_bind in Hex as (t3 & t4 & e & -> & Hp & Hex).
    exec_inv. rewrite app_nil_r. eauto.
  - by exec_inv.
Qed.
End Firing.

(** ** Ticks over a job table

    The table in insertion order; the query of scheduler.go:152-157 selects
    the enabled jobs that are due and orders them by [next_run_at], NULLs
    first; the update of scheduler.go:202-206 sets both times by ID. *)

Definition is_due (now : Time) (j : ScheduledJob) : bool :=
  j.(j_Enabled) && match j.(j_NextRunAt) with None => true | Some t => t <=? now end.

Definition run_before (j1 j2 : ScheduledJob) : Prop :=
  match j1.(j_NextRunAt), j2.(j_NextRunAt) with
  | None, _ => True
  | Some _, None => False
  | Some t1, Some t2 => t1 <= t2
  end.
#[export] Instance run_before_dec : RelDecision run_before.
Proof. intros j1 j2. unfold run_before. repeat case_match; apply _. Defined.

Definition due_jobs (now : Time) (jobs : list ScheduledJob) : list ScheduledJob :=
  merge_sort run_before (filter (fun j => is_due now j = true) jobs).

Definition update_job `{PgTypes} (last next : Time) (id : string) (jobs : list ScheduledJob)
  : list ScheduledJob :=
  map (fun j => if decide (j.(j_ID) = id)
                then mkJob j.(j_ID) j.(j_Name) j.(j_CronExpr) j.(j_TaskType) j.(j_Payload)
                       j.(j_Enabled) (Some (pg_time last)) (Some (pg_time next))
                else j) jobs.

Lemma due_jobs_elem clock jobs j : j ∈ due_jobs clock jobs <-> j ∈ jobs /\ is_due clock j = true.
Proof. unfold due_jobs. rewrite merge_sort_Permutation, list_elem_of_filter. tauto. Qed.

(** Write one row, by its primary key. *)
Definition put_job (j : ScheduledJob) (jobs : list ScheduledJob) : list ScheduledJob :=
  map (fun x => if decide (x.(j_ID) = j.(j_ID)) then j else x) jobs.
Definition put_jobs (js jobs : list ScheduledJob) : list ScheduledJob :=
  foldl (fun t j => put_job j t) jobs js.

Definition keyed (jobs : list ScheduledJob) : Prop := NoDup (map j_ID jobs).

Lemma keyed_eq jobs x y : keyed jobs -> x ∈ jobs -> y ∈ jobs -> x.(j_ID) = y.(j_ID) -> x = y.
Proof.
  unfold keyed. induction jobs as [|z jobs IH]; intros Hk Hx Hy Hid; [by apply elem_of_nil in Hx|].
  cbn in Hk. apply NoDup_cons in Hk as [Hz Hk].
  assert (forall w, w ∈ jobs -> w.(j_ID) <> z.(j_ID)) as Hne.
  { intros w Hw Heq. apply Hz. rewrite <- Heq. apply list_elem_of_fmap. eauto. }
  apply elem_of_cons in Hx as [->|Hx]; apply elem_of_cons in Hy as [->|Hy]; auto.
  - by destruct (Hne y Hy).
  - by destruct (Hne x Hx).
Qed.

Lemma put_job_keys j jobs : map j_ID (put_job j jobs) = map j_ID jobs.
Proof.
  unfold put_job. rewrite map_map. apply map_ext. intros x. by case_decide.
Qed.

Lemma put_job_id j jobs : keyed jobs -> j ∈ jobs -> put_job j jobs = jobs.
Proof.
  intros Hk Hj. unfold put_job. rewrite <- (map_id jobs) at 2. apply map_ext_in.
  intros x Hx%list_elem_of_In. case_decide as Hid; [|done]. by apply (keyed_eq jobs).
Qed.

Lemma put_job_other j x jobs : x ∈ jobs -> x.(j_ID) <> j.(j_ID) -> x ∈ put_job j jobs.
Proof. intros Hx Hne. apply list_elem_of_fmap. exists x. split; [by rewrite decide_False|done]. Qed.

Lemma due_jobs_keyed clock jobs : keyed jobs -> keyed (due_jobs clock jobs).
Proof.
  unfold keyed, due_jobs. intros Hk. rewrite merge_sort_Permutation.
  induction jobs as [|j jobs IH]; [done|]. cbn in Hk. apply NoDup_cons in Hk as [Hj Hk].
  destruct (decide (is_due clock j = true)); [rewrite filter_cons_True by done|by rewrite filter_cons_False; [apply IH|]].
  cbn. apply NoDup_cons. split; [|by apply IH]. intros (x & Hx & Hin)%list_elem_of_fmap.
  apply list_elem_of_filter in Hin as [_ Hin]. apply Hj. rewrite Hx. apply list_elem_of_fmap. eauto.
Qed.

Section Table.
Context `{UnicodeTables, TaskCodec, Cron, PgTypes}.
Implicit Types (job : ScheduledJob) (jobs : list ScheduledJob).

(** The row of a job with new times. *)
Definition moved (last next : Time) job : ScheduledJob :=
  mkJob job.(j_ID) job.(j_Name) job.(j_CronExpr) job.(j_TaskType) job.(j_Payload)
    job.(j_Enabled) (Some (pg_time last)) (Some (pg_time next)).

(** What a firing of [job] at [now] publishes: a new PENDING task of its type
    with its payload. *)
Definition fired_task job (id : string) (now : Time) : Task.t :=
  Task.mk id job.(j_TaskType) job.(j_Payload) "PENDING" 0 0 0 now now None None.
Definition fired_message job (id : string) (now : Time) : string :=
  match marshalTask (fired_task job id now) with Ok data => data | Err _ => "" end.
Definition publishing ctx job (id : string) (now : Time) (o : option error) : list (event SchedE) :=
  [Now ~> now; NewUUID ~> id; Publish ctx "tasks.pending" id (fired_message job id now) ~> o].

(** The ways a firing can go, with its calls and the job's row after it. *)
Inductive firing ctx job : list (event SchedE) -> ScheduledJob -> Prop :=
| fire_unpublished now id e : firing ctx job (publishing ctx job id now (Some e)) job
| fire_bad_cron now id e :
    ParseStandard job.(j_CronExpr) = Err e -> firing ctx job (publishing ctx job id now None) job
| fire_moved now id schedule :
    ParseStandard job.(j_CronExpr) = Ok schedule ->
    firing ctx job (publishing ctx job id now None ++
      [UpdateJob ctx now (schedule now) job.(j_ID) ~> None]) (moved now (schedule now) job)
| fire_not_moved now id schedule e job' :
    ParseStandard job.(j_CronExpr) = Ok schedule ->
    job' = job \/ job' = moved now (schedule now) job ->
    firing ctx job (publishing ctx job id now None ++
      [UpdateJob ctx now (schedule now) job.(j_ID) ~> Some e]) job'.

Lemma firing_ID ctx job t job' : firing ctx job t job' -> job'.(j_ID) = job.(j_ID).
Proof. intros [| | |now id schedule e ? _ [->| ->]]; done. Qed.

Lemma update_job_put last next job jobs :
  keyed jobs -> job ∈ jobs -> update_job last next job.(j_ID) jobs = put_job (moved last next job) jobs.
Proof.
  intros Hk Hj. unfold update_job, put_job. apply map_ext_in. intros x Hx%list_elem_of_In.
  cbn [moved j_ID]. case_decide as Hid; [|done]. by rewrite (keyed_eq jobs x job Hk Hx Hj Hid).
Qed.

(** The scheduler on such a table: [outside] answers all the other calls, and
    whether the table can be reached; [db_now] is the server's clock, and
    [applied] tells whether an update whose reply was lost took effect. *)
Context {R : Type} (outside : forall X, SchedE X -> R -> X * R).
Context (db_now : R -> Time) (applied : R -> bool).

Definition table_env : handler SchedE (list ScheduledJob * R) := fun X e '(jobs, s) =>
  let '(x, s) := outside X e s in
  match e in SchedE X return X -> X * (list ScheduledJob * R) with
  | SchedJobs e' =>
      match e' in JobsE X return X -> X * (list ScheduledJob * R) with
      | QueryDueJobs _ => fun x =>
          (match x with
           | Ok _ => Ok (map Ok (due_jobs (db_now s) jobs), None)
           | Err e => Err e
           end, (jobs, s))
      | UpdateJob _ last next id => fun x =>
          (x, (if match x with None => true | Some _ => applied s end
               then update_job last next id jobs else jobs, s))
      end
  | _ => fun x => (x, (jobs, s))
  end x.

Lemma run_runJob ctx job jobs s :
  keyed jobs -> job ∈ jobs ->
  exists job', firing ctx job (run_trace table_env (runJob ctx job) (jobs, s)) job' /\
    (run_world table_env (runJob ctx job) (jobs, s)).1 = put_job job' jobs.
Proof.
  intros Hk Hj. unfold run_trace, run_world, runJob, trigger. cbn.
  destruct (outside _ (inj Now) s) as [now s1]. cbn.
  destruct (outside _ (inj NewUUID) s1) as [id s2]. cbn.
  destruct (outside _ (inj (Publish _ _ _ _)) s2) as [[e|] s3]; cbn.
  { exists job. split; [apply (fire_unpublished ctx job now id e)|]. by rewrite put_job_id. }
  destruct (ParseStandard (j_CronExpr job)) as [schedule|e] eqn:Hp; cbn.
  2:{ exists job. split; [by apply (fire_bad_cron ctx job now id e)|]. by rewrite put_job_id. }
  destruct (outside _ (inj (UpdateJob _ _ _ _)) s3) as [[e|] s4]; cbn.
  - destruct (applied s4).
    + eexists. split; [apply (fire_not_moved ctx job now id schedule e); [done|by right]|].
      by rewrite update_job_put.
    + exists job. split; [apply (fire_not_moved ctx job now id schedule e); [done|by left]|].
      by rewrite put_job_id.
  - eexists. split; [by apply (fire_moved ctx job now id schedule)|]. by rewrite update_job_put.
Qed.

Lemma run_run_jobs ctx L jobs s :
  keyed jobs -> keyed L -> (forall x, x ∈ L -> x ∈ jobs) ->
  exists runs rows,
    Forall3 (firing ctx) L runs rows /\
    run_trace table_env (run_jobs ctx L) (jobs, s) = concat runs /\
    (run_world table_env (run_jobs ctx L) (jobs, s)).1 = put_jobs rows jobs.
Proof.
  revert jobs s. induction L as [|job L IH]; intros jobs s Hk HL Hin.
  { exists [], []. split; [constructor|done]. }
  unfold keyed in HL. cbn in HL. apply NoDup_cons in HL as [Hnew HL].
  destruct (run_runJob ctx job jobs s Hk) as (job' & Hf & Hw); [apply Hin; by left|].
  unfold run_trace, run_world in *. cbn [run_jobs]. rewrite run_bind.
  destruct (run table_env (runJob ctx job) (jobs, s)) as [[e t] [jobs1 s1]]. cbn [fst snd] in *. subst jobs1.
  destruct (IH (put_job job' jobs) s1) as (runs & rows & Hall & Ht & Hw).
  - unfold keyed. by rewrite put_job_keys.
  - done.
  - intros x Hx. apply put_job_other; [apply Hin; by right|]. rewrite (firing_ID _ _ _ _ Hf).
    intros Hid. apply Hnew. rewrite <- Hid. apply list_elem_of_fmap. eauto.
  - destruct (run table_env (run_jobs ctx L) (put_job job' jobs, s1)) as [[u t2] w2]. cbn [fst snd] in *.
    exists (t :: runs), (job' :: rows). split; [by constructor|]. by rewrite Ht, Hw.
Qed.

Lemma run_acquire instanceID ctx jobs s :
  (run_world table_env (acquireOrRenewLeadership instanceID ctx) (jobs, s)).1 = jobs.
Proof.
  unfold run_world, acquireOrRenewLeadership, trigger. cbn.
  destruct (outside _ (inj (RSetNX _ _ _ _)) s) as [[e|] s1]; cbn; [|done].
  destruct (errors_Is e RedisNil); cbn; [|done].
  destruct (outside _ (inj (REval _ _)) s1) as [[x|e2] s2]; cbn; [done|].
  by destruct (errors_Is e2 RedisNil).
Qed.

(** What [t2], the calls of a tick after the election, and [jobs'], the table
    after it, can be. *)
Inductive ticked ctx (leader : bool) jobs : list (event SchedE) -> list ScheduledJob -> Prop :=
| tick_follower : leader = false -> ticked ctx leader jobs [] jobs
| tick_no_answer e : leader = true -> ticked ctx leader jobs [QueryDueJobs ctx ~> Err e] jobs
| tick_fired s runs rows :
    leader = true -> Forall3 (firing ctx) (due_jobs (db_now s) jobs) runs rows ->
    ticked ctx leader jobs
      ((QueryDueJobs ctx ~> Ok (map Ok (due_jobs (db_now s) jobs), None)) :: concat runs)
      (put_jobs rows jobs).

Lemma scan_jobs_ok jobs acc : scan_jobs (map Ok jobs) None acc = (acc ++ jobs, None).
Proof.
  revert acc. induction jobs as [|j jobs IH]; intros acc; cbn; [by rewrite app_nil_r|].
  by rewrite IH, <- app_assoc.
Qed.

(** What the query for the due jobs was answered. *)
Definition query_answer (ev : event SchedE) : option (goresult (list (goresult ScheduledJob) * option error)) :=
  match ev with
  | @Ev _ X e x =>
      match e in SchedE X return X -> option (goresult (list (goresult ScheduledJob) * option error)) with
      | SchedJobs e' =>
          match e' in JobsE X return X -> option (goresult (list (goresult ScheduledJob) * option error)) with
          | QueryDueJobs _ => Some
          | UpdateJob _ _ _ _ => fun _ => None
          end
      | _ => fun _ => None
      end x
  end.

Lemma run_tick instanceID ctx jobs s :
  keyed jobs -> exists t1 t2 leader,
    run_trace table_env (tick instanceID ctx) (jobs, s) = t1 ++ t2 /\
    exec (acquireOrRenewLeadership instanceID ctx) t1 leader /\
    ticked ctx leader jobs t2 (run_world table_env (tick instanceID ctx) (jobs, s)).1.
Proof.
  intros Hk. unfold tick, run_trace, run_world.
  pose proof (run_exec table_env (acquireOrRenewLeadership instanceID ctx) (jobs, s)) as Hacq.
  pose proof (run_acquire instanceID ctx jobs s) as Hsame.
  unfold run_trace, run_result, run_world in *. rewrite run_bind.
  destruct (run table_env (acquireOrRenewLeadership instanceID ctx) (jobs, s)) as [[b t1] [jobs1 s1]].
  cbn [fst snd] in *. subst jobs1. destruct b.
  2:{ exists t1, [], false. split_and!; [done..|by apply tick_follower]. }
  unfold processDueJobs, loadDueJobs, trigger. cbn -[due_jobs run_jobs].
  destruct (outside _ (inj (QueryDueJobs ctx)) s1) as [[rows|e] s2]; cbn -[due_jobs run_jobs].
  2:{ do 3 eexists. split; [reflexivity|]. split; [done|]. by apply tick_no_answer. }
  rewrite scan_jobs_ok. cbn -[due_jobs run_jobs]. rewrite !run_bind.
  destruct (run_run_jobs ctx (due_jobs (db_now s2) jobs) jobs s2) as (runs & rows' & Hall & Ht & Hw);
    [done|by apply due_jobs_keyed|by intros x [? _]%due_jobs_elem|].
  unfold run_trace, run_world in *. destruct (run table_env (run_jobs ctx _) (jobs, s2)) as [[u t] w].
  cbn in *. rewrite ?app_nil_r, Ht, Hw. do 3 eexists. split; [reflexivity|]. split; [done|].
  by apply tick_fired.
Qed.

(** C29: a tick first asks for the leadership.  An instance that does not get
    it touches no job; one that does asks the table for the due jobs, once.
    If the answer comes, every enabled job that is due at the server's time is
    fired, once and in the order of [next_run_at], whatever becomes of the
    others, and no other job is: a firing publishes one message to
    tasks.pending, the new PENDING task of the job's type with its payload,
    under the task's identifier; and then, if that worked and the cron
    expression parses, sets the job's times to now and to the next time of the
    expression after now.  Nothing else of the table changes, whatever Redis,
    Kafka, the clock and the connection to the table do. *)
Theorem tick_fires_due_jobs instanceID ctx jobs s :
  keyed jobs -> exists t1 t2 leader,
    run_trace table_env (tick instanceID ctx) (jobs, s) = t1 ++ t2 /\
    exec (acquireOrRenewLeadership instanceID ctx) t1 leader /\
    sched_publications t1 = [] /\ job_updates t1 = [] /\
    ticked ctx leader jobs t2 (run_world table_env (tick instanceID ctx) (jobs, s)).1.
Proof.
  intros Hk. destruct (run_tick instanceID ctx jobs s Hk) as (t1 & t2 & b & Ht & Hacq & Hticked).
  exists t1, t2, b. split; [done|]. split; [done|].
  assert (sched_publications t1 = [] /\ job_updates t1 = []) as [-> ->]; [|by split_and!].
  unfold acquireOrRenewLeadership in Hacq. exec_inv; done.
Qed.

(** Ticks one after the other on the table, each in a state of the rest of the
    world of its own: their calls, and the table in the end. *)
Record ticking := mkTicking { tk_instance : string; tk_ctx : Ctx; tk_outside : R }.
Definition tick_run (k : ticking) jobs : list (event SchedE) * list ScheduledJob :=
  let w := (jobs, k.(tk_outside)) in
  (run_trace table_env (tick k.(tk_instance) k.(tk_ctx)) w,
   (run_world table_env (tick k.(tk_instance) k.(tk_ctx)) w).1).
Fixpoint tick_log (ks : list ticking) jobs : list (ticking * list (event SchedE)) :=
  match ks with
  | [] => []
  | k :: ks => (k, (tick_run k jobs).1) :: tick_log ks (tick_run k jobs).2
  end.
Fixpoint tick_table (ks : list ticking) jobs : list ScheduledJob :=
  match ks with
  | [] => jobs
  | k :: ks => tick_table ks (tick_run k jobs).2
  end.

Lemma put_jobs_keys rows jobs : map j_ID (put_jobs rows jobs) = map j_ID jobs.
Proof.
  unfold put_jobs. revert jobs. induction rows as [|j rows IH]; intros jobs; [done|]. cbn.
  by rewrite IH, put_job_keys.
Qed.

Lemma ticked_keyed ctx b jobs t jobs' : ticked ctx b jobs t jobs' -> keyed jobs -> keyed jobs'.
Proof. unfold keyed. intros [| |]; [done..|]. by rewrite put_jobs_keys. Qed.

(** Rows that are written as they are stay. *)
Lemma put_jobs_keeps job rows jobs :
  job ∈ jobs -> Forall (fun x => x.(j_ID) = job.(j_ID) -> x = job) rows -> job ∈ put_jobs rows jobs.
Proof.
  unfold put_jobs. intros Hj Hall. revert jobs Hj. induction Hall as [|x rows Hx _ IH]; intros jobs Hj; [done|].
  cbn. apply IH. destruct (decide (j_ID x = j_ID job)) as [Hid|Hne].
  - rewrite (Hx Hid). apply list_elem_of_fmap. exists job. by rewrite decide_True.
  - by apply put_job_other.
Qed.

(** A job whose expression does not parse is not moved. *)
Lemma bad_cron_firing ctx job t job' e :
  firing ctx job t job' -> ParseStandard job.(j_CronExpr) = Err e ->
  job' = job /\ job_updates t = [] /\ exists id now o, t = publishing ctx job id now o.
Proof.
  intros [now id e'|now id e' _|now id schedule Hp|now id schedule e' ? Hp _] He; [| |congruence..];
    (split; [done|]; split; [done|]); eauto.
Qed.

Lemma firing_updates ctx job t job' : firing ctx job t job' ->
  Forall (fun x => x.1.2 = job.(j_ID)) (job_updates t).
Proof. intros []; by repeat constructor. Qed.

Lemma firings_of_job ctx L runs rows job e :
  Forall3 (firing ctx) L runs rows -> ParseStandard job.(j_CronExpr) = Err e ->
  (forall x, x ∈ L -> x.(j_ID) = job.(j_ID) -> x = job) ->
  Forall (fun x => x.(j_ID) = job.(j_ID) -> x = job) rows /\
  Forall (fun x => x.1.2 <> job.(j_ID)) (job_updates (concat runs)) /\
  (job ∈ L -> exists pre id now o post, concat runs = pre ++ publishing ctx job id now o ++ post).
Proof.
  intros Hall He. induction Hall as [|x t x' L runs rows Hf Hall IH]; intros Hu.
  { split_and!; [constructor..|by intros ?%elem_of_nil]. }
  destruct IH as (Hrows & Hups & Hpub); [intros y Hy; apply Hu; by right|].
  assert (x.(j_ID) = job.(j_ID) -> x' = job /\ job_updates t = [] /\
    exists id now o, t = publishing ctx job id now o) as Hx.
  { intros Hid. rewrite (Hu x) in Hf; [by eapply bad_cron_firing|by left|done]. }
  cbn [concat]. split_and!.
  - constructor; [|done]. rewrite (firing_ID _ _ _ _ Hf). by intros [-> _]%Hx.
  - rewrite job_updates_app. apply Forall_app. split; [|done].
    destruct (decide (x.(j_ID) = job.(j_ID))) as [Hid|Hne]; [by destruct (Hx Hid) as (_ & -> & _)|].
    eapply Forall_impl; [by eapply firing_updates|]. intros u ->. done.
  - intros [->|Hin]%elem_of_cons.
    + destruct (Hx eq_refl) as (_ & _ & id & now & o & ->). by exists [], id, now, o, (concat runs).
    + destruct (Hpub Hin) as (pre & id & now & o & post & ->).
      exists (t ++ pre), id, now, o, post. by rewrite <- app_assoc.
Qed.

(** What a tick does about a job whose expression does not parse: whenever it
    gets an answer to its query it fires it; it never moves it. *)
Definition fires_again job (x : ticking * list (event SchedE)) : Prop :=
  Forall (fun u => u.1.2 <> job.(j_ID)) (job_updates x.2) /\
  forall pre rows post, x.2 = pre ++ (QueryDueJobs x.1.(tk_ctx) ~> Ok rows) :: post ->
    exists pre' id now o post', post = pre' ++ publishing x.1.(tk_ctx) job id now o ++ post'.

Lemma firings_silent ctx L runs rows :
  Forall3 (firing ctx) L runs rows -> omap query_answer (concat runs) = [].
Proof. induction 1 as [|x t x' L runs rows Hf _ IH]; [done|]. cbn. rewrite omap_app, IH. by destruct Hf. Qed.

Lemma election_silent instanceID ctx t b :
  exec (acquireOrRenewLeadership instanceID ctx) t b ->
  omap query_answer t = [] /\ job_updates t = [].
Proof. unfold acquireOrRenewLeadership. intros Hex. exec_inv; done. Qed.

Lemma bad_cron_tick k jobs job e :
  keyed jobs -> job ∈ jobs -> (forall s, is_due (db_now s) job = true) ->
  ParseStandard job.(j_CronExpr) = Err e ->
  keyed (tick_run k jobs).2 /\ job ∈ (tick_run k jobs).2 /\ fires_again job (k, (tick_run k jobs).1).
Proof.
  intros Hk Hj Hdue He. unfold tick_run, fires_again. cbn [fst snd].
  destruct (run_tick k.(tk_instance) k.(tk_ctx) jobs k.(tk_outside) Hk)
    as (t1 & t2 & b & -> & Hacq & Hticked).
  split; [by eapply ticked_keyed|]. apply election_silent in Hacq as [Hq1 Hu1].
  rewrite job_updates_app, Hu1. cbn [app].
  assert (forall pre rows post, t1 ++ t2 = pre ++ (QueryDueJobs k.(tk_ctx) ~> Ok rows) :: post ->
    exists pre', t2 = pre' ++ (QueryDueJobs k.(tk_ctx) ~> Ok rows) :: post) as Hsplit.
  { intros pre rows post Heq. eapply (omap_split_after query_answer) in Heq as (pre' & _ & Heq); eauto. }
  destruct Hticked as [_|e' _|s runs rows _ Hall].
  - split; [done|]. split; [constructor|]. intros pre rows post (pre' & Heq)%Hsplit. by destruct pre'.
  - split; [done|]. split; [constructor|]. intros pre rows post (pre' & Heq)%Hsplit.
    apply (f_equal (omap query_answer)) in Heq. rewrite omap_app in Heq. cbn in Heq.
    by destruct (omap query_answer pre') as [|? []].
  - destruct (firings_of_job _ _ _ _ job e Hall He) as (Hsame & Hups & Hpub).
    { intros x [Hx _]%due_jobs_elem Hid. by apply (keyed_eq jobs). }
    split; [by apply put_jobs_keeps|]. split; [done|].
    intros pre rows' post (pre' & Heq)%Hsplit. destruct pre' as [|ev pre'].
    + injection Heq as <-. apply Hpub. by apply due_jobs_elem.
    + exfalso. apply (f_equal tail) in Heq. cbn [tail app] in Heq. apply firings_silent in Hall. rewrite Heq, omap_app in Hall.
      apply app_nil in Hall as [_ Hall]. done.
Qed.

(** C31: a due job whose cron expression does not parse is published again by
    every tick that gets to see the due jobs, whatever other jobs there are,
    which instances tick and whatever fails or succeeds in between: it is never
    moved on. *)
Theorem bad_cron_fires_every_tick ks jobs job e :
  keyed jobs -> job ∈ jobs -> (forall s, is_due (db_now s) job = true) ->
  ParseStandard job.(j_CronExpr) = Err e ->
  job ∈ tick_table ks jobs /\ Forall (fires_again job) (tick_log ks jobs).
Proof.
  intros Hk Hj Hdue He. revert jobs Hk Hj. induction ks as [|k ks IH]; intros jobs Hk Hj; [by split; [|constructor]|].
  destruct (bad_cron_tick k jobs job e Hk Hj Hdue He) as (Hk' & Hj' & Hf).
  destruct (IH _ Hk' Hj') as [Hin Hall]. cbn [tick_table tick_log]. split; [done|by constructor].
Qed.
End Table.

(** ** Concrete runs *)

(** A cron library that knows one expression. *)
#[export] Instance demo_cron : Cron := fun expr =>
  if String.eqb expr "@hourly" then Ok (fun t => (t / Hour + 1) * Hour)
  else Err (ErrNew "expected exactly 5 fields").

Definition hourly_job : ScheduledJob :=
  mkJob "job-1" "report" "@hourly" "email" (Some "{}") true None None.
Definition broken_job : ScheduledJob :=
  mkJob "job-2" "cleanup" "every day" "webhook" (Some "{}") true None None.

(** A job table for the examples: a producer that works, a clock that stands
    still during a tick, numbered task IDs, and a lease that is always
    granted. *)
Record sched_state := mkSched { s_clock : Time; s_uuid : nat }.
Definition sched_world : Type := list ScheduledJob * sched_state.

Definition sched_outside : forall X, SchedE X -> sched_state -> X * sched_state := fun X e =>
  match e in SchedE X return sched_state -> X * sched_state with
  | SchedSys e' =>
      match e' in SysE X return sched_state -> X * sched_state with
      | Now => fun s => (s.(s_clock), s)
      | Since t => fun s => (Sub s.(s_clock) t, s)
      | NewUUID => fun s => (Itoa (Z.of_nat s.(s_uuid)), mkSched s.(s_clock) (S s.(s_uuid)))
      | SelectAfter _ _ => fun s => (None, s)
      end
  | SchedRedis e' =>
      match e' in RedisE X return sched_state -> X * sched_state with
      | RSet _ _ _ _ => fun s => (None, s)
      | RGet _ _ => fun s => (Err RedisNil, s)
      | RSetNX _ _ _ _ => fun s => (None, s)
      | RTxPipeline _ _ => fun s => (Ok [], s)
      | REval _ _ => fun s => (Ok 1, s)
      end
  | SchedProducer e' =>
      match e' in ProducerE X return sched_state -> X * sched_state with
      | Publish _ _ _ _ => fun s => (None, s)
      end
  | SchedJobs e' =>
      match e' in JobsE X return sched_state -> X * sched_state with
      | QueryDueJobs _ => fun s => (Ok ([], None), s)
      | UpdateJob _ _ _ _ => fun s => (None, s)
      end
  | SelectTicker _ => fun s => (false, s)
  end.
Definition sched_env : handler SchedE sched_world := table_env sched_outside s_clock (fun _ => true).
Definition demo_state : sched_state := mkSched (1700000000 * Second) 1.
Definition sched_demo (jobs : list ScheduledJob) : sched_world := (jobs, demo_state).

Definition demo_fault : net mem := mkNet mem_init [ReplyLost ContextDeadlineExceeded].

Lemma mem_init_lease_ok : lease_ok mem_init.
Proof. intros e He. discriminate He. Qed.

Lemma election_refines_lease_witness :
  map snd (election_log CtxRun [(0, "a"); (15 * Second, "b"); (20 * Second, "b"); (1, "a")] 0
             (mkNet mem_init [])) = [true; false; true; false].
Proof.
  rewrite (election_refines_lease CtxRun
    [(0, "a"); (15 * Second, "b"); (20 * Second, "b"); (1, "a")] mem_init None).
  - vm_compute. reflexivity.
  - repeat constructor; discriminate.
  - exact mem_init_lease_ok.
  - reflexivity.
Defined.

(** The reply to the first attempt of [a] is lost; its second renews the lease
    the first one took. *)
Definition leader_net : net mem :=
  (run redis_env (acquire "a" CtxRun) demo_fault).2.

Lemma leader_exclusive_witness :
  Forall (fun x => x.1.2 <> "a" -> x.1.1 < leaderTTL -> x.2 = false)
    (election_log CtxRun [(10 * Second, "b"); (10 * Second, "c")] 0
       (run redis_env (acquire "a" CtxRun) leader_net).2).
Proof.
  eapply (leader_exclusive CtxRun "a" leader_net).
  - constructor.
  - intros e He. vm_compute in He. injection He as <-. do 2 eexists. reflexivity.
  - vm_compute. reflexivity.
  - repeat constructor; discriminate.
Defined.

Definition fire_trace (job : ScheduledJob) : list (event SchedE) :=
  run_trace sched_env (runJob CtxRun job) (sched_demo []).

Lemma runJob_publishes_then_updates_witness :
  exists id v o, sched_publications (fire_trace broken_job) = [(pendingTopic, id, v, o)] /\
    job_updates (fire_trace broken_job) = [].
Proof.
  destruct (runJob_publishes_then_updates CtxRun broken_job (fire_trace broken_job) _
    (run_exec _ _ _)) as (id & v & o & Hp & Hno & _).
  exists id, v, o. split; [exact Hp|]. apply Hno. right. reflexivity.
Defined.

Lemma processDueJobs_fires_all_witness :
  exists answer t,
    run_trace sched_env (processDueJobs CtxRun) (sched_demo [hourly_job; broken_job])
    = (QueryDueJobs CtxRun ~> answer) :: t.
Proof.
  destruct (processDueJobs_fires_all CtxRun _ _
    (run_exec sched_env (processDueJobs CtxRun) (sched_demo [hourly_job; broken_job])))
    as (answer & t & Ht & _).
  exists answer, t. exact Ht.
Defined.

Lemma tick_needs_leadership_witness :
  exists t1 t2 b,
    run_trace sched_env (tick "a" CtxRun) (sched_demo [hourly_job]) = t1 ++ t2 /\
    exec (acquireOrRenewLeadership "a" CtxRun) t1 b.
Proof.
  destruct (tick_needs_leadership "a" CtxRun _ _
    (run_exec sched_env (tick "a" CtxRun) (sched_demo [hourly_job])))
    as (t1 & t2 & b & Ht & Hacq & _).
  exists t1, t2, b. exact (conj Ht Hacq).
Defined.

(** Both jobs are fired; the hourly one has been moved on. *)
Lemma tick_fires_due_jobs_witness :
  exists t1 t2 leader,
    run_trace sched_env (tick "a" CtxRun) (sched_demo [broken_job; hourly_job]) = t1 ++ t2 /\
    ticked s_clock CtxRun leader [broken_job; hourly_job] t2
      [broken_job; moved (1700000000 * Second) (1700002800 * Second) hourly_job].
Proof.
  destruct (tick_fires_due_jobs sched_outside s_clock (fun _ => true) "a" CtxRun
    [broken_job; hourly_job] demo_state) as (t1 & t2 & b & Ht & _ & _ & _ & Hticked).
  - apply (bool_decide_unpack _). vm_compute. exact I.
  - assert ((run_world (table_env sched_outside s_clock (fun _ => true)) (tick "a" CtxRun)
        ([broken_job; hourly_job], demo_state)).1 =
      [broken_job; moved (1700000000 * Second) (1700002800 * Second) hourly_job]) as Hw
      by (vm_compute; reflexivity).
    rewrite Hw in Hticked. exists t1, t2, b. split; [exact Ht|exact Hticked].
Defined.

(** The broken job comes after another one and is fired by three ticks. *)
Lemma bad_cron_fires_every_tick_witness :
  let ks := [mkTicking "a" CtxRun demo_state; mkTicking "b" CtxRun demo_state;
             mkTicking "a" CtxRun (mkSched (1800000000 * Second) 7)] in
  broken_job ∈ tick_table sched_outside s_clock (fun _ => true) ks [hourly_job; broken_job] /\
  Forall (fires_again broken_job)
    (tick_log sched_outside s_clock (fun _ => true) ks [hourly_job; broken_job]).
Proof.
  intros ks.
  apply (bad_cron_fires_every_tick sched_outside s_clock (fun _ => true) ks [hourly_job; broken_job]
    broken_job (ErrNew "expected exactly 5 fields")).
  - apply (bool_decide_unpack _). vm_compute. exact I.
  - right. left.
  - reflexivity.
  - reflexivity.
Defined.
