(* ===== verification/Gateway.v ===== *)
(** * The API gateway: services/api-gateway

    The REST handlers (handler/rest.go), the gRPC service (handler/grpc.go)
    and the HTTP middleware (middleware/), over the services' interfaces and
    what they do to the client's connection. *)

From S2P Require Import Prelude Prog GoStrings Domain JsonText Json GoFloat Effects Fakes.

Definition pendingTopic : string := "tasks.pending".

(** ** Messages (rest.go:39-64, proto/task/v1/task.proto) *)

Record SubmitTaskRequest := mkSubmit {
  sr_Type : string;
  sr_Payload : option string;            (* json.RawMessage *)
  sr_Priority : Z;
  sr_ScheduledAt : option Time }.

Record SubmitTaskResponse := mkSubmitted {
  sub_TaskID : string; sub_Status : string; sub_CreatedAt : Time }.

Record TaskStatusResponse := mkStatus {
  ts_TaskID : string;
  ts_Type : string;
  ts_Status : string;
  ts_Priority : Z;
  ts_Attempts : Z;
  ts_CreatedAt : Time;
  ts_CompletedAt : option Time;
  ts_DurationMs : Z }.

Record PbSubmitRequest := mkPbSubmit {
  pb_Type : string;
  pb_Payload : option string;            (* bytes *)
  pb_Priority : Z;                       (* int32 *)
  pb_ScheduledAt : Z }.                  (* int64, Unix seconds *)

Record PbSubmitResponse := mkPbSubmitted {
  pbs_TaskId : string; pbs_Status : string; pbs_CreatedAt : Z }.

Record PbTaskStatus := mkPbStatus {
  pbt_TaskId : string;
  pbt_Type : string;
  pbt_Status : string;
  pbt_Attempts : Z;
  pbt_CreatedAt : Z;
  pbt_CompletedAt : Z;
  pbt_DurationMs : Z }.

Record PbBulkResponse := mkPbBulk {
  pbb_Submitted : Z; pbb_Failed : Z; pbb_TaskIds : list string }.

(** ** The body of a submission *)

(** The fields of [SubmitTaskRequest] (rest.go:40-45). *)
Definition submit_json : fields SubmitTaskRequest := [
  ("type", field_of load_string sr_Type
             (fun v q => mkSubmit v q.(sr_Payload) q.(sr_Priority) q.(sr_ScheduledAt)));
  ("payload", field_of load_raw sr_Payload
                (fun v q => mkSubmit q.(sr_Type) v q.(sr_Priority) q.(sr_ScheduledAt)));
  ("priority", field_of load_int sr_Priority
                 (fun v q => mkSubmit q.(sr_Type) q.(sr_Payload) v q.(sr_ScheduledAt)));
  ("scheduled_at", field_of load_opt_time sr_ScheduledAt
                     (fun v q => mkSubmit q.(sr_Type) q.(sr_Payload) q.(sr_Priority) v))]%string.

(** What a [json.Decoder] finds in a body of which [MaxBytesReader] lets
    [limit] bytes through: the first value; what comes after it is not looked
    at, except that a value without brackets ends with the byte after it or
    with the body. *)
Definition body_value (limit : option Z) (body : string) : option json :=
  let seen := match limit with
              | Some n => String.substring 0 (Z.to_nat n) body
              | None => body
              end in
  '(v, rest) ← read_value (S (2 * String.length seen)) 0 (skip seen);
  match v with
  | JObj _ | JArr _ => Some v
  | _ => if String.eqb rest "" && negb (String.eqb seen body) then None else Some v
  end.

(** [json.NewDecoder(r.Body).Decode(&req)] (rest.go:72-73) *)
Definition decode_body `{JsonTexts} (limit : option Z) (body : string) : goresult SubmitTaskRequest :=
  match v ← body_value limit body; decode_struct submit_json v (mkSubmit "" None 0 None) with
  | Some req => Ok req
  | None => Err (ErrNew (json_error "handler.SubmitTaskRequest" body))
  end.

Example decode_body_ex `{JsonTexts} :
  let body := "{" +:+ field "type" +:+ write_string "email" +:+ ", " +:+ field "payload" +:+
    "{ " +:+ field "to" +:+ write_string "a@b.c" +:+ "}, " +:+ field "priority" +:+ "5} trailing" in
  decode_body None body =
    Ok (mkSubmit "email" (Some ("{ " +:+ field "to" +:+ write_string "a@b.c" +:+ "}")) 5 None) /\
  is_ok (decode_body (Some 20) body) = false /\
  decode_body None "null" = Ok (mkSubmit "" None 0 None) /\
  is_ok (decode_body None ("{" +:+ field "priority" +:+ "1.0}")) = false.
Proof. vm_compute. done. Qed.

(** ** The client's side of a call *)

Inductive Body : Type :=
| BodyError (msg : string)               (* {"error": msg} *)
| BodySubmitted (r : SubmitTaskResponse)
| BodyStatus (r : TaskStatusResponse)
| BodyRaw (s : string).

Inductive HttpE : Type -> Type :=
| DecodeBody (limit : option Z) : HttpE (goresult SubmitTaskRequest)
    (* json.NewDecoder(r.Body).Decode, the body capped at [limit] bytes: [decode_body] *)
| SetHeader (key value : string) : HttpE unit
| WriteHeader (code : Z) : HttpE unit
| WriteBody (b : Body) : HttpE (option error)
| LogRequest (method path : string) (status duration_ms : Z) : HttpE unit.

Inductive StreamE : Type -> Type :=
| SelectTicker : StreamE bool            (* [true]: stream.Context().Done(); [false]: a tick *)
| Send (resp : PbTaskStatus) : StreamE (option error)
| Recv : StreamE (goresult PbSubmitRequest)
| SendAndClose (resp : PbBulkResponse) : StreamE (option error).

Inductive GwE : Type -> Type :=
| GwSvc {X} (e : SvcE X) : GwE X
| GwHttp {X} (e : HttpE X) : GwE X
| GwStream {X} (e : StreamE X) : GwE X.
#[export] Instance SubE_GwStore : SubE StoreE GwE := fun X e => GwSvc (OnStore e).
#[export] Instance SubE_GwRepo : SubE RepoE GwE := fun X e => GwSvc (OnRepo e).
#[export] Instance SubE_GwProducer : SubE ProducerE GwE := fun X e => GwSvc (OnProducer e).
#[export] Instance SubE_GwSys : SubE SysE GwE := fun X e => GwSvc (OnSys e).
#[export] Instance SubE_GwMetric : SubE MetricE GwE := fun X e => GwSvc (OnMetric e).
#[export] Instance SubE_GwHttp : SubE HttpE GwE := @GwHttp.
#[export] Instance SubE_GwStream : SubE StreamE GwE := @GwStream.

Definition StatusOK : Z := 200.
Definition StatusAccepted : Z := 202.
Definition StatusBadRequest : Z := 400.
Definition StatusNotFound : Z := 404.
Definition StatusInternalServerError : Z := 500.
Definition StatusServiceUnavailable : Z := 503.

Definition codes_InvalidArgument : Z := 3.
Definition codes_NotFound : Z := 5.
Definition codes_Internal : Z := 13.

(** An HTTP request, as far as the handlers look at it. *)
Record Request := mkRequest {
  r_ctx : Ctx; r_method : string; r_path : string; r_limit : option Z }.

(** ** REST (rest.go) *)

(** [writeError] (rest.go:239-243) *)
Definition writeError (code : Z) (msg : string) : prog GwE unit :=
  _ ← trigger (SetHeader "Content-Type" "application/json");
  _ ← trigger (WriteHeader code);
  _ ← trigger (WriteBody (BodyError msg));
  mret tt.

(** The literal body of a probe: an object with one member, status. *)
Definition status_body (v : string) : string :=
  "{" +:+ dquote +:+ "status" +:+ dquote +:+ ":" +:+ dquote +:+ v +:+ dquote +:+ "}".

Section Gateway.
Context `{UnicodeTables, TaskCodec}.

(** The task of a submission (rest.go:95-105). *)
Definition submitted_task (req : SubmitTaskRequest) (taskID : string) (now : Time) : Task.t :=
  Task.mk taskID req.(sr_Type) req.(sr_Payload) StatusPending req.(sr_Priority) 0 3
    now now req.(sr_ScheduledAt) None.

(** rest.go:67-155 *)
Definition REST_SubmitTask (r : Request) : prog GwE unit :=
  let ctx := r.(r_ctx) in
  dec ← trigger (DecodeBody r.(r_limit));
  match dec with
  | Err _ => writeError StatusBadRequest "invalid request body"
  | Ok req =>
      if blank req.(sr_Type) then writeError StatusBadRequest "field 'type' is required"
      else if (byte_len req.(sr_Payload) =? 0)
              || bool_decide (req.(sr_Payload) = Some "null") then
        writeError StatusBadRequest "field 'payload' is required"
      else
        taskID ← trigger NewUUID;
        now ← trigger Now;
        let task := submitted_task req taskID now in
        err ← trigger (SetTaskMeta ctx task);
        match err with
        | Some _ => writeError StatusInternalServerError "failed to create task"
        | None =>
            err ← trigger (SetStatus ctx taskID StatusPending);
            match err with
            | Some _ => writeError StatusInternalServerError "failed to create task"
            | None =>
                _ ← trigger (Create ctx task);
                match marshalTask task with
                | Err _ => writeError StatusInternalServerError "failed to serialize task"
                | Ok payload =>
                    err ← trigger (Publish ctx pendingTopic taskID payload);
                    match err with
                    | Some _ => writeError StatusInternalServerError "failed to enqueue task"
                    | None =>
                        _ ← trigger (Inc (APITasksSubmitted req.(sr_Type)));
                        _ ← trigger (SetHeader "Content-Type" "application/json");
                        _ ← trigger (WriteHeader StatusAccepted);
                        _ ← trigger (WriteBody (BodySubmitted
                               (mkSubmitted taskID StatusPending now)));
                        mret tt
                    end
                end
            end
        end
  end.

(** The reply for a task (rest.go:195-206). *)
Definition rest_status (task : Task.t) : TaskStatusResponse :=
  mkStatus task.(Task.ID) task.(Task.Type_) task.(Task.Status_) task.(Task.Priority)
    task.(Task.Attempts) task.(Task.CreatedAt) task.(Task.CompletedAt)
    (match task.(Task.CompletedAt) with
     | Some t => Milliseconds (Sub t task.(Task.CreatedAt))
     | None => 0
     end).

(** How a task is looked up by both APIs (rest.go:168-193,
    grpc.go:107-125): Redis, then PostgreSQL if Redis does not know it, then
    the live status. [Err true]: not found; [Err false]: another error. *)
Definition lookup_task (ctx : Ctx) (taskID : string) : prog GwE (result bool Task.t) :=
  meta ← trigger (GetTaskMeta ctx taskID);
  found ← (match meta with
           | Ok task => mret (Ok task)
           | Err err =>
               match errors_As_TaskNotFound err with
               | None => mret (Err false)
               | Some _ =>
                   row ← trigger (GetByID ctx taskID);
                   match row with
                   | Ok task => mret (Ok task)
                   | Err err =>
                       match errors_As_TaskNotFound err with
                       | Some _ => mret (Err true)
                       | None => mret (Err false)
                       end
                   end
               end
           end);
  match found with
  | Err nf => mret (Err nf)
  | Ok task =>
      st ← trigger (GetStatus ctx taskID);
      match st with
      | Ok status => mret (Ok (Task.set_Status status task))
      | Err _ => mret (Ok task)
      end
  end.

(** rest.go:158-212; [taskID] is the URL parameter *)
Definition REST_GetTaskStatus (taskID : string) (r : Request) : prog GwE unit :=
  if String.eqb taskID "" then writeError StatusBadRequest "task ID is required"
  else
    found ← lookup_task r.(r_ctx) taskID;
    match found with
    | Err true => writeError StatusNotFound "task not found"
    | Err false => writeError StatusInternalServerError "failed to retrieve task"
    | Ok task =>
        _ ← trigger (SetHeader "Content-Type" "application/json");
        _ ← trigger (WriteBody (BodyStatus (rest_status task)));
        mret tt
    end.

(** rest.go:215-219 *)
Definition REST_Healthz (r : Request) : prog GwE unit :=
  _ ← trigger (SetHeader "Content-Type" "application/json");
  _ ← trigger (WriteHeader StatusOK);
  _ ← trigger (WriteBody (BodyRaw (status_body "ok")));
  mret tt.

(** rest.go:222-237 *)
Definition REST_Readyz (r : Request) : prog GwE unit :=
  let ctx := CtxTimeout r.(r_ctx) (2 * Second) in
  st ← trigger (GetStatus ctx "__readyz__");
  let down := match st with
              | Ok _ => false
              | Err err => match errors_As_TaskNotFound err with
                           | Some _ => false | None => true end
              end in
  if down then writeError StatusServiceUnavailable "redis not ready"
  else
    _ ← trigger (SetHeader "Content-Type" "application/json");
    _ ← trigger (WriteHeader StatusOK);
    _ ← trigger (WriteBody (BodyRaw (status_body "ready")));
    mret tt.

(** ** gRPC (grpc.go) *)

Definition pb_task (req : PbSubmitRequest) (taskID : string) (now : Time) : Task.t :=
  Task.mk taskID req.(pb_Type) req.(pb_Payload) StatusPending req.(pb_Priority) 0 3 now now
    (if req.(pb_ScheduledAt) =? 0 then None else Some (TimeUnix req.(pb_ScheduledAt))) None.

(** grpc.go:42-100; the error of [json.Marshal] is dropped *)
Definition GRPC_SubmitTask (ctx : Ctx) (req : PbSubmitRequest)
  : prog GwE (goresult PbSubmitResponse) :=
  if String.eqb req.(pb_Type) "" then
    mret (Err (GrpcStatus codes_InvalidArgument "field 'type' is required"))
  else if byte_len req.(pb_Payload) =? 0 then
    mret (Err (GrpcStatus codes_InvalidArgument "field 'payload' is required"))
  else
    taskID ← trigger NewUUID;
    now ← trigger Now;
    let task := pb_task req taskID now in
    err ← trigger (SetTaskMeta ctx task);
    match err with
    | Some _ => mret (Err (GrpcStatus codes_Internal "failed to create task"))
    | None =>
        err ← trigger (SetStatus ctx taskID StatusPending);
        match err with
        | Some _ => mret (Err (GrpcStatus codes_Internal "failed to create task"))
        | None =>
            _ ← trigger (Create ctx task);
            let payload := match marshalTask task with Ok d => d | Err _ => "" end in
            err ← trigger (Publish ctx pendingTopic taskID payload);
            match err with
            | Some _ => mret (Err (GrpcStatus codes_Internal "failed to enqueue task"))
            | None => mret (Ok (mkPbSubmitted taskID StatusPending (Unix now)))
            end
        end
    end.

(** grpc.go:127-137 *)
Definition pb_status (task : Task.t) : PbTaskStatus :=
  match task.(Task.CompletedAt) with
  | Some t =>
      mkPbStatus task.(Task.ID) task.(Task.Type_) task.(Task.Status_) (int32 task.(Task.Attempts))
        (Unix task.(Task.CreatedAt)) (Unix t) (Milliseconds (Sub t task.(Task.CreatedAt)))
  | None =>
      mkPbStatus task.(Task.ID) task.(Task.Type_) task.(Task.Status_) (int32 task.(Task.Attempts))
        (Unix task.(Task.CreatedAt)) 0 0
  end.

(** grpc.go:102-139 *)
Definition GRPC_GetTaskStatus (ctx : Ctx) (taskId : string) : prog GwE (goresult PbTaskStatus) :=
  if String.eqb taskId "" then
    mret (Err (GrpcStatus codes_InvalidArgument "task_id is required"))
  else
    found ← lookup_task ctx taskId;
    match found with
    | Err true => mret (Err (GrpcStatus codes_NotFound "task not found"))
    | Err false => mret (Err (GrpcStatus codes_Internal "failed to retrieve task"))
    | Ok task => mret (Ok (pb_status task))
    end.

(** The loop of grpc.go:153-169, at most [n] turns; [None] when they ran
    out. *)
Fixpoint stream_loop (n : nat) (ctx : Ctx) (taskId : string)
  : prog GwE (option (option error)) :=
  match n with
  | O => mret None
  | S n' =>
      done ← trigger SelectTicker;
      if done : bool then mret (Some None)
      else
        resp ← GRPC_GetTaskStatus ctx taskId;
        match resp with
        | Err err => mret (Some (Some err))
        | Ok resp =>
            err ← trigger (Send resp);
            match err with
            | Some err => mret (Some (Some err))
            | None =>
                if IsTerminal resp.(pbt_Status) then mret (Some None)
                else stream_loop n' ctx taskId
            end
        end
  end.

(** grpc.go:142-170 *)
Definition GRPC_StreamTaskUpdates (n : nat) (ctx : Ctx) (taskId : string)
  : prog GwE (option (option error)) :=
  if String.eqb taskId "" then
    mret (Some (Some (GrpcStatus codes_InvalidArgument "task_id is required")))
  else stream_loop n ctx taskId.

(** The loop of grpc.go:179-195: the reply to send, or the error that ends
    the call. *)
Fixpoint bulk_loop (n : nat) (ctx : Ctx) (submitted failed : Z) (taskIDs : list string)
  : prog GwE (option (goresult PbBulkResponse)) :=
  match n with
  | O => mret None
  | S n' =>
      req ← trigger Recv;
      match req with
      | Err err =>
          if errors_Is err IoEOF then mret (Some (Ok (mkPbBulk submitted failed taskIDs)))
          else mret (Some (Err (GrpcStatus codes_Internal ("stream recv: " +:+ Error err))))
      | Ok req =>
          resp ← GRPC_SubmitTask ctx req;
          match resp with
          | Err _ => bulk_loop n' ctx submitted (int32 (failed + 1)) taskIDs
          | Ok resp => bulk_loop n' ctx (int32 (submitted + 1)) failed
                         (taskIDs ++ [resp.(pbs_TaskId)])
          end
      end
  end.

(** grpc.go:173-202 *)
Definition GRPC_BulkSubmitTasks (n : nat) (ctx : Ctx) : prog GwE (option (option error)) :=
  out ← bulk_loop n ctx 0 0 [];
  match out with
  | None => mret None
  | Some (Err err) => mret (Some (Some err))
  | Some (Ok resp) => err ← trigger (SendAndClose resp); mret (Some err)
  end.
End Gateway.

(** ** Middleware (middleware/logging.go, max_body_size.go) *)

(** [responseWriter]: [WriteHeader] records the code and passes it on. *)
Fixpoint capture_status {A} (p : prog GwE A) (status : Z) : prog GwE (A * Z) :=
  match p with
  | Ret a => Ret (a, status)
  | @Vis _ _ X e k =>
      match e in GwE X return (X -> prog GwE A) -> (X -> Z -> prog GwE (A * Z)) -> prog GwE (A * Z) with
      | @GwHttp X' e' => fun k rec =>
          match e' in HttpE X return (X -> prog GwE A) -> (X -> Z -> prog GwE (A * Z)) ->
                                     prog GwE (A * Z) with
          | WriteHeader code => fun _ rec => Vis (GwHttp (WriteHeader code)) (fun x => rec x code)
          | e0 => fun _ rec => Vis (GwHttp e0) (fun x => rec x status)
          end k rec
      | e0 => fun _ rec => Vis e0 (fun x => rec x status)
      end k (fun x s => capture_status (k x) s)
  end.

(** logging.go:21-38 *)
Definition RequestLogger (next : Request -> prog GwE unit) (r : Request) : prog GwE unit :=
  start ← trigger Now;
  '(_, status) ← capture_status (next r) StatusOK;
  d ← trigger (Since start);
  trigger (LogRequest r.(r_method) r.(r_path) status (Milliseconds d)).

(** max_body_size.go:7-14 *)
Definition MaxBodySize (limit : Z) (next : Request -> prog GwE unit) (r : Request)
  : prog GwE unit :=
  next (mkRequest r.(r_ctx) r.(r_method) r.(r_path) (Some limit)).

(** ** What a trace of the gateway contains *)

(** The calls to the services. *)
Definition svc_event (ev : event GwE) : option (event SvcE) :=
  match ev with
  | @Ev _ X e x =>
      match e in GwE X return X -> option (event SvcE) with
      | GwSvc e' => fun x => Some (Ev e' x)
      | _ => fun _ => None
      end x
  end.
Definition svc_part (tr : list (event GwE)) : svc_trace := omap svc_event tr.

(** The status codes and bodies sent, and the updates streamed. *)
Definition http_code (ev : event GwE) : option Z :=
  match ev with Ev (GwHttp (WriteHeader code)) _ => Some code | _ => None end.
Definition http_body (ev : event GwE) : option Body :=
  match ev with Ev (GwHttp (WriteBody b)) _ => Some b | _ => None end.
Definition http_codes (tr : list (event GwE)) := omap http_code tr.
Definition http_bodies (tr : list (event GwE)) := omap http_body tr.

(** What the decoder of the body answered. *)
Definition decoding (ev : event GwE) : option (goresult SubmitTaskRequest) :=
  match ev with
  | @Ev _ X e x =>
      match e in GwE X return X -> option (goresult SubmitTaskRequest) with
      | GwHttp e' => match e' in HttpE X return X -> option (goresult SubmitTaskRequest) with
                     | DecodeBody _ => Some
                     | _ => fun _ => None
                     end
      | _ => fun _ => None
      end x
  end.
Definition decodings (tr : list (event GwE)) := omap decoding tr.

Definition sent_update (ev : event GwE) : option (PbTaskStatus * option error) :=
  match ev with
  | @Ev _ X e x =>
      match e in GwE X return X -> option (PbTaskStatus * option error) with
      | GwStream e' =>
          match e' in StreamE X return X -> option (PbTaskStatus * option error) with
          | Send r => fun o => Some (r, o)
          | _ => fun _ => None
          end
      | _ => fun _ => None
      end x
  end.
Definition sent_updates (tr : list (event GwE)) := omap sent_update tr.

Definition received (ev : event GwE) : option PbSubmitRequest :=
  match ev with
  | @Ev _ X e x =>
      match e in GwE X return X -> option PbSubmitRequest with
      | GwStream e' =>
          match e' in StreamE X return X -> option PbSubmitRequest with
          | Recv => fun r => match r with Ok q => Some q | Err _ => None end
          | _ => fun _ => None
          end
      | _ => fun _ => None
      end x
  end.
Definition received_requests (tr : list (event GwE)) := omap received tr.

(** A call of a service, as the gateway makes it. *)
Definition gw_call (ev : event SvcE) : event GwE := match ev with Ev e x => Ev (GwSvc e) x end.

Lemma svc_part_calls t : svc_part (map gw_call t) = t.
Proof. unfold svc_part. induction t as [|[X e x] t IH]; [done|]. cbn. by f_equal. Qed.
Lemma svc_part_app t1 t2 : svc_part (t1 ++ t2) = svc_part t1 ++ svc_part t2.
Proof. apply omap_app. Qed.
Lemma http_codes_app t1 t2 : http_codes (t1 ++ t2) = http_codes t1 ++ http_codes t2.
Proof. apply omap_app. Qed.
Lemma sent_updates_app t1 t2 : sent_updates (t1 ++ t2) = sent_updates t1 ++ sent_updates t2.
Proof. apply omap_app. Qed.
Lemma received_app t1 t2 :
  received_requests (t1 ++ t2) = received_requests t1 ++ received_requests t2.
Proof. apply omap_app. Qed.
#[export] Hint Rewrite svc_part_app http_codes_app sent_updates_app received_app : trace.
