(* ===== verification/GatewaySpec.v ===== *)
(** * Properties of the API gateway

    Submission, status lookup, streaming and bulk submission, over every
    execution of the handlers. *)

From S2P Require Import Prelude Prog GoStrings Domain JsonText Json GoFloat Effects Fakes Gateway.

Section Submission.
Context `{UnicodeTables, TaskCodec}.
Implicit Types (tr : list (event GwE)) (r : Request).

(** The calls of an accepted submission, in order. *)
Definition accepted_calls (ctx : Ctx) (task : Task.t) (now : Time) (o : option error)
    (payload : string) : svc_trace :=
  [NewUUID ~> task.(Task.ID); Now ~> now; SetTaskMeta ctx task ~> None;
   SetStatus ctx task.(Task.ID) StatusPending ~> None; Create ctx task ~> o;
   Publish ctx pendingTopic task.(Task.ID) payload ~> None].

(** A submission that was refused or failed: nothing was published. *)
Definition no_publish (t : svc_trace) : Prop :=
  Forall (fun x => x.2 <> None) (publications t).

Inductive submission r : list (event GwE) -> Prop :=
| sub_refused dec msg o :
    submission r [DecodeBody r.(r_limit) ~> dec;
      SetHeader "Content-Type" "application/json" ~> tt;
      WriteHeader StatusBadRequest ~> tt; WriteBody (BodyError msg) ~> o]
| sub_failed req calls msg o :
    no_publish (svc_part calls) -> http_codes calls = [] ->
    submission r ((DecodeBody r.(r_limit) ~> Ok req) :: calls ++
      [SetHeader "Content-Type" "application/json" ~> tt;
       WriteHeader StatusInternalServerError ~> tt; WriteBody (BodyError msg) ~> o])
| sub_accepted req id now o v o' :
    let task := submitted_task req id now in
    marshalTask task = Ok v -> blank req.(sr_Type) = false ->
    byte_len req.(sr_Payload) <> 0 ->
    submission r
      [DecodeBody r.(r_limit) ~> Ok req; NewUUID ~> id; Now ~> now;
       SetTaskMeta r.(r_ctx) task ~> None; SetStatus r.(r_ctx) id StatusPending ~> None;
       Create r.(r_ctx) task ~> o; Publish r.(r_ctx) pendingTopic id v ~> None;
       Inc (APITasksSubmitted req.(sr_Type)) ~> tt;
       SetHeader "Content-Type" "application/json" ~> tt; WriteHeader StatusAccepted ~> tt;
       WriteBody (BodySubmitted (mkSubmitted id StatusPending now)) ~> o'].

Lemma exec_writeError code msg tr u :
  exec (writeError code msg) tr u ->
  exists o, tr = [SetHeader "Content-Type" "application/json" ~> tt;
                  WriteHeader code ~> tt; WriteBody (BodyError msg) ~> o].
Proof.
  unfold writeError. intros Hex. exec_call in Hex as []. exec_call in Hex as [].
  exec_call in Hex as o. exec_inv. by exists o.
Qed.

Lemma submit_inv r tr u : exec (REST_SubmitTask r) tr u -> submission r tr.
Proof.
  unfold REST_SubmitTask. intros Hex. cbn zeta in Hex. exec_call in Hex as dec.
  destruct dec as [req|e].
  2:{ apply exec_writeError in Hex as [o ->]. apply sub_refused. }
  destruct (blank (sr_Type req)) eqn:Hblank.
  { apply exec_writeError in Hex as [o ->]. apply sub_refused. }
  destruct ((byte_len (sr_Payload req) =? 0) || _) eqn:Hpay.
  { apply exec_writeError in Hex as [o ->]. apply sub_refused. }
  apply orb_false_iff in Hpay as [Hlen%Z.eqb_neq _].
  exec_call in Hex as id. exec_call in Hex as now. exec_call in Hex as [e|].
  { apply exec_writeError in Hex as [o ->].
    apply (sub_failed r req [_; _; _]); [by apply Forall_nil_2|done]. }
  exec_call in Hex as [e|].
  { apply exec_writeError in Hex as [o ->].
    apply (sub_failed r req [_; _; _; _]); [by apply Forall_nil_2|done]. }
  exec_call in Hex as o. destruct (marshalTask _) as [v|e] eqn:Hm.
  2:{ apply exec_writeError in Hex as [o' ->].
      apply (sub_failed r req [_; _; _; _; _]); [by apply Forall_nil_2|done]. }
  exec_call in Hex as [e|].
  { apply exec_writeError in Hex as [o' ->].
    apply (sub_failed r req [_; _; _; _; _; _]); [|done].
    unfold no_publish. cbn. by apply Forall_singleton. }
  exec_call in Hex as []. exec_call in Hex as []. exec_call in Hex as [].
  exec_call in Hex as o'. exec_inv. by apply sub_accepted.
Qed.

(** An accepted submission, call by call. *)
Lemma accepted_inv r tr u :
  exec (REST_SubmitTask r) tr u -> http_codes tr = [StatusAccepted] ->
  exists req id now o v o',
    let task := submitted_task req id now in
    marshalTask task = Ok v /\ blank req.(sr_Type) = false /\ byte_len req.(sr_Payload) <> 0 /\
    tr = [DecodeBody r.(r_limit) ~> Ok req; NewUUID ~> id; Now ~> now;
       SetTaskMeta r.(r_ctx) task ~> None; SetStatus r.(r_ctx) id StatusPending ~> None;
       Create r.(r_ctx) task ~> o; Publish r.(r_ctx) pendingTopic id v ~> None;
       Inc (APITasksSubmitted req.(sr_Type)) ~> tt;
       SetHeader "Content-Type" "application/json" ~> tt; WriteHeader StatusAccepted ~> tt;
       WriteBody (BodySubmitted (mkSubmitted id StatusPending now)) ~> o'].
Proof.
  intros Hex Hcode. apply submit_inv in Hex.
  destruct Hex as [|req calls msg o Hno Hc|req id now o v o' task Hm Hb Hl]; [done| |].
  - exfalso. change (_ :: calls ++ ?l) with ([DecodeBody r.(r_limit) ~> Ok req] ++ calls ++ l) in Hcode.
    rewrite !http_codes_app, Hc in Hcode. discriminate Hcode.
  - by exists req, id, now, o, v, o'.
Qed.

(** C11: every submission gets exactly one status code, and it is
    202 exactly when the task was published to tasks.pending. Then the task
    and its PENDING status had been stored before, under the same ID, the
    published bytes are the stored task, and the client is told that ID. *)
Theorem rest_submit_accepted_iff_published r tr u :
  exec (REST_SubmitTask r) tr u ->
  exists code, http_codes tr = [code] /\
    (code = StatusAccepted <-> ~ no_publish (svc_part tr)) /\
    (code = StatusAccepted -> exists req id now o v,
       let task := submitted_task req id now in
       marshalTask task = Ok v /\
       svc_part tr = accepted_calls r.(r_ctx) task now o v ++
                     [Inc (APITasksSubmitted req.(sr_Type)) ~> tt] /\
       http_bodies tr = [BodySubmitted (mkSubmitted id StatusPending now)]) /\
    (code = StatusBadRequest -> svc_part tr = []).
Proof.
  intros Hex. apply submit_inv in Hex.
  destruct Hex as [dec msg o|req calls msg o Hno Hc|req id now o v o' task Hm Hb Hl].
  - exists StatusBadRequest. split_and!; try done. split; [done|]. intros []. by apply Forall_nil_2.
  - exists StatusInternalServerError.
    change (_ :: calls ++ ?l) with ([DecodeBody r.(r_limit) ~> Ok req] ++ calls ++ l).
    rewrite !http_codes_app, Hc, !svc_part_app. cbn. rewrite app_nil_r.
    split_and!; try done.
  - exists StatusAccepted. split; [done|]. split; [split; [|done]|].
    + intros _ Hn. unfold no_publish in Hn. cbn in Hn. by apply Forall_inv in Hn.
    + split; [|done]. intros _. by exists req, id, now, o, v.
Qed.

(** The executions of a gRPC submission. *)
Lemma grpc_submit_inv ctx req tr x :
  exec (GRPC_SubmitTask ctx req) tr x ->
  http_codes tr = [] /\ received_requests tr = [] /\ sent_updates tr = [] /\
  match x with
  | Err e => no_publish (svc_part tr)
  | Ok resp =>
      exists id now o v,
        let task := pb_task req id now in
        resp = mkPbSubmitted id StatusPending (Unix now) /\
        v = match marshalTask task with Ok d => d | Err _ => "" end /\
        req.(pb_Type) <> "" /\ byte_len req.(pb_Payload) <> 0 /\
        tr = [NewUUID ~> id; Now ~> now; SetTaskMeta ctx task ~> None;
              SetStatus ctx id StatusPending ~> None; Create ctx task ~> o;
              Publish ctx pendingTopic id v ~> None]
  end.
Proof.
  assert (Hnil : no_publish []) by by apply Forall_nil_2.
  unfold GRPC_SubmitTask. intros Hex.
  destruct (String.eqb_spec (pb_Type req) "") as [|Hty]; [by exec_inv|].
  destruct (Z.eqb_spec (byte_len (pb_Payload req)) 0) as [|Hlen]; [by exec_inv|].
  exec_call in Hex as id. exec_call in Hex as now. exec_call in Hex as [e|]; [by exec_inv|].
  exec_call in Hex as [e|]; [by exec_inv|]. exec_call in Hex as o. cbn zeta in Hex.
  exec_call in Hex as [e|]; exec_inv; split_and!; try done.
  - unfold no_publish. cbn. by apply Forall_singleton.
  - by eexists id, now, o, _.
Qed.

(** A gRPC request that says the same as a REST request. *)
Definition same_request (pb : PbSubmitRequest) (req : SubmitTaskRequest) : Prop :=
  req.(sr_Type) = pb.(pb_Type) /\ req.(sr_Payload) = pb.(pb_Payload) /\
  req.(sr_Priority) = pb.(pb_Priority) /\
  req.(sr_ScheduledAt) =
    (if pb.(pb_ScheduledAt) =? 0 then None else Some (TimeUnix pb.(pb_ScheduledAt))).

(** A request that is refused although it has a type and a payload: only REST
    looks for blank types and null payloads. *)
Definition rest_refuses (req : SubmitTaskRequest) : bool :=
  blank req.(sr_Type) || bool_decide (req.(sr_Payload) = Some "null"%string).

(** What REST does with a request that gRPC accepted with the calls [t], which
    published [task]: it refuses it without a call; or it makes the same calls
    and counts the submission; or, if [task] has no JSON text, it makes the
    same calls up to the publish and gives up, where gRPC published an empty
    message. *)
Inductive rest_instead (req : SubmitTaskRequest) (task : Task.t) (t : svc_trace)
  : list Z -> svc_trace -> Prop :=
| rest_refused : rest_refuses req = true -> rest_instead req task t [StatusBadRequest] []
| rest_same v :
    rest_refuses req = false -> marshalTask task = Ok v ->
    publications t = [(pendingTopic, task.(Task.ID), v, None)] ->
    rest_instead req task t [StatusAccepted] (t ++ [Inc (APITasksSubmitted req.(sr_Type)) ~> tt])
| rest_unserialised e t' ctx :
    rest_refuses req = false -> marshalTask task = Err e ->
    t = t' ++ [Publish ctx pendingTopic task.(Task.ID) "" ~> None] ->
    rest_instead req task t [StatusInternalServerError] t'.

(** When it does neither refuse nor fail to serialise, it accepts. *)
Lemma rest_instead_accepts req task t codes t' :
  rest_instead req task t codes t' -> rest_refuses req = false -> is_ok (marshalTask task) = true ->
  codes = [StatusAccepted] /\ t' = t ++ [Inc (APITasksSubmitted req.(sr_Type)) ~> tt].
Proof. intros [Hr|v _ _ _|e t1 ctx _ Hm _] Hno Hok; [congruence|done|by rewrite Hm in Hok]. Qed.

(** C33: take a submission that was accepted over gRPC, and the same request
    over REST with the same answers of the servers: REST makes the very calls
    and answers 202, with the differences that [rest_instead] lists (blank
    types, null payloads and tasks without a JSON text are refused over REST
    only), and gRPC never counts a submission in the metric. *)
Theorem submit_apis_agree ctx pb req r tr resp :
  exec (GRPC_SubmitTask ctx pb) tr (Ok resp) ->
  same_request pb req -> r.(r_ctx) = ctx ->
  metric_incs (svc_part tr) = [] /\
  exists task tr',
    meta_writes (svc_part tr) = [(task, None)] /\ task.(Task.ID) = resp.(pbs_TaskId) /\
    exec (REST_SubmitTask r) ((DecodeBody r.(r_limit) ~> Ok req) :: tr') tt /\
    rest_instead req task (svc_part tr) (http_codes tr') (svc_part tr').
Proof.
  intros Hex (Hty & Hpay & Hprio & Hsch) <-.
  apply grpc_submit_inv in Hex as (_ & _ & _ & id & now & o & v & -> & -> & _ & Hlen & ->).
  split; [done|]. exists (pb_task pb id now).
  assert (submitted_task req id now = pb_task pb id now) as Htask.
  { unfold submitted_task, pb_task. congruence. }
  pose proof (proj2 (Z.eqb_neq _ _) Hlen) as Hlen'.
  destruct (blank (sr_Type req)) eqn:Hblank.
  { eexists. split; [done|]. split; [done|]. split; [unfold REST_SubmitTask; exec_do (Ok req); rewrite Hblank;
      unfold writeError; cbn [orb]; exec_do tt; exec_do tt; by exec_do (@None error)|].
    apply rest_refused. unfold rest_refuses. by rewrite Hblank. }
  destruct (bool_decide (pb_Payload pb = Some "null"%string)) eqn:Hnull.
  { eexists. split; [done|]. split; [done|]. split; [unfold REST_SubmitTask; exec_do (Ok req); rewrite Hblank, Hpay, Hlen', Hnull;
      unfold writeError; cbn [orb]; exec_do tt; exec_do tt; by exec_do (@None error)|].
    apply rest_refused. unfold rest_refuses. by rewrite Hblank, Hpay, Hnull. }
  assert (rest_refuses req = false) as Href by (unfold rest_refuses; by rewrite Hblank, Hpay, Hnull).
  destruct (marshalTask (pb_task pb id now)) as [data|e] eqn:Hd.
  - eexists. split; [done|]. split; [done|]. split; [unfold REST_SubmitTask; exec_do (Ok req); rewrite Hblank, Hpay, Hlen', Hnull; cbn [orb];
      exec_do id; exec_do now; cbn zeta; exec_do (@None error);
      exec_do (@None error); exec_do o; rewrite Htask, Hd;
      exec_do (@None error); exec_do tt; exec_do tt; exec_do tt; by exec_do (@None error)|].
    cbn -[submitted_task pb_task]. rewrite Htask.
    by eapply (rest_same req (pb_task pb id now) [_; _; _; _; _; _] data).
  - eexists. split; [done|]. split; [done|]. split; [unfold REST_SubmitTask; exec_do (Ok req); rewrite Hblank, Hpay, Hlen', Hnull; cbn [orb];
      exec_do id; exec_do now; cbn zeta; exec_do (@None error);
      exec_do (@None error); exec_do o; rewrite Htask, Hd;
      unfold writeError; exec_do tt; exec_do tt; by exec_do (@None error)|].
    cbn -[submitted_task pb_task]. rewrite Htask.
    by eapply (rest_unserialised req (pb_task pb id now) _ e [_; _; _; _; _]).
Qed.
End Submission.

(** ** Status lookup *)

Definition not_found (e : error) : Prop := errors_As_TaskNotFound e <> None.

(** The task with its live status, if that could be read. *)
Definition live (st : goresult Status) (task : Task.t) : Task.t :=
  match st with Ok s => Task.set_Status s task | Err _ => task end.

Section Status.
Context `{UnicodeTables}.
Implicit Types (tr : list (event GwE)) (ctx : Ctx).

(** The ways a lookup can go, with its calls. *)
Inductive lookup ctx id : svc_trace -> result bool Task.t -> Prop :=
| lk_redis task st :
    lookup ctx id [GetTaskMeta ctx id ~> Ok task; GetStatus ctx id ~> st] (Ok (live st task))
| lk_postgres e task st :
    not_found e ->
    lookup ctx id [GetTaskMeta ctx id ~> Err e; GetByID ctx id ~> Ok task;
                   GetStatus ctx id ~> st] (Ok (live st task))
| lk_missing e1 e2 :
    not_found e1 -> not_found e2 ->
    lookup ctx id [GetTaskMeta ctx id ~> Err e1; GetByID ctx id ~> Err e2] (Err true)
| lk_redis_down e :
    ~ not_found e -> lookup ctx id [GetTaskMeta ctx id ~> Err e] (Err false)
| lk_postgres_down e1 e2 :
    not_found e1 -> ~ not_found e2 ->
    lookup ctx id [GetTaskMeta ctx id ~> Err e1; GetByID ctx id ~> Err e2] (Err false).

Lemma lookup_inv ctx id tr x :
  exec (lookup_task ctx id) tr x ->
  http_codes tr = [] /\ sent_updates tr = [] /\ http_bodies tr = [] /\
  lookup ctx id (svc_part tr) x.
Proof.
  unfold lookup_task. intros Hex. exec_call in Hex as meta.
  apply exec_bind in Hex as (t1 & t2 & found & -> & Hf & Hex).
  assert (Hlive : forall task, found = Ok task ->
    exists st, t2 = [GetStatus ctx id ~> st] /\ x = Ok (live st task)).
  { intros task ->. exec_call in Hex as st. exists st. destruct st; by exec_inv. }
  destruct meta as [task|e].
  { apply exec_mret in Hf as [-> ->]. destruct (Hlive task eq_refl) as (st & -> & ->).
    split_and!; try done. apply lk_redis. }
  destruct (errors_As_TaskNotFound e) as [i|] eqn:He.
  2:{ exec_inv. split_and!; try done. apply lk_redis_down. unfold not_found. rewrite He. by intros []. }
  assert (not_found e) as Hne by (unfold not_found; by rewrite He).
  exec_call in Hf as row. destruct row as [task|e2].
  { apply exec_mret in Hf as [-> ->]. destruct (Hlive task eq_refl) as (st & -> & ->).
    split_and!; try done. by apply lk_postgres. }
  destruct (errors_As_TaskNotFound e2) eqn:He2; exec_inv; split_and!; try done.
  - apply lk_missing; [done|]. unfold not_found. by rewrite He2.
  - apply lk_postgres_down; [done|]. unfold not_found. rewrite He2. by intros [].
Qed.

(** C34: a status request for a task answers 404 exactly when
    Redis and then PostgreSQL say there is no such task, 500 when one of them
    fails, and otherwise the stored task (Redis first) with its live status. *)
Theorem rest_status_reply id r tr u :
  exec (REST_GetTaskStatus id r) tr u -> id <> "" ->
  exists calls x, lookup r.(r_ctx) id calls x /\ svc_part tr = calls /\
    match x with
    | Ok task => http_codes tr = [] /\ http_bodies tr = [BodyStatus (rest_status task)]
    | Err true => http_codes tr = [StatusNotFound] /\
                  http_bodies tr = [BodyError "task not found"]
    | Err false => http_codes tr = [StatusInternalServerError] /\
                   http_bodies tr = [BodyError "failed to retrieve task"]
    end.
Proof.
  unfold REST_GetTaskStatus. intros Hex Hid.
  destruct (String.eqb_spec id ""); [done|].
  apply exec_bind in Hex as (t1 & t2 & found & -> & Hl & Hex).
  apply lookup_inv in Hl as (Hc & _ & Hb & Hl). exists (svc_part t1), found.
  unfold http_bodies in *. rewrite svc_part_app, http_codes_app, omap_app, Hc, Hb.
  split; [done|]. destruct found as [task|[]].
  - exec_call in Hex as []. exec_call in Hex as o. exec_inv. cbn. by rewrite app_nil_r.
  - apply exec_writeError in Hex as [o ->]. cbn. by rewrite app_nil_r.
  - apply exec_writeError in Hex as [o ->]. cbn. by rewrite app_nil_r.
Qed.

(** The gRPC reply to the same calls carries the same
    fields (times in whole seconds, the attempts in 32 bits, no priority). *)
Theorem status_apis_agree id r tr u :
  exec (REST_GetTaskStatus id r) tr u -> id <> "" ->
  exists tr' x, exec (GRPC_GetTaskStatus r.(r_ctx) id) tr' x /\ svc_part tr' = svc_part tr /\
    match http_bodies tr with
    | [BodyStatus s] =>
        exists p, x = Ok p /\ p.(pbt_TaskId) = s.(ts_TaskID) /\ p.(pbt_Type) = s.(ts_Type) /\
          p.(pbt_Status) = s.(ts_Status) /\ p.(pbt_Attempts) = int32 s.(ts_Attempts) /\
          p.(pbt_CreatedAt) = Unix s.(ts_CreatedAt) /\
          p.(pbt_DurationMs) = s.(ts_DurationMs)
    | _ => exists code msg, x = Err (GrpcStatus code msg) /\
             (http_codes tr = [StatusNotFound] <-> code = codes_NotFound)
    end.
Proof.
  unfold REST_GetTaskStatus. intros Hex Hid.
  destruct (String.eqb_spec id "") as [|Hne]; [done|].
  apply exec_bind in Hex as (t1 & t2 & found & -> & Hl & Hex).
  pose proof Hl as (Hc & _ & Hb & _)%lookup_inv.
  exists t1, (match found with
              | Ok task => Ok (pb_status task)
              | Err true => Err (GrpcStatus codes_NotFound "task not found")
              | Err false => Err (GrpcStatus codes_Internal "failed to retrieve task")
              end).
  unfold http_bodies in *. rewrite svc_part_app, http_codes_app, omap_app, Hc, Hb.
  split.
  { unfold GRPC_GetTaskStatus. rewrite (proj2 (String.eqb_neq _ _) Hne), exec_bind.
    exists t1, [], found. rewrite app_nil_r. split; [done|]. split; [done|].
    by destruct found as [task|[]]. }
  destruct found as [task|[]].
  - exec_call in Hex as []. exec_call in Hex as o. exec_inv. cbn. rewrite app_nil_r.
    split; [done|]. exists (pb_status task). unfold pb_status.
    destruct (Task.CompletedAt task) eqn:Hco; cbn; by rewrite ?Hco.
  - apply exec_writeError in Hex as [o ->]. cbn. rewrite app_nil_r. split; [done|]. by do 2 eexists.
  - apply exec_writeError in Hex as [o ->]. cbn. rewrite app_nil_r. split; [done|].
    do 2 eexists. split; [done|]. done.
Qed.
End Status.

(** ** Streaming and bulk submission *)

Section Streams.
Context `{UnicodeTables, TaskCodec}.
Implicit Types (tr : list (event GwE)) (ctx : Ctx).

(** The lookup only calls the stores. *)
Lemma lookup_calls ctx id tr x :
  exec (lookup_task ctx id) tr x -> tr = map gw_call (svc_part tr).
Proof.
  intros Hex. assert (only (fun ev => svc_event ev <> None) (lookup_task ctx id)) as Honly.
  { unfold lookup_task. only_calls. }
  specialize (Honly _ _ Hex). unfold svc_part. clear Hex.
  induction Honly as [|[X e y] t Hev _ IH]; [done|]. destruct e as [X e|X e|X e]; [|done..].
  cbn. by rewrite <- IH.
Qed.

(** A tick: the task was looked up, with the calls [cs] to the stores. *)
Definition polled ctx id (cs : svc_trace) (x : result bool Task.t) (tr : list (event GwE)) : Prop :=
  lookup ctx id cs x /\ tr = (SelectTicker ~> false) :: map gw_call cs.

(** A tick whose answer was sent to the client, and how that went. *)
Definition update_sent ctx id (task : Task.t) (o : option error) tr : Prop :=
  exists cs t, polled ctx id cs (Ok task) t /\ tr = t ++ [Send (pb_status task) ~> o].

Definition lookup_error (missing : bool) : error :=
  if missing then GrpcStatus codes_NotFound "task not found"
  else GrpcStatus codes_Internal "failed to retrieve task".

(** How a stream ended. *)
Inductive stream_end ctx id : list (event GwE) -> error + unit -> Prop :=
| end_client : stream_end ctx id [SelectTicker ~> true] (inr tt)
| end_terminal task tr :
    update_sent ctx id task None tr -> IsTerminal task.(Task.Status_) = true ->
    stream_end ctx id tr (inr tt)
| end_lookup cs missing tr :
    polled ctx id cs (Err missing) tr -> stream_end ctx id tr (inl (lookup_error missing))
| end_send task e tr : update_sent ctx id task (Some e) tr -> stream_end ctx id tr (inl e).

Definition end_result (x : error + unit) : option error :=
  match x with inl e => Some e | inr _ => None end.

Lemma grpc_status_polled ctx id tr x :
  id <> "" -> exec (GRPC_GetTaskStatus ctx id) tr x ->
  exists cs y, lookup ctx id cs y /\ tr = map gw_call cs /\
    x = match y with Ok task => Ok (pb_status task) | Err b => Err (lookup_error b) end.
Proof.
  intros Hid. unfold GRPC_GetTaskStatus. rewrite (proj2 (String.eqb_neq _ _) Hid).
  intros (t1 & t2 & y & -> & Hl & Hex)%exec_bind. pose proof (lookup_calls _ _ _ _ Hl) as Ht.
  apply lookup_inv in Hl as (_ & _ & _ & Hl). exists (svc_part t1), y.
  rewrite <- Ht. destruct y as [task|[]]; apply exec_mret in Hex as [-> ->]; by rewrite app_nil_r.
Qed.

Lemma pb_status_terminal task : (pb_status task).(pbt_Status) = task.(Task.Status_).
Proof. unfold pb_status. by destruct (Task.CompletedAt task). Qed.

Lemma stream_loop_inv n ctx id tr r :
  id <> "" -> exec (stream_loop n ctx id) tr r ->
  exists tasks ticks tail, tr = concat ticks ++ tail /\
    Forall2 (fun task t => update_sent ctx id task None t) tasks ticks /\
    Forall (fun task => IsTerminal task.(Task.Status_) = false) tasks /\
    match r with
    | None => tail = [] /\ length tasks = n
    | Some err => exists x, stream_end ctx id tail x /\ err = end_result x
    end.
Proof.
  intros Hid. revert tr. induction n as [|n IH]; intros tr Hex; cbn [stream_loop] in Hex.
  { exec_inv. by exists [], [], []. }
  exec_call in Hex as [|].
  { exec_inv. exists [], [], [SelectTicker ~> true]. split_and!; try done.
    exists (inr tt). split; [constructor|done]. }
  apply exec_bind in Hex as (t1 & t2 & resp & -> & Hs & Hex).
  apply (grpc_status_polled ctx id _ _ Hid) in Hs as (cs & y & Hl & -> & ->).
  destruct y as [task|b]; cbn beta iota in Hex.
  2:{ exec_inv. eexists [], [], _. split; [reflexivity|]. split_and!; [done..|].
      exists (inl (lookup_error b)). split; [|done]. rewrite app_nil_r. by eapply end_lookup. }
  exec_call in Hex as o.
  assert (update_sent ctx id task o
    ((SelectTicker ~> false) :: map gw_call cs ++ [Send (pb_status task) ~> o])) as Hsent.
  { by exists cs, ((SelectTicker ~> false) :: map gw_call cs). }
  destruct o as [e|].
  { exec_inv. eexists [], [], _. split; [reflexivity|]. split_and!; [done..|].
    exists (inl e). split; [by eapply end_send|done]. }
  rewrite pb_status_terminal in Hex. destruct (IsTerminal (Task.Status_ task)) eqn:Hterm.
  { exec_inv. eexists [], [], _. split; [reflexivity|]. split_and!; [done..|].
    exists (inr tt). split; [by eapply end_terminal|done]. }
  apply IH in Hex as (tasks & ticks & tail & -> & Hticks & Hopen & Hend).
  eexists (task :: tasks), (_ :: ticks), tail. split; [|split; [by constructor|split; [by constructor|]]].
  - cbn. rewrite <- !app_assoc. done.
  - destruct r as [err|]; [exact Hend|]. destruct Hend as [-> <-]. done.
Qed.

(** C35: a stream looks its task up once per tick, Redis first, and sends the
    status it found, tick after tick, until the first terminal one, which is
    the last it sends: the calls of a stream are those ticks, each of an open
    status, and then one of four ends: the client went away, a terminal status
    was sent (in both cases the call succeeds), the lookup failed or the send
    did (the call fails with that error).  Without an identifier nothing is
    done. *)
Theorem stream_until_terminal n ctx id tr r :
  exec (GRPC_StreamTaskUpdates n ctx id) tr r ->
  (id = "" -> tr = [] /\ r = Some (Some (GrpcStatus codes_InvalidArgument "task_id is required"))) /\
  (id <> "" -> exists tasks ticks tail, tr = concat ticks ++ tail /\
    Forall2 (fun task t => update_sent ctx id task None t) tasks ticks /\
    Forall (fun task => IsTerminal task.(Task.Status_) = false) tasks /\
    match r with
    | None => tail = [] /\ length tasks = n
    | Some err => exists x, stream_end ctx id tail x /\ err = end_result x
    end).
Proof.
  unfold GRPC_StreamTaskUpdates. intros Hex. destruct (String.eqb_spec id "") as [Hid|Hid].
  - split; [by exec_inv|done].
  - split; [done|]. intros _. by apply stream_loop_inv.
Qed.

(** The keys of the messages that were published. *)
Definition published_keys (t : svc_trace) : list string :=
  omap (fun p => match p.2 with None => Some p.1.1.2 | Some _ => None end) (publications t).

Lemma published_keys_app t1 t2 :
  published_keys (t1 ++ t2) = published_keys t1 ++ published_keys t2.
Proof. unfold published_keys. by rewrite publications_app, omap_app. Qed.

Lemma no_publish_keys t : no_publish t -> published_keys t = [].
Proof.
  unfold no_publish, published_keys. induction 1 as [|[? [|]] l Hx Hall IH]; [done|exact IH|].
  by destruct Hx.
Qed.

(** One turn of the bulk loop. *)
Lemma grpc_submit_keys ctx req tr x :
  exec (GRPC_SubmitTask ctx req) tr x ->
  received_requests tr = [] /\
  published_keys (svc_part tr) =
    match x with Ok resp => [resp.(pbs_TaskId)] | Err _ => [] end.
Proof.
  intros (_ & Hr & _ & Hx)%grpc_submit_inv. split; [done|]. destruct x as [resp|e].
  - destruct Hx as (id & now & o & v & -> & _ & _ & _ & ->). done.
  - by apply no_publish_keys.
Qed.

(** C36: a bulk call that completes reports what happened: the IDs it
    returns are those of the tasks it published, in order; [submitted] is
    their number and [failed] the number of the other requests (in 32
    bits). *)
Theorem bulk_counts n ctx s f ids tr resp :
  exec (bulk_loop n ctx (int32 s) (int32 f) ids) tr (Some (Ok resp)) ->
  let new := published_keys (svc_part tr) in
  resp.(pbb_TaskIds) = ids ++ new /\
  resp.(pbb_Submitted) = int32 (s + Z.of_nat (length new)) /\
  resp.(pbb_Failed) =
    int32 (f + Z.of_nat (length (received_requests tr)) - Z.of_nat (length new)).
Proof.
  revert s f ids tr. induction n as [|n IH]; intros s f ids tr Hex; cbn [bulk_loop] in Hex;
    [by exec_inv|].
  exec_call in Hex as req. destruct req as [req|e].
  2:{ destruct (errors_Is e IoEOF); exec_inv. cbn. rewrite app_nil_r.
      split_and!; [done|f_equal; lia|f_equal; lia]. }
  apply exec_bind in Hex as (t1 & t2 & sub & -> & Hsub & Hex).
  apply grpc_submit_keys in Hsub as [Hr Hk].
  change (?e :: t1 ++ t2) with ([e] ++ t1 ++ t2).
  rewrite !svc_part_app, !published_keys_app, !received_app, Hr, Hk. cbn [app].
  change (published_keys (svc_part [_])) with (@nil string). cbn [app].
  change (received_requests [_]) with [req]. cbn [app length].
  destruct sub as [resp1|e]; cbn [app length].
  - unfold int32 in Hex at 1. rewrite wrap_add_l in Hex by lia.
    apply (IH (s + 1)) in Hex as (-> & -> & ->). rewrite <- app_assoc.
    split_and!; [done|f_equal; lia|f_equal; lia].
  - unfold int32 in Hex at 2. rewrite wrap_add_l in Hex by lia.
    apply (IH s (f + 1)) in Hex as (-> & -> & ->).
    split_and!; [done|done|f_equal; lia].
Qed.
End Streams.

(** ** Probes and middleware *)

Section Middleware.
Implicit Types (tr : list (event GwE)).

(** The readiness probe answers 503 exactly when Redis fails, and
    200 otherwise; that its key does not exist is not a failure. *)
Theorem readyz_reports_redis r tr u :
  exec (REST_Readyz r) tr u ->
  exists st, status_reads (svc_part tr) = [("__readyz__"%string, st)] /\
    http_codes tr = [if match st with Ok _ => true
                        | Err e => bool_decide (is_Some (errors_As_TaskNotFound e)) end
                     then StatusOK else StatusServiceUnavailable].
Proof.
  unfold REST_Readyz. intros Hex. exec_call in Hex as st. exists st.
  cbn zeta in Hex. destruct st as [s|e]; [|destruct (errors_As_TaskNotFound e)].
  - exec_inv. done.
  - exec_inv. done.
  - apply exec_writeError in Hex as [o ->]. done.
Qed.

(** The last status code sent, [d] if none was. *)
Definition last_code (d : Z) tr : Z := default d (last (http_codes tr)).

Lemma last_code_cons d ev tr :
  last_code d (ev :: tr) = last_code (default d (http_code ev)) tr.
Proof.
  unfold last_code, http_codes. cbn [omap list_omap].
  destruct (http_code ev) as [c|]; [|done]. cbn [default].
  rewrite last_cons. by destruct (last _).
Qed.

(** The wrapper changes nothing of what a handler does, and records the last
    status code it sent. *)
Lemma exec_capture_status {A} (p : prog GwE A) s tr a st :
  exec (capture_status p s) tr (a, st) <-> exec p tr a /\ st = last_code s tr.
Proof.
  revert s tr. induction p as [a'|X e k IH]; intros s tr.
  - cbn [capture_status]. rewrite !exec_ret. split.
    + by intros [-> [= -> ->]].
    + by intros [[-> ->] ->].
  - assert (Hstep : exists s', (forall x, s' = default s (http_code (Ev e x))) /\
      capture_status (Vis e k) s = Vis e (fun x => capture_status (k x) s')).
    { destruct e as [? e|? e|? e]; try (by exists s).
      destruct e; try (by exists s). by exists code. }
    destruct Hstep as (s' & Hs' & ->).
    change (exec (Vis e (fun x => capture_status (k x) s')) tr (a, st)) with
      (exists x tr', tr = Ev e x :: tr' /\ exec (capture_status (k x) s') tr' (a, st)).
    change (exec (Vis e k) tr a) with (exists x tr', tr = Ev e x :: tr' /\ exec (k x) tr' a).
    split.
    + intros (x & tr' & -> & Hex). apply IH in Hex as [Hex ->].
      split; [eauto|]. by rewrite last_code_cons, (Hs' x).
    + intros [(x & tr' & -> & Hex) ->]. exists x, tr'. split; [done|].
      apply IH. split; [done|]. by rewrite last_code_cons, (Hs' x).
Qed.

(** The request log runs the handler unchanged and reports the
    last status code it sent, 200 if it sent none. *)
Theorem request_logger_reports_status next r tr u :
  exec (RequestLogger next r) tr u <->
  exists start tr1 d,
    exec (next r) tr1 tt /\
    tr = (Now ~> start) :: tr1 ++
         [Since start ~> d;
          LogRequest r.(r_method) r.(r_path) (last_code StatusOK tr1) (Milliseconds d) ~> tt].
Proof.
  unfold RequestLogger. destruct u. split.
  - intros Hex. exec_call in Hex as start.
    apply exec_bind in Hex as (t1 & t2 & [[] st] & -> & Hc & Hex).
    apply exec_capture_status in Hc as [Hn ->]. cbn beta iota in Hex.
    exec_call in Hex as d. apply exec_trigger in Hex as ->. by exists start, t1, d.
  - intros (start & tr1 & d & Hn & ->). exec_do start. rewrite exec_bind.
    exists tr1, [Since start ~> d; LogRequest r.(r_method) r.(r_path)
      (last_code StatusOK tr1) (Milliseconds d) ~> tt], (tt, last_code StatusOK tr1).
    split; [done|]. split; [by apply exec_capture_status|]. cbn beta iota.
    exec_do d. by apply exec_trigger.
Qed.
End Middleware.

(** ** Concrete runs *)

(** The fakes, the body a REST client sends and the requests of a bulk call. *)
Record gw_world := mkGw {
  gw_fake : fake; gw_body : goresult SubmitTaskRequest; gw_stream : list PbSubmitRequest }.

Definition gw_env : handler GwE gw_world := fun X e =>
  match e in GwE X return gw_world -> X * gw_world with
  | GwSvc e' => fun w =>
      let '(x, f) := fake_env _ e' w.(gw_fake) in (x, mkGw f w.(gw_body) w.(gw_stream))
  | GwHttp e' =>
      match e' in HttpE X return gw_world -> X * gw_world with
      | DecodeBody _ => fun w => (w.(gw_body), w)
      | SetHeader _ _ => fun w => (tt, w)
      | WriteHeader _ => fun w => (tt, w)
      | WriteBody _ => fun w => (None, w)
      | LogRequest _ _ _ _ => fun w => (tt, w)
      end
  | GwStream e' =>
      match e' in StreamE X return gw_world -> X * gw_world with
      | SelectTicker => fun w => (false, w)
      | Send _ => fun w => (None, w)
      | Recv => fun w => match w.(gw_stream) with
                         | [] => (Err IoEOF, w)
                         | q :: qs => (Ok q, mkGw w.(gw_fake) w.(gw_body) qs)
                         end
      | SendAndClose _ => fun w => (None, w)
      end
  end.

Definition demo_req : SubmitTaskRequest := mkSubmit "email" (Some "{}") 0 None.
Definition demo_pb : PbSubmitRequest := mkPbSubmit "email" (Some "{}") 0 0.
Definition bad_pb : PbSubmitRequest := mkPbSubmit "" (Some "{}") 0 0.
Definition demo_request : Request := mkRequest CtxRun "POST" "/api/v1/tasks" None.
Definition gw_init : gw_world := mkGw fake_init (Ok demo_req) [demo_pb; bad_pb; demo_pb].

(** The gateway after one submission; the worker finished the task. *)
Definition gw_done : gw_world :=
  mkGw (f_with_states (f_with_meta fake_init {["task-1" := demo_task]})
          {["task-1" := StatusDone]}) (Ok demo_req) [].

Lemma rest_submit_accepted_iff_published_witness :
  http_codes (run_trace gw_env (REST_SubmitTask demo_request) gw_init) = [StatusAccepted].
Proof.
  destruct (rest_submit_accepted_iff_published demo_request _ _
    (run_exec gw_env (REST_SubmitTask demo_request) gw_init)) as (code & Hc & Hiff & _).
  rewrite Hc. f_equal. apply Hiff. intros Hn.
  unfold no_publish in Hn. vm_compute in Hn. inversion Hn as [|? ? Hx]. by apply Hx.
Defined.

(** With the tasks as JSON: the agreeing case, and the request that only gRPC
    accepts. *)
Definition null_pb : PbSubmitRequest := mkPbSubmit "email" (Some "null") 0 0.
Definition null_req : SubmitTaskRequest := mkSubmit "email" (Some "null") 0 None.
Definition grpc_json (pb : PbSubmitRequest) : list (event GwE) :=
  run_trace gw_env (@GRPC_SubmitTask (@JsonTaskCodec plain_texts) CtxRun pb) gw_init.

Lemma submit_apis_agree_witness :
  (exists tr', exec (@REST_SubmitTask (@JsonTaskCodec plain_texts) demo_request)
     ((DecodeBody None ~> Ok demo_req) :: tr') tt /\ http_codes tr' = [StatusAccepted]) /\
  (exists tr', exec (@REST_SubmitTask (@JsonTaskCodec plain_texts) demo_request)
     ((DecodeBody None ~> Ok null_req) :: tr') tt /\ http_codes tr' = [StatusBadRequest]).
Proof.
  assert (forall pb req, same_request pb req ->
    run_result gw_env (@GRPC_SubmitTask (@JsonTaskCodec plain_texts) CtxRun pb) gw_init
      = Ok (mkPbSubmitted "task-1" StatusPending 0) -> exists task tr',
    meta_writes (svc_part (grpc_json pb)) = [(task, None)] /\
    exec (@REST_SubmitTask (@JsonTaskCodec plain_texts) demo_request)
      ((DecodeBody None ~> Ok req) :: tr') tt /\
    @rest_instead (@JsonTaskCodec plain_texts) req task (svc_part (grpc_json pb)) (http_codes tr')
      (svc_part tr')) as Hall.
  { intros pb req Hsame Hres.
    pose proof (run_exec gw_env (@GRPC_SubmitTask (@JsonTaskCodec plain_texts) CtxRun pb) gw_init) as Hex.
    rewrite Hres in Hex.
    destruct (@submit_apis_agree (@JsonTaskCodec plain_texts) CtxRun pb req demo_request _ _
      Hex Hsame eq_refl) as (_ & task & tr' & Hm & _ & Hrest & Hinst).
    exists task, tr'. split; [exact Hm|]. split; [exact Hrest|exact Hinst]. }
  split.
  - destruct (Hall demo_pb demo_req) as (task & tr' & Hm & Hex & Hi); [by repeat split|by vm_compute|].
    exists tr'. split; [exact Hex|]. vm_compute in Hm. injection Hm as <-.
    apply rest_instead_accepts in Hi as [Hc _]; [exact Hc|reflexivity|by vm_compute].
  - destruct (Hall null_pb null_req) as (task & tr' & _ & Hex & Hi); [by repeat split|by vm_compute|].
    exists tr'. split; [exact Hex|]. destruct Hi as [_|v Hf|e t' ctx Hf]; [reflexivity|discriminate Hf..].
Defined.

Lemma rest_status_reply_witness :
  exists calls x, lookup CtxRun "task-1" calls x /\
    svc_part (run_trace gw_env (REST_GetTaskStatus "task-1" demo_request) gw_done) = calls.
Proof.
  destruct (rest_status_reply "task-1" demo_request _ _
    (run_exec gw_env (REST_GetTaskStatus "task-1" demo_request) gw_done) ltac:(discriminate))
    as (calls & x & Hl & Hs & _).
  exists calls, x. exact (conj Hl Hs).
Defined.

Lemma status_apis_agree_witness :
  exists tr' x, exec (GRPC_GetTaskStatus CtxRun "task-1") tr' x /\
    svc_part tr' =
      svc_part (run_trace gw_env (REST_GetTaskStatus "task-1" demo_request) gw_done).
Proof.
  destruct (status_apis_agree "task-1" demo_request _ _
    (run_exec gw_env (REST_GetTaskStatus "task-1" demo_request) gw_done) ltac:(discriminate))
    as (tr' & x & Hex & Hs & _).
  exists tr', x. exact (conj Hex Hs).
Defined.

(** One tick, which finds the task done. *)
Definition stream_done : list (event GwE) :=
  run_trace gw_env (GRPC_StreamTaskUpdates 5 CtxRun "task-1") gw_done.

Lemma stream_until_terminal_witness :
  exists tasks ticks tail x, stream_done = concat ticks ++ tail /\
    Forall2 (fun task t => update_sent CtxRun "task-1" task None t) tasks ticks /\
    stream_end CtxRun "task-1" tail x /\ end_result x = None.
Proof.
  destruct (stream_until_terminal 5 CtxRun "task-1" stream_done (Some None)) as [_ Hs].
  - exact (run_exec gw_env (GRPC_StreamTaskUpdates 5 CtxRun "task-1") gw_done).
  - destruct Hs as (tasks & ticks & tail & Htr & Hsent & _ & x & Hend & Hx); [discriminate|].
    exists tasks, ticks, tail, x. split; [exact Htr|]. split; [exact Hsent|].
    split; [exact Hend|exact (eq_sym Hx)].
Defined.

Lemma bulk_counts_witness :
  published_keys (svc_part (run_trace gw_env (bulk_loop 4 CtxRun 0 0 []) gw_init))
  = ["task-1"; "task-1"].
Proof.
  exact (eq_sym (proj1 (bulk_counts 4 CtxRun 0 0 []
    (run_trace gw_env (bulk_loop 4 CtxRun 0 0 []) gw_init)
    (mkPbBulk 2 1 ["task-1"; "task-1"])
    (run_exec gw_env (bulk_loop 4 CtxRun 0 0 []) gw_init)))).
Defined.

Lemma readyz_reports_redis_witness :
  exists st, status_reads (svc_part (run_trace gw_env (REST_Readyz demo_request) gw_init))
             = [("__readyz__"%string, st)].
Proof.
  destruct (readyz_reports_redis demo_request _ _
    (run_exec gw_env (REST_Readyz demo_request) gw_init)) as (st & Hs & _).
  exists st. exact Hs.
Defined.

Example demo_logged_status :
  last (run_trace gw_env (RequestLogger (MaxBodySize (2 ^ 20) REST_SubmitTask) demo_request)
          gw_init)
  = Some (LogRequest "POST" "/api/v1/tasks" 202 1001 ~> tt).
Proof. vm_compute. reflexivity. Qed.
