(* ===== verification/WellTyped.v ===== *)
(** * What the services store is well typed

    Go's types and UTF-8 hold of everything the services hand to the stores,
    to Kafka and to the handlers, as long as they hold of what comes in:
    rely and guarantee over the calls ([triple] of Prog.v).  A type that Rocq
    gives for free (an [int] is a [Z] here) is thereby shown to be kept. *)

From S2P Require Import Prelude Prog GoStrings Domain GoTime JsonText Json GoFloat Effects Retry Handlers.
From S2P Require Import Kafka Worker Fakes WorkerSpec Dispatcher Gateway GatewaySpec.

(** ** Types *)

Definition lifecycle : list Status :=
  [StatusPending; StatusQueued; StatusRunning; StatusDone; StatusFailed; StatusRetrying; StatusDead].

Definition wf_execution (x : TaskExecution.t) : Prop :=
  x.(TaskExecution.Status_) ∈ lifecycle /\ in_int64b x.(TaskExecution.Attempt) = true /\
  in_int64b x.(TaskExecution.DurationMs) = true /\ ValidString x.(TaskExecution.TaskID) = true /\
  ValidString x.(TaskExecution.WorkerID) = true /\ ValidString x.(TaskExecution.Error) = true.

(** The decoder yields valid strings and integers in range, and undoes the
    encoder on such tasks. *)
Class TypedCodec `{TaskCodec} := {
  typed_spec :: TaskCodecSpec (fun t => wf_task t = true);
  unmarshal_wf s t : unmarshalTask s = Ok t -> wf_task t = true }.

(** encoding/json is such a codec. *)
#[export] Instance json_typed `{JsonTexts} : @TypedCodec JsonTaskCodec.
Proof. split; [apply json_spec|exact json_unmarshal_wf]. Qed.

(** ** Calls *)

Section Typing.
Context `{UnicodeTables, TaskCodec}.

(** An error whose text is UTF-8. *)
Definition error_typed (r : option error) : Prop := forall e, r = Some e -> ValidString (Error e) = true.

(** What comes in. *)
Definition answer_typed (ev : event SvcE) : Prop :=
  match ev with
  | @Ev _ X e x =>
      match e in SvcE X return X -> Prop with
      | OnStore e => match e in StoreE X return X -> Prop with
                     | GetTaskMeta _ _ => fun x => forall t, x = Ok t -> wf_task t = true
                     | _ => fun _ => True
                     end
      | OnRepo e => match e in RepoE X return X -> Prop with
                    | GetByID _ _ => fun x => forall t, x = Ok t -> wf_task t = true
                    | ListByStatus _ _ _ => fun x => Forall (fun t => wf_task t = true) x.1
                    | _ => fun _ => True
                    end
      | OnSys e => match e in SysE X return X -> Prop with
                   | NewUUID => fun id => ValidString id = true
                   | SelectAfter _ _ => error_typed
                   | _ => fun _ => True
                   end
      | OnHandle _ _ _ => error_typed
      | _ => fun _ => True
      end x
  end.

(** A message for a service to decode: a task, or nothing at all. *)
Definition value_typed (v : string) : Prop :=
  v = ""%string \/ exists t, unmarshalTask v = Ok t /\ wf_task t = true.

(** What goes out.  [raw] is a message that is passed on to the dead-letter
    queue as it came, if there is one. *)
Definition request_typed (raw : option string) (ev : event SvcE) : Prop :=
  match ev with
  | Ev (OnStore (SetStatus _ id s)) _ => s ∈ lifecycle /\ ValidString id = true
  | Ev (OnStore (SetTaskMeta _ t)) _ => wf_task t = true
  | Ev (OnRepo (Create _ t)) _ => wf_task t = true
  | Ev (OnRepo (UpdateStatus _ id s)) _ => s ∈ lifecycle /\ ValidString id = true
  | Ev (OnRepo (RecordExecution _ x)) _ => wf_execution x
  | Ev (OnProducer (Publish _ topic _ v)) _ =>
      value_typed v \/ (topic = Dispatcher.topicDLQ /\ raw = Some v)
  | Ev (OnHandle _ _ t) _ => wf_task t = true
  | _ => True
  end.

(** The gateway: requests come in as well, decoded from UTF-8. *)
Definition gw_answer_typed (ev : event GwE) : Prop :=
  match ev with
  | @Ev _ X e x =>
      match e in GwE X return X -> Prop with
      | GwSvc e => fun x => answer_typed (Ev e x)
      | GwHttp e => match e in HttpE X return X -> Prop with
                    | DecodeBody _ => fun x => forall req, x = Ok req ->
                        ValidString req.(sr_Type) = true /\ in_int64b req.(sr_Priority) = true
                    | _ => fun _ => True
                    end
      | GwStream e => match e in StreamE X return X -> Prop with
                      | Recv => fun x => forall req, x = Ok req ->
                          ValidString req.(pb_Type) = true /\ in_int32 req.(pb_Priority)
                      | _ => fun _ => True
                      end
      end x
  end.
Definition gw_request_typed (ev : event GwE) : Prop :=
  match ev with
  | Ev (GwSvc e) x => request_typed None (Ev e x)
  | _ => True
  end.

(** ** Well-typed updates *)

Lemma lifecycle_valid s : s ∈ lifecycle -> ValidString s = true.
Proof.
  intros Hs. assert (forallb ValidString lifecycle = true) as Hall by (vm_compute; reflexivity).
  rewrite forallb_forall in Hall. by apply Hall, list_elem_of_In.
Qed.

Record wf_fields (t : Task.t) : Prop := {
  wf_ID : ValidString t.(Task.ID) = true;
  wf_Type : ValidString t.(Task.Type_) = true;
  wf_Status : ValidString t.(Task.Status_) = true;
  wf_Priority : in_int64b t.(Task.Priority) = true;
  wf_Attempts : in_int64b t.(Task.Attempts) = true;
  wf_MaxRetries : in_int64b t.(Task.MaxRetries) = true }.

Lemma wf_task_fields t : wf_task t = true <-> wf_fields t.
Proof.
  unfold wf_task. rewrite !andb_true_iff. split.
  - intros [[[[[? ?] ?] ?] ?] ?]. by split.
  - intros [? ? ? ? ? ?]. by split_and!.
Qed.

Lemma in_int64b_spec z : in_int64b z = true <-> in_int64 z.
Proof.
  unfold in_int64b, in_range, in_int64, MinInt64, MaxInt64.
  rewrite andb_true_iff, !Z.leb_le. lia.
Qed.

Lemma int64_typed z : in_int64b (int64 z) = true.
Proof. apply in_int64b_spec, int64_range. Qed.

Lemma int32_typed z : in_int32 z -> in_int64b z = true.
Proof. intros Hz. apply in_int64b_spec. unfold in_int32, in_int64 in *. lia. Qed.

Lemma durationMs_typed d : in_int64b (durationMs d) = true.
Proof.
  unfold durationMs, f64_to_int64. destruct (f64_mul _ _) as [| | |sg m e]; try done.
  destruct (_ && _) eqn:Hb; [|done]. cbn [default]. exact Hb.
Qed.

Lemma wf_set_Attempts n t : in_int64b n = true -> wf_task t = true ->
  wf_task (Task.set_Attempts n t) = true.
Proof. rewrite !wf_task_fields. intros Hn []. by split. Qed.
Lemma wf_set_Status st t : st ∈ lifecycle -> wf_task t = true ->
  wf_task (Task.set_Status st t) = true.
Proof. rewrite !wf_task_fields. intros Hs%lifecycle_valid []. by split. Qed.
Lemma wf_set_UpdatedAt u t : wf_task t = true -> wf_task (Task.set_UpdatedAt u t) = true.
Proof. rewrite !wf_task_fields. intros []. by split. Qed.
Lemma wf_set_CompletedAt c t : wf_task t = true -> wf_task (Task.set_CompletedAt c t) = true.
Proof. rewrite !wf_task_fields. intros []. by split. Qed.
Lemma wf_task_ID t : wf_task t = true -> ValidString t.(Task.ID) = true.
Proof. rewrite wf_task_fields. by intros []. Qed.
Lemma wf_task_Attempts t : wf_task t = true -> in_int64b t.(Task.Attempts) = true.
Proof. rewrite wf_task_fields. by intros []. Qed.

Lemma in_lifecycle s : bool_decide (s ∈ lifecycle) = true -> s ∈ lifecycle.
Proof. apply bool_decide_eq_true. Qed.

Lemma wf_execution_intro id tid wid n s ms err at_ :
  s ∈ lifecycle -> in_int64b n = true -> in_int64b ms = true -> ValidString tid = true ->
  ValidString wid = true -> ValidString err = true ->
  wf_execution (TaskExecution.mk id tid wid n s ms err at_).
Proof. intros ? ? ? ? ? ?. unfold wf_execution. by split_and!. Qed.

Create HintDb typed discriminated.
Hint Constants Opaque : typed.
Hint Resolve wf_set_Attempts wf_set_Status wf_set_UpdatedAt wf_set_CompletedAt wf_task_ID
  wf_task_Attempts durationMs_typed int64_typed int32_typed wf_execution_intro : typed.
Hint Extern 1 (_ ∈ lifecycle) => (apply in_lifecycle; reflexivity) : typed.
Hint Extern 1 (value_typed _) => (right; eexists; split; [eassumption|]) : typed.

(** ** The services *)

Context `{!TypedCodec}.
Set Default Proof Using "Type*".

(** Statements about a worker: its identifier is UTF-8. *)
Abbreviation worker_triple := (triple answer_typed (request_typed None)).

#[local] Opaque int64 in_int64b wf_task ValidString durationMs Error.

Ltac typed :=
  idtac;
  cbn [request_typed answer_typed gw_request_typed gw_answer_typed inj SubE_Store SubE_Limiter
       SubE_Repo SubE_Producer SubE_Sys SubE_Metric SubE_Worker SubE_GwStore SubE_GwRepo
       SubE_GwProducer SubE_GwSys SubE_GwMetric SubE_GwHttp SubE_GwStream fst snd] in *;
  lazymatch goal with
  | |- True => exact I
  | |- value_typed _ \/ _ => first [right; split; reflexivity | left; eauto 8 with typed]
  | |- _ /\ _ => split; eauto 8 with typed
  | |- _ -> _ => intros; eauto 8 with typed
  | |- _ => eauto 8 with typed
  end.

Lemma finish_typed w ctx task r ms raw :
  wf_task task = true -> in_int64b ms = true -> value_typed raw ->
  ValidString w.(workerID) = true -> error_typed r ->
  worker_triple
    (match r with
     | None => finishSuccess w ctx task ms
     | Some err => finishFailure w ctx task err ms raw
     end) (fun _ => True).
Proof.
  intros Hwf Hms Hraw Hid Hr.
  destruct r as [e|]; [pose proof (Hr e eq_refl)|]; unfold finishFailure, finishSuccess; triple_calls typed.
Qed.

Lemma cancelled_typed a e : ValidString (Error e) = true -> ValidString (Error (cancelled a e)) = true.
Proof.
  intros He. change (Error (cancelled a e)) with
    (("retry cancelled after attempt " +:+ Itoa a) +:+ ": " +:+ Error e).
  rewrite string_app_assoc. do 2 (rewrite valid_app; [|done || apply valid_Itoa]).
  by rewrite valid_app.
Qed.

Lemma execute_typed w ctx h task raw :
  wf_task task = true -> value_typed raw -> ValidString w.(workerID) = true ->
  worker_triple (execute w ctx h task raw) (fun _ => True).
Proof.
  intros Hwf Hraw Hid. unfold execute. triple_calls typed.
  eapply triple_bind with (fun x => in_int64b x.2 = true /\ error_typed x.1).
  - apply (triple_Do _ _ (fun att => in_int64b att = true) (fun e => ValidString (Error e) = true));
      [| |done| |done].
    + intros att _. unfold attempt. apply triple_call; [intros; exact Hwf|]. intros r Hr.
      apply triple_ret. split; [apply int64_typed|exact Hr].
    + intros a e att Hn Ha. unfold call_OnRetry. cbn [retryConfig OnRetry]. unfold onRetry.
      assert (in_int64b a = true).
      { apply in_int64b_spec. pose proof (int64_range (w.(maxRetries) + 1)) as Hr.
        unfold in_int64, retryConfig in *. cbn [MaxAttempts] in Hn. lia. }
      triple_calls typed.
    + intros d a e He. by apply cancelled_typed, He.
  - intros [r att] [Hatt Hr]. cbn [fst snd] in Hatt, Hr. cbn zeta.
    apply triple_call; [intros; exact I|]. intros d _. apply triple_call; [intros; exact I|].
    intros _ _. apply (finish_typed w ctx (Task.set_Attempts att task) r); [|apply durationMs_typed|done..].
    by apply wf_set_Attempts.
Qed.

Lemma worker_typed w ctx msg :
  ValidString w.(workerID) = true -> worker_triple (processMessage w ctx msg) (fun _ => True).
Proof.
  intros Hid. unfold processMessage.
  destruct (unmarshalTask (Value msg)) as [task|] eqn:Hu; [|by apply triple_ret].
  pose proof (unmarshal_wf _ _ Hu) as Hwf.
  assert (value_typed (Value msg)) as Hraw by (right; eauto).
  triple_calls typed. eapply triple_bind; [by apply execute_typed|]. intros _ _. triple_calls typed.
Qed.

(** The dispatcher may put a message it cannot use on the dead-letter queue as
    it is. *)
Lemma dispatcher_typed d ctx msg :
  triple answer_typed (request_typed (Some msg.(Value))) (route d ctx msg) (fun _ => True).
Proof.
  unfold route, toDLQ. destruct (unmarshalTask (Value msg)) as [task|] eqn:Hu; [|triple_calls typed].
  pose proof (unmarshal_wf _ _ Hu) as Hwf. triple_calls typed.
  apply triple_bind with (fun _ => True); [unfold limited; triple_calls typed|].
  intros reject _. triple_calls typed.
Qed.

Hint Extern 1 (in_int64b 0 = true) => reflexivity : typed.
Hint Extern 1 (in_int64b 3 = true) => reflexivity : typed.

Lemma submitted_wf req id now :
  ValidString id = true -> ValidString req.(sr_Type) = true -> in_int64b req.(sr_Priority) = true ->
  wf_task (submitted_task req id now) = true.
Proof.
  intros Hid Hty Hp. apply wf_task_fields.
  split; unfold submitted_task; by task_fields.
Qed.

Lemma pb_task_wf req id now :
  ValidString id = true -> ValidString req.(pb_Type) = true -> in_int32 req.(pb_Priority) ->
  wf_task (pb_task req id now) = true.
Proof.
  intros Hid Hty Hp. apply wf_task_fields.
  split; unfold pb_task; task_fields; try done. by apply int32_typed.
Qed.

(** What is published for a well-typed task decodes to it. *)
Lemma marshalled_typed t v :
  marshalTask t = Ok v -> wf_task t = true -> value_typed v.
Proof.
  intros Hm Hwf. right. exists t. split; [|done]. by apply (unmarshal_marshal t v).
Qed.

Lemma payload_typed t :
  wf_task t = true -> value_typed (match marshalTask t with Ok d => d | Err _ => "" end).
Proof.
  intros Hwf. destruct (marshalTask t) as [v|] eqn:Hm; [by apply (marshalled_typed t)|by left].
Qed.

Hint Resolve submitted_wf pb_task_wf marshalled_typed payload_typed : typed.

Lemma rest_submit_typed r :
  triple gw_answer_typed gw_request_typed (REST_SubmitTask r) (fun _ => True).
Proof.
  unfold REST_SubmitTask, writeError. cbn zeta.
  apply triple_call; [intros; exact I|]. intros [req|e] Hreq; [|triple_calls typed].
  destruct (Hreq req eq_refl) as [Hty Hprio]. triple_calls typed.
Qed.

Lemma grpc_submit_typed ctx req :
  ValidString req.(pb_Type) = true -> in_int32 req.(pb_Priority) ->
  triple gw_answer_typed gw_request_typed (GRPC_SubmitTask ctx req) (fun _ => True).
Proof.
  intros Hty Hprio. unfold GRPC_SubmitTask. cbn zeta. triple_calls typed.
Qed.

Lemma lookup_typed ctx id :
  triple gw_answer_typed gw_request_typed (lookup_task ctx id) (fun _ => True).
Proof.
  unfold lookup_task. apply triple_call; [intros; exact I|]. intros meta _.
  apply triple_bind with (fun _ => True); [triple_calls typed|]. intros found _.
  triple_calls typed.
Qed.

Lemma rest_status_typed id r :
  triple gw_answer_typed gw_request_typed (REST_GetTaskStatus id r) (fun _ => True).
Proof.
  unfold REST_GetTaskStatus, writeError. destruct (String.eqb id ""); [triple_calls typed|].
  eapply triple_bind; [apply lookup_typed|]. intros found _. triple_calls typed.
Qed.

Lemma grpc_status_typed ctx id :
  triple gw_answer_typed gw_request_typed (GRPC_GetTaskStatus ctx id) (fun _ => True).
Proof.
  unfold GRPC_GetTaskStatus. destruct (String.eqb id ""); [triple_calls typed|].
  eapply triple_bind; [apply lookup_typed|]. intros found _. triple_calls typed.
Qed.

Lemma stream_typed n ctx id :
  triple gw_answer_typed gw_request_typed (GRPC_StreamTaskUpdates n ctx id) (fun _ => True).
Proof.
  unfold GRPC_StreamTaskUpdates. destruct (String.eqb id ""); [triple_calls typed|].
  induction n as [|n IH]; cbn [stream_loop]; [triple_calls typed|].
  apply triple_call; [intros; exact I|]. intros [|] _; [triple_calls typed|].
  eapply triple_bind; [apply grpc_status_typed|]. intros [resp|e] _; [|triple_calls typed].
  apply triple_call; [intros; exact I|]. intros [e|] _; [triple_calls typed|].
  destruct (IsTerminal _); [triple_calls typed|done].
Qed.

Lemma bulk_loop_typed n ctx sub failed ids :
  triple gw_answer_typed gw_request_typed (bulk_loop n ctx sub failed ids) (fun _ => True).
Proof.
  revert sub failed ids.
  induction n as [|n IH]; intros sub failed ids; cbn [bulk_loop]; [triple_calls typed|].
  apply triple_call; [intros; exact I|]. intros [req|e] Hreq; [|triple_calls typed].
  destruct (Hreq req eq_refl) as [Hty Hprio].
  eapply triple_bind; [by apply grpc_submit_typed|]. intros [resp|e] _; apply IH.
Qed.

Lemma bulk_typed n ctx :
  triple gw_answer_typed gw_request_typed (GRPC_BulkSubmitTasks n ctx) (fun _ => True).
Proof.
  unfold GRPC_BulkSubmitTasks. eapply triple_bind; [apply bulk_loop_typed|].
  intros out _. triple_calls typed.
Qed.

End Typing.

(** ** A concrete instance *)

Definition typed_codec : TaskCodec := @JsonTaskCodec plain_texts.
Definition typed_msg : Message :=
  mkMessage "tasks.worker.email" "t-1"
    (match json_marshalTask json_demo with Ok s => s | Err _ => "" end) 7 [].

(** The worker on the JSON text of a task whose handler fails once. *)
Definition typed_run : svc_trace :=
  run_trace fake_env (@processMessage ascii_tables typed_codec demo_worker CtxRun typed_msg)
    (f_with_script fake_init [Some boom; None]).

