(* ===== verification/Services.v ===== *)
(** * The consuming services as a whole

    [Worker.Run] and [Dispatcher.Run]: the consumer loop of Kafka.v around
    [processMessage] and [route], over the calls of both.  What a session of a
    service does to the messages it fetched. *)

From S2P Require Import Prelude Prog GoStrings Domain GoFloat Effects Retry Handlers Kafka.
From S2P Require Import Worker Fakes WorkerSpec Dispatcher.


(** ** A consumer and the service's own calls *)

Inductive RunE : Type -> Type :=
| RunConsumer {X} (e : ConsumerE X) : RunE X
| RunSvc {X} (e : SvcE X) : RunE X.

#[export] Instance SubE_RunConsumer : SubE ConsumerE RunE := @RunConsumer.
#[export] Instance SubE_RunSvc : SubE SvcE RunE := @RunSvc.

(** worker.go:84-86, for at most [n] fetches *)
Definition Worker_Run `{UnicodeTables} `{TaskCodec} (w : Worker) (ctx : Ctx) (n : nat)
  : prog RunE (option (option error)) :=
  Subscribe ctx (fun c m => lift (processMessage w c m)) n.

(** dispatcher.go:54-56 *)
Definition Dispatcher_Run `{TaskCodec} (d : Dispatcher) (ctx : Ctx) (n : nat)
  : prog RunE (option (option error)) :=
  Subscribe ctx (fun c m => lift (route d c m)) n.

(** What a trace of a session contains: the service's own calls, the messages
    fetched and the messages whose commit was attempted. *)
Definition run_svc_event (ev : event RunE) : option (event SvcE) :=
  match ev with
  | @Ev _ X e x =>
      match e in RunE X return X -> option (event SvcE) with
      | RunSvc e' => fun x => Some (Ev e' x)
      | RunConsumer _ => fun _ => None
      end x
  end.
Definition fetch (ev : event RunE) : option KMessage :=
  match ev with
  | @Ev _ X e x =>
      match e in RunE X return X -> option KMessage with
      | RunConsumer e' =>
          match e' in ConsumerE X return X -> option KMessage with
          | FetchMessage _ => fun r => match r with Ok m => Some m | Err _ => None end
          | _ => fun _ => None
          end
      | RunSvc _ => fun _ => None
      end x
  end.
Definition commit_attempt (ev : event RunE) : option KMessage :=
  match ev with
  | Ev (RunConsumer (CommitMessages _ m)) _ => Some m
  | _ => None
  end.
Definition run_svc (tr : list (event RunE)) : svc_trace := omap run_svc_event tr.
Definition fetches (tr : list (event RunE)) := omap fetch tr.
Definition commit_attempts (tr : list (event RunE)) := omap commit_attempt tr.

Lemma run_svc_lift t : run_svc (map lift_event t) = t.
Proof. unfold run_svc. induction t as [|[X e x] t IH]; [done|]. cbn. by f_equal. Qed.
Lemma fetches_lift t : fetches (map lift_event t) = [].
Proof. unfold fetches. by induction t as [|[X e x] t IH]. Qed.
Lemma commits_lift t : commit_attempts (map lift_event t) = [].
Proof. unfold commit_attempts. by induction t as [|[X e x] t IH]. Qed.
Lemma run_svc_app t1 t2 : run_svc (t1 ++ t2) = run_svc t1 ++ run_svc t2.
Proof. apply omap_app. Qed.
Lemma fetches_app t1 t2 : fetches (t1 ++ t2) = fetches t1 ++ fetches t2.
Proof. apply omap_app. Qed.
Lemma commits_app t1 t2 : commit_attempts (t1 ++ t2) = commit_attempts t1 ++ commit_attempts t2.
Proof. apply omap_app. Qed.

Create Rewrite HintDb session.
#[export] Hint Rewrite run_svc_lift fetches_lift commits_lift run_svc_app fetches_app
  commits_app app_nil_r : session.

(** ** Sessions of any handler *)

Section Sessions.
Context (handle : Ctx -> Message -> prog SvcE (option error)) (ctx : Ctx).

(** One message: what was fetched, what its handler did, what it answered. *)
Record serving := mkServing {
  sv_msg : KMessage; sv_trace : svc_trace; sv_answer : option error }.

Definition served (s : serving) : Prop :=
  exec (handle ctx (toMessage s.(sv_msg))) s.(sv_trace) s.(sv_answer).

Definition serving_trace (s : serving) (commit : option error) : list (event RunE) :=
  (FetchMessage ctx ~> Ok s.(sv_msg)) :: map lift_event s.(sv_trace) ++
  match s.(sv_answer) with
  | None => [CommitMessages CtxBackground s.(sv_msg) ~> commit]
  | Some _ => []
  end.

(** The calls for the messages of a session, one message at a time. *)
Inductive session : list serving -> list (event RunE) -> Prop :=
| session_nil : session [] []
| session_cons s commit ss tr :
    served s -> session ss tr -> session (s :: ss) (serving_trace s commit ++ tr).

Lemma Subscribe_session n tr r :
  exec (Subscribe ctx (fun c m => lift (handle c m)) n) tr r ->
  exists ss t last, tr = t ++ last /\ session ss t /\
    run_svc last = [] /\ fetches last = [] /\ commit_attempts last = [].
Proof.
  revert tr. induction n as [|n IH]; intros tr; cbn [Subscribe]; intros Hex.
  { exec_inv. exists [], [], []. split_and!; try done. constructor. }
  exec_call in Hex as [m|e].
  - apply exec_bind in Hex as (htr & t2 & a & -> & Hh & Hex).
    apply exec_lift in Hh as (t & -> & Hh). cbn beta iota in Hex. destruct a as [e|].
    + apply IH in Hex as (ss & t' & last & -> & Hss & Hlast).
      exists (mkServing m t (Some e) :: ss), (serving_trace (mkServing m t (Some e)) None ++ t'), last.
      split; [|by split; [constructor|]].
      unfold serving_trace. simpl. by rewrite app_nil_r, <- !app_assoc.
    + exec_call in Hex as c. apply IH in Hex as (ss & t' & last & -> & Hss & Hlast).
      exists (mkServing m t None :: ss), (serving_trace (mkServing m t None) c ++ t'), last.
      split; [|by split; [constructor|]].
      unfold serving_trace. simpl. by rewrite <- !app_assoc.
  - exec_call in Hex as [cerr|]; exec_inv;
      (eexists [], [], _; split; [reflexivity|]; split_and!; try done; constructor).
Qed.

Lemma session_projections ss t :
  session ss t ->
  run_svc t = concat (map sv_trace ss) /\ fetches t = map sv_msg ss /\
  commit_attempts t = omap (fun s => match s.(sv_answer) with
                                     | None => Some s.(sv_msg) | Some _ => None end) ss /\
  Forall served ss.
Proof.
  induction 1 as [|s c ss t Hs Hss (IH1 & IH2 & IH3 & IH4)]; [done|].
  unfold serving_trace. rewrite <- app_comm_cons.
  change (?x :: ?l) with ([x] ++ l). autorewrite with session. rewrite IH1, IH2, IH3.
  cbn. destruct (sv_answer s); cbn; rewrite ?app_nil_r;
    split_and!; try done; by constructor.
Qed.

(** A commit follows the message's own calls. *)
Lemma session_commit ss t last t1 m c t2 :
  session ss t -> commit_attempts last = [] ->
  t ++ last = t1 ++ (CommitMessages CtxBackground m ~> c) :: t2 ->
  exists pre s, s.(sv_msg) = m /\ s.(sv_answer) = None /\ served s /\
    run_svc t1 = pre ++ s.(sv_trace).
Proof.
  intros Hss Hlast. revert t1. induction Hss as [|s k ss t Hs Hss IH]; intros t1 Heq.
  { cbn in Heq. subst last. apply omap_nil_split in Hlast as [_ Hlast]. done. }
  unfold serving_trace in Heq. rewrite app_comm_cons, <- !app_assoc in Heq.
  apply (omap_split_after commit_attempt) in Heq as (t1' & -> & Heq); [|apply commits_lift|done].
  rewrite run_svc_app. change (run_svc (?x :: ?l)) with (run_svc l). rewrite run_svc_lift.
  assert (Htail : forall t1, t ++ last = t1 ++ (CommitMessages CtxBackground m ~> c) :: t2 ->
    forall pre0, exists pre s, s.(sv_msg) = m /\ s.(sv_answer) = None /\ served s /\
      pre0 ++ run_svc t1 = pre ++ s.(sv_trace)).
  { intros t1 Ht pre0. destruct (IH t1 Ht) as (pre & s' & Hm & Ha & Hs' & ->).
    exists (pre0 ++ pre), s'. by rewrite app_assoc. }
  destruct (sv_answer s) eqn:Ha; cbn in Heq; [by apply Htail|].
  destruct t1' as [|ev t1']; cbn in Heq.
  - apply (f_equal (fun l => head l ≫= commit_attempt)) in Heq. injection Heq as Hm.
    exists [], s. split_and!; [done..|]. apply app_nil_r.
  - injection Heq as <- Heq. apply (Htail t1' Heq).
Qed.
End Sessions.

(** ** The dispatcher forwards what it commits *)

Section DispatcherRun.
Context `{TaskCodec}.

(** What became of a message: the topic and key its bytes were published
    under, and whether that worked. *)
Record forward := mkForward {
  fw_msg : KMessage; fw_topic : string; fw_key : string; fw_result : option error }.

Definition published_ok (f : forward) : option KMessage :=
  match f.(fw_result) with None => Some f.(fw_msg) | Some _ => None end.

(** Where [route] may send a message. *)
Definition destination (f : forward) : Prop :=
  (f.(fw_topic) = topicDLQ /\ f.(fw_key) = "") \/
  exists task, unmarshalTask f.(fw_msg).(k_Value) = Ok task /\ task.(Task.Type_) <> "" /\
    f.(fw_topic) = workerTopic task.(Task.Type_) /\ f.(fw_key) = task.(Task.ID).

Lemma route_forwards d ctx m tr r :
  exec (route d ctx (toMessage m)) tr r ->
  exists topic key o,
    publications tr = [(topic, key, m.(k_Value), o)] /\ (r = None <-> o = None) /\
    destination (mkForward m topic key o).
Proof. apply route_publishes. Qed.

Lemma forwards d ctx ss :
  Forall (served (route d) ctx) ss ->
  exists fs, map fw_msg fs = map sv_msg ss /\ Forall destination fs /\
    publications (concat (map sv_trace ss)) =
      map (fun f => (f.(fw_topic), f.(fw_key), f.(fw_msg).(k_Value), f.(fw_result))) fs /\
    omap (fun s => match s.(sv_answer) with
                   | None => Some s.(sv_msg) | Some _ => None end) ss = omap published_ok fs.
Proof.
  induction 1 as [|[m t r] ss Hs _ (fs & IHm & IHd & IHp & IHc)]; [by exists []|].
  unfold served in Hs. cbn in Hs.
  apply route_forwards in Hs as (topic & key & o & Hp & Ho & Hd).
  exists (mkForward m topic key o :: fs). cbn. rewrite IHm, publications_app, Hp, IHp, IHc.
  split_and!; [done|by constructor|done|].
  unfold published_ok. cbn. destruct r, o; naive_solver.
Qed.

(** C9: a dispatcher session publishes the bytes of every
    message it fetches exactly once, in the order of fetching, to the
    dead-letter queue or to the topic of its type under its ID, and attempts
    to commit exactly the messages whose publish succeeded, in that order, each
    after its publish.  This is about the messages of one session: one whose
    publish failed is not committed itself, but the commit of a later message
    of its partition passes over it ([lost_passed_over], Cluster.v). *)
Theorem dispatcher_session_forwards d ctx n tr r :
  exec (Dispatcher_Run d ctx n) tr r ->
  exists fs,
    map fw_msg fs = fetches tr /\ Forall destination fs /\
    publications (run_svc tr) =
      map (fun f => (f.(fw_topic), f.(fw_key), f.(fw_msg).(k_Value), f.(fw_result))) fs /\
    commit_attempts tr = omap published_ok fs /\
    forall t1 m c t2, tr = t1 ++ (CommitMessages CtxBackground m ~> c) :: t2 ->
      exists topic key, (topic, key, m.(k_Value), None) ∈ publications (run_svc t1).
Proof.
  intros Hex. apply Subscribe_session in Hex as (ss & t & last & -> & Hss & Hl1 & Hl2 & Hl3).
  assert (Hafter := fun t1 m c t2 => session_commit _ _ ss t last t1 m c t2 Hss Hl3).
  apply session_projections in Hss as (H1 & H2 & H3 & Hall).
  destruct (forwards d ctx ss Hall) as (fs & Hm & Hd & Hp & Hc).
  exists fs. rewrite run_svc_app, fetches_app, commits_app, Hl1, Hl2, Hl3, !app_nil_r.
  rewrite H1, H2, H3. split_and!; try done. intros t1 m c t2 Htr.
  destruct (Hafter t1 m c t2 Htr) as (pre & s & <- & Ha & Hs & ->).
  unfold served in Hs. apply route_forwards in Hs as (topic & key & o & Hpub & Ho & _).
  exists topic, key. rewrite publications_app, Hpub, elem_of_app.
  right. apply list_elem_of_singleton. by rewrite (proj1 Ho Ha).
Qed.

End DispatcherRun.

(** ** The worker's shutdown *)

Section WorkerRun.
Context `{UnicodeTables} `{TaskCodec}.

(** C28: along a session of the worker the WaitGroup stays within
    0..1 and is 1 whenever a handler runs, so that [Wait] (worker.go:89)
    cannot return in the middle of a task; it is 0 again whenever [Run] has
    returned, so that [Wait], called after it, does not block. *)
Theorem worker_session_drains w ctx n tr r :
  exec (Worker_Run w ctx n) tr r -> wg_ok (run_svc tr).
Proof.
  intros Hex. apply Subscribe_session in Hex as (ss & t & last & -> & Hss & Hlast & _).
  apply session_projections in Hss as (H1 & _ & _ & Hall).
  rewrite run_svc_app, Hlast, app_nil_r, H1. clear -Hall.
  induction Hall as [|[m t a] ss Hs _ IH]; [apply wg_ok_nil|].
  apply wg_ok_app; [|done]. by apply (processMessage_wg w ctx (toMessage m) t a).
Qed.
End WorkerRun.

(** ** Concrete sessions

    The fakes of the services and a partition of messages: [FetchMessage]
    delivers them in turn and then fails because the context is done. *)

Definition partition_env : handler RunE (list KMessage * fake) := fun X e =>
  match e in RunE X return list KMessage * fake -> X * (list KMessage * fake) with
  | RunConsumer e' =>
      match e' in ConsumerE X return list KMessage * fake -> X * (list KMessage * fake) with
      | FetchMessage _ => fun '(ms, f) =>
          match ms with
          | [] => (Err ContextCanceled, (ms, f))
          | m :: ms' => (Ok m, (ms', f))
          end
      | CtxErr _ => fun w => (Some ContextCanceled, w)
      | CommitMessages _ _ => fun w => (None, w)
      end
  | RunSvc e' => fun '(ms, f) => let '(x, f') := fake_env _ e' f in (x, (ms, f'))
  end.

Definition demo_messages : list KMessage :=
  [mkKMessage TopicPending 0 0 "task-1" demo_raw []; mkKMessage TopicPending 0 1 "k" "not json" []].

Definition demo_dispatching (f : fake) : list (event RunE) :=
  run_trace partition_env (Dispatcher_Run (NewDispatcher true) CtxRun 5) (demo_messages, f).
Definition demo_working (f : fake) : list (event RunE) :=
  run_trace partition_env (Worker_Run demo_worker CtxRun 5) (demo_messages, f).

Example demo_dispatching_commits :
  map k_Offset (commit_attempts (demo_dispatching fake_init)) = [0; 1] /\
  commit_attempts (demo_dispatching (f_with_publishErr fake_init true)) = [].
Proof. vm_compute. done. Qed.

Lemma dispatcher_session_forwards_witness :
  exists fs, map fw_msg fs = demo_messages /\ Forall destination fs /\
    publications (run_svc (demo_dispatching fake_init)) =
      map (fun f => (f.(fw_topic), f.(fw_key), f.(fw_msg).(k_Value), f.(fw_result))) fs.
Proof.
  destruct (dispatcher_session_forwards (NewDispatcher true) CtxRun 5 (demo_dispatching fake_init)
    _ (run_exec partition_env (Dispatcher_Run (NewDispatcher true) CtxRun 5)
         (demo_messages, fake_init))) as (fs & Hm & Hd & Hp & _).
  exists fs. split; [exact Hm|]. split; [exact Hd|exact Hp].
Defined.

Lemma worker_session_drains_witness : wg_count (run_svc (demo_working fake_flaky)) = 0.
Proof.
  exact (proj1 (worker_session_drains demo_worker CtxRun 5 (demo_working fake_flaky) _
    (run_exec partition_env (Worker_Run demo_worker CtxRun 5) (demo_messages, fake_flaky)))).
Defined.
