(* ===== verification/System.v ===== *)
(** * The services together

    A submitted task on its way through the gateway, the dispatcher and a
    worker; what a redelivered message does; and the one race between the
    dispatcher and the worker over a task's status. *)

From S2P Require Import Prelude Prog GoStrings Domain JsonText Json GoFloat Effects Retry Handlers.
From S2P Require Import Kafka Worker Fakes WorkerSpec Dispatcher Redis RedisFake RedisStore Gateway.
From S2P Require Import GatewaySpec WellTyped.

(** ** Redelivery *)

Section Redelivery.
Context `{UnicodeTables} `{TaskCodec}.
Implicit Types (w : Worker) (ctx : Ctx) (tr : svc_trace) (m : gmap string Status).

(** The statuses a store holds after some writes, of which the failed ones
    did nothing. *)
Definition written m (ws : list (string * Status * option error)) : gmap string Status :=
  foldl (fun m x => match x.2 with None => <[x.1.1 := x.1.2]> m | Some _ => m end) m ws.

(** The status reads of a trace that got an answer got the current value. *)
Fixpoint reads_agree m tr : Prop :=
  match tr with
  | [] => True
  | ev :: tr' =>
      match status_read ev with
      | Some (id, Ok s) => m !! id = Some s
      | _ => True
      end /\ reads_agree (written m (status_writes [ev])) tr'
  end.

Lemma written_app m ws1 ws2 : written m (ws1 ++ ws2) = written (written m ws1) ws2.
Proof. apply foldl_app. Qed.

Lemma written_other m ws id :
  Forall (fun x => x.1.1 <> id) ws -> written m ws !! id = m !! id.
Proof.
  revert m. induction ws as [|[[id' s] o] ws IH]; intros m Hall; [done|].
  apply Forall_cons in Hall as [Hne Hall]. cbn [written foldl fst snd] in *.
  fold (written (match o with None => <[id':=s]> m | Some _ => m end) ws).
  rewrite IH by done. destruct o; [done|]. by rewrite lookup_insert_ne.
Qed.

Lemma written_last m ws id s :
  last ws = Some (id, s, None) -> written m ws !! id = Some s.
Proof.
  intros (ws' & ->)%last_Some. rewrite written_app. cbn. by rewrite lookup_insert_eq.
Qed.

Lemma reads_agree_app m t1 t2 :
  reads_agree m (t1 ++ t2) <->
  reads_agree m t1 /\ reads_agree (written m (status_writes t1)) t2.
Proof.
  revert m. induction t1 as [|ev t1 IH]; intros m; cbn [app reads_agree]; [tauto|].
  change (status_writes (ev :: t1)) with (status_writes ([ev] ++ t1)).
  rewrite (status_writes_app [ev]), written_app, IH. tauto.
Qed.

(** Once a worker has run a task and its final status write
    has worked, a redelivered message of that task does not run the handler
    again, on any worker, whatever other tasks did in between, unless the
    status cannot be read. *)
Theorem redelivery_runs_once w ctx w' ctx' msg msg' task m tr mid tr' r r' x :
  unmarshalTask msg.(Value) = Ok task -> unmarshalTask msg'.(Value) = Ok task ->
  exec (processMessage w ctx msg) tr r -> handler_calls tr <> [] ->
  last (status_writes tr) = Some x -> x.2 = None ->
  Forall (fun x => x.1.1 <> task.(Task.ID)) (status_writes mid) ->
  exec (processMessage w' ctx' msg') tr' r' ->
  reads_agree m (tr ++ mid ++ tr') ->
  handler_calls tr' = [] \/ exists e, status_reads tr' = [(task.(Task.ID), Err e)].
Proof.
  intros Hu Hu' Hex Hcalls Hlast Hok Hmid Hex' Hagree.
  pose proof (processMessage_inv w' ctx' msg' task tr' r' Hu' Hex') as Hoc.
  assert (Hterm : exists s, IsTerminal s = true /\ written m (status_writes (tr ++ mid))
            !! task.(Task.ID) = Some s).
  { rewrite status_writes_app, written_app, written_other by done.
    destruct (ran_final w ctx msg task tr r Hu Hex Hcalls) as (now & o1 & _ & _ & Hw & _).
    rewrite Hw in Hlast. injection Hlast as <-. cbn in Hok. subst o1.
    eexists. split; [apply (finished_terminal task tr now)|by apply written_last]. }
  destruct Hterm as (s & Hs & Hwritten).
  destruct Hoc as [| |st h e Hnt Hreg|st h start loop res att errs k d ep Hnt Hreg Hl Hep];
    [by left..|]. right.
  destruct (executed_projections _ _ _ _ _ st start loop res att errs k d ep Hl Hep eq_refl)
    as (Hr & _).
  destruct st as [s'|e]; [|by exists e].
  rewrite app_assoc in Hagree. apply reads_agree_app in Hagree as [_ [Hagree _]].
  cbn in Hagree. rewrite Hwritten in Hagree. injection Hagree as <-.
  by rewrite (Hnt s eq_refl) in Hs.
Qed.

(** C24: the dispatcher writes QUEUED after it has published.  If a worker has
    taken the message and run the task to its end before that write ([ta] and
    [tb] are the dispatcher's calls before and after), then the status of the
    task is QUEUED again, whatever the worker's verdict was; and when the
    message is delivered again, to a worker that has a handler for the type and
    whose status writes work, and every read of a status is answered with what
    was written last ([reads_agree]), the handler is called again: the guard against a
    second execution does not hold. *)
Theorem late_queued_reruns d ctxd msgd ta tb rd w ctx msg tr r w' ctx' msg' tr' r' task m h :
  exec (route d ctxd msgd) (ta ++ tb) rd -> publications tb = [] ->
  status_writes tb = [(task.(Task.ID), StatusQueued, None)] ->
  unmarshalTask msg.(Value) = Ok task -> unmarshalTask msg'.(Value) = Ok task ->
  exec (processMessage w ctx msg) tr r -> handler_calls tr <> [] ->
  exec (processMessage w' ctx' msg') tr' r' ->
  Registry.Get w'.(registry) task.(Task.Type_) = Ok h ->
  Forall (fun x => x.2 = None) (status_writes tr') ->
  reads_agree m (ta ++ tr ++ tb ++ tr') ->
  (exists now o, last (status_writes tr) =
     Some (task.(Task.ID), (finished task tr now).(Task.Status_), o)) /\
  written m (status_writes (ta ++ tr ++ tb)) !! task.(Task.ID) = Some StatusQueued /\
  handler_calls tr' <> [].
Proof.
  intros Hroute Hpub Hqueued Hu Hu' Hex Hcalls Hex' Hreg Hok Hagree.
  assert (written m (status_writes (ta ++ tr ++ tb)) !! task.(Task.ID) = Some StatusQueued) as Hlate.
  { rewrite !status_writes_app, !written_app, Hqueued. cbn. by rewrite lookup_insert_eq. }
  split_and!; [|done|].
  - destruct (ran_final w ctx msg task tr r Hu Hex Hcalls) as (now & o & _ & _ & Hw & _). by exists now, o.
  - rewrite app_assoc, app_assoc, <- (app_assoc ta tr tb) in Hagree.
    apply reads_agree_app in Hagree as [_ Hagree].
    destruct (worker_terminal_skipped w' ctx' msg' task tr' r' Hu' Hex') as (st & Hst & _).
    destruct (processMessage_inv w' ctx' msg' task tr' r' Hu' Hex')
      as [s Hterm|st' e o1 o2 Hnt Hreg'|st' h' e Hnt Hreg'|st' h' start loop res att errs k dl ep Hnt Hreg' Hl Hep].
    + cbn in Hagree. destruct Hagree as [Hagree _]. rewrite Hlate in Hagree. by injection Hagree as <-.
    + congruence.
    + by apply Forall_inv in Hok.
    + destruct (executed_projections _ _ _ _ _ st' start loop res att errs k dl ep Hl Hep eq_refl)
        as (_ & _ & -> & _). by eapply loop_calls.
Qed.
End Redelivery.

(** ** From the gateway to the handler *)

Section Pipeline.
Set Default Proof Using "Type*".
Context `{UnicodeTables} `{TaskCodec} `{!TypedCodec}.

(** C2: a task accepted over REST arrives unchanged.  It is the task built from
    the decoded body, [task]: stored under the identifier the client is told,
    and published once, as [v].  The dispatcher, given those bytes, publishes
    the same bytes under that identifier to the worker topic of the task's
    type, or to the dead-letter queue if the limiter refused it.  A worker,
    given those bytes, calls its handler with that very task and no other; and
    it does call it if it has a handler for the type, did not read a final
    status and could write its own. *)
Theorem submitted_task_reaches_handler r tr u :
  exec (REST_SubmitTask r) tr u -> http_codes tr = [StatusAccepted] ->
  Forall gw_answer_typed tr ->
  exists req id now v, let task := submitted_task req id now in
    decodings tr = [Ok req] /\ http_bodies tr = [BodySubmitted (mkSubmitted id StatusPending now)] /\
    meta_writes (svc_part tr) = [(task, None)] /\
    publications (svc_part tr) = [(TopicPending, id, v, None)] /\
    (forall d ctx msg tr2 r2, msg.(Value) = v -> exec (route d ctx msg) tr2 r2 ->
       exists o, publications tr2 = [(workerTopic req.(sr_Type), id, v, o)] \/
         (publications tr2 = [(Dispatcher.topicDLQ, "", v, o)] /\
          (req.(sr_Type), Ok false) ∈ limiter_answers tr2)) /\
    (forall w ctx msg tr3 r3, msg.(Value) = v -> exec (processMessage w ctx msg) tr3 r3 ->
       Forall (fun c => c.1.2 = task) (handler_calls tr3) /\
       (forall h st, Registry.Get w.(registry) req.(sr_Type) = Ok h ->
          head tr3 ≫= status_read = Some (id, st) -> not_terminal st ->
          Forall (fun x => x.2 = None) (status_writes tr3) -> handler_calls tr3 <> [])).
Proof.
  intros Hex Hcode Htyped.
  destruct (rest_submit_typed r _ _ Hex Htyped) as [Hreq _].
  destruct (accepted_inv r tr u Hex Hcode) as (req & id & now & o & v & o' & Hm & Hb & _ & Htr).
  assert (wf_task (submitted_task req id now) = true) as Hwf.
  { rewrite Htr in Hreq. do 3 apply Forall_inv_tail in Hreq. by apply Forall_inv in Hreq. }
  clear Hex Hcode Htyped Hreq. subst tr.
  exists req, id, now, v. split_and!; [done..| |].
  - pose proof (unmarshal_marshal _ _ Hwf Hm) as Hu.
    set (task := submitted_task req id now) in *.
    intros d ctx msg tr2 r2 <- Hroute. apply route_inv in Hroute.
    destruct Hroute as [o2 Href|task' lim o2 Hu' Hty Hlim|task' lim e Hu' Hty Hlim
      |task' lim o2 Hu' Hty Hlim]; try (rewrite Hu in Hu'; injection Hu' as <-).
    + exfalso. unfold refused in Href. rewrite Hu in Href. cbn in Href.
      rewrite Href in Hb. discriminate Hb.
    + destruct (limited_run_projections _ _ _ _ _ Hlim) as (Hp & _ & _ & Hrej & _).
      exists o2. right. rewrite publications_app, Hp. split; [done|].
      unfold limiter_answers in *. rewrite omap_app. apply elem_of_app. left. by apply Hrej.
    + destruct (limited_run_projections _ _ _ _ _ Hlim) as (Hp & _).
      exists (Some e). left. by rewrite publications_app, Hp.
    + destruct (limited_run_projections _ _ _ _ _ Hlim) as (Hp & _).
      exists None. left. by rewrite publications_app, Hp.
  - pose proof (unmarshal_marshal _ _ Hwf Hm) as Hu.
    intros w ctx msg tr3 r3 <- Hex. split; [by eapply handler_task|].
    intros h st Hreg Hst Hnt Hok. by eapply (handler_runs w ctx msg (submitted_task req id now)).
Qed.
End Pipeline.

(** ** Dispatcher and worker, interleaved *)

Section Interleaving.
Context {E : Type -> Type} {W : Type} (h : handler E W).

(** One call of a program. *)
Definition step1 {A} (p : prog E A) (w : W) : prog E A * W :=
  match p with
  | Ret a => (Ret a, w)
  | Vis e k => let '(x, w') := h _ e w in (k x, w')
  end.

(** Two programs over one world, scheduled call by call. *)
Fixpoint interleave {A B} (sched : list bool) (p : prog E A) (q : prog E B) (w : W)
  : prog E A * prog E B * W :=
  match sched with
  | [] => (p, q, w)
  | true :: sched' => let '(p', w') := step1 p w in interleave sched' p' q w'
  | false :: sched' => let '(q', w') := step1 q w in interleave sched' p q' w'
  end.
End Interleaving.

Definition finished {E A} (p : prog E A) : option A :=
  match p with Ret a => Some a | Vis _ _ => None end.

(** The message the dispatcher published is what the worker processes. *)
Definition race (sched : list bool) : option (option error) * option (option error) * fake :=
  let '(p, q, f) := interleave fake_env sched
    (route (NewDispatcher false) CtxRun demo_route_msg)
    (processMessage demo_worker CtxRun demo_msg) fake_init in
  (finished p, finished q, f).

(** The dispatcher publishes, the worker runs the task to its end, and only
    then does the dispatcher write QUEUED. *)
Definition late_queued : list bool := [true] ++ replicate 20 false ++ replicate 2 true.

(** Such a schedule: both services succeed, the task has run and its DONE
    execution is recorded, and its status ends as QUEUED. *)
Example queued_can_overwrite_done :
  exists f, race late_queued = (Some None, Some None, f) /\
    map TaskExecution.Status_ f.(f_execs) = [StatusDone] /\
    f.(f_states) !! "task-1" = Some StatusQueued.
Proof. eexists. split; [vm_compute; reflexivity|]. by vm_compute. Qed.

(** Two workers of a group with the same message, as after a rebalance. *)
Definition duel (sched : list bool) : option (option error) * option (option error) * fake :=
  let '(p, q, f) := interleave fake_env sched
    (processMessage demo_worker CtxRun demo_msg)
    (processMessage demo_worker CtxRun demo_msg) fake_init in
  (finished p, finished q, f).

(** The guard against a second execution is a read followed by a write: if
    both workers read the status before either has written, both execute the
    task, acknowledge it and record an execution. *)
Lemma guard_is_not_atomic :
  exists sched f,
    duel sched = (Some None, Some None, f) /\
    map TaskExecution.Status_ f.(f_execs) = [StatusDone; StatusDone] /\
    f.(f_states) !! "task-1" = Some StatusDone.
Proof.
  exists ([true; false] ++ replicate 20 true ++ replicate 20 false). eexists.
  split; [vm_compute; reflexivity|]. split; vm_compute; reflexivity.
Qed.

(** ** Concrete runs *)

(** A submission, and the dispatcher and a worker on the message it published,
    with the tasks as JSON. *)
Definition piped_post : list (event GwE) :=
  run_trace gw_env (@REST_SubmitTask typed_codec demo_request) gw_init.
Definition piped_value : string :=
  match publications (svc_part piped_post) with [(_, _, v, _)] => v | _ => "" end.
Definition piped_msg (topic : string) : Message := mkMessage topic "task-1" piped_value 0 [].
Definition piped_route : prog SvcE (option error) :=
  @route typed_codec (NewDispatcher true) CtxRun (piped_msg TopicPending).
Definition piped_work : prog SvcE (option error) :=
  @processMessage ascii_tables typed_codec demo_worker CtxRun (piped_msg "tasks.worker.email").

Lemma submitted_task_reaches_handler_witness :
  exists req now v, let task := submitted_task req "task-1" now in
    decodings piped_post = [Ok req] /\
    publications (svc_part piped_post) = [(TopicPending, "task-1"%string, v, None)] /\
    (exists o, publications (run_trace fake_env piped_route fake_init) =
       [("tasks.worker.email"%string, "task-1"%string, v, o)]) /\
    handler_calls (run_trace fake_env piped_work fake_flaky) <> [] /\
    Forall (fun c => c.1.2 = task) (handler_calls (run_trace fake_env piped_work fake_flaky)).
Proof.
  destruct (@submitted_task_reaches_handler ascii_tables typed_codec (@json_typed plain_texts)
    demo_request piped_post _ (run_exec gw_env _ gw_init))
    as (req & id & now & v & Hdec & Hb & _ & Hpub & Hroute & Hwork).
  - by vm_compute.
  - apply Forall_forall. intros ev Hev. vm_compute in Hev.
    repeat (apply elem_of_cons in Hev as [->|Hev]); [..|by apply elem_of_nil in Hev];
      try exact I; try (intros q [= <-]; by vm_compute); by vm_compute.
  - assert (id = "task-1"%string) as ->.
    { vm_compute in Hb. by injection Hb as <- _. }
    assert (piped_value = v) as Hv by (unfold piped_value; by rewrite Hpub).
    assert (req = demo_req) as -> by (vm_compute in Hdec; by injection Hdec as <-).
    exists demo_req, now, v. split; [exact Hdec|]. split; [exact Hpub|].
    destruct (Hwork demo_worker CtxRun (piped_msg "tasks.worker.email")
      (run_trace fake_env piped_work fake_flaky) _ Hv (run_exec _ _ _)) as [Htask Hruns].
    split; [|split; [|exact Htask]].
    + destruct (Hroute (NewDispatcher true) CtxRun (piped_msg TopicPending)
        (run_trace fake_env piped_route fake_init) (run_result fake_env piped_route fake_init) Hv
        (run_exec _ _ _)) as (o & [Hp|[Hp _]]); exists o.
      * etransitivity; [exact Hp|reflexivity].
      * exfalso. vm_compute in Hp. discriminate Hp.
    + eapply Hruns; [by vm_compute..| |by vm_compute; repeat constructor].
      intros s. vm_compute. discriminate.
Defined.

(** The worker runs between the dispatcher's publish and its QUEUED write, and
    again on the redelivered message. *)
Definition queue_route : svc_trace :=
  run_trace fake_env (route (NewDispatcher false) CtxRun demo_route_msg) fake_init.
Definition queued_world : fake := f_with_states fake_init {["task-1" := StatusQueued]}.

Lemma late_queued_reruns_witness :
  written ∅ (status_writes (take 1 queue_route ++ demo_trace fake_init ++ drop 1 queue_route))
    !! "task-1"%string = Some StatusQueued /\
  handler_calls (demo_trace queued_world) <> [].
Proof.
  destruct (late_queued_reruns (NewDispatcher false) CtxRun demo_route_msg (take 1 queue_route)
    (drop 1 queue_route) (run_result fake_env (route (NewDispatcher false) CtxRun demo_route_msg) fake_init)
    demo_worker CtxRun demo_msg (demo_trace fake_init) (demo_verdict fake_init) demo_worker CtxRun
    demo_msg (demo_trace queued_world) (demo_verdict queued_world) demo_task ∅ demo_handler)
    as (_ & Hq & Hc).
  - rewrite take_drop. apply run_exec.
  - by vm_compute.
  - by vm_compute.
  - exact demo_decodes.
  - exact demo_decodes.
  - apply run_exec.
  - vm_compute. discriminate.
  - apply run_exec.
  - by vm_compute.
  - vm_compute. repeat constructor.
  - vm_compute. tauto.
  - split; [exact Hq|exact Hc].
Defined.

(** The demo message twice, with the fake store in between. *)
Definition second_world : fake := demo_world fake_init.

Lemma redelivery_runs_once_witness :
  handler_calls (demo_trace second_world) = [] \/
  exists e, status_reads (demo_trace second_world) = [("task-1"%string, Err e)].
Proof.
  refine (redelivery_runs_once demo_worker CtxRun demo_worker CtxRun demo_msg demo_msg demo_task ∅
    (demo_trace fake_init) [] (demo_trace second_world) _ _ (("task-1"%string, StatusDone), None)
    demo_decodes demo_decodes (run_exec _ _ _) _ _ _ _ (run_exec _ _ _) _).
  - vm_compute. discriminate.
  - vm_compute. reflexivity.
  - reflexivity.
  - apply Forall_nil_2.
  - vm_compute. tauto.
Defined.
