(* ===== verification/Wire.v ===== *)
(** * From the body of a request to the payload of a handler

    The JSON of a submission on its way: decoded by the gateway, the payload
    kept as the text it is (json.RawMessage), written into the task as base64,
    decoded again by the worker and parsed at last by the handler. *)

From S2P Require Import Prelude Prog GoStrings Domain JsonText Json GoFloat Effects Retry Handlers.
From S2P Require Import Kafka Worker Fakes WorkerSpec Dispatcher Gateway GatewaySpec WellTyped.

#[local] Existing Instance JsonTaskCodec | 0.

(** ** The decoded submission *)

(** The member of the body that is the payload: the last of that name. *)
Definition is_payload (m : string * string * json) : bool :=
  String.eqb (fold_name "payload") (fold_name m.1.1).
Definition payload_member (ms : list (string * string * json)) : option (string * string * json) :=
  last (List.filter is_payload ms).

(** The other fields leave the payload alone. *)
Definition same_payload (set : loader SubmitTaskRequest) : Prop := forall raw v q q',
  set raw v q = Some q' -> q'.(sr_Payload) = q.(sr_Payload).

Lemma same_payload_field {B} (load : loader B) get put :
  (forall b q, (put b q).(sr_Payload) = q.(sr_Payload)) -> same_payload (field_of load get put).
Proof.
  intros Hput raw v q q'. unfold field_of. destruct (load _ _ _); [|done]. intros [= <-]. apply Hput.
Qed.

Lemma payload_lookup key set :
  lookup_field submit_json key = Some set ->
  if String.eqb (fold_name "payload") (fold_name key)
  then set = field_of load_raw sr_Payload
               (fun v q => mkSubmit q.(sr_Type) v q.(sr_Priority) q.(sr_ScheduledAt))
  else same_payload set.
Proof.
  unfold lookup_field, submit_json. cbn [find_field].
  destruct (String.eqb_spec key "type") as [->|]; [|destruct (String.eqb_spec key "payload") as [->|];
    [|destruct (String.eqb_spec key "priority") as [->|];
    [|destruct (String.eqb_spec key "scheduled_at") as [->|]]]]; try (intros [= <-]; cbn;
      first [done|by apply same_payload_field]).
  destruct (String.eqb_spec (fold_name "type") (fold_name key)) as [<-|];
    [intros [= <-]; by apply same_payload_field|].
  destruct (String.eqb_spec (fold_name "payload") (fold_name key)) as [|]; [by intros [= <-]|].
  destruct (String.eqb _ _); [intros [= <-]; by apply same_payload_field|].
  destruct (String.eqb _ _); [intros [= <-]; by apply same_payload_field|done].
Qed.

Lemma payload_found key :
  String.eqb (fold_name "payload") (fold_name key) = true ->
  is_Some (lookup_field submit_json key).
Proof.
  intros Hk. unfold lookup_field. destruct (find_field (String.eqb key) submit_json); [by eexists|].
  unfold submit_json. cbn [find_field]. rewrite Hk.
  destruct (String.eqb (fold_name "type") (fold_name key)); by eexists.
Qed.

(** Decoding a body leaves the text of its payload member, if it has one. *)
Lemma decode_payload ms q q' :
  decode_members submit_json ms q = Some q' ->
  q'.(sr_Payload) = match payload_member ms with
                    | Some (_, raw, _) => Some raw
                    | None => q.(sr_Payload)
                    end.
Proof.
  unfold payload_member. revert q. induction ms as [|[[key raw] v] ms IH]; intros q; cbn [decode_members].
  - by intros [= <-].
  - cbn [List.filter].
    change (is_payload (key, raw, v)) with (String.eqb (fold_name "payload") (fold_name key)).
    pose proof (payload_lookup key) as Hl.
    pose proof (payload_found key) as Hf.
    destruct (String.eqb (fold_name "payload") (fold_name key)).
    + destruct (Hf eq_refl) as [set Hset]. rewrite Hset. rewrite (Hl set Hset).
      cbn [field_of load_raw mbind option_bind]. intros Hd. apply IH in Hd. rewrite Hd.
      rewrite last_cons. destruct (last _) as [[[]]|]; done.
    + destruct (lookup_field submit_json key) as [set|]; [|apply IH].
      specialize (Hl set eq_refl). destruct (set raw v q) as [q1|] eqn:Hs; [|done].
      cbn [mbind option_bind]. intros Hd. rewrite (IH _ Hd). by rewrite (Hl _ _ _ _ Hs).
Qed.

(** The texts of the members of a body denote their values. *)
Lemma body_members limit body ms :
  body_value limit body = Some (JObj ms) -> Forall sound_member ms.
Proof.
  unfold body_value. set (seen := match limit with Some _ => _ | None => _ end).
  destruct (read_value _ 0 (skip seen)) as [[v rest]|] eqn:Hr; [|done]. cbn [mbind option_bind].
  intros Hv. assert (v = JObj ms) as ->.
  { destruct v; try (by injection Hv as ->); destruct (_ && _); try done; by injection Hv. }
  apply read_raw in Hr; [|done]. by apply object_raw in Hr.
Qed.

(** What the decoder yields is well typed. *)
Definition wf_submit (q : SubmitTaskRequest) : Prop :=
  ValidString q.(sr_Type) = true /\ in_int64b q.(sr_Priority) = true.

Lemma submit_json_keeps : keeps_fields wf_submit submit_json.
Proof.
  unfold keeps_fields, submit_json.
  repeat match goal with |- Forall _ (_ :: _) => constructor; cbn [snd]; [intros raw v q q' Hp|] end;
    [..|constructor].
  - apply (field_of_keeps _ _ _ wf_submit (fun s => ValidString s = true));
      [intros b b'; by apply load_string_valid|by intros []|by intros b []].
  - apply (field_of_keeps _ _ _ wf_submit (fun _ => True)); [done..|by intros b []].
  - apply (field_of_keeps _ _ _ wf_submit (fun z => in_int64b z = true));
      [apply load_int_range|by intros []|by intros b []].
  - apply (field_of_keeps _ _ _ wf_submit (fun _ => True)); [done..|by intros b []].
Qed.

(** An accepted body: its payload member, and its types. *)
Lemma decode_body_inv `{JsonTexts} limit body q raw :
  decode_body limit body = Ok q -> q.(sr_Payload) = Some raw ->
  wf_submit q /\
  exists ms key v, body_value limit body = Some (JObj ms) /\
    payload_member ms = Some (key, raw, v) /\ parse raw = Some v.
Proof.
  unfold decode_body. destruct (body_value limit body) as [v|] eqn:Hb; [|done].
  cbn [mbind option_bind]. destruct (decode_struct submit_json v _) as [q1|] eqn:Hd; [|done].
  intros [= <-] Hraw. destruct v as [| | | | |ms]; cbn [decode_struct] in Hd; try done.
  { by injection Hd as <-. }
  pose proof (body_members _ _ _ Hb) as Hms. split.
  - by eapply (decode_members_keeps wf_submit); [exact submit_json_keeps|exact Hms| |exact Hd].
  - pose proof (decode_payload _ _ _ Hd) as Hp. rewrite Hraw in Hp.
    destruct (payload_member ms) as [[[key raw'] v]|] eqn:Hm; [|done]. injection Hp as <-.
    exists ms, key, v. split_and!; [done..|].
    unfold payload_member in Hm. apply last_Some_elem_of in Hm.
    apply list_elem_of_In, filter_In in Hm as [Hin%list_elem_of_In _].
    rewrite Forall_forall in Hms. by apply (Hms (key, raw, v)).
Qed.

(** ** To the handler *)

(** [Unmarshal] into a fresh struct, of a text that denotes [v]. *)
Definition decoded `{JsonTexts} {A} (ty : string) (fs : fields A) (zero : A) (raw : string) (v : json)
  : goresult A :=
  match decode_struct fs v zero with
  | Some a => Ok a
  | None => Err (ErrNew (json_error ty raw))
  end.

(** C7: when a task is posted and a worker runs it, the handler is given
    the payload member of the body (the last one of that name, in any case)
    byte by byte, and what it decodes from it is what that member says: the
    payload of an accepted task is never malformed JSON, whatever the JSON and
    base64 it goes through on the way. *)
Theorem posted_payload_reaches_handler `{UnicodeTables, JsonTexts} rq body tr u id wk ctx msg trw rw :
  exec (REST_SubmitTask rq) tr u -> http_codes tr = [StatusAccepted] ->
  decodings tr = [decode_body rq.(r_limit) body] ->
  publications (svc_part tr) = [(Gateway.pendingTopic, id, msg.(Value), None)] ->
  ValidString id = true -> exec (processMessage wk ctx msg) trw rw ->
  exists ms key raw v,
    body_value rq.(r_limit) body = Some (JObj ms) /\ payload_member ms = Some (key, raw, v) /\
    Forall (fun c => c.1.2.(Task.Payload) = Some raw) (handler_calls trw) /\
    unmarshalEmail (Some raw) =
      decoded "handlers.emailPayload" email_json (mkEmailPayload "" "" "") raw v /\
    unmarshalWebhook (Some raw) =
      decoded "handlers.webhookPayload" webhook_json (mkWebhookPayload "" "" ∅ "") raw v.
Proof.
  intros Hex Hcode Hdec Hpub Hid Hw.
  destruct (accepted_inv rq tr u Hex Hcode) as (req & id' & now & o & raw' & o' & Hm & _ & Hlen & ->).
  injection Hdec as Hdec. injection Hpub as -> Hval.
  destruct req.(sr_Payload) as [raw|] eqn:Hp; [|done].
  destruct (decode_body_inv _ _ req raw (eq_sym Hdec) Hp)
    as ([Hty Hprio] & ms & key & v & Hb & Hmem & Hparse).
  exists ms, key, raw, v. split; [done|]. split; [done|]. split.
  - assert (unmarshalTask msg.(Value) = Ok (submitted_task req id now)) as Hu.
    { rewrite <- Hval. apply unmarshal_marshal; [|exact Hm]. apply wf_task_fields. by split. }
    eapply Forall_impl; [by eapply handler_task|]. intros c ->. exact Hp.
  - unfold unmarshalEmail, unmarshalWebhook, Unmarshal. change (default ""%string (Some raw)) with raw.
    by rewrite Hparse.
Qed.

(** ** A concrete run *)

Definition wire_body : string :=
  "{" +:+ field "Type" +:+ write_string "email" +:+ ", " +:+ field "payload" +:+ "1," +:+
  field "PAYLOAD" +:+ "{ " +:+ field "to" +:+ write_string "a@b.c" +:+ "} }".

Definition wire_world : gw_world :=
  mkGw fake_init (@decode_body plain_texts None wire_body) [].
Definition wire_post : list (event GwE) :=
  run_trace gw_env (@REST_SubmitTask (@JsonTaskCodec plain_texts) demo_request) wire_world.
Definition wire_msg : Message :=
  mkMessage "tasks.worker.email" "task-1"
    (match publications (svc_part wire_post) with [(_, _, v, _)] => v | _ => "" end) 7 [].
Definition wire_work : prog SvcE (option error) :=
  @processMessage ascii_tables (@JsonTaskCodec plain_texts) demo_worker CtxRun wire_msg.
Definition wire_run : svc_trace := run_trace fake_env wire_work fake_init.

Lemma posted_payload_reaches_handler_witness :
  let raw := ("{ " +:+ field "to" +:+ write_string "a@b.c" +:+ "}")%string in
  handler_calls wire_run <> [] /\
  Forall (fun c => c.1.2.(Task.Payload) = Some raw) (handler_calls wire_run) /\
  @unmarshalEmail plain_texts (Some raw) = Ok (mkEmailPayload "a@b.c" "" "").
Proof.
  intros raw. split; [vm_compute; discriminate|].
  edestruct (@posted_payload_reaches_handler ascii_tables plain_texts demo_request wire_body wire_post
    _ "task-1" demo_worker CtxRun wire_msg wire_run (run_result fake_env wire_work fake_init) (run_exec _ _ _))
    as (ms & key & raw' & v & Hb & Hm & Hcalls & Hemail & _).
  - vm_compute. reflexivity.
  - vm_compute. reflexivity.
  - vm_compute. reflexivity.
  - vm_compute. reflexivity.
  - unfold wire_run, wire_work. apply run_exec.
  - vm_compute in Hb. injection Hb as <-. vm_compute in Hm. injection Hm as _ <- <-.
    split; [exact Hcalls|]. etransitivity; [exact Hemail|vm_compute; reflexivity].
Defined.
