(* ===== verification/Cluster.v ===== *)
(** * The services on a Kafka cluster

    Any number of instances of the services over the partitions of one Kafka
    cluster, as a step relation: a step is a request, a firing of a cron job,
    the handling of one message, a crash in the middle of either, or a consumer
    that starts over.  Every execution of the service's own function is a
    possible step, whatever Redis, PostgreSQL and the handlers answered it;
    what the model fixes are the partitions, the committed offsets of the
    consumer groups and the positions of the consumers, as the client's
    documentation has them.  What becomes of the tasks the gateway accepted. *)

From S2P Require Import Prelude Prog GoStrings Domain GoFloat Effects Retry Handlers Kafka.
From S2P Require Import Worker Fakes WorkerSpec Dispatcher Services Redis RedisFake RedisStore.
From S2P Require Import Scheduler Gateway GatewaySpec GoTime Json WellTyped.

(** ** The cluster *)

(** A partition of a topic.  Every topic has one consumer group (the
    dispatcher's or that of a worker type), and a partition one consumer of it
    at a time. *)
Definition partition : Type := string * Z.

(** What the documentation of Kafka and of its client says of the partitions:
    their logs of keys and values, the committed offset of the group, and the
    position its consumer fetches from next.  A write goes to the end of some
    partition of its topic; a fetch moves the position on; a commit of a message
    sets the group's offset behind it, and never back; a consumer that starts
    over resumes at that offset. *)
Class KafkaCluster (K : Type) := {
  cl_log : K -> partition -> list (string * string);
  cl_committed : K -> partition -> nat;
  cl_position : K -> partition -> nat;
  cl_append : string -> string -> string -> K -> K;
  cl_fetched : partition -> K -> K;
  cl_commit : partition -> nat -> K -> K;
  cl_resume : partition -> K -> K;
  append_law topic key value σ :
    (exists part, forall q, cl_log (cl_append topic key value σ) q =
       if decide (q = (topic, part)) then cl_log σ q ++ [(key, value)] else cl_log σ q) /\
    forall q, cl_committed (cl_append topic key value σ) q = cl_committed σ q /\
              cl_position (cl_append topic key value σ) q = cl_position σ q;
  fetched_law p σ q :
    cl_log (cl_fetched p σ) q = cl_log σ q /\
    cl_committed (cl_fetched p σ) q = cl_committed σ q /\
    cl_position (cl_fetched p σ) q =
      if decide (q = p) then S (cl_position σ q) else cl_position σ q;
  commit_law p o σ q :
    cl_log (cl_commit p o σ) q = cl_log σ q /\
    cl_committed (cl_commit p o σ) q =
      (if decide (q = p) then Nat.max (cl_committed σ q) (S o) else cl_committed σ q) /\
    cl_position (cl_commit p o σ) q = cl_position σ q;
  resume_law p σ q :
    cl_log (cl_resume p σ) q = cl_log σ q /\
    cl_committed (cl_resume p σ) q = cl_committed σ q /\
    cl_position (cl_resume p σ) q =
      if decide (q = p) then cl_committed σ q else cl_position σ q }.

(** A publish that was attempted: topic, key, value and its outcome. *)
Abbreviation publish := (string * string * string * option error)%type.
Implicit Types (p : partition) (m : KMessage).

Section Partitions.
Context `{KafkaCluster K}.
Implicit Types (σ : K).

(** Nothing was ever written or read. *)
Definition unused σ : Prop :=
  forall p, cl_log σ p = [] /\ cl_committed σ p = O /\ cl_position σ p = O.

(** What publishes do: one that worked is in its topic; one that failed may be
    there all the same, its reply lost. *)
Inductive appended : list publish -> K -> K -> Prop :=
| appended_nil σ : appended [] σ σ
| appended_in topic key value o ps σ σ' :
    appended ps (cl_append topic key value σ) σ' ->
    appended ((topic, key, value, o) :: ps) σ σ'
| appended_not topic key value e ps σ σ' :
    appended ps σ σ' -> appended ((topic, key, value, Some e) :: ps) σ σ'.

(** The message a consumer of [p] gets from [FetchMessage]. *)
Definition delivers σ p m : Prop :=
  m.(k_Topic) = p.1 /\ m.(k_Partition) = p.2 /\ m.(k_Offset) = Z.of_nat (cl_position σ p) /\
  cl_log σ p !! cl_position σ p = Some (m.(k_Key), m.(k_Value)).

(** After its handler has published [ps] and answered [r] ([Kafka.Subscribe]):
    the next message is due, and the offset is committed if the answer was nil
    and the commit arrived. *)
Inductive advanced p (ps : list publish) : option error -> K -> K -> Prop :=
| advanced_committed σ σ' :
    appended ps σ σ' ->
    advanced p ps None σ (cl_commit p (cl_position σ p) (cl_fetched p σ'))
| advanced_not r σ σ' :
    appended ps σ σ' -> advanced p ps r σ (cl_fetched p σ').

(** Logs only grow. *)
Definition grows σ σ' : Prop := forall p, cl_log σ p `prefix_of` cl_log σ' p.

(** A publish that worked is in a log. *)
Definition in_log σ (topic key value : string) : Prop :=
  exists part o, cl_log σ (topic, part) !! o = Some (key, value).

Lemma appended_grows ps σ σ' :
  appended ps σ σ' ->
  grows σ σ' /\ forall q, cl_committed σ' q = cl_committed σ q /\ cl_position σ' q = cl_position σ q.
Proof.
  induction 1 as [σ|topic key value o ps σ σ' _ [IHg IHo]|topic key value e ps σ σ' _ IH];
    [by split; [intros q|]| |exact IH].
  destruct (append_law topic key value σ) as [(part & Hlog) Hoff]. split.
  - intros q. etransitivity; [|apply IHg]. rewrite Hlog. case_decide; [by apply prefix_app_r|done].
  - intros q. destruct (IHo q) as [-> ->]. apply Hoff.
Qed.

Lemma appended_in_log ps σ σ' topic key value :
  appended ps σ σ' -> (topic, key, value, None) ∈ ps -> in_log σ' topic key value.
Proof.
  induction 1 as [σ|topic' key' value' o ps σ σ' Happ IH|topic' key' value' e ps σ σ' _ IH];
    intros Hin; [by apply elem_of_nil in Hin| |];
    apply elem_of_cons in Hin as [[= -> -> -> Ho]|Hin]; auto.
  destruct (append_law topic' key' value' σ) as [(part & Hlog) _].
  exists part, (length (cl_log σ (topic', part))). apply appended_grows in Happ as [Hg _].
  eapply prefix_lookup_Some; [|apply Hg].
  rewrite Hlog, decide_True by done. by apply list_lookup_middle.
Qed.

Lemma in_log_grows σ σ' topic key value : grows σ σ' -> in_log σ topic key value -> in_log σ' topic key value.
Proof. intros Hg (part & o & Ho). exists part, o. by eapply prefix_lookup_Some. Qed.

(** What a handled message leaves. *)
Lemma advanced_inv p ps r σ σ' :
  advanced p ps r σ σ' ->
  grows σ σ' /\ (forall topic key value, (topic, key, value, None) ∈ ps -> in_log σ' topic key value) /\
  (forall q, cl_position σ' q = if decide (q = p) then S (cl_position σ q) else cl_position σ q) /\
  ((forall q, cl_committed σ' q = cl_committed σ q) \/
   r = None /\ forall q, cl_committed σ' q =
     if decide (q = p) then Nat.max (cl_committed σ q) (S (cl_position σ q)) else cl_committed σ q).
Proof.
  destruct 1 as [σ σ1 Happ|r σ σ1 Happ]; pose proof (appended_grows _ _ _ Happ) as [Hg Hsame];
    (split_and!; [|intros ? ? ? Hin; destruct (appended_in_log _ _ _ _ _ _ Happ Hin) as (part & o & Ho);
       exists part, o| |]).
  - intros q. destruct (commit_law p (cl_position σ p) (cl_fetched p σ1) q) as [-> _].
    destruct (fetched_law p σ1 q) as [-> _]. apply Hg.
  - destruct (commit_law p (cl_position σ p) (cl_fetched p σ1) (topic, part)) as [-> _].
    by destruct (fetched_law p σ1 (topic, part)) as [-> _].
  - intros q. destruct (commit_law p (cl_position σ p) (cl_fetched p σ1) q) as (_ & _ & ->).
    destruct (fetched_law p σ1 q) as (_ & _ & ->). destruct (Hsame q) as [_ ->]. done.
  - right. split; [done|]. intros q.
    destruct (commit_law p (cl_position σ p) (cl_fetched p σ1) q) as (_ & -> & _).
    destruct (fetched_law p σ1 q) as (_ & -> & _). destruct (Hsame q) as [-> _].
    by case_decide; subst.
  - intros q. destruct (fetched_law p σ1 q) as [-> _]. apply Hg.
  - by destruct (fetched_law p σ1 (topic, part)) as [-> _].
  - intros q. destruct (fetched_law p σ1 q) as (_ & _ & ->). destruct (Hsame q) as [_ ->]. done.
  - left. intros q. destruct (fetched_law p σ1 q) as (_ & -> & _). apply Hsame.
Qed.
End Partitions.

(** ** The steps *)

Inductive label : Type :=
| Submit (rq : Request) (tr : list (event GwE))
| SubmitRPC (req : PbSubmitRequest) (tr : list (event GwE))
| Fire (job : ScheduledJob) (tr : list (event SchedE))
| Dispatch p m (tr : svc_trace) (r : option error)
| Work p (w : Worker) m (tr : svc_trace) (r : option error)
| Crash (ps : list publish)
| Resume p.

(** What a step published, and the message it took. *)
Definition published (l : label) : list publish :=
  match l with
  | Submit _ tr | SubmitRPC _ tr => publications (svc_part tr)
  | Fire _ tr => sched_publications tr
  | Dispatch _ _ tr _ | Work _ _ _ tr _ => publications tr
  | Crash ps => ps
  | Resume _ => []
  end.
Definition taken (l : label) : option (partition * KMessage * option error) :=
  match l with
  | Dispatch p m _ r | Work p _ m _ r => Some (p, m, r)
  | _ => None
  end.

Section Steps.
Context `{UnicodeTables, TaskCodec, Cron} `{KafkaCluster K}.
Implicit Types (σ : K).

(** The consumers: a dispatcher reads tasks.pending, a worker the topic of
    its type; the label is an execution of their handler. *)
Definition handles (l : label) : Prop :=
  match l with
  | Dispatch p m tr r => p.1 = TopicPending /\ exists d ctx, exec (route d ctx (toMessage m)) tr r
  | Work p w m tr r =>
      p.1 = workerTopic w.(workerType) /\ exists ctx, exec (processMessage w ctx (toMessage m)) tr r
  | _ => False
  end.
Definition produces (l : label) : Prop :=
  match l with
  | Submit rq tr => exists u, exec (REST_SubmitTask rq) tr u
  | SubmitRPC req tr => exists ctx x, exec (GRPC_SubmitTask ctx req) tr x
  | Fire job tr => exists ctx r, exec (runJob ctx job) tr r
  | Crash ps =>
      (exists rq tr, exec_prefix (REST_SubmitTask rq) tr /\ ps = publications (svc_part tr)) \/
      (exists ctx req tr, exec_prefix (GRPC_SubmitTask ctx req) tr /\
         ps = publications (svc_part tr)) \/
      (exists ctx job tr, exec_prefix (runJob ctx job) tr /\ ps = sched_publications tr)
  | _ => False
  end.
(** The publishes of a consumer that crashed in the middle of a message. *)
Definition interrupted p m (ps : list publish) : Prop :=
  (p.1 = TopicPending /\ exists d ctx tr,
     exec_prefix (route d ctx (toMessage m)) tr /\ ps = publications tr) \/
  (exists w ctx tr, p.1 = workerTopic w.(workerType) /\
     exec_prefix (processMessage w ctx (toMessage m)) tr /\ ps = publications tr).

Inductive step σ : label -> K -> Prop :=
| step_produce l σ' : produces l -> appended (published l) σ σ' -> step σ l σ'
| step_handle l p m r σ' :
    handles l -> taken l = Some (p, m, r) -> delivers σ p m ->
    advanced p (published l) r σ σ' -> step σ l σ'
| step_interrupt p m ps σ' :
    delivers σ p m -> interrupted p m ps -> appended ps σ σ' -> step σ (Crash ps) (cl_resume p σ')
| step_resume p : step σ (Resume p) (cl_resume p σ).

(** What happened since a state, the latest last. *)
Inductive steps σ : list label -> K -> Prop :=
| steps_nil : steps σ [] σ
| steps_snoc h l σ1 σ2 : steps σ h σ1 -> step σ1 l σ2 -> steps σ (h ++ [l]) σ2.
Definition reachable (h : list label) σ : Prop := exists σ0, unused σ0 /\ steps σ0 h σ.

(** ** What every step keeps *)

(** A label that took the message at an offset, and what its handler said. *)
Definition took p (o : nat) (r : option error) (l : label) : Prop :=
  exists m, taken l = Some (p, m, r) /\ m.(k_Offset) = Z.of_nat o.

(** The messages its labels took and published are in the logs. *)
Record labelled (h : list label) σ : Prop := {
  lb_taken l p m r : l ∈ h -> taken l = Some (p, m, r) -> handles l /\
    exists o, m.(k_Offset) = Z.of_nat o /\ cl_log σ p !! o = Some (m.(k_Key), m.(k_Value));
  lb_published l topic key value : l ∈ h -> (topic, key, value, None) ∈ published l ->
    in_log σ topic key value }.

(** What lies before a position was taken, and what was committed last was
    handled. *)
Record coherent (h : list label) σ : Prop := {
  co_labels : labelled h σ;
  co_bounds p : (cl_committed σ p <= cl_position σ p <= length (cl_log σ p))%nat;
  co_past p o : (o < cl_position σ p)%nat -> Exists (fun l => exists r, took p o r l) h;
  co_commit p : cl_committed σ p <> O -> Exists (took p (pred (cl_committed σ p)) None) h }.

Lemma labelled_snoc h l σ σ' :
  labelled h σ -> grows σ σ' ->
  (forall topic key value, (topic, key, value, None) ∈ published l -> in_log σ' topic key value) ->
  (forall p m r, taken l = Some (p, m, r) -> handles l /\
    exists o, m.(k_Offset) = Z.of_nat o /\ cl_log σ p !! o = Some (m.(k_Key), m.(k_Value))) ->
  labelled (h ++ [l]) σ'.
Proof.
  intros [Ht Hp] Hg Hin Hl.
  assert (forall l' p m r, l' ∈ h ++ [l] -> taken l' = Some (p, m, r) -> handles l' /\
    exists o, m.(k_Offset) = Z.of_nat o /\ cl_log σ p !! o = Some (m.(k_Key), m.(k_Value))) as Hall.
  { intros l' p m r [Hl' | ->%list_elem_of_singleton]%elem_of_app; eauto. }
  split.
  - intros l' p m r Hl' Htk. destruct (Hall l' p m r Hl' Htk) as (Hh & o & Ho & Hlk).
    split; [done|]. exists o. split; [done|]. by eapply prefix_lookup_Some.
  - intros l' topic key value [Hl' | ->%list_elem_of_singleton]%elem_of_app Hpub; [|by apply Hin].
    eapply in_log_grows; [done|by eapply Hp].
Qed.

(** A step that takes no message: logs grow, committed offsets stay, positions
    stay or go back to them. *)
Lemma coherent_quiet h σ l σ' :
  coherent h σ -> taken l = None -> grows σ σ' ->
  (forall topic key value, (topic, key, value, None) ∈ published l -> in_log σ' topic key value) ->
  (forall p, cl_committed σ' p = cl_committed σ p) ->
  (forall p, cl_position σ' p = cl_position σ p \/ cl_position σ' p = cl_committed σ p) ->
  coherent (h ++ [l]) σ'.
Proof.
  intros [Hlab Hb Hpast Hcom] Hl Hg Hin Hc Hpos. split.
  - eapply labelled_snoc; [done..|]. by rewrite Hl.
  - intros p. specialize (Hb p). pose proof (prefix_length _ _ (Hg p)). rewrite Hc.
    destruct (Hpos p) as [-> | ->]; lia.
  - intros p o Ho. apply Exists_app. left. apply Hpast.
    specialize (Hb p). destruct (Hpos p); lia.
  - intros p. rewrite Hc. intros Hne. apply Exists_app. left. by apply Hcom.
Qed.

(** A step that takes the message at the position. *)
Lemma coherent_take h σ l p m r σ' :
  coherent h σ -> handles l -> taken l = Some (p, m, r) -> delivers σ p m ->
  advanced p (published l) r σ σ' -> coherent (h ++ [l]) σ'.
Proof.
  intros [Hlab Hb Hpast Hcom] Hh Hl (_ & _ & Hoff & Hmsg) Hadv.
  destruct (advanced_inv _ _ _ _ _ Hadv) as (Hg & Hin & Hpos & Hc).
  assert (took p (cl_position σ p) r l) as Hlast by by exists m.
  clear Hadv. split.
  - eapply labelled_snoc; [done..|]. intros p' m' r'. rewrite Hl. intros [= <- <- <-]. eauto.
  - intros q. pose proof (Hb q) as Hq. pose proof (prefix_length _ _ (Hg q)).
    apply lookup_lt_Some in Hmsg. rewrite Hpos.
    destruct Hc as [-> |[_ ->]]; case_decide; subst; lia.
  - intros q o. rewrite Hpos, Exists_app, Exists_cons. case_decide as Hq; subst; [|by auto].
    intros Ho. destruct (decide (o = cl_position σ p)) as [->|Hlt]; [eauto|].
    left. apply Hpast. lia.
  - intros q. rewrite Exists_app, Exists_cons. destruct Hc as [-> |[-> ->]]; [by left; apply Hcom|].
    case_decide as Hq; subst; [|by left; apply Hcom].
    intros _. specialize (Hb p). rewrite Nat.max_r by lia. auto.
Qed.

Lemma produces_quiet l : produces l -> taken l = None.
Proof. by destruct l. Qed.

(** Starting over. *)
Lemma coherent_resume h σ l p σ1 :
  coherent h σ -> taken l = None -> appended (published l) σ σ1 -> coherent (h ++ [l]) (cl_resume p σ1).
Proof.
  intros Hco Hl Happ. pose proof (appended_grows _ _ _ Happ) as [Hg Hsame].
  apply (coherent_quiet h σ); [done|done| | | |].
  - intros q. destruct (resume_law p σ1 q) as [-> _]. apply Hg.
  - intros topic key value Hin. destruct (appended_in_log _ _ _ _ _ _ Happ Hin) as (part & o & Ho).
    exists part, o. by destruct (resume_law p σ1 (topic, part)) as [-> _].
  - intros q. destruct (resume_law p σ1 q) as (_ & -> & _). apply Hsame.
  - intros q. destruct (resume_law p σ1 q) as (_ & _ & ->). destruct (Hsame q) as [-> ->].
    case_decide; auto.
Qed.

Lemma steps_coherent σ0 h σ : unused σ0 -> steps σ0 h σ -> coherent h σ.
Proof.
  intros H0'. induction 1 as [|h l σ1 σ2 _ IH Hstep].
  { split; [split; by intros ? * ?%elem_of_nil|..]; intros p; destruct (H0' p) as (Hl & Hc & Hp);
      rewrite ?Hl, ?Hc, ?Hp; cbn; intros; lia. }
  destruct Hstep as [l σ' Hp Happ|l p m r σ' Hh Hl Hd Hadv|p m ps σ' Hd Hi Happ|p].
  - pose proof (appended_grows _ _ _ Happ) as [Hg Hsame].
    apply (coherent_quiet h σ1); [done|by apply produces_quiet|done| | |].
    + intros topic key value. by eapply appended_in_log.
    + intros q. apply Hsame.
    + intros q. left. apply Hsame.
  - by eapply coherent_take.
  - by apply (coherent_resume h σ1 (Crash ps)).
  - apply (coherent_resume h σ1); [done|done|constructor].
Qed.

Lemma reachable_coherent h σ : reachable h σ -> coherent h σ.
Proof. intros (σ0 & H0' & Hs). by eapply steps_coherent. Qed.

(** ** Where an accepted task is *)

(** Passed over: every attempt at the message failed, and the commit of a later
    one covered it. *)
Definition passed_over (h : list label) σ p (o : nat) : Prop :=
  (o < cl_committed σ p)%nat /\
  Exists (fun l => exists e, took p o (Some e) l) h /\ ~ Exists (took p o None) h /\
  exists o', (o < o')%nat /\ Exists (took p o' None) h.

#[export] Instance took_dec p o l : Decision (took p o None l).
Proof.
  unfold took. destruct (taken l) as [[[p' m] [e|]]|]; [by right; intros (? & ? & _)| |by right; intros (? & ? & _)].
  destruct (decide (p' = p)) as [->|Hp]; [|by right; intros (? & ? & _); congruence].
  destruct (decide (m.(k_Offset) = Z.of_nat o)) as [Ho|Ho]; [by left; exists m|].
  right. by intros (? & [= <-] & ?).
Defined.

(** A message of a partition is due, or it was handled, or passed over. *)
Lemma due_handled_or_passed h σ p o :
  coherent h σ ->
  (cl_committed σ p <= o)%nat \/ Exists (took p o None) h \/ passed_over h σ p o.
Proof.
  intros [_ Hb Hpast Hcom]. destruct (decide (cl_committed σ p <= o)%nat) as [|Hlt]; [by left|right].
  destruct (decide (Exists (took p o None) h)) as [|Hno]; [by left|right].
  specialize (Hcom p ltac:(lia)). split_and!; [lia| |done|].
  - specialize (Hb p). specialize (Hpast p o ltac:(lia)). revert Hpast. rewrite !Exists_exists.
    intros (l & Hin & [e|] & Ht); [by exists l; eauto|].
    destruct Hno. apply Exists_exists. eauto.
  - exists (pred (cl_committed σ p)). split; [|done].
    destruct (decide (o = pred (cl_committed σ p))) as [Heq|]; [|lia].
    by rewrite <- Heq in Hcom.
Qed.

(** What a worker did with a message it acknowledged. *)
Definition settled (w : Worker) task (tr : svc_trace) : Prop :=
  (handler_calls tr <> [] /\ Forall (fun c => c.1.2 = task) (handler_calls tr)) \/
  (exists ctx s, tr = [GetStatus ctx task.(Task.ID) ~> Ok s] /\ IsTerminal s = true) \/
  (exists e, Registry.Get w.(registry) task.(Task.Type_) = Err e).

(** Where the task [task] is whose message is [v]. *)
Inductive whereabouts (h : list label) σ task (v : string) : Prop :=
| at_dispatcher part o :
    cl_log σ (TopicPending, part) !! o = Some (task.(Task.ID), v) ->
    (cl_committed σ (TopicPending, part) <= o)%nat -> whereabouts h σ task v
| dead_lettered : in_log σ Dispatcher.topicDLQ "" v -> whereabouts h σ task v
| at_worker part o :
    cl_log σ (workerTopic task.(Task.Type_), part) !! o = Some (task.(Task.ID), v) ->
    (cl_committed σ (workerTopic task.(Task.Type_), part) <= o)%nat -> whereabouts h σ task v
| worked p w m tr :
    Work p w m tr None ∈ h -> m.(k_Value) = v -> settled w task tr -> whereabouts h σ task v
| lost p o :
    p.1 = TopicPending \/ p.1 = workerTopic task.(Task.Type_) ->
    cl_log σ p !! o = Some (task.(Task.ID), v) -> passed_over h σ p o -> whereabouts h σ task v.

Lemma worker_settled w ctx m tr task :
  exec (processMessage w ctx (toMessage m)) tr None -> unmarshalTask m.(k_Value) = Ok task ->
  settled w task tr.
Proof.
  intros Hex Hu. pose proof (handler_task w ctx (toMessage m) task tr None Hu Hex) as Hall.
  apply (processMessage_inv w ctx (toMessage m) task) in Hex; [|done].
  inversion Hex as [s Hs|st e o1 o2 Hnt Hreg| |st hd start loop r att errs k d ep Hnt Hreg Hl Hep]; subst.
  - right. left. eauto.
  - right. right. eauto.
  - left. split; [|done].
    destruct (executed_projections _ _ _ _ _ st start loop r att errs k d ep Hl Hep eq_refl)
      as (_ & _ & Hcalls & _).
    rewrite Hcalls. by eapply loop_calls.
Qed.

(** The label that handled a message. *)
Lemma handled_label h σ p o key value :
  coherent h σ -> cl_log σ p !! o = Some (key, value) -> Exists (took p o None) h ->
  exists l m, l ∈ h /\ taken l = Some (p, m, None) /\ handles l /\ m.(k_Value) = value.
Proof.
  intros Hco Hlog (l & Hin & m & Ht & Ho)%Exists_exists.
  destruct (lb_taken _ _ (co_labels _ _ Hco) l _ _ _ Hin Ht) as (Hh & o' & Ho' & Hlog').
  assert (o' = o) as -> by lia. rewrite Hlog in Hlog'. injection Hlog' as Hk Hv. eauto 10.
Qed.

(** From the topic of the worker on. *)
Lemma after_dispatch h σ task v :
  coherent h σ -> unmarshalTask v = Ok task ->
  in_log σ (workerTopic task.(Task.Type_)) task.(Task.ID) v -> whereabouts h σ task v.
Proof.
  intros Hco Hu (part & o & Hlog).
  destruct (due_handled_or_passed h σ (workerTopic task.(Task.Type_), part) o Hco) as [Hle|[Hex|Hp]];
    [by eapply at_worker| |exact (lost h σ task v (_, part) o (or_intror eq_refl) Hlog Hp)].
  destruct (handled_label _ _ _ _ _ _ Hco Hlog Hex) as (l & m & Hin & Ht & Hh & Hv).
  destruct l as [| | |p' m' tr r|p' w m' tr r| |]; try done; injection Ht as -> -> ->.
  - by destruct Hh as [Hp _].
  - destruct Hh as (_ & ctx & Hwork). eapply worked; [exact Hin|done|].
    eapply worker_settled; [done|by rewrite Hv].
Qed.

Lemma conserved h σ task v part o :
  coherent h σ -> unmarshalTask v = Ok task ->
  cl_log σ (TopicPending, part) !! o = Some (task.(Task.ID), v) -> whereabouts h σ task v.
Proof.
  intros Hco Hu Hlog.
  destruct (due_handled_or_passed h σ (TopicPending, part) o Hco) as [Hle|[Hex|Hp]];
    [by eapply at_dispatcher| |exact (lost h σ task v (_, part) o (or_introl eq_refl) Hlog Hp)].
  destruct (handled_label _ _ _ _ _ _ Hco Hlog Hex) as (l & m & Hin & Ht & Hh & Hv).
  destruct l as [| | |p' m' tr r|p' w m' tr r| |]; try done; injection Ht as -> -> ->;
    [|by destruct Hh as [Hp _]].
  destruct Hh as (_ & d & ctx & Hroute). apply route_publishes in Hroute as (topic & key & o2 & Hpub & Hr & Hdest).
  rewrite (proj1 Hr eq_refl) in Hpub.
  pose proof (lb_published _ _ (co_labels _ _ Hco) _ topic key v Hin) as Hl. cbn in Hl, Hpub, Hdest.
  rewrite Hpub, Hv in Hl. specialize (Hl ltac:(by left)).
  destruct Hdest as [[-> ->]|(task' & Hu' & _ & -> & ->)]; [by apply dead_lettered|].
  rewrite Hv, Hu in Hu'. injection Hu' as <-. by apply after_dispatch.
Qed.

(** ** Runs *)

Lemma steps_app σ h1 σ1 h2 σ2 : steps σ h1 σ1 -> steps σ1 h2 σ2 -> steps σ (h1 ++ h2) σ2.
Proof.
  intros H1'. induction 1 as [|h l σ2 σ3 _ IH Hstep]; [by rewrite app_nil_r|].
  rewrite app_assoc. by eapply steps_snoc.
Qed.

Lemma steps_cons σ l σ1 h σ2 : step σ l σ1 -> steps σ1 h σ2 -> steps σ (l :: h) σ2.
Proof. intros Hstep. apply (steps_app _ [l]). by apply (steps_snoc σ [] l σ), Hstep; constructor. Qed.

(** A committed offset does not come down, and nothing below it is taken. *)
Lemma step_above h σ l σ' p :
  coherent h σ -> step σ l σ' ->
  (cl_committed σ p <= cl_committed σ' p)%nat /\
  forall o r, took p o r l -> (cl_committed σ p <= o)%nat.
Proof.
  intros Hco Hstep. pose proof (co_bounds _ _ Hco p) as Hb.
  destruct Hstep as [l σ' Hp Happ|l q m r σ' Hh Hl (_ & _ & Ho & _) Hadv|q m ps σ' Hd Hi Happ|q].
  - destruct (appended_grows _ _ _ Happ) as [_ Hsame]. destruct (Hsame p) as [-> _].
    split; [lia|]. intros o r (m & Ht & _). by rewrite (produces_quiet _ Hp) in Ht.
  - destruct (advanced_inv _ _ _ _ _ Hadv) as (_ & _ & _ & Hc). split.
    + destruct Hc as [-> |[_ ->]]; [lia|]. case_decide; lia.
    + intros o r' (m' & Ht & Ho'). rewrite Hl in Ht. simplify_eq. lia.
  - destruct (resume_law q σ' p) as (_ & -> & _).
    destruct (appended_grows _ _ _ Happ) as [_ Hsame]. destruct (Hsame p) as [-> _].
    split; [lia|]. by intros o r (? & ? & _).
  - destruct (resume_law q σ p) as (_ & -> & _). split; [lia|]. by intros o r (? & ? & _).
Qed.

Lemma steps_above h σ h' σ' p :
  reachable h σ -> steps σ h' σ' ->
  (cl_committed σ p <= cl_committed σ' p)%nat /\
  forall o r, Exists (took p o r) h' -> (cl_committed σ p <= o)%nat.
Proof.
  intros (σ0 & H0' & Hr). induction 1 as [|h' l σ1 σ2 Hsteps [IH1 IH2] Hstep].
  { split; [done|]. by intros o r ?%Exists_nil. }
  pose proof (steps_coherent _ _ _ H0' (steps_app _ _ _ _ _ Hr Hsteps)) as Hco.
  destruct (step_above _ _ _ _ p Hco Hstep) as [H1' H2']. split; [lia|].
  intros o r [Hex|[Hl|?%Exists_nil]%Exists_cons]%Exists_app; [by eapply IH2| |done].
  specialize (H2' o r Hl). lia.
Qed.

(** C26: a message that was passed over stays so, whatever happens
    next: no consumer takes it again. *)
Theorem passed_over_for_good h σ p o h' σ' :
  reachable h σ -> passed_over h σ p o -> steps σ h' σ' ->
  Forall (fun l => forall r, ~ took p o r l) h' /\ passed_over (h ++ h') σ' p o.
Proof.
  intros Hr (Hlt & Hex & Hno & o' & Ho' & Hlater) Hsteps.
  destruct (steps_above _ _ _ _ p Hr Hsteps) as [Hle Habove].
  assert (Forall (fun l => forall r, ~ took p o r l) h') as Hnone.
  { apply Forall_forall. intros l Hin r Ht.
    specialize (Habove o r ltac:(apply Exists_exists; eauto)). lia. }
  split; [done|]. split_and!; [lia|by apply Exists_app; left| |].
  - intros [Hh|(l & Hin & Ht)%Exists_exists]%Exists_app; [done|].
    rewrite Forall_forall in Hnone. by apply (Hnone l Hin None).
  - exists o'. split; [done|]. apply Exists_app. by left.
Qed.

Lemma reachable_produces h σ rq tr :
  reachable h σ -> Submit rq tr ∈ h -> exists u, exec (REST_SubmitTask rq) tr u.
Proof.
  intros (σ0 & _ & Hs). induction Hs as [|h l σ1 σ2 _ IH Hstep]; [by intros ?%elem_of_nil|].
  intros [Hin | <-%list_elem_of_singleton]%elem_of_app; [auto|].
  inversion Hstep as [? ? Hp| ? ? ? ? ? Hh| |]; subst; [done|by destruct Hh].
Qed.

Lemma published_conserved h σ l task v :
  reachable h σ -> l ∈ h -> (TopicPending, task.(Task.ID), v, None) ∈ published l ->
  unmarshalTask v = Ok task -> whereabouts h σ task v.
Proof.
  intros Hr Hin Hpub Hu. apply reachable_coherent in Hr as Hco.
  destruct (lb_published _ _ (co_labels _ _ Hco) _ _ _ _ Hin Hpub) as (part & o & Hlog).
  by eapply conserved.
Qed.

(** ** Sessions as steps

    A session of the consumer loop (Services.v) that gets its messages in the
    order of a partition is a sequence of these steps. *)

(** The messages that follow in [p], from the position on. *)
Definition follows σ p (ms : list KMessage) : Prop :=
  forall i m, ms !! i = Some m ->
    m.(k_Topic) = p.1 /\ m.(k_Partition) = p.2 /\
    m.(k_Offset) = Z.of_nat (cl_position σ p + i) /\
    cl_log σ p !! (cl_position σ p + i)%nat = Some (m.(k_Key), m.(k_Value)).

Lemma follows_cons σ p m ms :
  follows σ p (m :: ms) ->
  delivers σ p m /\
  forall σ', grows σ σ' -> cl_position σ' p = S (cl_position σ p) -> follows σ' p ms.
Proof.
  intros Hf. split.
  - destruct (Hf O m eq_refl) as (Ht & Hp & Ho & Hl). rewrite Nat.add_0_r in Ho, Hl. done.
  - intros σ' Hg Hpos i m' Hi. destruct (Hf (S i) m' Hi) as (Ht & Hp & Ho & Hl).
    rewrite Hpos. rewrite Nat.add_succ_r, <- Nat.add_succ_l in Ho, Hl. split_and!; [done..|].
    by eapply prefix_lookup_Some.
Qed.

(** The offsets whose commits worked, and what they leave. *)
Definition commit_done (ev : event RunE) : option KMessage :=
  match ev with
  | @Ev _ X e x =>
      match e in RunE X return X -> option KMessage with
      | RunConsumer e' =>
          match e' in ConsumerE X return X -> option KMessage with
          | CommitMessages _ m => fun o => match o with None => Some m | Some _ => None end
          | _ => fun _ => None
          end
      | RunSvc _ => fun _ => None
      end x
  end.
Definition commits_done (tr : list (event RunE)) := omap commit_done tr.
Lemma commits_done_lift (t : svc_trace) : commits_done (map lift_event t) = [].
Proof. unfold commits_done. by induction t as [|[X e x] t IH]. Qed.

Definition committing (c : nat) m : nat := Nat.max c (S (Z.to_nat m.(k_Offset))).

(** The step in which exactly the publishes that worked arrive. *)
Fixpoint put (ps : list publish) σ : K :=
  match ps with
  | [] => σ
  | (_, _, _, Some _) :: ps => put ps σ
  | (topic, key, value, None) :: ps => put ps (cl_append topic key value σ)
  end.

Lemma appended_put ps σ : appended ps σ (put ps σ).
Proof.
  revert σ. induction ps as [|[[[topic key] value] [e|]] ps IH]; intros σ; cbn [put]; by constructor.
Qed.

Definition moved p (r commit : option error) (ps : list publish) σ : K :=
  let σ' := cl_fetched p (put ps σ) in
  match r, commit with
  | None, None => cl_commit p (cl_position σ p) σ'
  | _, _ => σ'
  end.

Lemma step_moved σ p m r commit l :
  handles l -> taken l = Some (p, m, r) -> delivers σ p m ->
  step σ l (moved p r commit (published l) σ).
Proof.
  intros Hh Ht Hd. eapply step_handle; [done..|]. pose proof (appended_put (published l) σ) as Happ.
  unfold moved. destruct r as [e|], commit as [e'|]; by constructor.
Qed.

Lemma moved_offsets p m r commit ps σ :
  delivers σ p m ->
  grows σ (moved p r commit ps σ) /\ cl_position (moved p r commit ps σ) p = S (cl_position σ p) /\
  cl_committed (moved p r commit ps σ) p =
    match r, commit with
    | None, None => committing (cl_committed σ p) m
    | _, _ => cl_committed σ p
    end.
Proof.
  intros (_ & _ & Ho & _). unfold moved, committing. rewrite Ho, Nat2Z.id.
  destruct (appended_grows _ _ _ (appended_put ps σ)) as [Hg Hsame]. destruct (Hsame p) as [Hc Hp].
  assert (forall q, cl_log (cl_fetched p (put ps σ)) q = cl_log (put ps σ) q) as Hlog
    by (intros q; apply fetched_law).
  destruct (fetched_law p (put ps σ) p) as (_ & Hfc & Hfp). rewrite decide_True in Hfp by done.
  rewrite Hc in Hfc. rewrite Hp in Hfp.
  pose proof (commit_law p (cl_position σ p) (cl_fetched p (put ps σ))) as Hcom.
  destruct (Hcom p) as (_ & Hcc & Hcp). rewrite decide_True in Hcc by done.
  destruct r as [e|], commit as [e'|];
    (split_and!; [intros q; try destruct (Hcom q) as [-> _]; rewrite Hlog; apply Hg|congruence|congruence]).
Qed.

Section Sessions.
Context (handle : Ctx -> Message -> prog SvcE (option error)) (ctx : Ctx) (p : partition).
Context (mk : KMessage -> svc_trace -> option error -> label).
Hypothesis mk_label : forall m tr r, exec (handle ctx (toMessage m)) tr r ->
  handles (mk m tr r) /\ taken (mk m tr r) = Some (p, m, r) /\ published (mk m tr r) = publications tr.

Definition serving_label (s : serving) : label := mk s.(sv_msg) s.(sv_trace) s.(sv_answer).

Lemma session_steps ss t σ :
  session handle ctx ss t -> follows σ p (map sv_msg ss) ->
  exists σ', steps σ (map serving_label ss) σ' /\
    cl_position σ' p = (cl_position σ p + length ss)%nat /\
    cl_committed σ' p = foldl committing (cl_committed σ p) (commits_done t).
Proof using All.
  intros Hs. revert σ. induction Hs as [|s commit ss t Hserved Hs IH]; intros σ Hf.
  { exists σ. cbn. split; [constructor|]. by rewrite Nat.add_0_r. }
  cbn [map] in Hf. apply follows_cons in Hf as [Hd Hf].
  destruct (mk_label _ _ _ Hserved) as (Hh & Ht & _).
  pose proof (step_moved σ p _ _ commit _ Hh Ht Hd) as Hstep.
  destruct (moved_offsets p _ s.(sv_answer) commit (published (serving_label s)) σ Hd) as (Hg & Hpos & Hc).
  set (σ1 := moved _ _ _ _ _) in *.
  destruct (IH σ1 (Hf σ1 Hg Hpos)) as (σ2 & Hsteps & Hpos2 & Hc2).
  exists σ2. split; [by eapply steps_cons|]. split; [rewrite Hpos2, Hpos; cbn; lia|].
  assert (commits_done (serving_trace ctx s commit) =
    match s.(sv_answer), commit with None, None => [s.(sv_msg)] | _, _ => [] end) as Hdone.
  { unfold serving_trace, commits_done. cbn [omap list_omap commit_done].
    rewrite omap_app. fold (commits_done (map lift_event (sv_trace s))). rewrite commits_done_lift.
    by destruct (sv_answer s), commit. }
  unfold commits_done in *. rewrite omap_app, Hdone, foldl_app, Hc2, Hc.
  by destruct (sv_answer s), commit.
Qed.

(** A whole session: what it fetched, published and committed. *)
Lemma Subscribe_steps n tr r σ :
  exec (Subscribe ctx (fun c msg => lift (handle c msg)) n) tr r -> follows σ p (fetches tr) ->
  exists h σ', steps σ h σ' /\
    map (fun x => x.1) (omap taken h) = map (pair p) (fetches tr) /\
    concat (map published h) = publications (run_svc tr) /\
    cl_position σ' p = (cl_position σ p + length (fetches tr))%nat /\
    cl_committed σ' p = foldl committing (cl_committed σ p) (commits_done tr).
Proof using All.
  intros Hex Hf. apply Subscribe_session in Hex as (ss & t & last & -> & Hss & Hl1 & Hl2 & Hl3).
  assert (commits_done last = []) as Hl4.
  { unfold commits_done, commit_attempts in *. clear -Hl3.
    induction last as [|[X e x] last IH]; [done|]. cbn in *.
    destruct e as [X e|X e]; [|by apply IH]. destruct e; try done; by apply IH. }
  pose proof (session_projections _ _ _ _ Hss) as (Hrun & Hfetch & _ & Hserved).
  rewrite fetches_app, Hl2, app_nil_r in *. rewrite Hfetch in *.
  destruct (session_steps _ _ _ Hss Hf) as (σ' & Hsteps & Hpos & Hc).
  exists (map serving_label ss), σ'. split; [done|].
  unfold commits_done in *. rewrite omap_app, Hl4, app_nil_r, run_svc_app, Hl1, app_nil_r, Hrun.
  split_and!; [| |by rewrite length_map|done]; clear -Hserved mk_label;
    induction Hserved as [|s ss Hs _ IH]; try done; destruct (mk_label _ _ _ Hs) as (_ & Ht & Hp).
  - cbn [map omap list_omap]. unfold serving_label at 1. rewrite Ht. cbn [map fst]. by f_equal.
  - cbn [map concat]. rewrite publications_app, <- IH. by f_equal.
Qed.
End Sessions.

(** C27: a session of the dispatcher or of a worker that gets its
    messages in the order of a partition, from the position of its consumer
    on, is a sequence of steps of the cluster: the same messages are taken,
    the same bytes published, and the offsets committed are those of the
    commits that worked. *)
Theorem session_is_steps p n tr r σ :
  (p.1 = TopicPending /\ (exists d ctx, exec (Dispatcher_Run d ctx n) tr r)) \/
  (exists w ctx, p.1 = workerTopic w.(workerType) /\ exec (Worker_Run w ctx n) tr r) ->
  follows σ p (fetches tr) ->
  exists h σ', steps σ h σ' /\
    map (fun x => x.1) (omap taken h) = map (pair p) (fetches tr) /\
    concat (map published h) = publications (run_svc tr) /\
    cl_position σ' p = (cl_position σ p + length (fetches tr))%nat /\
    cl_committed σ' p = foldl committing (cl_committed σ p) (commits_done tr).
Proof.
  intros [(Hp & d & ctx & Hex)|(w & ctx & Hp & Hex)].
  - apply (Subscribe_steps (route d) ctx p (Dispatch p)) with n r; [|done].
    intros m t a Hm. split_and!; try done. split; eauto.
  - apply (Subscribe_steps (processMessage w) ctx p (Work p w)) with n r; [|done].
    intros m t a Hm. split_and!; try done. split; eauto.
Qed.

(** A history whose labels are possible, one after the other. *)
Definition advance σ (l : label) : K :=
  match taken l with
  | Some (p, m, r) => moved p r None (published l) σ
  | None => put (published l) σ
  end.
Fixpoint possible σ (h : list label) : Prop :=
  match h with
  | [] => True
  | l :: h =>
      match taken l with
      | Some (p, m, r) => handles l /\ delivers σ p m
      | None => produces l
      end /\ possible (advance σ l) h
  end.

Lemma possible_steps σ h : possible σ h -> steps σ h (foldl advance σ h).
Proof.
  revert σ. induction h as [|l h IH]; intros σ; [constructor|]. intros [Hl Hh].
  eapply steps_cons; [|by apply IH]. unfold advance. destruct (taken l) as [[[p m] r]|] eqn:Ht.
  - destruct Hl. by eapply step_moved.
  - apply step_produce; [done|apply appended_put].
Qed.
End Steps.

(** ** Accepted tasks *)

Section Conservation.
Context `{UnicodeTables, TaskCodec, Cron} `{KafkaCluster K} (good : Task.t -> Prop)
  `{!TaskCodecSpec good}.

(** C3: no task is lost unseen.  However the instances of the services
    interleave, crash and start over, and whatever the servers answer: a task
    accepted over REST, and any other whose message was published to
    tasks.pending, over gRPC or by the scheduler, is due at the dispatcher,
    dead-lettered, due at the workers of its type or dealt with by one of them
    (its handler called with that very task, its final status found, or no
    handler for its type), unless its message was passed over: every attempt at
    it failed, and the commit of a later message of the partition covered it. *)
Theorem no_task_lost h (σ : K) :
  reachable h σ ->
  (forall rq tr, Submit rq tr ∈ h -> http_codes tr = [StatusAccepted] ->
   exists task v, meta_writes (svc_part tr) = [(task, None)] /\
     publications (svc_part tr) = [(TopicPending, task.(Task.ID), v, None)] /\
     (good task -> whereabouts h σ task v)) /\
  (forall l task v, l ∈ h -> (TopicPending, task.(Task.ID), v, None) ∈ published l ->
   unmarshalTask v = Ok task -> whereabouts h σ task v).
Proof using All.
  intros Hr. split; [|intros l task v; by apply published_conserved].
  intros rq tr Hin Hcode. destruct (reachable_produces _ _ _ _ Hr Hin) as [u Hex].
  destruct (accepted_inv rq tr u Hex Hcode) as (req & id & now & o & v & o' & Hm & _ & _ & Htr).
  assert (publications (svc_part tr) = [(TopicPending, id, v, None)]) as Hpub by by rewrite Htr.
  exists (submitted_task req id now), v. split; [by rewrite Htr|]. split; [exact Hpub|]. intros Hgood.
  eapply (published_conserved _ _ _ _ _ Hr Hin); [|by apply unmarshal_marshal].
  cbn [published]. rewrite Hpub. by left.
Qed.
End Conservation.

(** ** Concrete runs

    Two tasks in one partition of tasks.pending.  The dispatcher cannot publish
    the first and goes on to the second, whose commit covers both; a worker
    runs the second. *)

(** The partitions as functions; a write goes to the first partition. *)
Record cluster := mkCluster {
  mc_log : partition -> list (string * string);
  mc_committed : partition -> nat;
  mc_position : partition -> nat }.
Definition empty_cluster : cluster := mkCluster (fun _ => []) (fun _ => O) (fun _ => O).

#[export] Instance mem_cluster : KafkaCluster cluster.
Proof.
  refine {|
    cl_log := mc_log; cl_committed := mc_committed; cl_position := mc_position;
    cl_append topic key value σ := mkCluster
      (fun q => if decide (q = (topic, 0)) then mc_log σ q ++ [(key, value)] else mc_log σ q)
      (mc_committed σ) (mc_position σ);
    cl_fetched p σ := mkCluster (mc_log σ) (mc_committed σ)
      (fun q => if decide (q = p) then S (mc_position σ q) else mc_position σ q);
    cl_commit p o σ := mkCluster (mc_log σ)
      (fun q => if decide (q = p) then Nat.max (mc_committed σ q) (S o) else mc_committed σ q)
      (mc_position σ);
    cl_resume p σ := mkCluster (mc_log σ) (mc_committed σ)
      (fun q => if decide (q = p) then mc_committed σ q else mc_position σ q) |}; [|done..].
  intros topic key value σ. split; [by exists 0|done].
Defined.

#[local] Existing Instance plain_texts.
#[local] Existing Instance JsonTaskCodec | 0.

(** The gateway with the next identifier given. *)
Definition id_env (id : string) : handler GwE gw_world := fun X e =>
  match e in GwE X return gw_world -> X * gw_world with
  | GwSvc e' =>
      match e' in SvcE X return gw_world -> X * gw_world with
      | OnSys s =>
          match s in SysE X return gw_world -> X * gw_world with
          | NewUUID => fun w => (id, w)
          | s => gw_env _ (GwSvc (OnSys s))
          end
      | e' => gw_env _ (GwSvc e')
      end
  | e => gw_env _ e
  end.
Definition post_trace (id : string) : list (event GwE) :=
  run_trace (id_env id) (REST_SubmitTask demo_request) gw_init.
Definition post_value (id : string) : string :=
  match publications (svc_part (post_trace id)) with [(_, _, v, _)] => v | _ => "" end.

Definition pending_part : partition := (TopicPending, 0).
Definition email_part : partition := (workerTopic "email", 0).
Definition pending_msg (off : Z) (id : string) : KMessage :=
  mkKMessage TopicPending 0 off id (post_value id) [].
Definition email_msg (off : Z) (id : string) : KMessage :=
  mkKMessage (workerTopic "email") 0 off id (post_value id) [].

Definition routing (m : KMessage) := route (NewDispatcher false) CtxRun (toMessage m).
Definition working (m : KMessage) := processMessage demo_worker CtxRun (toMessage m).
Definition dispatching (m : KMessage) (f : fake) : label :=
  Dispatch pending_part m (run_trace fake_env (routing m) f) (run_result fake_env (routing m) f).
Definition doing (m : KMessage) (f : fake) : label :=
  Work email_part demo_worker m (run_trace fake_env (working m) f) (run_result fake_env (working m) f).

Definition lost_history : list label :=
  [Submit demo_request (post_trace "task-1"); Submit demo_request (post_trace "task-2");
   dispatching (pending_msg 0 "task-1") (f_with_publishErr fake_init true);
   dispatching (pending_msg 1 "task-2") fake_init; doing (email_msg 0 "task-2") fake_init].
Definition lost_cluster : cluster := foldl advance empty_cluster lost_history.

Example lost_cluster_ex :
  cl_committed lost_cluster pending_part = 2%nat /\
  map (fun x => x.1) (cl_log lost_cluster email_part) = ["task-2"]%string /\
  map (fun l => length (handler_calls (match l with Work _ _ _ tr _ => tr | _ => [] end))) lost_history
    = [0; 0; 0; 0; 1]%nat.
Proof. vm_compute. done. Qed.

Lemma post_produces id : produces (Submit demo_request (post_trace id)).
Proof. eexists. apply run_exec. Qed.
Lemma dispatching_handles m f : handles (dispatching m f).
Proof. split; [done|]. exists (NewDispatcher false), CtxRun. apply run_exec. Qed.
Lemma doing_handles m f : handles (doing m f).
Proof. split; [done|]. exists CtxRun. apply run_exec. Qed.

Lemma lost_reachable : reachable lost_history lost_cluster.
Proof.
  exists empty_cluster. split; [done|]. apply possible_steps. do 2 (split; [apply post_produces|]).
  do 2 (split; [split; [apply dispatching_handles|repeat split; vm_compute; reflexivity]|]).
  split; [split; [apply doing_handles|repeat split; vm_compute; reflexivity]|]. exact I.
Qed.

Lemma lost_passed_over : passed_over lost_history lost_cluster pending_part 0.
Proof.
  split_and!.
  - apply Nat.ltb_lt. vm_compute. reflexivity.
  - do 2 apply Exists_cons_tl. apply Exists_cons_hd.
    destruct (run_result fake_env (routing (pending_msg 0 "task-1")) (f_with_publishErr fake_init true))
      as [e|] eqn:He; [|vm_compute in He; discriminate He].
    exists e, (pending_msg 0 "task-1"). unfold dispatching. rewrite He. by split.
  - apply (bool_decide_unpack _). vm_compute. exact I.
  - exists 1%nat. split; [lia|]. apply (bool_decide_unpack _). vm_compute. exact I.
Qed.

Lemma passed_over_for_good_witness :
  passed_over (lost_history ++ [Resume pending_part]) (cl_resume pending_part lost_cluster) pending_part 0.
Proof.
  refine (proj2 (passed_over_for_good lost_history lost_cluster pending_part 0 [Resume pending_part]
    (cl_resume pending_part lost_cluster) lost_reachable lost_passed_over _)).
  apply (steps_cons _ _ (cl_resume pending_part lost_cluster)); [apply step_resume|apply steps_nil].
Defined.

Lemma no_task_lost_witness :
  exists task, task.(Task.ID) = "task-2" /\ whereabouts lost_history lost_cluster task (post_value "task-2").
Proof.
  destruct (no_task_lost (fun t => wf_task t = true) lost_history lost_cluster lost_reachable)
    as [Hrest _].
  destruct (Hrest demo_request (post_trace "task-2")) as (task & v & Hmeta & Hpub & Hw).
  - right. left.
  - vm_compute. reflexivity.
  - vm_compute in Hmeta. injection Hmeta as Hmeta.
    exists task. split; [by rewrite <- Hmeta|].
    assert (v = post_value "task-2") as <-.
    { unfold post_value. rewrite Hpub. reflexivity. }
    apply Hw. rewrite <- Hmeta. vm_compute. reflexivity.
Defined.

Definition two_posts : cluster := foldl advance empty_cluster (take 2 lost_history).
Definition two_msgs : list KMessage := [pending_msg 0 "task-1"; pending_msg 1 "task-2"].
Definition two_routed : list (event RunE) :=
  run_trace partition_env (Dispatcher_Run (NewDispatcher false) CtxRun 5) (two_msgs, fake_init).

Lemma session_is_steps_witness :
  exists h (σ' : cluster), steps two_posts h σ' /\ cl_position σ' pending_part = 2%nat /\
    cl_committed σ' pending_part = 2%nat /\
    map (fun x => x.1.1.2) (concat (map published h)) = ["task-1"; "task-2"]%string.
Proof.
  destruct (session_is_steps pending_part 5 two_routed
    (run_result partition_env (Dispatcher_Run (NewDispatcher false) CtxRun 5) (two_msgs, fake_init))
    two_posts) as (h & σ' & Hsteps & _ & Hpub & Hpos & Hc).
  - left. split; [done|]. exists (NewDispatcher false), CtxRun. apply run_exec.
  - assert (fetches two_routed = two_msgs) as -> by (vm_compute; reflexivity).
    intros [|[|i]] m Hm; [..|discriminate Hm]; injection Hm as <-; repeat split; vm_compute; reflexivity.
  - exists h, σ'. split; [exact Hsteps|]. rewrite Hpos, Hc, Hpub. repeat split; vm_compute; reflexivity.
Defined.
