(* ===== verification/Impl.v ===== *)
(** * The services on their implementations

    Where the other files prove what a service does whatever its interfaces
    answer, this one puts the implementations of the interfaces behind them,
    as the serve commands wire them: the state store and the rate limiter over
    one Redis connection, the repository over PostgreSQL, the producer over
    Kafka.  [svc_env] is the environment they make, Redis being any server
    with the laws of Redis.v, and everything outside of Redis arbitrary and
    taking time. *)

From S2P Require Import Prelude Prog GoStrings Domain GoTime Json GoFloat Effects Retry Handlers.
From S2P Require Import Kafka Worker Fakes Redis RedisFake RedisStore RateLimiter Postgres.

(** What is left below the implementations. *)
Inductive ImplE : Type -> Type :=
| ImplRedis {X} (e : RedisE X) : ImplE X
| ImplPg {X} (e : PgE X) : ImplE X
| ImplKafka {X} (e : KafkaE X) : ImplE X
| ImplSys {X} (e : SysE X) : ImplE X
| ImplMetric {X} (e : MetricE X) : ImplE X
| ImplWorker {X} (e : WorkerE X) : ImplE X
| ImplHandle (h : Handler) (ctx : Ctx) (task : Task.t) : ImplE (option error).

#[export] Instance SubE_ImplRedis : SubE RedisE ImplE := @ImplRedis.
#[export] Instance SubE_ImplKafka : SubE KafkaE ImplE := @ImplKafka.
#[export] Instance SubE_ImplSys : SubE SysE ImplE := @ImplSys.
#[export] Instance SubE_ImplMetric : SubE MetricE ImplE := @ImplMetric.
#[export] Instance SubE_ImplWorker : SubE WorkerE ImplE := @ImplWorker.
#[export] Instance SubE_ImplLimiter : SubE LimiterImplE ImplE := fun X e =>
  match e with LimSys e => ImplSys e | LimRedis e => ImplRedis e end.
#[export] Instance SubE_ImplRepo : SubE RepoImplE ImplE := fun X e =>
  match e with RepoSys e => ImplSys e | RepoPg e => ImplPg e end.

(** The method table of [*producer]. *)
Definition kafkaProducer : forall X, ProducerE X -> prog KafkaE X := fun X e =>
  match e in ProducerE X return prog KafkaE X with
  | Publish ctx topic key value => producer_Publish ctx topic key value
  end.

Section Wiring.
Context `{UnicodeTables, TaskCodec} (r : slidingWindowLimiter).

(** The interfaces as the serve commands fill them in. *)
Definition implement : forall X, SvcE X -> prog ImplE X := fun X e =>
  match e in SvcE X return prog ImplE X with
  | OnStore e => lift (stateStore _ e)
  | OnLimiter e => lift (rateLimiter r _ e)
  | OnRepo e => lift (repository _ e)
  | OnProducer e => lift (kafkaProducer _ e)
  | OnSys e => trigger e
  | OnMetric e => trigger e
  | OnWorker e => trigger e
  | OnHandle h ctx task => Vis (ImplHandle h ctx task) Ret
  end.
End Wiring.

(** ** The environment *)

Record site (W R : Type) := mkSite { redis : net W; elsewhere : R }.
Arguments mkSite {W R}. Arguments redis {W R}. Arguments elsewhere {W R}.

Set Default Proof Using "Type*".
Section Site.
Context `{UnicodeTables, TaskCodec} `{RedisServer W, !RedisLaws W} (r : slidingWindowLimiter).
Context {R : Type} (rest : forall X, ImplE X -> R -> X * Duration * R).
Implicit Types (w : site W R) (a : astore) (sl : slot).

(** What is not Redis answers as [rest] says, and takes the time it says. *)
Definition outside {X} (e : ImplE X) w : X * site W R :=
  let '(x, d, s) := rest X e w.(elsewhere) in
  (x, mkSite (net_elapse (Z.max 0 d) w.(redis)) s).

Definition impl_env : handler ImplE (site W R) := fun X e =>
  match e in ImplE X return site W R -> X * site W R with
  | ImplRedis e => fun w =>
      let '(x, n) := redis_env _ e w.(redis) in (x, mkSite n w.(elsewhere))
  | e => fun w => outside e w
  end.

(** A service in the environment its implementations make ([run_interp]: the
    same as running the service with the implementations put in). *)
Definition svc_env : handler SvcE (site W R) := handle_by (implement r) impl_env.

Lemma svc_env_interp {A} (p : prog SvcE A) w :
  run_result impl_env (interp (implement r) p) w = run_result svc_env p w /\
  run_world impl_env (interp (implement r) p) w = run_world svc_env p w.
Proof. apply run_interp. Qed.

(** ** What Redis keeps

    [keeps t0 a w]: every request arrives, and since [t0] the slots of [a]
    have been written, which holds for a day; nothing holds for longer than a
    day from now.  The limiter's keys hold sorted sets. *)
Definition srv w : W := w.(redis).(server).
Definition fresh t0 w : Prop := srv_now (srv w) < t0 + stateTTL.

Record keeps t0 a w : Prop := {
  kp_faults : w.(redis).(faults) = [];
  kp_now : t0 <= srv_now (srv w);
  kp_str : forall sl, is_str (srv w) (slotKey sl);
  kp_view : forall sl v, a sl = Some v -> fresh t0 w ->
    exists t, srv_view (srv w) (slotKey sl) = Some (mkEntry (RString v) (Some t)) /\
              t0 + stateTTL <= t;
  kp_ttl : forall sl e, srv_view (srv w) (slotKey sl) = Some e ->
    exists t, e.(r_expire) = Some t /\ t <= srv_now (srv w) + stateTTL;
  kp_zset : forall key, is_zset (srv w) (ratelimitKey key) }.

Lemma slot_not_limiter sl key : slotKey sl <> ratelimitKey key.
Proof. by destruct sl. Qed.

(** What a key shows after a while it showed before. *)
Lemma view_elapse d (u : W) k e :
  0 <= d -> srv_view (srv_elapse d u) k = Some e -> srv_view u k = Some e.
Proof.
  intros Hd. rewrite law_elapse by done. destruct (srv_view u k) as [e'|]; [|done].
  destruct (r_expire e') as [t|]; [|done]. by destruct (srv_now u + d <? t).
Qed.

Lemma keeps_elapse t0 a n s s' d :
  0 <= d -> keeps t0 a (mkSite n s) -> keeps t0 a (mkSite (net_elapse d n) s').
Proof.
  intros Hd [Hf Hn Hs Hv Ht Hz]. destruct n as [w fs]. unfold fresh, srv in *. cbn in *.
  pose proof (law_elapse_now d w Hd) as Hnow. split; unfold fresh, srv; cbn.
  - done.
  - lia.
  - intros sl e He. by apply (Hs sl), (view_elapse d).
  - intros sl v Ha Hlt. destruct (Hv sl v Ha) as (t & Hview & Hle); [lia|].
    exists t. split; [|done]. rewrite law_elapse, Hview by done. cbn.
    rewrite (proj2 (Z.ltb_lt _ _)) by lia. done.
  - intros sl e He. apply view_elapse, Ht in He as (t & He & Hle); [|done].
    exists t. split; [done|]. lia.
  - intros key e He. by apply (Hz key), (view_elapse d).
Qed.

Lemma keeps_outside t0 a {X} (e : ImplE X) w : keeps t0 a w -> keeps t0 a (outside e w).2.
Proof.
  intros Hk. unfold outside. destruct (rest X e (elsewhere w)) as [[x d] s]. cbn.
  destruct w as [n s0]. apply (keeps_elapse t0 a n s0); [lia|done].
Qed.

Lemma keeps_SET t0 a sl v (u : W) fs s s' :
  keeps t0 a (mkSite (mkNet u fs) s) ->
  keeps t0 (upd sl v a) (mkSite (mkNet (srv_SET (slotKey sl) v stateTTL u) fs) s').
Proof.
  intros [Hf Hn Hs Hv Ht Hz]. unfold fresh, srv in *. cbn in *. destruct stateTTL_ok as [Hp Hm].
  destruct (law_SET (slotKey sl) v stateTTL u Hp Hm) as (Hnow & Hk & Hother).
  assert (forall sl', sl' <> sl ->
    srv_view (srv_SET (slotKey sl) v stateTTL u) (slotKey sl') = srv_view u (slotKey sl')) as Hne.
  { intros sl' Hsl. apply Hother. intros Heq. by apply slotKey_inj in Heq. }
  split; unfold fresh, srv; cbn; rewrite ?Hnow; [done|done| | | |].
  - intros sl' e. destruct (decide (sl' = sl)) as [->|Hsl].
    + rewrite Hk. intros [= <-]. by eexists.
    + rewrite Hne by done. apply Hs.
  - intros sl' v' Ha Hlt. unfold upd in Ha. destruct (decide (sl' = sl)) as [->|Hsl].
    + injection Ha as <-. rewrite Hk. eexists. split; [done|lia].
    + rewrite Hne by done. by apply Hv.
  - intros sl' e. destruct (decide (sl' = sl)) as [->|Hsl].
    + rewrite Hk. intros [= <-]. eexists. split; [done|lia].
    + rewrite Hne by done. apply Ht.
  - intros key e. rewrite Hother by (intros Heq; by apply (slot_not_limiter sl key)). apply Hz.
Qed.

(** A limiter key that changes, and stays a sorted set. *)
Lemma keeps_updates t0 a key e (u u' : W) fs s s' :
  updates (ratelimitKey key) e u u' -> is_zset u' (ratelimitKey key) ->
  keeps t0 a (mkSite (mkNet u fs) s) -> keeps t0 a (mkSite (mkNet u' fs) s').
Proof.
  intros (Hnow & _ & Hother) Hzk [Hf Hn Hs Hv Ht Hz]. unfold fresh, srv in *. cbn in *.
  assert (forall sl, srv_view u' (slotKey sl) = srv_view u (slotKey sl)) as Hsl
    by (intros sl; apply Hother, slot_not_limiter).
  split; unfold fresh, srv, is_str in *; cbn; rewrite ?Hnow; [done|done| | | |];
    try (intros sl; rewrite Hsl; eauto).
  intros key' e'. destruct (decide (ratelimitKey key' = ratelimitKey key)) as [->|Hne];
    [apply Hzk|]. rewrite Hother by done. apply Hz.
Qed.

Lemma keeps_allow t0 a ctx key w :
  sane r -> keeps t0 a w -> keeps t0 a (svc_env _ (OnLimiter (Allow ctx key)) w).2.
Proof.
  intros Hsane Hk. unfold svc_env, handle_by, run_world. cbn -[run_cmds pipeline].
  pose proof (keeps_outside t0 a (ImplSys Now) w Hk) as Hk1.
  destruct (outside (ImplSys Now) w) as [now [[u fs] s]]. cbn [snd] in Hk1.
  pose proof (kp_faults _ _ _ Hk1) as Hf. cbn in Hf. subst fs. cbn -[run_cmds pipeline].
  pose proof (pipeline_touches r (ratelimitKey key) (int64 now) u Hsane (kp_zset _ _ _ Hk1 key))
    as [Hz [e Hu]].
  destruct (run_cmds _ u) as [xs u']. by apply (keeps_updates t0 a key e u u' [] s).
Qed.

(** Programs that do not use Redis. *)
Definition not_redis {X} (e : ImplE X) : Prop :=
  match e with ImplRedis _ => False | _ => True end.

Lemma keeps_quiet t0 a {A} (p : prog ImplE A) w :
  calls (@not_redis) p -> keeps t0 a w -> keeps t0 a (run_world impl_env p w).
Proof.
  apply run_invariant. intros X e w' He. destruct e; [done|apply keeps_outside..].
Qed.

(** ** What the calls of a service do to it *)

(** The slots after a call that worked. *)
Definition effect (ev : event SvcE) a : astore :=
  match status_write ev, meta_write ev with
  | Some (id, s, None), _ => upd (StateSlot id) s a
  | _, Some (t, None) =>
      match marshalTask t with
      | Ok raw => upd (MetaSlot t.(Task.ID)) raw a
      | Err _ => a
      end
  | _, _ => a
  end.
Definition effects (tr : svc_trace) a : astore := foldl (fun a ev => effect ev a) a tr.

(** Writes work, except of a task that does not marshal. *)
Definition healthy (ev : event SvcE) : Prop :=
  match status_write ev, meta_write ev with
  | Some (_, _, o), _ => o = None
  | _, Some (t, o) => o = None <-> is_ok (marshalTask t) = true
  | _, _ => True
  end.

(** The calls considered: no results (kept for an hour), and a limiter whose
    window Redis can keep. *)
Definition plain (ev : event SvcE) : Prop :=
  match ev with
  | Ev (OnLimiter _) _ => sane r
  | Ev (OnStore (SetResult _ _ _ _)) _ => False
  | _ => True
  end.

Lemma step_keeps t0 a {X} (e : SvcE X) w :
  plain (Ev e (svc_env X e w).1) -> keeps t0 a w ->
  keeps t0 (effect (Ev e (svc_env X e w).1) a) (svc_env X e w).2 /\
  healthy (Ev e (svc_env X e w).1).
Proof.
  intros Hp Hk.
  destruct e as [X e|X e|X e|X e|X e|X e|X e|h ctx task].
  - pose proof (kp_faults _ _ _ Hk) as Hf. destruct w as [[u fs] s]. cbn in Hf. subst fs.
    destruct e as [ctx id st|ctx id|ctx t|ctx id|ctx id v ttl|ctx id].
    + split; [|done]. by apply (keeps_SET t0 a (StateSlot id)) with (s := s).
    + split; [|done]. unfold svc_env, handle_by, run_result, run_world. cbn.
      destruct (srv_GET u (stateKey id)); done.
    + destruct (marshalTask t) as [raw|err] eqn:Hm.
      * unfold effect, healthy, svc_env, handle_by, run_result, run_world, implement.
        cbn [stateStore]. unfold stateStore_SetTaskMeta. rewrite Hm. cbn. rewrite Hm.
        split; [|done]. by apply (keeps_SET t0 a (MetaSlot t.(Task.ID))) with (s := s).
      * unfold effect, healthy, svc_env, handle_by, run_result, run_world, implement.
        cbn [stateStore]. unfold stateStore_SetTaskMeta. rewrite Hm. cbn. by rewrite Hm.
    + split; [|done]. unfold svc_env, handle_by, run_result, run_world. cbn.
      destruct (srv_GET u (metaKey id)) as [v|]; [|done]. cbn. by destruct (unmarshalTask v).
    + done.
    + split; [|done]. unfold svc_env, handle_by, run_result, run_world. cbn.
      destruct (srv_GET u (resultKey id)); done.
  - split; [|by destruct e]. destruct e as [ctx key|]; [by apply keeps_allow|done].
  - split; [|done]. apply keeps_quiet; [|done]. by apply calls_lift; intros ? [].
  - split; [|by destruct e]. apply keeps_quiet; [|done]. by apply calls_lift.
  - split; [|done]. by apply (keeps_quiet t0 a (trigger e)).
  - split; [|done]. by apply (keeps_quiet t0 a (trigger e)).
  - split; [|done]. by apply (keeps_quiet t0 a (trigger e)).
  - split; [|done]. by apply (keeps_quiet t0 a (Vis (ImplHandle h ctx task) Ret)).
Qed.

Lemma run_keeps t0 a {A} (p : prog SvcE A) w :
  Forall plain (run_trace svc_env p w) -> keeps t0 a w ->
  keeps t0 (effects (run_trace svc_env p w) a) (run_world svc_env p w) /\
  Forall healthy (run_trace svc_env p w).
Proof.
  unfold run_trace, run_world. revert a w. induction p as [y|X e k IH]; intros a w Hp Hk.
  { by split. }
  cbn [run] in *. pose proof (step_keeps t0 a e w) as Hstep.
  destruct (svc_env X e w) as [x w1]. specialize (IH x (effect (Ev e x) a) w1).
  destruct (run svc_env (k x) w1) as [[y t] w2]. cbn [fst snd] in *.
  apply Forall_cons in Hp as [Hp Hps].
  destruct Hstep as [Hk1 Hh]; [done|done|]. destruct IH as [Hk2 Hhs]; [done|done|].
  split; [done|by constructor].
Qed.

(** ** What a read finds *)

Lemma kept_GET t0 a sl v w :
  keeps t0 a w -> fresh t0 w -> a sl = Some v -> srv_GET (srv w) (slotKey sl) = Some v.
Proof.
  intros Hk Hfr Ha. rewrite law_GET by apply (kp_str _ _ _ Hk).
  destruct (kp_view _ _ _ Hk sl v Ha Hfr) as (t & Hv & _). unfold str_at. by rewrite Hv.
Qed.

Lemma read_status t0 a w ctx id s :
  keeps t0 a w -> fresh t0 w -> a (StateSlot id) = Some s ->
  svc_env _ (OnStore (GetStatus ctx id)) w = (Ok s, w).
Proof.
  intros Hk Hfr Ha. pose proof (kept_GET _ _ _ _ _ Hk Hfr Ha) as Hget.
  pose proof (kp_faults _ _ _ Hk) as Hf. destruct w as [[u fs] x]. cbn in Hf, Hget. subst fs.
  unfold svc_env, handle_by, run_result, run_world. cbn. by rewrite Hget.
Qed.

Lemma read_meta t0 a w ctx id raw t :
  keeps t0 a w -> fresh t0 w -> a (MetaSlot id) = Some raw -> unmarshalTask raw = Ok t ->
  svc_env _ (OnStore (GetTaskMeta ctx id)) w = (Ok t, w).
Proof.
  intros Hk Hfr Ha Hu. pose proof (kept_GET _ _ _ _ _ Hk Hfr Ha) as Hget.
  pose proof (kp_faults _ _ _ Hk) as Hf. destruct w as [[u fs] x]. cbn in Hf, Hget. subst fs.
  unfold svc_env, handle_by, run_result, run_world. cbn. rewrite Hget. cbn. by rewrite Hu.
Qed.
End Site.
