(* ===== verification/Stack.v ===== *)
(** * A task on one Redis

    What the services do for each other through the store they share: the
    worker, the gateway and a second worker over the implementations of Impl.v,
    with the tasks encoded as JSON. *)

From S2P Require Import Prelude Prog GoStrings Domain GoTime Json GoFloat Effects Retry Handlers.
From S2P Require Import Kafka Worker Fakes WorkerSpec Redis RedisFake RedisStore RateLimiter Postgres.
From S2P Require Import Gateway GatewaySpec WellTyped Impl.

Set Default Proof Using "Type*".

(** ** The slots after a run *)

Section Slots.
Context `{TaskCodec}.
Implicit Types (tr : svc_trace) (a : astore).

Lemma effects_snoc tr ev a : effects (tr ++ [ev]) a = effect ev (effects tr a).
Proof. unfold effects. by rewrite foldl_app. Qed.

Lemma effect_state ev a id :
  (forall s o, status_write ev <> Some (id, s, o)) ->
  effect ev a (StateSlot id) = a (StateSlot id).
Proof.
  intros Hne. unfold effect, upd.
  destruct (status_write ev) as [[[id' s] [e|]]|].
  - destruct (meta_write ev) as [[t [|]]|]; try done.
    destruct (marshalTask t); [|done]. by case_decide.
  - case_decide as Hd; [|done]. injection Hd as ->. by destruct (Hne s None).
  - destruct (meta_write ev) as [[t [|]]|]; try done.
    destruct (marshalTask t); [|done]. by case_decide.
Qed.
Lemma one_write ev x : status_write ev = Some x -> meta_write ev = None.
Proof.
  destruct ev as [X e y]. destruct e as [X e|X e|X e|X e|X e|X e|X e|h ctx t]; try done.
  by destruct e.
Qed.

Lemma effects_status tr a id s o :
  Forall healthy tr -> last (status_writes tr) = Some (id, s, o) ->
  effects tr a (StateSlot id) = Some s.
Proof.
  induction tr as [|ev tr IH] using rev_ind; [done|].
  rewrite effects_snoc, status_writes_app. intros [Hh Hev%Forall_inv]%Forall_app Hlast.
  unfold status_writes at 2 in Hlast. cbn [omap list_omap] in Hlast.
  destruct (status_write ev) as [[[id' s'] o']|] eqn:Hs.
  - rewrite last_snoc in Hlast. injection Hlast as -> -> ->.
    unfold healthy in Hev. rewrite Hs in Hev. subst o. unfold effect. rewrite Hs.
    unfold upd. by rewrite decide_True.
  - rewrite app_nil_r in Hlast. rewrite effect_state; [by apply IH|]. intros ? ?. by rewrite Hs.
Qed.

Lemma effects_same_meta tr a id :
  meta_writes tr = [] -> effects tr a (MetaSlot id) = a (MetaSlot id).
Proof.
  induction tr as [|ev tr IH] using rev_ind; [done|].
  rewrite effects_snoc, meta_writes_app. intros [Htr Hev]%app_nil. rewrite <- IH by done.
  unfold meta_writes in Hev. cbn in Hev. unfold effect.
  destruct (meta_write ev); [done|]. destruct (status_write ev) as [[[id' s] [e|]]|]; [done| |done].
  unfold upd. by rewrite decide_False.
Qed.

Lemma effects_meta tr a t o raw :
  Forall healthy tr -> last (meta_writes tr) = Some (t, o) -> marshalTask t = Ok raw ->
  effects tr a (MetaSlot t.(Task.ID)) = Some raw.
Proof.
  intros Hh Hlast Hm. revert Hh Hlast. induction tr as [|ev tr IH] using rev_ind; [done|].
  rewrite effects_snoc, meta_writes_app. intros [Hh Hev%Forall_inv]%Forall_app Hlast.
  unfold meta_writes at 2 in Hlast. cbn [omap list_omap] in Hlast. unfold healthy in Hev.
  destruct (status_write ev) as [[[id' s'] o']|] eqn:Hs.
  - rewrite (one_write _ _ Hs) in Hlast. rewrite app_nil_r in Hlast. subst o'. unfold effect.
    rewrite Hs. unfold upd. rewrite decide_False by done. by apply IH.
  - unfold effect. rewrite Hs. destruct (meta_write ev) as [[t' o']|].
    + rewrite last_snoc in Hlast. injection Hlast as -> ->.
      rewrite Hm in Hev |- *. destruct Hev as [_ Hev]. rewrite (Hev eq_refl).
      unfold upd. by rewrite decide_True.
    + rewrite app_nil_r in Hlast. by apply IH.
Qed.
End Slots.

(** ** The worker *)

Section Stack.
Context `{UnicodeTables, TaskCodec} `{RedisServer W, !RedisLaws W} (lim : slidingWindowLimiter).
Context {R : Type} (rest : forall X, ImplE X -> R -> X * Duration * R).
Implicit Types (w : site W R) (a : astore) (wk : Worker) (ctx : Ctx).

Lemma processMessage_plain wk ctx msg : only (plain lim) (processMessage wk ctx msg).
Proof.
  unfold processMessage, execute, finishSuccess, finishFailure. cbn zeta. only_calls;
    (apply only_Do; [intros s; unfold attempt|intros k e s; unfold call_OnRetry; cbn [retryConfig OnRetry]; unfold onRetry|done];
     only_calls).
Qed.

Abbreviation site_env := (svc_env lim rest).
Definition worked wk ctx msg w : svc_trace := run_trace site_env (processMessage wk ctx msg) w.
Definition after_work wk ctx msg w : site W R := run_world site_env (processMessage wk ctx msg) w.

(** What a worker that called a handler leaves in Redis. *)
Lemma worked_keeps t0 a wk ctx msg task w :
  unmarshalTask msg.(Value) = Ok task -> keeps t0 a w ->
  handler_calls (worked wk ctx msg w) <> [] ->
  exists now a', now ∈ clock_readings (worked wk ctx msg w) /\
    keeps t0 a' (after_work wk ctx msg w) /\
    Z.of_nat (length (handler_calls (worked wk ctx msg w))) < 2 ^ 63 /\
    a' (StateSlot task.(Task.ID)) =
      Some (finished task (worked wk ctx msg w) now).(Task.Status_) /\
    forall raw, marshalTask (finished task (worked wk ctx msg w) now) = Ok raw ->
      a' (MetaSlot task.(Task.ID)) = Some raw.
Proof.
  intros Hu Hk Hcalls. unfold worked, after_work in *.
  pose proof (run_exec site_env (processMessage wk ctx msg) w) as Hex.
  destruct (run_keeps lim rest t0 a (processMessage wk ctx msg) w) as [Hk' Hh].
  { eapply processMessage_plain, Hex. }
  { done. }
  destruct (ran_final _ _ _ _ _ _ Hu Hex Hcalls) as (now & o1 & o2 & Hnow & Hst & Hmeta & Hlen).
  pose proof (maxAttempts_range wk) as Hmax.
  exists now. eexists. split; [done|]. split; [exact Hk'|]. split; [lia|]. split.
  - by eapply effects_status.
  - intros raw Hraw. rewrite <- (finished_ID task (run_trace site_env (processMessage wk ctx msg) w) now).
    eapply effects_meta; [done|by rewrite Hmeta|done].
Qed.

(** Time that passes with nobody calling. *)
Definition site_elapse (d : Duration) w : site W R :=
  mkSite (net_elapse d w.(redis)) w.(elsewhere).

Lemma keeps_site_elapse t0 a d w : 0 <= d -> keeps t0 a w -> keeps t0 a (site_elapse d w).
Proof. intros Hd Hk. destruct w as [n s]. by apply (keeps_elapse rest t0 a n s). Qed.

(** A server that answers, and holds strings for at most a day where the store
    has its keys, and sorted sets where the limiter has its. *)
Record store_ready w : Prop := {
  sr_faults : w.(redis).(faults) = [];
  sr_str : forall sl, is_str (srv w) (slotKey sl);
  sr_ttl : forall sl e, srv_view (srv w) (slotKey sl) = Some e ->
    exists t, e.(r_expire) = Some t /\ t <= srv_now (srv w) + stateTTL;
  sr_zset : forall key, is_zset (srv w) (ratelimitKey key) }.

Lemma keeps_ready w : store_ready w -> keeps (srv_now (srv w)) no_slots w.
Proof. intros []. by split. Qed.

Lemma ready_keeps t0 a w : keeps t0 a w -> store_ready w.
Proof. intros []. by split. Qed.

(** A worker that finds a final status does nothing else. *)
Lemma reads_terminal t0 a wk ctx msg task s w :
  unmarshalTask msg.(Value) = Ok task -> keeps t0 a w -> fresh t0 w ->
  a (StateSlot task.(Task.ID)) = Some s -> IsTerminal s = true ->
  worked wk ctx msg w = [GetStatus ctx task.(Task.ID) ~> Ok s] /\
  run_result site_env (processMessage wk ctx msg) w = None.
Proof.
  intros Hu Hk Hlt Hst Hterm.
  pose proof (read_status lim rest _ _ w ctx _ _ Hk Hlt Hst) as Hread.
  unfold worked, run_trace, run_result, processMessage. rewrite Hu.
  unfold trigger. cbn [mbind prog_bind run]. unfold inj, SubE_Store. rewrite Hread.
  cbn zeta iota beta. by rewrite Hterm.
Qed.

(** When a worker has run the handler of a task, any worker that
    receives a message of that task while Redis has answered every request
    and less than 24 hours have passed since the first began, reads the final
    status, does nothing else and acknowledges. *)
Theorem redelivered_on_redis wk ctx wk' ctx' msg msg' task task' w d :
  unmarshalTask msg.(Value) = Ok task -> unmarshalTask msg'.(Value) = Ok task' ->
  task'.(Task.ID) = task.(Task.ID) -> store_ready w ->
  handler_calls (worked wk ctx msg w) <> [] -> 0 <= d ->
  let w1 := site_elapse d (after_work wk ctx msg w) in
  srv_now (srv w1) < srv_now (srv w) + 24 * Hour ->
  exists s, IsTerminal s = true /\
    worked wk' ctx' msg' w1 = [GetStatus ctx' task.(Task.ID) ~> Ok s] /\
    run_result site_env (processMessage wk' ctx' msg') w1 = None.
Proof.
  intros Hu Hu' Hid Hready Hcalls Hd w1 Hlt. apply keeps_ready in Hready as Hk.
  destruct (worked_keeps _ _ wk ctx msg task w Hu Hk Hcalls) as (now & a' & _ & Hk' & _ & Hst & _).
  apply (keeps_site_elapse _ _ d _ Hd) in Hk'. fold w1 in Hk'.
  exists (finished task (worked wk ctx msg w) now).(Task.Status_).
  pose proof (finished_terminal task (worked wk ctx msg w) now) as Hterm. split; [done|].
  rewrite <- Hid in Hst |- *. by apply (reads_terminal _ a' _ _ _ _ _ _ Hu' Hk').
Qed.

(** ** The gateway *)

Context (client : forall X, HttpE X -> R -> X * R) (stream : forall X, StreamE X -> R -> X * R).

(** The gateway in the same environment: its store is the worker's, its
    clients are arbitrary. *)
Definition gateway_env : handler GwE (site W R) := fun X e =>
  match e in GwE X return site W R -> X * site W R with
  | GwSvc e => fun w => site_env _ e w
  | GwHttp e => fun w => let '(x, s) := client _ e w.(elsewhere) in (x, mkSite w.(redis) s)
  | GwStream e => fun w => let '(x, s) := stream _ e w.(elsewhere) in (x, mkSite w.(redis) s)
  end.

Lemma gateway_keeps t0 a {A} (p : prog GwE A) w :
  Forall (plain lim) (svc_part (run_trace gateway_env p w)) -> keeps t0 a w ->
  keeps t0 (effects (svc_part (run_trace gateway_env p w)) a) (run_world gateway_env p w) /\
  Forall healthy (svc_part (run_trace gateway_env p w)).
Proof.
  unfold run_trace, run_world. revert a w. induction p as [y|X e k IH]; intros a w Hp Hk.
  { by split. }
  destruct e as [X e|X e|X e]; cbn [run gateway_env] in *.
  - pose proof (step_keeps lim rest t0 a e w) as Hstep.
    destruct (svc_env lim rest X e w) as [x w1]. specialize (IH x (effect (Ev e x) a) w1).
    destruct (run gateway_env (k x) w1) as [[y t] w2]. cbn [fst snd] in *.
    apply Forall_cons in Hp as [Hp Hps].
    destruct Hstep as [Hk1 Hh]; [done|done|]. destruct IH as [Hk2 Hhs]; [done|done|].
    split; [done|by constructor].
  - destruct (client X e (elsewhere w)) as [x s]. specialize (IH x a (mkSite (redis w) s)).
    destruct (run gateway_env (k x) _) as [[y t] w2]. cbn [fst snd] in *.
    apply IH; [done|]. destruct w as [n s0]. by destruct Hk; split.
  - destruct (stream X e (elsewhere w)) as [x s]. specialize (IH x a (mkSite (redis w) s)).
    destruct (run gateway_env (k x) _) as [[y t] w2]. cbn [fst snd] in *.
    apply IH; [done|]. destruct w as [n s0]. by destruct Hk; split.
Qed.

Definition status_replies (id : string) (r : Request) w : list Body :=
  http_bodies (run_trace gateway_env (REST_GetTaskStatus id r) w).

(** A status request for a task whose meta and state slots are kept. *)
Lemma status_reply_kept t0 a w id r raw task s :
  id <> "" -> keeps t0 a w -> fresh t0 w ->
  a (MetaSlot id) = Some raw -> unmarshalTask raw = Ok task -> a (StateSlot id) = Some s ->
  status_replies id r w = [BodyStatus (rest_status (Task.set_Status s task))].
Proof.
  intros Hid Hk Hfr Hm Hu Hs.
  pose proof (read_meta lim rest _ _ w r.(r_ctx) _ _ _ Hk Hfr Hm Hu) as Hmeta.
  pose proof (read_status lim rest _ _ w r.(r_ctx) _ _ Hk Hfr Hs) as Hstat.
  unfold status_replies, run_trace, REST_GetTaskStatus.
  rewrite (proj2 (String.eqb_neq _ _) Hid). unfold lookup_task, trigger.
  cbn [mbind prog_bind run]. unfold inj, SubE_GwStore. cbn [gateway_env]. rewrite Hmeta.
  cbn [mbind prog_bind run mret prog_ret]. unfold inj, SubE_GwStore. cbn [gateway_env]. rewrite Hstat.
  cbn [mbind prog_bind run mret prog_ret]. unfold inj, SubE_GwHttp. cbn [gateway_env].
  destruct (client _ (SetHeader _ _) _) as [u x1]. cbn [gateway_env elsewhere].
  by destruct (client _ (WriteBody _) _) as [y x2].
Qed.

(** C12: a task that was accepted over REST can be read back over
    REST at once and for 24 hours from the submission, by the identifier the
    client was told, as it was submitted: with the type and the priority of the
    decoded body, PENDING, no attempts, the time of submission and no time of
    completion, as long as nobody has processed it and Redis answers. *)
Theorem submitted_visible `{!TypedCodec} r r' w d :
  let tr := run_trace gateway_env (REST_SubmitTask r) w in
  http_codes tr = [StatusAccepted] -> Forall gw_answer_typed tr -> store_ready w -> 0 <= d ->
  let w1 := site_elapse d (run_world gateway_env (REST_SubmitTask r) w) in
  srv_now (srv w1) < srv_now (srv w) + 24 * Hour ->
  exists req id now, decodings tr = [Ok req] /\
    http_bodies tr = [BodySubmitted (mkSubmitted id StatusPending now)] /\
    meta_writes (svc_part tr) = [(submitted_task req id now, None)] /\
    (id <> ""%string -> status_replies id r' w1 =
       [BodyStatus (mkStatus id req.(sr_Type) StatusPending req.(sr_Priority) 0 now None 0)]).
Proof.
  intros tr Hcode Htyped Hready Hd w1 Hlt.
  pose proof (run_exec gateway_env (REST_SubmitTask r) w) as Hex. fold tr in Hex.
  destruct (rest_submit_typed r _ _ Hex Htyped) as [Hreq _].
  destruct (accepted_inv r tr _ Hex Hcode) as (req & id & now & o & v & o' & Hm & _ & _ & Htr).
  assert (wf_task (submitted_task req id now) = true) as Hwf.
  { rewrite Htr in Hreq. do 3 apply Forall_inv_tail in Hreq. by apply Forall_inv in Hreq. }
  assert (Forall (plain lim) (svc_part tr)) as Hplain by (rewrite Htr; by repeat constructor).
  apply keeps_ready in Hready. apply (gateway_keeps _ _ _ _ Hplain) in Hready as [Hk Hh].
  fold tr in Hk, Hh. apply (keeps_site_elapse _ _ d _ Hd) in Hk. fold w1 in Hk.
  exists req, id, now. do 3 (split; [by rewrite Htr|]). intros Hid.
  pose proof (effects_status _ no_slots id StatusPending None Hh) as Hst.
  pose proof (effects_meta _ no_slots (submitted_task req id now) None v Hh) as Hmeta.
  rewrite Htr in Hst, Hmeta, Hk. specialize (Hst eq_refl). specialize (Hmeta eq_refl Hm).
  pose proof (unmarshal_marshal _ _ Hwf Hm) as Hun.
  by rewrite (status_reply_kept _ _ w1 id r' v _ StatusPending Hid Hk Hlt Hmeta Hun Hst).
Qed.
End Stack.

(** ** A result, as the client sees it *)

Definition years_ok (ts : list Time) : bool := forallb (fun x => in_range 0 9999 (Year x)) ts.

Lemma finished_wf task tr now :
  wf_task task = true -> Z.of_nat (length (handler_calls tr)) < 2 ^ 63 ->
  wf_task (finished task tr now) = true.
Proof.
  unfold wf_task. intros Hwf Hlen.
  assert (in_int64b (Z.of_nat (length (handler_calls tr))) = true) as Hatt.
  { unfold in_int64b, in_range, MinInt64, MaxInt64. by rewrite !(proj2 (Z.leb_le _ _)) by lia. }
  repeat match goal with H : _ && _ = true |- _ => apply andb_true_iff in H as [H ?] end.
  assert (ValidString (Task.Status_ (finished task tr now)) = true) as Hst.
  { unfold finished. by repeat case_match. }
  unfold finished in *. repeat case_match; task_fields;
    by repeat match goal with H : ?x = true |- _ => rewrite H; clear H end.
Qed.

Lemma finished_years task tr now :
  years_ok (years task) = true -> in_range 0 9999 (Year now) = true ->
  years_ok (years (finished task tr now)) = true.
Proof.
  unfold years_ok, years. rewrite !forallb_app. cbn [forallb].
  intros [[Hc Hu]%andb_true_iff [Hs Hco]%andb_true_iff]%andb_true_iff Hnow.
  apply andb_true_iff in Hu as [_ _].
  unfold finished. repeat case_match; task_fields; rewrite Hc, Hnow, Hs;
    cbn [from_option forallb andb]; by rewrite ?Hnow, ?Hco.
Qed.

Section Visible.
Context `{UnicodeTables, JsonTexts} `{RedisServer W, !RedisLaws W} (lim : slidingWindowLimiter).
Context {R : Type} (rest : forall X, ImplE X -> R -> X * Duration * R).
Context (client : forall X, HttpE X -> R -> X * R) (stream : forall X, StreamE X -> R -> X * R).
#[local] Existing Instance JsonTaskCodec | 0.

(** What a worker that called a handler leaves in Redis, as JSON. *)
Lemma result_kept (wk : Worker) ctx msg task (w : site W R) :
  unmarshalTask msg.(Value) = Ok task -> years_ok (years task) = true -> store_ready w ->
  let tr := worked lim rest wk ctx msg w in
  handler_calls tr <> [] -> years_ok (clock_readings tr) = true ->
  exists now a raw, keeps (srv_now (srv w)) a (after_work lim rest wk ctx msg w) /\
    a (StateSlot task.(Task.ID)) = Some (finished task tr now).(Task.Status_) /\
    a (MetaSlot task.(Task.ID)) = Some raw /\ unmarshalTask raw = Ok (finished task tr now).
Proof.
  intros Hu Hyears Hready tr Hcalls Hclock.
  pose proof (json_unmarshal_wf msg.(Value) task Hu) as Hwf. apply (keeps_ready rest) in Hready as Hk.
  destruct (worked_keeps lim rest _ _ wk ctx msg task w Hu Hk Hcalls)
    as (now & a' & Hnow & Hk' & Hlen & Hst & Hmeta). fold tr in Hnow, Hlen, Hst, Hmeta.
  assert (in_range 0 9999 (Year now) = true) as Hy.
  { unfold years_ok in Hclock. rewrite forallb_forall in Hclock. by apply Hclock, list_elem_of_In. }
  pose proof (finished_wf task tr now Hwf Hlen) as Hwf'.
  pose proof (finished_years task tr now Hyears Hy) as Hyears'.
  pose proof (json_marshal_total (finished task tr now)) as Hm.
  unfold years_ok in Hyears'. rewrite Hyears' in Hm.
  destruct (json_marshalTask (finished task tr now)) as [raw|] eqn:Hraw; [|done].
  exists now, a', raw. split_and!; [done..|by apply Hmeta|].
  exact (unmarshal_marshal (finished task tr now) raw Hwf' Hraw).
Qed.

(** The reply is the finished task, as the worker wrote it. *)
Lemma result_reply (wk : Worker) ctx msg task (w : site W R) d r :
  unmarshalTask msg.(Value) = Ok task ->
  years_ok (years task) = true -> task.(Task.ID) <> "" -> store_ready w ->
  let tr := worked lim rest wk ctx msg w in
  handler_calls tr <> [] -> years_ok (clock_readings tr) = true -> 0 <= d ->
  let w1 := site_elapse d (after_work lim rest wk ctx msg w) in
  srv_now (srv w1) < srv_now (srv w) + 24 * Hour ->
  exists now, status_replies lim rest client stream task.(Task.ID) r w1 =
    [BodyStatus (rest_status (finished task tr now))].
Proof.
  intros Hu Hyears Hid Hready tr Hcalls Hclock Hd w1 Hlt.
  destruct (result_kept wk ctx msg task w Hu Hyears Hready Hcalls Hclock)
    as (now & a & raw & Hk & Hst & Hmeta & Hun). fold tr in Hst, Hun.
  apply (keeps_site_elapse rest _ _ d _ Hd) in Hk. fold w1 in Hk.
  exists now. erewrite (status_reply_kept lim rest client stream _ _ _ _ _ _ _ _
    Hid Hk Hlt Hmeta Hun Hst). by unfold finished; repeat case_match.
Qed.

(** After a worker has run a task's handler, a status request for
    the task within 24 hours of it answers with the verdict of the last
    attempt, the number of attempts made and, when it is DONE, the time of
    completion (when it is DEAD, only one the task already had), from what the
    worker wrote to Redis as JSON. *)
Theorem result_visible (wk : Worker) ctx msg task (w : site W R) d r :
  unmarshalTask msg.(Value) = Ok task ->
  years_ok (years task) = true -> task.(Task.ID) <> "" -> store_ready w ->
  let tr := worked lim rest wk ctx msg w in
  handler_calls tr <> [] -> years_ok (clock_readings tr) = true -> 0 <= d ->
  let w1 := site_elapse d (after_work lim rest wk ctx msg w) in
  srv_now (srv w1) < srv_now (srv w) + 24 * Hour ->
  exists s, status_replies lim rest client stream task.(Task.ID) r w1 = [BodyStatus s] /\
    s.(ts_TaskID) = task.(Task.ID) /\ s.(ts_Type) = task.(Task.Type_) /\
    s.(ts_Attempts) = Z.of_nat (length (handler_calls tr)) /\
    ((last (map snd (handler_calls tr)) = Some None /\ s.(ts_Status) = StatusDone /\
      is_Some s.(ts_CompletedAt)) \/
     (last (map snd (handler_calls tr)) <> Some None /\ s.(ts_Status) = StatusDead /\
      s.(ts_CompletedAt) = task.(Task.CompletedAt))).
Proof.
  intros Hu Hyears Hid Hready tr Hcalls Hclock Hd w1 Hlt.
  destruct (result_reply wk ctx msg task w d r Hu Hyears Hid Hready Hcalls Hclock Hd Hlt)
    as [now Hr].
  eexists. split; [exact Hr|]. fold tr. unfold finished.
  destruct (last (map snd (handler_calls tr))) as [[e|]|]; cbn;
    (split_and!; [done|done|done|]); eauto 10.
Qed.
End Visible.

(** ** Concrete runs *)

(** An outside where everything works: the handler answers from a script, the
    clock stands at 2025 and every handler call takes a second. *)
Definition calm {X} (e : ImplE X) : list (option error) -> X * Duration * list (option error) :=
  match e in ImplE X return list (option error) -> X * Duration * list (option error) with
  | ImplRedis e => fun s => (redis_fail e (ErrNew "unused"), 0, s)
  | ImplPg e => fun s =>
      (match e in PgE X return X with
       | PgExec _ _ => None
       | PgTaskById _ _ => Err PgxErrNoRows
       | PgTasksByStatus _ _ _ => Ok ([], None)
       end, 0, s)
  | ImplKafka e => fun s =>
      (match e in KafkaE X return X with
       | InjectTrace _ => []
       | WriteMessages _ _ _ _ _ => None
       end, 0, s)
  | ImplSys e => fun s =>
      (match e in SysE X return X with
       | Now => 1735689600 * Second
       | Since _ => Second
       | NewUUID => "t-1"%string
       | SelectAfter _ _ => None
       end, 0, s)
  | ImplMetric e => fun s => (match e in MetricE X return X with
                              | Inc _ | Dec _ | Observe _ _ => tt end, 0, s)
  | ImplWorker e => fun s => (match e in WorkerE X return X with
                              | WgAdd _ | InFlightAdd _ => tt end, 0, s)
  | ImplHandle _ _ _ => fun s => (hd None s, Second, tl s)
  end.

Definition calm_client {X} (e : HttpE X) : list (option error) -> X * list (option error) := fun s =>
  (match e in HttpE X return X with
   | DecodeBody _ => Ok (mkSubmit "email" (Some "{}"%string) 5 None)
   | SetHeader _ _ | WriteHeader _ | LogRequest _ _ _ _ => tt
   | WriteBody _ => None
   end, s).

Definition calm_stream {X} (e : StreamE X) : list (option error) -> X * list (option error) := fun s =>
  (match e in StreamE X return X with
   | SelectTicker => true
   | Send _ | SendAndClose _ => None
   | Recv => Err IoEOF
   end, s).

Definition json_msg : Message :=
  mkMessage "tasks.worker.email" "t-1"
    (match json_marshalTask json_demo with Ok s => s | Err _ => "" end) 7 [].
Definition calm_site (script : list (option error)) : site mem (list (option error)) :=
  mkSite (mkNet mem_2023 []) script.

Lemma calm_ready script : store_ready (calm_site script).
Proof. split; [done|intros sl e He; discriminate He..]. Qed.

Lemma redelivered_on_redis_witness :
  let codec := @JsonTaskCodec plain_texts in
  let w1 := site_elapse (23 * Hour)
    (after_work demo_limiter (@calm) demo_worker CtxRun json_msg (calm_site [Some boom; None])) in
  exists s, IsTerminal s = true /\
    worked demo_limiter (@calm) demo_worker CtxRun json_msg w1
    = [GetStatus CtxRun "t-1" ~> Ok s] /\
    run_result (svc_env demo_limiter (@calm)) (processMessage demo_worker CtxRun json_msg) w1 = None.
Proof.
  intros codec.
  apply (@redelivered_on_redis ascii_tables codec mem mem_redis mem_laws demo_limiter _ (@calm)
    demo_worker CtxRun demo_worker CtxRun json_msg json_msg json_demo json_demo
    (calm_site [Some boom; None]) (23 * Hour)).
  - vm_compute. reflexivity.
  - vm_compute. reflexivity.
  - reflexivity.
  - apply calm_ready.
  - vm_compute. discriminate.
  - discriminate.
  - vm_compute. reflexivity.
Defined.

Lemma result_visible_witness :
  let codec := @JsonTaskCodec plain_texts in
  let w1 := site_elapse Hour
    (after_work demo_limiter (@calm) demo_worker CtxRun json_msg (calm_site [Some boom; None])) in
  exists s, status_replies demo_limiter (@calm) (@calm_client) (@calm_stream) "t-1"
              (mkRequest CtxRun "GET" "/api/v1/tasks/t-1" None) w1 = [BodyStatus s] /\
    s.(ts_Status) = StatusDone /\ s.(ts_Attempts) = 2.
Proof.
  intros codec w1.
  destruct (@result_visible ascii_tables plain_texts mem mem_redis mem_laws demo_limiter _ (@calm)
    (@calm_client) (@calm_stream) demo_worker CtxRun json_msg json_demo
    (calm_site [Some boom; None]) Hour (mkRequest CtxRun "GET" "/api/v1/tasks/t-1" None))
    as (s & Hs & _ & _ & Hatt & Hst).
  - vm_compute. reflexivity.
  - vm_compute. reflexivity.
  - discriminate.
  - apply calm_ready.
  - vm_compute. discriminate.
  - vm_compute. reflexivity.
  - discriminate.
  - vm_compute. reflexivity.
  - exists s. split; [exact Hs|]. split.
    + destruct Hst as [(_ & Hd & _)|[Hl _]]; [exact Hd|]. exfalso. apply Hl. vm_compute. reflexivity.
    + rewrite Hatt. vm_compute. reflexivity.
Defined.

Lemma submitted_visible_witness :
  let codec := @JsonTaskCodec plain_texts in
  let r := mkRequest CtxRun "POST" "/api/v1/tasks" None in
  let w1 := site_elapse (23 * Hour)
    (run_world (gateway_env demo_limiter (@calm) (@calm_client) (@calm_stream))
       (REST_SubmitTask r) (calm_site [])) in
  exists now, status_replies demo_limiter (@calm) (@calm_client) (@calm_stream) "t-1" r w1 =
    [BodyStatus (mkStatus "t-1" "email" StatusPending 5 0 now None 0)].
Proof.
  intros codec r w1.
  destruct (@submitted_visible ascii_tables codec mem mem_redis mem_laws demo_limiter _ (@calm)
    (@calm_client) (@calm_stream) (@json_typed plain_texts) r r (calm_site []) (23 * Hour))
    as (req & id & now & Hdec & Hb & _ & Hs).
  - vm_compute. reflexivity.
  - apply Forall_forall. intros ev Hev. vm_compute in Hev.
    repeat (apply elem_of_cons in Hev as [->|Hev]); [..|by apply elem_of_nil in Hev];
      try exact I; try (intros q [= <-]; by vm_compute); by vm_compute.
  - apply calm_ready.
  - discriminate.
  - vm_compute. reflexivity.
  - vm_compute in Hb. injection Hb as Hid Hnow. subst id. vm_compute in Hdec. injection Hdec as <-.
    exists now. apply Hs. discriminate.
Defined.
