(* ===== verification/Redelivery.v ===== *)
(** * Redelivered messages

    Kafka delivers a message again when its offset was not committed.  Workers
    that consume a partition one after the other, sessions of [Worker.Run] with
    restarts between them, on one Redis: what becomes of a task whose message
    is delivered any number of times, in between those of other tasks.  The
    sessions end between two messages; one that ends in the middle of a task
    may lose its outcome (WorkerSpec.v, [worker_shutdown_loses_outcome]). *)

From S2P Require Import Prelude Prog GoStrings Domain GoTime Json GoFloat Effects Retry Handlers.
From S2P Require Import Kafka Worker Fakes WorkerSpec Dispatcher Services Redis RedisFake RedisStore.
From S2P Require Import RateLimiter Gateway GatewaySpec WellTyped Impl Stack.

Set Default Proof Using "Type*".

(** ** The deliveries of a session *)

(** The calls before the first fetch, and the messages with the calls made
    for each of them. *)
Fixpoint cut (tr : list (event RunE)) : svc_trace * list (KMessage * svc_trace) :=
  match tr with
  | [] => ([], [])
  | ev :: tr =>
      let '(t, ds) := cut tr in
      match fetch ev, run_svc_event ev with
      | Some m, _ => ([], (m, t) :: ds)
      | None, Some e => (e :: t, ds)
      | None, None => (t, ds)
      end
  end.
Definition deliveries (tr : list (event RunE)) : list (KMessage * svc_trace) := (cut tr).2.

Lemma cut_lift t tr : cut (map lift_event t ++ tr) = (t ++ (cut tr).1, (cut tr).2).
Proof.
  induction t as [|[X e x] t IH]; cbn [map app]; [by destruct (cut tr)|]. cbn [cut]. by rewrite IH.
Qed.

Section Redelivery.
Context `{UnicodeTables, TaskCodec} `{RedisServer W, !RedisLaws W} (lim : slidingWindowLimiter).
Context {R : Type} (rest : forall X, ImplE X -> R -> X * Duration * R).
Implicit Types (w : site W R) (a : astore) (wk : Worker) (ctx : Ctx) (ds : list (KMessage * svc_trace)).

Abbreviation site_env := (svc_env lim rest).
Abbreviation worked := (worked lim rest).
Abbreviation after_work := (after_work lim rest).

(** ** One delivery after the other *)

(** What happens between two deliveries leaves the slots of a task alone. *)
Definition spared (id : string) w w' : Prop :=
  forall t0 a, keeps t0 a w -> exists a', keeps t0 a' w' /\
    a' (StateSlot id) = a (StateSlot id) /\ a' (MetaSlot id) = a (MetaSlot id).

(** [chain P id w ds w']: from [w] to [w'] each message of [ds] is processed by
    some worker [P] allows, with the calls recorded there, and whatever happens
    in between leaves the task [id] alone. *)
Inductive chain (P : Worker -> Prop) (id : string) :
    site W R -> list (KMessage * svc_trace) -> site W R -> Prop :=
| chain_nil w : chain P id w [] w
| chain_other w w1 ds w' : spared id w w1 -> chain P id w1 ds w' -> chain P id w ds w'
| chain_work w wk ctx m ds w' :
    P wk -> chain P id (after_work wk ctx (toMessage m) w) ds w' ->
    chain P id w ((m, worked wk ctx (toMessage m) w) :: ds) w'.

Lemma chain_idle P id w d s ds w' :
  0 <= d -> chain P id (mkSite (net_elapse d w.(redis)) s) ds w' -> chain P id w ds w'.
Proof.
  intros Hd. apply chain_other. intros t0 a Hk. exists a. split; [|done].
  destruct w as [n s0]. by apply (keeps_elapse rest _ _ n s0 s d).
Qed.

Lemma chain_app P id w ds1 ds2 w' :
  chain P id w (ds1 ++ ds2) w' -> exists w1, chain P id w ds1 w1 /\ chain P id w1 ds2 w'.
Proof.
  remember (ds1 ++ ds2) as ds eqn:Hds. intros Hch. revert ds1 Hds.
  induction Hch as [w|w w0 ds w' Hsp _ IH|w wk ctx m ds w' HP Hch IH]; intros ds1 Hds.
  - symmetry in Hds. apply app_nil in Hds as [-> ->]. eexists. by split; constructor.
  - destruct (IH ds1 Hds) as (w1 & Hc1 & Hc2). exists w1. split; [by eapply chain_other|done].
  - destruct ds1 as [|d ds1]; cbn in Hds.
    + exists w. split; [constructor|]. rewrite <- Hds. by constructor.
    + injection Hds as <- Hds. destruct (IH ds1 Hds) as (w1 & Hc1 & Hc2).
      exists w1. split; [by constructor|done].
Qed.

Lemma chain_first P id w m t ds w' :
  chain P id w ((m, t) :: ds) w' ->
  exists w1 wk ctx, chain P id w [] w1 /\ P wk /\ t = worked wk ctx (toMessage m) w1 /\
    chain P id (after_work wk ctx (toMessage m) w1) ds w'.
Proof.
  remember ((m, t) :: ds) as ds0 eqn:Hds. intros Hch. induction Hch as [w|w w0 ds0 w' Hsp _ IH|]; [done| |].
  - destruct (IH Hds) as (w1 & wk & ctx & Hc1 & Hc2). exists w1, wk, ctx.
    split; [by eapply chain_other|done].
  - injection Hds as -> <- ->. by eexists _, _, _; repeat split; [constructor|..].
Qed.

(** ** What they leave in Redis *)

(** The status and the metadata it writes are those of one task. *)
Definition about_task (id : string) (ev : event SvcE) : Prop :=
  match status_write ev, meta_write ev with
  | Some (i, _, _), _ => i = id
  | _, Some (t, _) => t.(Task.ID) = id
  | _, _ => True
  end.

Lemma processMessage_about wk ctx msg task :
  unmarshalTask msg.(Value) = Ok task ->
  only (about_task task.(Task.ID)) (processMessage wk ctx msg).
Proof.
  intros Hu. unfold processMessage, execute, finishSuccess, finishFailure. rewrite Hu.
  cbn zeta. only_calls;
    (apply only_Do; [intros s; unfold attempt|intros k e s; unfold call_OnRetry; cbn [retryConfig OnRetry]; unfold onRetry|done];
     only_calls).
Qed.

(** It writes neither of a task. *)
Definition spares (id : string) (ev : event SvcE) : Prop :=
  match status_write ev, meta_write ev with
  | Some (i, _, _), _ => i <> id
  | _, Some (t, _) => t.(Task.ID) <> id
  | _, _ => True
  end.

Lemma about_spares id id' ev : about_task id' ev -> id' <> id -> spares id ev.
Proof.
  unfold about_task, spares. destruct (status_write ev) as [[[i s] o]|]; [congruence|].
  destruct (meta_write ev) as [[t o]|]; congruence.
Qed.

Lemma effect_spares ev a id sl :
  spares id ev -> sl = StateSlot id \/ sl = MetaSlot id -> effect ev a sl = a sl.
Proof.
  unfold spares, effect, upd. intros Ha Hsl.
  destruct (status_write ev) as [[[i s] o]|] eqn:Hw.
  - rewrite (one_write _ _ Hw). destruct o; [done|].
    rewrite decide_False; [done|]. destruct Hsl as [-> | ->]; congruence.
  - destruct (meta_write ev) as [[t [e|]]|]; [done| |done].
    destruct (marshalTask t); [|done]. rewrite decide_False; [done|].
    destruct Hsl as [-> | ->]; congruence.
Qed.

Lemma effects_spare tr a id sl :
  Forall (spares id) tr -> sl = StateSlot id \/ sl = MetaSlot id -> effects tr a sl = a sl.
Proof.
  intros Htr Hsl. induction tr as [|ev tr IH] using rev_ind; [done|].
  apply Forall_app in Htr as [Htr Hev%Forall_inv]. by rewrite effects_snoc, (effect_spares _ _ id), IH.
Qed.

(** A service that works on other tasks. *)
Lemma service_spares {A} (p : prog SvcE A) w id :
  Forall (fun ev => plain lim ev /\ spares id ev) (run_trace site_env p w) ->
  spared id w (run_world site_env p w).
Proof.
  intros [Hp Hs]%Forall_and t0 a Hk. destruct (run_keeps lim rest t0 a p w Hp Hk) as [Hk' _].
  eexists. split; [exact Hk'|]. split; apply (effects_spare _ _ id); auto.
Qed.

Lemma work_keeps t0 a wk ctx msg w :
  keeps t0 a w ->
  keeps t0 (effects (worked wk ctx msg w) a) (after_work wk ctx msg w) /\
  Forall healthy (worked wk ctx msg w).
Proof.
  intros Hk. apply (run_keeps lim rest t0 a (processMessage wk ctx msg) w); [|done].
  eapply processMessage_plain, run_exec.
Qed.

(** A server that is ready stays so, and its clock does not go back. *)
Lemma chain_ready P id w ds w' :
  chain P id w ds w' -> store_ready w -> store_ready w' /\ srv_now (srv w) <= srv_now (srv w').
Proof.
  induction 1 as [w|w w1 ds w' Hsp _ IH|w wk ctx m ds w' _ _ IH]; intros Hr; [done| |];
    apply (keeps_ready rest) in Hr as Hk.
  - destruct (Hsp _ _ Hk) as (a & Hk1 & _).
    destruct (IH (ready_keeps rest _ _ _ Hk1)). apply kp_now in Hk1. split; [done|]. lia.
  - apply (work_keeps _ _ wk ctx (toMessage m)) in Hk as [Hk _].
    destruct (IH (ready_keeps rest _ _ _ Hk)). apply kp_now in Hk. split; [done|]. lia.
Qed.

(** Messages of the task [id], as they decode. *)
Definition message_of (id : string) (m : KMessage) : Prop :=
  exists task, unmarshalTask m.(k_Value) = Ok task /\ task.(Task.ID) = id.

#[export] Instance message_of_dec id m : Decision (message_of id m).
Proof.
  unfold message_of. destruct (unmarshalTask m.(k_Value)) as [task|e].
  - destruct (decide (task.(Task.ID) = id)) as [He|He]; [left; eauto|right].
    by intros (task' & [= <-] & ?).
  - right. by intros (task' & ? & _).
Defined.

(** Messages of other tasks leave the slots of a task alone. *)
Lemma work_other t0 a wk ctx m w id sl :
  keeps t0 a w -> ~ message_of id m -> sl = StateSlot id \/ sl = MetaSlot id ->
  effects (worked wk ctx (toMessage m) w) a sl = a sl.
Proof.
  intros Hk Hno Hsl.
  pose proof (run_exec site_env (processMessage wk ctx (toMessage m)) w) as Hex.
  destruct (unmarshalTask m.(k_Value)) as [task|e] eqn:Hu.
  - assert (task.(Task.ID) <> id) as Hne by (intros <-; apply Hno; by exists task).
    apply (effects_spare _ _ id); [|done]. eapply Forall_impl; [by eapply (processMessage_about wk ctx (toMessage m))|].
    intros ev Hev. by eapply about_spares.
  - unfold Stack.worked, run_trace, processMessage. cbn [toMessage Value]. by rewrite Hu.
Qed.

Lemma route_plain dp ctx msg : sane lim -> only (plain lim) (route dp ctx msg).
Proof. intros Hs. unfold route, limited, toDLQ. only_calls. Qed.

(** What a routing that reached a worker's topic leaves behind. *)
Lemma routed_site t0 a dp ctx msg w task v :
  let tr := run_trace site_env (route dp ctx msg) w in
  sane lim -> keeps t0 a w -> unmarshalTask msg.(Value) = Ok task ->
  publications tr = [(workerTopic task.(Task.Type_), task.(Task.ID), v, None)] ->
  exists a', v = msg.(Value) /\ keeps t0 a' (run_world site_env (route dp ctx msg) w) /\
    a' (StateSlot task.(Task.ID)) = Some StatusQueued /\
    a' (MetaSlot task.(Task.ID)) = a (MetaSlot task.(Task.ID)) /\
    creations tr = [] /\ repo_writes tr = [].
Proof.
  intros tr Hsane Hk Hu Hpub.
  pose proof (run_exec site_env (route dp ctx msg) w) as Hex. fold tr in Hex.
  destruct (run_keeps lim rest t0 a (route dp ctx msg) w) as [Hk' Hh];
    [by eapply route_plain|done|]. fold tr in Hk', Hh.
  pose proof (effects_status tr a task.(Task.ID) StatusQueued) as Hst.
  pose proof (effects_same_meta tr a task.(Task.ID)) as Hmeta.
  clearbody tr. apply route_inv in Hex.
  destruct Hex as [o Href|task' l o Hu' Hty Hl|task' l e Hu' Hty Hl|task' l o Hu' Hty Hl];
    try rewrite Hu in Hu'; simplify_eq; try destruct Hl; try done;
    eexists; (split_and!; [by injection Hpub|exact Hk'|by eapply Hst|by apply Hmeta|done|done]).
Qed.

(** While the final status of a task is kept, its deliveries are reads. *)
Lemma chain_done P t0 a w ds w' id s :
  chain P id w ds w' -> keeps t0 a w -> fresh t0 w' -> a (StateSlot id) = Some s -> IsTerminal s = true ->
  Forall (fun d => message_of id d.1 -> exists ctx, d.2 = [GetStatus ctx id ~> Ok s]) ds /\
  exists a', keeps t0 a' w' /\ a' (StateSlot id) = Some s /\ a' (MetaSlot id) = a (MetaSlot id).
Proof.
  intros Hch. revert a.
  induction Hch as [w|w w1 ds w' Hsp Hch IH|w wk ctx m ds w' HP Hch IH]; intros a Hk Hf Hs Ht.
  - split; [constructor|eauto].
  - destruct (Hsp _ _ Hk) as (a1 & Hk1 & Hs1 & Hm1). rewrite <- Hs1 in Hs.
    destruct (IH a1 Hk1 Hf Hs Ht) as [Hall Ha']. by rewrite Hm1 in Ha'.
  - assert (fresh t0 w) as Hfw.
    { destruct (chain_ready P id w ((m, worked wk ctx (toMessage m) w) :: ds) w'
        ltac:(by constructor) (ready_keeps rest _ _ _ Hk)) as [_ Hle]. unfold fresh in *. lia. }
    pose proof (work_keeps _ _ wk ctx (toMessage m) _ Hk) as [Hk' _].
    destruct (decide (message_of id m)) as [(task & Hu & <-)|Hno].
    + destruct (reads_terminal lim rest t0 a wk ctx (toMessage m) task s w Hu Hk Hfw Hs Ht) as [Hr _].
      rewrite Hr in Hk'. destruct (IH a) as [Hall Ha']; [exact Hk'|done..|].
      split; [|done]. constructor; [|done]. cbn. intros _. by exists ctx.
    + destruct (IH _ Hk' Hf) as [Hall (a' & Hka & Hsa & Hma)]; [|done|].
      { by rewrite (work_other t0 a _ _ _ _ id _ Hk Hno (or_introl eq_refl)). }
      split; [by constructor|]. exists a'. split_and!; [done..|].
      by rewrite Hma, (work_other t0 a _ _ _ _ id _ Hk Hno (or_intror eq_refl)).
Qed.

(** Without its messages, the slots of a task stay as they are. *)
Lemma chain_others P t0 a w ds w' id :
  chain P id w ds w' -> keeps t0 a w -> Forall (fun d => ~ message_of id d.1) ds ->
  exists a', keeps t0 a' w' /\ a' (StateSlot id) = a (StateSlot id).
Proof.
  intros Hch. revert a. induction Hch as [w|w w1 ds w' Hsp Hch IH|w wk ctx m ds w' HP Hch IH];
    intros a Hk Hno; [by exists a| |].
  - destruct (Hsp _ _ Hk) as (a1 & Hk1 & Hs1 & _). destruct (IH a1 Hk1 Hno) as (a' & Hka & Ha').
    exists a'. by rewrite Ha'.
  - apply Forall_cons in Hno as [Hno Hnos].
    pose proof (work_keeps _ _ wk ctx (toMessage m) _ Hk) as [Hk' _].
    destruct (IH _ Hk' Hnos) as (a' & Hka & Ha'). exists a'. split; [done|].
    by rewrite Ha', (work_other t0 a _ _ _ _ id _ Hk Hno (or_introl eq_refl)).
Qed.

(** ** Once *)

(** Of the deliveries of a task, those before the one that called the handler
    did not, and those after it only read its verdict. *)
Definition once (id : string) ds1 (t : svc_trace) ds2 : Prop :=
  Forall (fun d => message_of id d.1 -> handler_calls d.2 = []) ds1 /\
  Forall (fun d => message_of id d.1 -> exists ctx, d.2 = [GetStatus ctx id ~> Ok (verdict t)]) ds2.

Lemma chain_verdict P w m t ds task w' :
  chain P task.(Task.ID) w ((m, t) :: ds) w' -> store_ready w ->
  srv_now (srv w') < srv_now (srv w) + 24 * Hour ->
  unmarshalTask m.(k_Value) = Ok task -> handler_calls t <> [] ->
  Forall (fun d => message_of task.(Task.ID) d.1 ->
    exists ctx, d.2 = [GetStatus ctx task.(Task.ID) ~> Ok (verdict t)]) ds.
Proof.
  intros Hch Hr Hlt Hu Hcalls. apply chain_first in Hch as (w1 & wk & ctx & Hidle & _ & -> & Hch).
  destruct (chain_ready P _ _ _ _ Hidle Hr) as [Hr1 Hle].
  destruct (worked_keeps lim rest _ _ wk ctx (toMessage m) task w1 Hu (keeps_ready rest _ Hr1) Hcalls)
    as (now & a & _ & Hk & _ & Hst & _).
  rewrite verdict_finished in Hst.
  apply (chain_done P _ _ _ _ _ _ _ Hch Hk); [|done|apply verdict_terminal].
  unfold fresh. change stateTTL with (24 * Hour). lia.
Qed.

Lemma chain_once P w ds1 m t ds2 task w' :
  chain P task.(Task.ID) w (ds1 ++ (m, t) :: ds2) w' -> store_ready w ->
  srv_now (srv w') < srv_now (srv w) + 24 * Hour ->
  unmarshalTask m.(k_Value) = Ok task -> handler_calls t <> [] -> once task.(Task.ID) ds1 t ds2.
Proof.
  intros Hch Hr Hlt Hu Hcalls. split.
  - apply Forall_forall. intros [m0 t0] Hin (task0 & Hu0 & Hid). cbn in *.
    destruct (decide (handler_calls t0 = [])) as [|Hcalls0]; [done|].
    apply list_elem_of_split in Hin as (l1 & l2 & ->). rewrite <- app_assoc in Hch.
    apply chain_app in Hch as (w1 & Hc1 & Hch). destruct (chain_ready P _ _ _ _ Hc1 Hr) as [Hr1 Hle].
    rewrite <- Hid in Hch.
    pose proof (chain_verdict P _ _ _ _ _ _ Hch Hr1 ltac:(lia) Hu0 Hcalls0) as Hall. rewrite Hid in Hall.
    rewrite Forall_forall in Hall. destruct (Hall (m, t)) as [ctx Ht].
    + apply elem_of_app. right. by left.
    + by exists task.
    + cbn in Ht. by subst t.
  - apply chain_app in Hch as (w1 & Hc1 & Hch). destruct (chain_ready P _ _ _ _ Hc1 Hr) as [Hr1 Hle].
    by apply (chain_verdict P _ _ _ _ _ _ Hch Hr1 ltac:(lia) Hu).
Qed.

(** The first delivery of a task that is not over calls the handler. *)
Lemma chain_runs (P : Worker -> Prop) t0 a w ds1 m t ds2 task s w' :
  chain P task.(Task.ID) w (ds1 ++ (m, t) :: ds2) w' -> keeps t0 a w -> fresh t0 w' ->
  a (StateSlot task.(Task.ID)) = Some s -> IsTerminal s = false ->
  Forall (fun d => ~ message_of task.(Task.ID) d.1) ds1 -> unmarshalTask m.(k_Value) = Ok task ->
  (forall wk, P wk -> exists h, Registry.Get wk.(registry) task.(Task.Type_) = Ok h) ->
  handler_calls t <> [].
Proof.
  intros Hch Hk Hlt Hs Ht Hno Hu HP. apply chain_app in Hch as (w1 & Hc1 & Hch).
  destruct (chain_others P _ _ _ _ _ _ Hc1 Hk Hno) as (a1 & Hk1 & Hs1). rewrite Hs in Hs1.
  apply chain_first in Hch as (w2 & wk & ctx & Hc2 & Hwk & -> & Hch).
  destruct (chain_others P _ _ _ _ _ _ Hc2 Hk1) as (a2 & Hk2 & Hs2); [constructor|].
  rewrite Hs1 in Hs2. pose proof (work_keeps _ _ wk ctx (toMessage m) _ Hk2) as [Hk3 Hh].
  assert (fresh t0 w2) as Hf2.
  { destruct (chain_ready P _ _ _ _ Hch (ready_keeps rest _ _ _ Hk3)) as [_ Hle].
    apply (chain_work P task.(Task.ID)) in Hch as Hch2; [|done].
    destruct (chain_ready P _ _ _ _ Hch2 (ready_keeps rest _ _ _ Hk2)) as [_ Hle2].
    unfold fresh in *. lia. }
  destruct (HP wk Hwk) as [h Hreg].
  pose proof (run_exec site_env (processMessage wk ctx (toMessage m)) w2) as Hex.
  eapply (handler_runs wk ctx (toMessage m) task _ _ (Ok s) h Hu Hex); [|by intros ? [= <-]|done|].
  - unfold run_trace, processMessage. cbn [toMessage Value]. rewrite Hu.
    unfold trigger. cbn [mbind prog_bind run]. unfold inj, SubE_Store.
    rewrite (read_status lim rest _ _ _ ctx _ _ Hk2 Hf2 Hs2). by destruct (run site_env _ w2) as [[? ?] ?].
  - clear -Hh. unfold Stack.worked in Hh. induction Hh as [|ev tr Hev _ IH]; [constructor|].
    unfold status_writes. cbn [omap list_omap]. unfold healthy in Hev.
    destruct (status_write ev) as [[[i s] o]|]; [by constructor|done].
Qed.

(** Among any deliveries of a task that is not over, the first runs it. *)
Lemma chain_exactly_once (P : Worker -> Prop) t0 a w ds task s v w' :
  chain P task.(Task.ID) w ds w' -> keeps t0 a w -> fresh t0 w' ->
  a (StateSlot task.(Task.ID)) = Some s -> IsTerminal s = false ->
  (forall wk, P wk -> exists h, Registry.Get wk.(registry) task.(Task.Type_) = Ok h) ->
  unmarshalTask v = Ok task ->
  Forall (fun x => message_of task.(Task.ID) x.1 -> x.1.(k_Value) = v) ds ->
  Exists (fun x => message_of task.(Task.ID) x.1) ds ->
  exists ds1 m t ds2, ds = ds1 ++ (m, t) :: ds2 /\ m.(k_Value) = v /\ handler_calls t <> [] /\
    Forall (fun x => ~ message_of task.(Task.ID) x.1) ds1.
Proof.
  intros Hch Hk Hf Hs Ht HP Hv Hval Hex. apply Exists_exists in Hex as (x & Hin & Hm).
  destruct (list_find (fun x => message_of task.(Task.ID) x.1) ds) as [[i [m t]]|] eqn:Hfind.
  2:{ apply list_find_None in Hfind. rewrite Forall_forall in Hfind. by destruct (Hfind x Hin). }
  apply list_find_Some in Hfind as (Hi & Hm1 & Hbefore). cbn in Hm1.
  assert (Forall (fun x => ~ message_of task.(Task.ID) x.1) (take i ds)) as Hno.
  { apply Forall_forall. intros y (j & Hj)%list_elem_of_lookup.
    apply lookup_take_Some in Hj as [Hj Hji]. by apply (Hbefore j y). }
  assert (m.(k_Value) = v) as Hmv.
  { rewrite Forall_forall in Hval. apply (Hval (m, t)); [by eapply list_elem_of_lookup_2|done]. }
  apply take_drop_middle in Hi as Hsplit. rewrite <- Hsplit in Hch.
  exists (take i ds), m, t, (drop (S i) ds). split_and!; [by symmetry|done| |done].
  rewrite <- Hmv in Hv. by eapply chain_runs.
Qed.
End Redelivery.

(** ** Sessions *)

Section Shifts.
Context `{UnicodeTables, TaskCodec} `{RedisServer W, !RedisLaws W} (lim : slidingWindowLimiter).
Context {R : Type} (rest : forall X, ImplE X -> R -> X * Duration * R).
Context (broker : forall X, ConsumerE X -> R -> X * Duration * R).
Context (client : forall X, HttpE X -> R -> X * R) (stream : forall X, StreamE X -> R -> X * R).
Implicit Types (w : site W R) (wk : Worker) (ctx : Ctx).
Abbreviation site_env := (svc_env lim rest).
Abbreviation gw_env := (gateway_env lim rest client stream).
Abbreviation chain := (chain lim rest).

(** A worker's session: the broker delivers what it likes when it likes, the
    rest is the site of Impl.v. *)
Definition run_env : handler RunE (site W R) := fun X e =>
  match e in RunE X return site W R -> X * site W R with
  | RunSvc e => site_env _ e
  | RunConsumer e => fun w =>
      let '(x, d, s) := broker _ e w.(elsewhere) in
      (x, mkSite (net_elapse (Z.max 0 d) w.(redis)) s)
  end.

Lemma run_service {A} (p : prog SvcE A) w :
  run run_env (lift p) w =
  let '(a, t, w') := run site_env p w in (a, map lift_event t, w').
Proof. exact (run_lift (E := SvcE) run_env p w). Qed.

(** One session: a worker, its context, and how many fetches it makes at
    most before it is stopped. *)
Record shift := mkShift { sh_worker : Worker; sh_ctx : Ctx; sh_fetches : nat }.
Definition shift_run (s : shift) : prog RunE (option (option error)) :=
  Worker_Run s.(sh_worker) s.(sh_ctx) s.(sh_fetches).

(** What can happen on the site: a session, a request to the gateway, anything
    another service does, or nothing for a while. *)
Inductive turn : Type :=
| Session (s : shift)
| AtGateway {A : Type} (p : prog GwE A)
| AtService {A : Type} (p : prog SvcE A)
| Idle (d : Duration).

Definition turn_world (t : turn) w : site W R :=
  match t with
  | Session s => run_world run_env (shift_run s) w
  | AtGateway p => run_world gw_env p w
  | AtService p => run_world site_env p w
  | Idle d => site_elapse (Z.max 0 d) w
  end.
Definition turn_trace (t : turn) w : list (event RunE) :=
  match t with
  | Session s => run_trace run_env (shift_run s) w
  | _ => []
  end.
Fixpoint turns_world (ts : list turn) w : site W R :=
  match ts with
  | [] => w
  | t :: ts => turns_world ts (turn_world t w)
  end.
Fixpoint turns_trace (ts : list turn) w : list (event RunE) :=
  match ts with
  | [] => []
  | t :: ts => turn_trace t w ++ turns_trace ts (turn_world t w)
  end.

(** The turns between the sessions do not write the task's status or metadata
    (nor results, which nothing in the repository does), and the sessions are
    those of workers [P] allows. *)
Definition turn_fits (P : Worker -> Prop) (id : string) (t : turn) w : Prop :=
  match t with
  | Session s => P s.(sh_worker)
  | AtGateway p =>
      Forall (fun ev => plain lim ev /\ spares id ev) (svc_part (run_trace gw_env p w))
  | AtService p => Forall (fun ev => plain lim ev /\ spares id ev) (run_trace site_env p w)
  | Idle _ => True
  end.
Fixpoint turns_fit (P : Worker -> Prop) (id : string) (ts : list turn) w : Prop :=
  match ts with
  | [] => True
  | t :: ts => turn_fits P id t w /\ turns_fit P id ts (turn_world t w)
  end.

Lemma Subscribe_chain P id wk ctx n w tr w' :
  P wk -> (cut tr).1 = [] ->
  chain P id (run_world run_env (Worker_Run wk ctx n) w) (deliveries tr) w' ->
  let tr' := run_trace run_env (Worker_Run wk ctx n) w ++ tr in
  (cut tr').1 = [] /\ chain P id w (deliveries tr') w'.
Proof.
  intros HP Htr. unfold Worker_Run, deliveries, run_world, run_trace. revert w.
  induction n as [|n IH]; intros w; cbn [Subscribe run mret prog_ret]; [done|].
  unfold trigger. cbn [mbind prog_bind run]. unfold inj, SubE_RunConsumer. cbn [run_env].
  destruct (broker _ (FetchMessage ctx) (elsewhere w)) as [[[m|e] d] s].
  - rewrite run_bind, run_service. set (w1 := mkSite _ s). pose proof (chain_work lim rest P id w1 wk ctx m) as Hwork.
    unfold Stack.after_work, Stack.worked, run_world, run_trace in Hwork.
    destruct (run site_env (processMessage wk ctx (toMessage m)) w1) as [[o t] w2].
    cbn [fst snd] in Hwork. destruct o as [e|].
    + specialize (IH w2). destruct (run run_env (Subscribe ctx _ n) w2) as [[r t2] w3].
      cbn [fst snd app] in *. intros Hch. destruct (IH Hch) as [Hc Hch'].
      rewrite <- app_assoc. cbn [cut fetch run_svc_event]. rewrite cut_lift, Hc, app_nil_r.
      split; [done|]. apply (chain_idle lim rest P id w (Z.max 0 d) s); [lia|]. by apply Hwork.
    + cbn [mbind prog_bind run]. unfold inj, SubE_RunConsumer. cbn [run_env].
      destruct (broker _ (CommitMessages CtxBackground m) (elsewhere w2)) as [[c d2] s2].
      set (w3 := mkSite _ s2). specialize (IH w3).
      destruct (run run_env (Subscribe ctx _ n) w3) as [[r t2] w4].
      cbn [fst snd app] in *. intros Hch. destruct (IH Hch) as [Hc Hch'].
      rewrite <- app_assoc. cbn [cut fetch run_svc_event app]. rewrite cut_lift.
      cbn [cut fetch run_svc_event]. destruct (cut (t2 ++ tr)) as [c1 c2]. cbn [fst snd] in *.
      subst c1. rewrite app_nil_r. split; [done|].
      apply (chain_idle lim rest P id w (Z.max 0 d) s); [lia|]. apply Hwork; [done|].
      by apply (chain_idle lim rest P id w2 (Z.max 0 d2) s2); [lia|].
  - cbn [mbind prog_bind run run_env elsewhere].
    destruct (broker _ (CtxErr ctx) s) as [[[cerr|] d2] s2]; cbn [fst snd run mret prog_ret app];
      intros Hch; cbn [cut fetch run_svc_event]; destruct (cut tr) as [c1 c2]; cbn [fst snd] in *;
      (split; [done|]); apply (chain_idle lim rest P id w (Z.max 0 d) s); try lia;
      by apply (chain_idle lim rest P id _ (Z.max 0 d2) s2); [lia|].
Qed.

Lemma request_spares {A} (p : prog GwE A) w id :
  Forall (fun ev => plain lim ev /\ spares id ev) (svc_part (run_trace gw_env p w)) ->
  spared id w (run_world gw_env p w).
Proof.
  intros [Hp Hs]%Forall_and t0 a Hk.
  destruct (gateway_keeps lim rest client stream t0 a p w Hp Hk) as [Hk' _].
  eexists. split; [exact Hk'|]. split; apply (effects_spare _ _ id); auto.
Qed.

Lemma turns_chain P id ts w :
  turns_fit P id ts w ->
  (cut (turns_trace ts w)).1 = [] /\ chain P id w (deliveries (turns_trace ts w)) (turns_world ts w).
Proof.
  revert w. induction ts as [|t ts IH]; intros w; [by split; [|constructor]|].
  intros [Ht Hts]. destruct (IH _ Hts) as [Hc Hch]. cbn [turns_trace turns_world].
  destruct t as [s|A p|A p|d]; cbn [turn_trace turn_world turn_fits app] in *.
  - by apply (Subscribe_chain P id s.(sh_worker) s.(sh_ctx) s.(sh_fetches)).
  - split; [done|]. eapply chain_other, Hch. by apply request_spares.
  - split; [done|]. eapply chain_other, Hch. by apply service_spares.
  - split; [done|]. apply (chain_idle lim rest P id w (Z.max 0 d) w.(elsewhere)); [lia|exact Hch].
Qed.
End Shifts.

(** ** With the tasks as JSON *)

Section Once.
Context `{UnicodeTables, JsonTexts} `{RedisServer W, !RedisLaws W} (lim : slidingWindowLimiter).
Context {R : Type} (rest : forall X, ImplE X -> R -> X * Duration * R).
Context (broker : forall X, ConsumerE X -> R -> X * Duration * R).
Context (client : forall X, HttpE X -> R -> X * R) (stream : forall X, StreamE X -> R -> X * R).
#[local] Existing Instance JsonTaskCodec | 0.
Implicit Types (w : site W R) (ds : list (KMessage * svc_trace)).

Abbreviation replies := (status_replies lim rest client stream).
Abbreviation turns_world := (turns_world lim rest broker client stream).
Abbreviation turns_trace := (turns_trace lim rest broker client stream).
Abbreviation turns_fit := (turns_fit lim rest broker client stream).

(** What a status request finds when some delivery has called the handler. *)
Lemma chain_reply P w ds1 m t ds2 task w' q :
  chain lim rest P task.(Task.ID) w (ds1 ++ (m, t) :: ds2) w' -> store_ready w ->
  srv_now (srv w') < srv_now (srv w) + 24 * Hour ->
  unmarshalTask m.(k_Value) = Ok task -> handler_calls t <> [] ->
  task.(Task.ID) <> "" -> years_ok (years task ++ clock_readings t) = true ->
  exists now, replies task.(Task.ID) q w' = [BodyStatus (rest_status (finished task t now))].
Proof.
  intros Hch Hr Hlt Hu Hcalls Hid Hyears. unfold years_ok in Hyears.
  rewrite forallb_app in Hyears. apply andb_true_iff in Hyears as [Hyears Hclock].
  apply chain_app in Hch as (w0 & Hc0 & Hch). destruct (chain_ready _ _ P _ _ _ _ Hc0 Hr) as [Hr0 Hle0].
  apply chain_first in Hch as (w1 & wk & ctx & Hc1 & _ & -> & Hch).
  destruct (chain_ready _ _ P _ _ _ _ Hc1 Hr0) as [Hr1 Hle1].
  destruct (result_kept lim rest client stream wk ctx (toMessage m) task w1 Hu Hyears Hr1 Hcalls Hclock)
    as (now & a & raw & Hk & Hst & Hmeta & Hun).
  assert (fresh (srv_now (srv w1)) w') as Hf by (unfold fresh; change stateTTL with (24 * Hour); lia).
  destruct (chain_done lim rest P _ _ _ _ _ _ _ Hch Hk Hf Hst (finished_terminal _ _ _))
    as [_ (a' & Hk' & Hst' & Hmeta')]. rewrite Hmeta in Hmeta'.
  exists now. erewrite (status_reply_kept lim rest client stream _ _ _ _ _ _ _ _
    Hid Hk' Hf Hmeta' Hun Hst'). by unfold finished; repeat case_match.
Qed.


(** C5: a task the dispatcher routed is run exactly once, when nothing runs at
    the same time as the guard of its worker.  The dispatcher has routed the
    message of the task and has finished doing so, its write of QUEUED
    included.  After that, one at a time, sessions of workers that have a
    handler for its type start and end between two messages, requests are
    answered and other services work on other tasks.  Redis answers, and all of
    it takes less than 24 hours.  Then, if the message the dispatcher published
    is delivered at all, its first delivery calls the handler with the very
    task, no other does, and a status request is answered with the outcome of
    that run.  Without the order between the sessions, or with the write of
    QUEUED still to come, a task can run twice ([guard_is_not_atomic],
    [late_queued_reruns], System.v). *)
Theorem routed_task_runs_once dp ctx0 m0 w0 task v ts q :
  let tr0 := run_trace (svc_env lim rest) (route dp ctx0 m0) w0 in
  let w1 := run_world (svc_env lim rest) (route dp ctx0 m0) w0 in
  let w' := turns_world ts w1 in
  let ds := deliveries (turns_trace ts w1) in
  sane lim -> store_ready w0 -> srv_now (srv w') < srv_now (srv w0) + 24 * Hour ->
  unmarshalTask m0.(Value) = Ok task ->
  publications tr0 = [(workerTopic task.(Task.Type_), task.(Task.ID), v, None)] ->
  turns_fit (fun wk => exists h, Registry.Get wk.(registry) task.(Task.Type_) = Ok h)
    task.(Task.ID) ts w1 ->
  Forall (fun x => message_of task.(Task.ID) x.1 -> x.1.(k_Value) = v) ds ->
  Exists (fun x => message_of task.(Task.ID) x.1) ds ->
  exists ds1 m t ds2, ds = ds1 ++ (m, t) :: ds2 /\ m.(k_Value) = v /\ handler_calls t <> [] /\
    Forall (fun c => c.1.2 = task) (handler_calls t) /\
    Forall (fun x => ~ message_of task.(Task.ID) x.1) ds1 /\ once task.(Task.ID) ds1 t ds2 /\
    (task.(Task.ID) <> "" -> years_ok (years task ++ clock_readings t) = true ->
     exists now, replies task.(Task.ID) q w' = [BodyStatus (rest_status (finished task t now))]).
Proof.
  intros tr0 w1 w' ds Hsane Hr Hlt Hu Hpub Hfit Hval Hex. apply (keeps_ready rest) in Hr as Hk0.
  destruct (routed_site lim rest _ _ dp ctx0 m0 w0 task v Hsane Hk0 Hu Hpub)
    as (a & -> & Hk & Hst & _). fold w1 in Hk.
  destruct (turns_chain lim rest broker client stream _ _ ts w1 Hfit) as [_ Hch].
  fold w' ds in Hch. apply (ready_keeps rest) in Hk as Hr1. pose proof (kp_now _ _ _ Hk) as Hnow.
  destruct (chain_exactly_once lim rest _ _ _ _ _ task StatusQueued m0.(Value) _ Hch Hk)
    as (ds1 & m & t & ds2 & Hds & Hm & Hcalls & Hno); try done. rewrite Hds in Hch.
  assert (unmarshalTask m.(k_Value) = Ok task) as Hum by by rewrite Hm.
  exists ds1, m, t, ds2. split_and!; try done.
  - destruct (chain_app _ _ _ _ _ _ _ _ Hch) as (w2 & _ & Hch2).
    apply chain_first in Hch2 as (w3 & wk & ctx & _ & _ & -> & _).
    by eapply (handler_task wk ctx (toMessage m)), run_exec.
  - eapply (chain_once lim rest); [exact Hch|done|lia|done..].
  - intros Hid Hy. eapply chain_reply; [exact Hch|done|lia|done..].
Qed.
End Once.

(** ** Concrete runs *)

(** A broker that delivers the messages of a list in turn, and an outside
    where everything else works. *)
Definition queue : Type := list KMessage * list (option error).
Definition calm_queue {X} (e : ImplE X) : queue -> X * Duration * queue := fun '(ms, s) =>
  let '(x, d, s') := calm e s in (x, d, (ms, s')).
Definition queue_broker {X} (e : ConsumerE X) : queue -> X * Duration * queue := fun '(ms, s) =>
  match e in ConsumerE X return X * Duration * queue with
  | FetchMessage _ =>
      match ms with
      | [] => (Err ContextCanceled, 0, (ms, s))
      | m :: ms' => (Ok m, Second, (ms', s))
      end
  | CtxErr _ => (Some ContextCanceled, 0, (ms, s))
  | CommitMessages _ _ => (Some (ErrNew "rebalance"), 0, (ms, s))
  end.
Definition queue_client {X} (e : HttpE X) : queue -> X * queue := fun '(ms, s) =>
  let '(x, s') := calm_client e s in (x, (ms, s')).
Definition queue_stream {X} (e : StreamE X) : queue -> X * queue := fun '(ms, s) =>
  let '(x, s') := calm_stream e s in (x, (ms, s')).

Definition queue_message (off : Z) (value : string) : KMessage :=
  mkKMessage "tasks.worker.email" 0 off "t-1" value [].
Definition again : list KMessage :=
  [queue_message 7 json_msg.(Value); queue_message 8 "not json"; queue_message 7 json_msg.(Value);
   queue_message 7 json_msg.(Value)].
Definition again_site : site mem queue := mkSite (mkNet mem_2023 []) (again, [Some boom; None]).

(** A session that is stopped after one message, a request for the status, and
    the session after the restart. *)
Definition again_get : Request := mkRequest CtxRun "GET" "/api/v1/tasks/t-1" None.
Lemma again_ready : store_ready again_site.
Proof. split; [done|intros sl e He; discriminate He..]. Qed.

#[local] Existing Instance plain_texts.
#[local] Existing Instance JsonTaskCodec | 0.
Abbreviation queue_trace :=
  (turns_trace demo_limiter (@calm_queue) (@queue_broker) (@queue_client) (@queue_stream)).
Abbreviation queue_world :=
  (turns_world demo_limiter (@calm_queue) (@queue_broker) (@queue_client) (@queue_stream)).
Abbreviation queue_replies :=
  (status_replies demo_limiter (@calm_queue) (@queue_client) (@queue_stream)).
Abbreviation queue_fits :=
  (turns_fit demo_limiter (@calm_queue) (@queue_broker) (@queue_client) (@queue_stream)).

Definition again_turns : list turn :=
  [Session (mkShift demo_worker CtxRun 1); AtGateway (REST_GetTaskStatus "t-1" again_get);
   Idle Hour; Session (mkShift demo_worker CtxRun 9)].
Definition again_ds : list (KMessage * svc_trace) := deliveries (queue_trace again_turns again_site).

Example again_calls : map (fun d => length (handler_calls d.2)) again_ds = [2; 0; 0; 0]%nat.
Proof. vm_compute. done. Qed.


Definition again_route : prog SvcE (option error) :=
  route (NewDispatcher false) CtxRun (mkMessage TopicPending "t-1" json_msg.(Value) 3 []).
Definition again_routed : site mem queue :=
  run_world (svc_env demo_limiter (@calm_queue)) again_route again_site.

Lemma routed_task_runs_once_witness :
  exists ds1 m t ds2, deliveries (queue_trace again_turns again_routed) = ds1 ++ (m, t) :: ds2 /\
    handler_calls t <> [] /\ once "t-1" ds1 t ds2.
Proof.
  destruct (@routed_task_runs_once ascii_tables plain_texts mem mem_redis mem_laws demo_limiter _
    (@calm_queue) (@queue_broker) (@queue_client) (@queue_stream) (NewDispatcher false) CtxRun
    (mkMessage TopicPending "t-1" json_msg.(Value) 3 []) again_site json_demo json_msg.(Value)
    again_turns again_get)
    as (ds1 & m & t & ds2 & Hds & _ & Hcalls & _ & _ & Honce & _).
  - exact demo_limiter_sane.
  - apply again_ready.
  - vm_compute. reflexivity.
  - vm_compute. reflexivity.
  - vm_compute. reflexivity.
  - split; [eexists; vm_compute; reflexivity|]. split; [vm_compute; repeat constructor|].
    split; [exact I|]. split; [eexists; vm_compute; reflexivity|exact I].
  - apply (bool_decide_unpack _). vm_compute. exact I.
  - apply (bool_decide_unpack _). vm_compute. exact I.
  - exists ds1, m, t, ds2. split; [exact Hds|]. by split.
Defined.
