(* ===== verification/Archive.v ===== *)
(** * PostgreSQL behind the services

    The site of Impl.v with PostgreSQL as a part of it instead of an arbitrary
    outside: the statements of Postgres.v on its tables.  What the services'
    calls do to the row of one task, and what a status request finds once
    Redis has forgotten the task. *)

From S2P Require Import Prelude Prog GoStrings Domain GoTime Json GoFloat Effects Retry Handlers.
From S2P Require Import Kafka Worker Fakes WorkerSpec Redis RedisFake RedisStore RateLimiter Postgres.
From S2P Require Import Gateway GatewaySpec WellTyped Impl Stack.

Set Default Proof Using "Type*".

(** ** The database as a part of the site *)

Section Parts.
Context `{PgTypes} (rows_by_status : db -> string -> Z -> list task_row).
Context {R : Type} (rest : forall X, ImplE X -> R -> X * Duration * R).

(** A call on the pool; [pg_clock] and [pg_ids] of the connection are not
    used here, the clock and the identifiers being the host's. *)
Definition pg_call {X} (e : PgE X) : pg_net -> X * pg_net :=
  repo_env rows_by_status _ (RepoPg e).

(** PostgreSQL answers its calls and takes the time [rest] says. *)
Definition with_pg : forall X, ImplE X -> pg_net * R -> X * Duration * (pg_net * R) := fun X e =>
  match e in ImplE X return pg_net * R -> X * Duration * (pg_net * R) with
  | ImplPg e => fun '(n, s) =>
      let '(x, n') := pg_call e n in
      let '(_, d, s') := rest _ (ImplPg e) s in (x, d, (n', s'))
  | e => fun '(n, s) => let '(x, d, s') := rest _ e s in (x, d, (n, s'))
  end.

(** The clients of the gateway do not reach the database. *)
Definition beside {E : Type -> Type} (f : forall X, E X -> R -> X * R)
  : forall X, E X -> pg_net * R -> X * (pg_net * R) := fun X e '(n, s) =>
  let '(x, s') := f X e s in (x, (n, s')).
End Parts.

(** ** One row *)

Section Row.
Context `{PgTypes}.

(** The row [Create] inserts for a task. *)
Definition inserted (u doc : string) (t : Task.t) : task_row :=
  mkTaskRow u t.(Task.Type_) doc t.(Task.Status_) t.(Task.Priority) t.(Task.Attempts)
    t.(Task.MaxRetries) (pg_time t.(Task.CreatedAt)) (pg_time t.(Task.UpdatedAt))
    (opt_time t.(Task.ScheduledAt)) None.

(** The row with another status. *)
Definition restated (r : task_row) (s : Status) (updated : Time) (completed : option Time)
  : task_row :=
  mkTaskRow r.(t_id) r.(t_type) r.(t_payload) s r.(t_priority) r.(t_attempts) r.(t_max_retries)
    r.(t_created_at) updated r.(t_scheduled_at) completed.

(** What is known of the row of [u]: none, or as it was inserted but for its
    status and the times that go with it. *)
Definition row_at (u : string) (o : option (task_row * Status)) (d : db) : Prop :=
  match o with
  | None => d.(tasks) !! u = None
  | Some (r, s) => exists updated completed,
      d.(tasks) !! u = Some (restated r s updated completed) /\ r.(t_id) = u /\
      (is_Some completed <-> IsTerminal s = true)
  end.

(** What a status update makes of it. *)
Definition restate (u : string) (o : option (task_row * Status))
    (x : string * Status * option error) : option (task_row * Status) :=
  match x, o with
  | (id, s, None), Some (r, _) => if decide (pg_uuid id = Some u) then Some (r, s) else o
  | _, _ => o
  end.

(** What a call makes of it. *)
Definition row_after (u : string) (o : option (task_row * Status)) (ev : event SvcE)
  : option (task_row * Status) :=
  match creation ev, repo_write ev with
  | Some (t, None), _ =>
      match pg_uuid t.(Task.ID), pg_jsonb t.(Task.Payload) with
      | Some u', Some doc =>
          if decide (u' = u) then Some (inserted u doc t, t.(Task.Status_)) else o
      | _, _ => o
      end
  | _, Some x => restate u o x
  | _, _ => o
  end.

Definition rows_after (u : string) (tr : svc_trace) (o : option (task_row * Status)) :=
  foldl (row_after u) o tr.

(** Tasks are created open. *)
Definition open_creation (ev : event SvcE) : Prop :=
  match creation ev with Some (t, _) => IsTerminal t.(Task.Status_) = false | None => True end.

Lemma open_creations tr :
  Forall (fun x => IsTerminal x.1.(Task.Status_) = false) (creations tr) ->
  Forall open_creation tr.
Proof.
  unfold creations. induction tr as [|ev tr IH]; [done|]. cbn. intros Hall.
  constructor; [|apply IH]; destruct (creation ev) as [[t o]|] eqn:Hc; unfold open_creation;
    rewrite ?Hc; by try apply Forall_cons in Hall as [??].
Qed.

(** So do both submissions of the gateway: the condition under which the
    repository keeps its integrity ([all_creates_open]). *)
Definition open_call (ev : event GwE) : Prop :=
  match ev with
  | @Ev _ X e x =>
      match e in GwE X return X -> Prop with
      | GwSvc e => fun x => open_creation (Ev e x)
      | _ => fun _ => True
      end x
  end.

Lemma submissions_create_open `{UnicodeTables, TaskCodec} r ctx req :
  only open_call (REST_SubmitTask r) /\ only open_call (GRPC_SubmitTask ctx req).
Proof. unfold REST_SubmitTask, GRPC_SubmitTask, writeError. split; only_calls. Qed.

(** Without insertions only the updates count. *)
Lemma rows_after_updates u tr o :
  creations tr = [] -> rows_after u tr o = foldl (restate u) o (repo_writes tr).
Proof.
  unfold rows_after, creations, repo_writes. revert o. induction tr as [|ev tr IH]; intros o; [done|].
  cbn. unfold row_after at 2. destruct (creation ev) as [[]|]; [done|]. intros Htr.
  destruct (repo_write ev); by apply IH.
Qed.

(** One insertion and no update. *)
Lemma rows_after_creation u tr t o doc :
  creations tr = [(t, None)] -> repo_writes tr = [] ->
  pg_uuid t.(Task.ID) = Some u -> pg_jsonb t.(Task.Payload) = Some doc ->
  rows_after u tr o = Some (inserted u doc t, t.(Task.Status_)).
Proof.
  intros Hc Hw Hu Hd. revert o Hc Hw. unfold rows_after, creations, repo_writes.
  induction tr as [|ev tr IH]; intros o; [done|]. cbn. unfold row_after at 2.
  destruct (creation ev) as [[t' [|]]|]; [done| |].
  - intros [= -> Hc] Hw. rewrite Hu, Hd, decide_True by done.
    pose proof (rows_after_updates u tr) as Hrest. unfold rows_after, creations, repo_writes in Hrest.
    rewrite Hrest by done. by destruct (repo_write ev); [done|rewrite Hw].
  - intros Hc. destruct (repo_write ev); [done|]. by apply IH.
Qed.

(** A status update by a call that arrives. *)
Lemma update_row u o id s now d :
  row_at u o d ->
  let q := UpdateTask s now (if IsTerminal s then Some now else None) id in
  row_at u (match exec_stmt q d, o with
            | Ok _, Some (r, s0) => if decide (pg_uuid id = Some u) then Some (r, s) else o
            | _, _ => o
            end) (stmt_world q d).
Proof.
  intros Hrow q. unfold stmt_world, q. cbn [exec_stmt].
  destruct (pg_uuid id) as [u'|] eqn:Hu; [|by destruct o as [[]|]].
  destruct (pg_varchar 50 s); [|by destruct o as [[]|]].
  destruct (d.(tasks) !! u') as [row|] eqn:Hl.
  - destruct o as [[r s0]|]; cbn in *.
    + destruct Hrow as (upd & comp & Hd & Hid & Hc). case_decide as Hd'.
      * injection Hd' as ->. rewrite Hd in Hl. injection Hl as <-. cbn.
        rewrite lookup_insert_eq. eexists _, _. split; [by rewrite <- Hid|]. split; [done|].
        rewrite opt_time_some. destruct (IsTerminal s); split; try done; intros [? [=]].
      * cbn. rewrite lookup_insert_ne by congruence. eauto.
    + rewrite lookup_insert_ne; [done|]. intros ->. by rewrite Hrow in Hl.
  - destruct o as [[r s0]|]; cbn in *; [|done].
    destruct Hrow as (upd & comp & Hd & Hid & Hc).
    rewrite decide_False by (intros [= ->]; by rewrite Hd in Hl). by eexists _, _.
Qed.

(** An insertion. *)
Lemma insert_row u o t d :
  row_at u o d -> IsTerminal t.(Task.Status_) = false ->
  let q := InsertTask t.(Task.ID) t.(Task.Type_) t.(Task.Payload) t.(Task.Status_)
    t.(Task.Priority) t.(Task.Attempts) t.(Task.MaxRetries) t.(Task.CreatedAt)
    t.(Task.UpdatedAt) t.(Task.ScheduledAt) in
  row_at u (match exec_stmt q d, pg_uuid t.(Task.ID), pg_jsonb t.(Task.Payload) with
            | Ok _, Some u', Some doc =>
                if decide (u' = u) then Some (inserted u doc t, t.(Task.Status_)) else o
            | _, _, _ => o
            end) (stmt_world q d).
Proof.
  intros Hrow Hopen q. unfold stmt_world, q. cbn [exec_stmt].
  destruct (pg_uuid (Task.ID t)) as [u'|]; [|done].
  destruct (pg_jsonb (Task.Payload t)) as [doc|]; [|done].
  destruct (_ && _); [|done]. destruct (d.(tasks) !! u') as [row|] eqn:Hl; [done|].
  case_decide as Hd.
  - subst u'. cbn. rewrite lookup_insert_eq. eexists _, None. split; [by apply f_equal|].
    split; [done|]. rewrite Hopen. by split; [intros []|].
  - destruct o as [[r s]|]; cbn in *; by rewrite lookup_insert_ne.
Qed.

(** An execution record leaves the tasks alone. *)
Lemma record_row u o d id tid wid att st ms err at_ :
  row_at u o d -> row_at u o (stmt_world (InsertExecution id tid wid att st ms err at_) d).
Proof.
  intros Hrow. unfold stmt_world. destruct (exec_stmt _ d) as [d'|e] eqn:He; [|done].
  assert (d'.(tasks) = d.(tasks)) as Ht by (cbn in He; repeat (case_match; simplify_eq); done).
  unfold row_at. by rewrite Ht.
Qed.
End Row.

(** ** The calls of a service *)

Section Site.
Context `{UnicodeTables, TaskCodec} `{RedisServer W, !RedisLaws W} (lim : slidingWindowLimiter).
Context `{PgTypes} (rows_by_status : db -> string -> Z -> list task_row).
Context {R : Type} (rest : forall X, ImplE X -> R -> X * Duration * R).
Implicit Types (w : site W (pg_net * R)).

Abbreviation outside_env := (with_pg rows_by_status rest).
Abbreviation site_env := (svc_env lim outside_env).

Definition database w : db := w.(elsewhere).1.(pg_db).
Definition pg_clean w : Prop := w.(elsewhere).1.(pg_faults) = [].

(** The connection answers, and the row of [u] is as [o] says. *)
Definition archived u o w : Prop := pg_clean w /\ row_at u o (database w).

Definition not_pg {X} (e : ImplE X) : Prop := match e with ImplPg _ => False | _ => True end.

Lemma impl_not_pg {X} (e : ImplE X) w :
  not_pg e -> (impl_env outside_env X e w).2.(elsewhere).1 = w.(elsewhere).1.
Proof.
  destruct e; intros Hn; [by cbn; destruct (redis_env _ _ _)|done|..];
    unfold impl_env, outside; cbn; destruct w as [n [pn s]]; cbn;
    by destruct (rest _ _ s) as [[x d] s'].
Qed.

Lemma quiet_archived {A} u o (p : prog ImplE A) w :
  calls (@not_pg) p -> archived u o w -> archived u o (run_world (impl_env outside_env) p w).
Proof.
  apply run_invariant. intros X e w' He. unfold archived, pg_clean, database.
  by rewrite impl_not_pg.
Qed.

(** One statement. *)
Lemma exec_archived u o ctx q w :
  archived u o w ->
  let y := impl_env outside_env _ (ImplPg (PgExec ctx q)) w in
  y.1 = match exec_stmt q (database w) with Ok _ => None | Err e => Some e end /\
  pg_clean y.2 /\ database y.2 = stmt_world q (database w).
Proof.
  intros [Hc _]. destruct w as [n [pn s]]. unfold pg_clean, database in *. cbn in Hc |- *.
  unfold impl_env, outside, pg_call. cbn -[exec_stmt]. unfold pg_exec, pop_fault. rewrite Hc.
  cbn -[exec_stmt]. destruct (rest _ _ s) as [[x d] s']. by destruct (exec_stmt q (pg_db pn)).
Qed.

Lemma call_archived {X} (e : ImplE X) u o w :
  not_pg e -> archived u o w -> archived u o (impl_env outside_env X e w).2.
Proof. intros Hn. unfold archived, pg_clean, database. by rewrite impl_not_pg. Qed.

(** A query. *)
Definition pg_query {X} (e : PgE X) : Prop := match e with PgExec _ _ => False | _ => True end.
Lemma read_archived {X} (e : PgE X) u o w :
  pg_query e -> archived u o w -> archived u o (impl_env outside_env _ (ImplPg e) w).2.
Proof.
  intros Hq Ha. destruct w as [n [pn s]]. unfold archived, pg_clean, database in *. cbn in Ha.
  unfold impl_env, outside, pg_call.
  destruct e as [|ctx id|ctx st k]; [done|..]; cbn; unfold pg_read, pop_fault;
    rewrite (proj1 Ha); cbn; by destruct (rest _ _ s) as [[x d] s'].
Qed.

(** Calls to the host between the statements. *)
Ltac host_calls :=
  repeat match goal with
  | Ha : archived ?u ?o ?w |- context [impl_env ?re _ (ImplSys ?e) ?w] =>
      let Ha1 := fresh "Ha" in
      pose proof (call_archived (ImplSys e) u o w I Ha) as Ha1; clear Ha; rename Ha1 into Ha;
      destruct (impl_env re _ (ImplSys e) w) as [? ?]; cbn [fst snd] in *
  end.

(** The operations of the repository. *)
Lemma repo_archived {X} (e : RepoE X) u o w :
  let ev := Ev (OnRepo e) (site_env X (OnRepo e) w).1 in
  open_creation ev -> archived u o w ->
  archived u (row_after u o ev) (site_env X (OnRepo e) w).2 /\
  (forall id s x, repo_write ev = Some (id, s, x) ->
     is_Some (pg_uuid id) -> pg_varchar 50 s = true -> x = None) /\
  (forall t, creation ev = Some (t, None) -> is_Some (pg_jsonb t.(Task.Payload))).
Proof.
  intros ev Hopen Ha. subst ev. unfold svc_env, handle_by, run_result, run_world in *.
  destruct e as [ctx t|ctx id s|ctx x|ctx id|ctx s n]; cbn -[impl_env] in *.
  - match goal with |- context [impl_env _ _ (ImplPg (PgExec _ ?q)) w] =>
      pose proof (exec_archived u o ctx q w Ha) as (Hx & Hc & Hd) end.
    destruct (impl_env _ _ _ w) as [y w']. cbn [fst snd] in *. subst y.
    pose proof (insert_row u o t _ (proj2 Ha) Hopen) as Hrow. cbn zeta in Hrow.
    rewrite <- Hd in Hrow. clear Hd. unfold archived.
    destruct (exec_stmt _ _) as [d'|err] eqn:He; [|done]. split; [done|]. split; [done|].
    intros t' [= <-]. cbn [exec_stmt] in He. destruct (pg_uuid _), (pg_jsonb _); done.
  - pose proof (call_archived (ImplSys Now) u o w I Ha) as Ha1.
    destruct (impl_env _ _ (ImplSys Now) w) as [now w1]. cbn [fst snd] in *.
    match goal with |- context [impl_env _ _ (ImplPg (PgExec _ ?q)) w1] =>
      pose proof (exec_archived u o ctx q w1 Ha1) as (Hx & Hc & Hd) end.
    destruct (impl_env _ _ _ w1) as [y w']. cbn [fst snd] in *. subst y.
    pose proof (update_row u o id s now _ (proj2 Ha1)) as Hrow. cbn zeta in Hrow.
    rewrite <- Hd in Hrow. clear Hd. unfold archived. destruct (exec_stmt _ _) as [d'|err] eqn:He; cbn.
    + split; [|split; [by intros ??? [= <- <- <-]|done]]. split; [done|]. by destruct o as [[r s0]|].
    + split; [split; [done|]; by destruct o as [[r s0]|]|]. split; [|done].
      intros ??? [= <- <- <-] [u' Hu] Hs. cbn [exec_stmt] in He. rewrite Hu, Hs in He.
      by destruct (tasks _ !! u').
  - split; [|done]. match goal with |- archived _ ?o' _ => change o' with o end.
    unfold repository_RecordExecution.
    destruct (String.eqb _ _), (IsZero _); cbn -[impl_env]; host_calls;
      (match goal with |- context [impl_env _ _ (ImplPg (PgExec _ ?q)) ?w] =>
         pose proof (exec_archived u o ctx q w ltac:(assumption)) as (_ & Hc & Hd) end;
       destruct (impl_env _ _ _ _) as [y w']; cbn [fst snd] in *;
       destruct y; (split; [done|]); cbn; rewrite Hd; apply record_row; by apply Ha).
  - split; [|done]. match goal with |- archived _ ?o' _ => change o' with o end.
    pose proof (read_archived (PgTaskById ctx id) u o w I Ha) as Ha1.
    by destruct (impl_env _ _ _ w) as [[]].
  - split; [|done]. match goal with |- archived _ ?o' _ => change o' with o end.
    pose proof (read_archived (PgTasksByStatus ctx s n) u o w I Ha) as Ha1.
    by destruct (impl_env _ _ _ w) as [[[]|]].
Qed.

(** What a call of a service does to a row, and how it answers. *)
Lemma step_archived {X} (e : SvcE X) u o w :
  let ev := Ev e (site_env X e w).1 in
  open_creation ev -> archived u o w ->
  archived u (row_after u o ev) (site_env X e w).2 /\
  (forall id s x, repo_write ev = Some (id, s, x) ->
     is_Some (pg_uuid id) -> pg_varchar 50 s = true -> x = None) /\
  (forall t, creation ev = Some (t, None) -> is_Some (pg_jsonb t.(Task.Payload))).
Proof.
  intros ev Hopen Ha. subst ev.
  destruct e as [X e|X e|X e|X e|X e|X e|X e|h ctx task].
  - split; [|done]. apply quiet_archived; [|done]. by apply calls_lift.
  - split; [|done]. apply quiet_archived; [|done]. by apply calls_lift; intros ? [].
  - by apply repo_archived.
  - split; [|by destruct e]. apply quiet_archived; [|done]. by apply calls_lift.
  - split; [|done]. by apply (quiet_archived u o (trigger e)).
  - split; [|done]. by apply (quiet_archived u o (trigger e)).
  - split; [|done]. by apply (quiet_archived u o (trigger e)).
  - split; [|done]. by apply (quiet_archived u o (Vis (ImplHandle h ctx task) Ret)).
Qed.

Lemma run_archived {A} (p : prog SvcE A) u o w :
  Forall open_creation (run_trace site_env p w) -> archived u o w ->
  archived u (rows_after u (run_trace site_env p w) o) (run_world site_env p w) /\
  Forall (fun x => is_Some (pg_uuid x.1.1) -> pg_varchar 50 x.1.2 = true -> x.2 = None)
    (repo_writes (run_trace site_env p w)).
Proof.
  unfold run_trace, run_world, repo_writes. revert o w.
  induction p as [y|X e k IH]; intros o w Hopen Ha; [by split; [|constructor]|].
  cbn [run] in *. pose proof (step_archived e u o w) as Hstep.
  destruct (site_env X e w) as [x w1]. specialize (IH x (row_after u o (Ev e x)) w1).
  destruct (run site_env (k x) w1) as [[y t] w2]. cbn [fst snd omap list_omap] in *.
  apply Forall_cons in Hopen as [Ho Hos]. destruct Hstep as [Ha1 Hx]; [done..|].
  destruct IH as [Ha2 Hxs]; [done..|]. split; [done|].
  destruct (repo_write (Ev e x)) as [[[id s] z]|]; [|done]. constructor; [by apply Hx|done].
Qed.

(** ** A task without a row

    Its execution records are refused by the foreign key and its status
    updates change no row: the tables stay as they are. *)

Definition about_only (u : string) (ev : event SvcE) : Prop :=
  creation ev = None /\
  (forall x, exec_record ev = Some x -> pg_uuid x.(TaskExecution.TaskID) = Some u) /\
  (forall x, repo_write ev = Some x -> pg_uuid x.1.1 = Some u).

Lemma about_projections u tr :
  creations tr = [] ->
  Forall (fun x => pg_uuid x.(TaskExecution.TaskID) = Some u) (exec_records tr) ->
  Forall (fun x => pg_uuid x.1.1 = Some u) (repo_writes tr) ->
  Forall (about_only u) tr.
Proof.
  unfold creations, exec_records, repo_writes. induction tr as [|ev tr IH]; [done|]. cbn.
  destruct (creation ev) eqn:Hc; [done|]. intros Hcs Hx Hw. constructor.
  - split; [done|]. split.
    + intros x He. rewrite He in Hx. by apply Forall_inv in Hx.
    + intros x He. rewrite He in Hw. by apply Forall_inv in Hw.
  - apply IH; [done|destruct (exec_record ev); [by apply Forall_inv_tail in Hx|done]
      |destruct (repo_write ev); [by apply Forall_inv_tail in Hw|done]].
Qed.

Lemma quiet_database {A} (p : prog ImplE A) w :
  calls (@not_pg) p -> database (run_world (impl_env outside_env) p w) = database w.
Proof.
  intros Hp. apply (run_invariant (@not_pg) (impl_env outside_env)
    (fun w' => database w' = database w) p w); [|done|done].
  intros X e w' He. unfold database. by rewrite impl_not_pg.
Qed.

Lemma orphan_stmt u q (d : db) :
  d.(tasks) !! u = None ->
  match q with
  | InsertTask _ _ _ _ _ _ _ _ _ _ => False
  | UpdateTask _ _ _ id => pg_uuid id = Some u
  | InsertExecution _ task_id _ _ _ _ _ _ => pg_uuid task_id = Some u
  end -> stmt_world q d = d.
Proof.
  intros Hno Hq. unfold stmt_world. destruct q; cbn; [done|rewrite Hq, Hno|rewrite Hq, Hno];
    by repeat case_match; simplify_eq.
Qed.

Lemma query_database {X} (e : PgE X) w :
  pg_query e -> database (impl_env outside_env _ (ImplPg e) w).2 = database w.
Proof.
  intros Hq. destruct w as [n [pn s]]. unfold database, impl_env, outside, pg_call.
  destruct e as [|ctx id|ctx st k]; [done|..]; cbn; unfold pg_read, pop_fault;
    destruct (pg_faults pn) as [|[] ?]; cbn; by destruct (rest _ _ s) as [[x d] s'].
Qed.

Lemma repo_orphan {X} (e : RepoE X) u w :
  about_only u (Ev (OnRepo e) (site_env X (OnRepo e) w).1) -> archived u None w ->
  database (site_env X (OnRepo e) w).2 = database w.
Proof.
  unfold about_only, svc_env, handle_by, run_result, run_world. intros (Hc & Hx & Hw) Ha.
  assert (forall Y (e : SysE Y) w', database (impl_env outside_env _ (ImplSys e) w').2 = database w')
    as Hsys by (intros Y e' w'; unfold database; by rewrite impl_not_pg).
  destruct e as [ctx t|ctx id s|ctx x|ctx id|ctx s n]; cbn -[impl_env] in *.
  - done.
  - pose proof (Hsys _ Now w) as Hd1.
    pose proof (call_archived (ImplSys Now) u None w I Ha) as Ha1.
    destruct (impl_env _ _ (ImplSys Now) w) as [now w1]. cbn [fst snd] in *.
    match goal with |- context [impl_env _ _ (ImplPg (PgExec _ ?q)) w1] =>
      pose proof (exec_archived u None ctx q w1 Ha1) as (_ & _ & Hd) end.
    destruct (impl_env _ _ _ w1) as [y w']. cbn [fst snd] in *.
    rewrite (orphan_stmt u) in Hd; [|apply Ha1|by eapply (Hw (_, _, _))].
    destruct y; cbn; congruence.
  - unfold repository_RecordExecution.
    destruct (String.eqb _ _), (IsZero _); cbn -[impl_env];
      (repeat match goal with |- context [impl_env ?re _ (ImplSys ?e) ?w'] =>
         pose proof (Hsys _ e w'); pose proof (call_archived (ImplSys e) u None w' I Ha);
         clear Ha; destruct (impl_env re _ (ImplSys e) w') as [? ?]; cbn [fst snd] in *;
         rename select (archived _ _ _) into Ha end);
      (match goal with |- context [impl_env _ _ (ImplPg (PgExec _ ?q)) ?w'] =>
         pose proof (exec_archived u None ctx q w' Ha) as (_ & _ & Hd) end;
       destruct (impl_env _ _ _ _) as [y w']; cbn [fst snd] in *;
       rewrite (orphan_stmt u) in Hd by (apply Ha || by apply Hx);
       destruct y; cbn; congruence).
  - pose proof (query_database (PgTaskById ctx id) w I) as Hd.
    by destruct (impl_env _ _ _ w) as [[]].
  - pose proof (query_database (PgTasksByStatus ctx s n) w I) as Hd.
    by destruct (impl_env _ _ _ w) as [[[]|]].
Qed.

Lemma step_orphan {X} (e : SvcE X) u w :
  about_only u (Ev e (site_env X e w).1) -> archived u None w ->
  archived u None (site_env X e w).2 /\ database (site_env X e w).2 = database w.
Proof.
  intros Hu Ha. split.
  - destruct (step_archived e u None w) as [Ha' _]; [|done|].
    + unfold open_creation. by rewrite (proj1 Hu).
    + unfold row_after in Ha'. rewrite (proj1 Hu) in Ha'.
      by destruct (repo_write _) as [[[? ?] [|]]|].
  - destruct e as [X e|X e|X e|X e|X e|X e|X e|h ctx task];
      [|by destruct e; apply quiet_database, calls_lift; intros ? []|by apply (repo_orphan _ u)|..];
      try (by apply quiet_database, calls_lift).
    + by apply (quiet_database (trigger e)).
    + by apply (quiet_database (trigger e)).
    + by apply (quiet_database (trigger e)).
    + by apply (quiet_database (Vis (ImplHandle h ctx task) Ret)).
Qed.

Lemma run_orphan {A} (p : prog SvcE A) u w :
  Forall (about_only u) (run_trace site_env p w) -> archived u None w ->
  archived u None (run_world site_env p w) /\ database (run_world site_env p w) = database w.
Proof.
  unfold run_trace, run_world. revert w. induction p as [y|X e k IH]; intros w Hall Ha; [done|].
  cbn [run] in *. pose proof (step_orphan e u w) as Hstep.
  destruct (site_env X e w) as [x w1]. specialize (IH x w1).
  destruct (run site_env (k x) w1) as [[y t] w2]. cbn [fst snd] in *.
  apply Forall_cons in Hall as [He Hall]. destruct Hstep as [Ha1 Hd1]; [done..|].
  destruct IH as [Ha2 Hd2]; [done..|]. split; [done|congruence].
Qed.


(** ** What a status request finds when Redis has forgotten *)

Context (client : forall X, HttpE X -> R -> X * R) (stream : forall X, StreamE X -> R -> X * R).

Abbreviation gw_env := (gateway_env lim outside_env (beside client) (beside stream)).
Abbreviation replies := (status_replies lim outside_env (beside client) (beside stream)).

Lemma gateway_archived {A} (p : prog GwE A) u o w :
  Forall open_creation (svc_part (run_trace gw_env p w)) -> archived u o w ->
  archived u (rows_after u (svc_part (run_trace gw_env p w)) o) (run_world gw_env p w) /\
  Forall (fun x => x.2 = None -> is_Some (pg_jsonb x.1.(Task.Payload)))
    (creations (svc_part (run_trace gw_env p w))).
Proof.
  unfold run_trace, run_world, creations. revert o w.
  induction p as [y|X e k IH]; intros o w Hopen Ha; [by split; [|constructor]|].
  destruct e as [X e|X e|X e]; cbn [run gateway_env] in *.
  - pose proof (step_archived e u o w) as Hstep.
    destruct (site_env X e w) as [x w1]. specialize (IH x (row_after u o (Ev e x)) w1).
    destruct (run gw_env (k x) w1) as [[y t] w2]. cbn [fst snd] in *.
    apply Forall_cons in Hopen as [Ho Hos]. destruct Hstep as (Ha1 & _ & Hx); [done..|].
    destruct IH as [Ha2 Hxs]; [done..|]. split; [done|].
    change (svc_part (Ev (GwSvc e) x :: t)) with (Ev e x :: svc_part t). cbn [omap list_omap].
    destruct (creation (Ev e x)) as [[t1 [|]]|]; [by constructor| |done].
    constructor; [by eauto|done].
  - destruct (beside client X e (elsewhere w)) as [x s] eqn:Hb.
    specialize (IH x o (mkSite (redis w) s)).
    destruct (run gw_env (k x) _) as [[y t] w2]. cbn [fst snd] in *. apply IH; [done|].
    destruct w as [n [pn s0]]. cbn in Hb. destruct (client X e s0). by injection Hb as <- <-.
  - destruct (beside stream X e (elsewhere w)) as [x s] eqn:Hb.
    specialize (IH x o (mkSite (redis w) s)).
    destruct (run gw_env (k x) _) as [[y t] w2]. cbn [fst snd] in *. apply IH; [done|].
    destruct w as [n [pn s0]]. cbn in Hb. destruct (stream X e s0). by injection Hb as <- <-.
Qed.

Lemma archived_elapse u o d w : archived u o w -> archived u o (site_elapse d w).
Proof. done. Qed.

(** Redis holds nothing of the store. *)
Definition forgotten w : Prop :=
  w.(redis).(faults) = [] /\ forall sl, srv_view (srv w) (slotKey sl) = None.

Lemma keeps_forgotten t0 a d w :
  keeps t0 a w -> stateTTL <= d -> forgotten (site_elapse d w).
Proof.
  intros [Hf _ _ _ Ht _] Hd. pose proof stateTTL_ok as [Hpos _]. split; [done|].
  intros sl. unfold site_elapse, srv, net_elapse. cbn. rewrite law_elapse by lia.
  destruct (srv_view _ (slotKey sl)) as [e|] eqn:He; [|done].
  destruct (Ht sl e He) as (t & -> & Hle). unfold srv in Hle.
  by rewrite (proj2 (Z.ltb_ge _ _)) by lia.
Qed.

Lemma forgotten_outside {X} (e : ImplE X) w :
  forgotten w -> forgotten (outside outside_env e w).2.
Proof.
  intros [Hf Hv]. unfold outside. destruct (outside_env X e (elsewhere w)) as [[x d] s].
  split; [done|]. intros sl. unfold srv, net_elapse. cbn.
  rewrite law_elapse by lia. fold (srv w). by rewrite Hv.
Qed.

Lemma forgotten_get w sl : forgotten w -> srv_GET (srv w) (slotKey sl) = None.
Proof.
  intros [_ Hv]. rewrite law_GET; unfold is_str, str_at; rewrite ?Hv; done.
Qed.

Lemma forgotten_meta ctx id w :
  forgotten w -> site_env _ (OnStore (GetTaskMeta ctx id)) w = (Err (TaskNotFoundError id), w).
Proof.
  intros Hg. pose proof (forgotten_get w (MetaSlot id) Hg) as Hget. destruct Hg as [Hf _].
  destruct w as [[u fs] x]. cbn in Hf, Hget. subst fs.
  unfold svc_env, handle_by, run_result, run_world. cbn. by rewrite Hget.
Qed.

Lemma forgotten_status ctx id w :
  forgotten w -> site_env _ (OnStore (GetStatus ctx id)) w = (Err (TaskNotFoundError id), w).
Proof.
  intros Hg. pose proof (forgotten_get w (StateSlot id) Hg) as Hget. destruct Hg as [Hf _].
  destruct w as [[u fs] x]. cbn in Hf, Hget. subst fs.
  unfold svc_env, handle_by, run_result, run_world. cbn. by rewrite Hget.
Qed.

Lemma forgotten_row ctx id w :
  forgotten w -> pg_clean w ->
  exists w', forgotten w' /\
    site_env _ (OnRepo (GetByID ctx id)) w = (scanTask (select_task id (database w)), w').
Proof.
  intros Hg Hc. pose proof (forgotten_outside (ImplPg (PgTaskById ctx id)) w Hg) as Hg'.
  eexists. split; [exact Hg'|]. unfold svc_env, handle_by, run_result, run_world.
  cbn -[select_task scanTask]. destruct w as [n [pn s]]. unfold pg_clean, database in *.
  cbn in Hc. unfold outside, pg_call. cbn -[select_task scanTask].
  unfold pg_read, pop_fault. rewrite Hc. cbn -[select_task scanTask].
  by destruct (rest _ _ s) as [[x d] s'].
Qed.

Definition row_task (r : task_row) : Task.t :=
  Task.mk r.(t_id) r.(t_type) (Some r.(t_payload)) r.(t_status) r.(t_priority) r.(t_attempts)
    r.(t_max_retries) r.(t_created_at) r.(t_updated_at) r.(t_scheduled_at) r.(t_completed_at).

Definition status_codes (id : string) (rq : Request) w : list Z :=
  http_codes (run_trace gw_env (REST_GetTaskStatus id rq) w).

(** The row is the reply; without one, the reply is that there is no such
    task. *)
Lemma reply_archived id rq u o w :
  id <> "" -> forgotten w -> archived u o w -> pg_uuid id = Some u ->
  match o with
  | Some (r, s) => exists updated completed, (is_Some completed <-> IsTerminal s = true) /\
      replies id rq w = [BodyStatus (rest_status (row_task (restated r s updated completed)))]
  | None => status_codes id rq w = [StatusNotFound]
  end.
Proof.
  intros Hid Hg [Hc Hrow] Hu.
  pose proof (forgotten_meta rq.(r_ctx) id w Hg) as Hmeta.
  destruct (forgotten_row rq.(r_ctx) id w Hg Hc) as (w' & Hg' & Hget).
  pose proof (forgotten_status rq.(r_ctx) id w' Hg') as Hst.
  unfold status_replies, status_codes, run_trace, REST_GetTaskStatus.
  rewrite (proj2 (String.eqb_neq _ _) Hid). unfold lookup_task, trigger.
  unfold select_task in Hget. rewrite Hu in Hget.
  cbn [mbind prog_bind run]. unfold inj, SubE_GwStore. cbn [gateway_env]. rewrite Hmeta.
  cbn [errors_As_TaskNotFound mbind prog_bind run]. unfold inj, SubE_GwRepo. cbn [gateway_env].
  rewrite Hget. destruct o as [[r s]|]; cbn in Hrow.
  - destruct Hrow as (updated & completed & Hd & _ & Hcomp). exists updated, completed.
    split; [done|]. rewrite Hd. change (scanTask (Ok ?x)) with (Ok (row_task x) : goresult Task.t).
    cbn [mbind prog_bind run mret prog_ret gateway_env]. rewrite Hst.
    cbn [mbind prog_bind run mret prog_ret]. unfold inj, SubE_GwHttp. cbn [gateway_env].
    destruct (beside client _ (SetHeader _ _) _) as [x1 s1]. cbn [gateway_env].
    by destruct (beside client _ (WriteBody _) _) as [x2 s2].
  - rewrite Hrow.
    change (scanTask (Err PgxErrNoRows)) with (Err (TaskNotFoundError "unknown") : goresult Task.t).
    cbn [errors_As_TaskNotFound mbind prog_bind run mret prog_ret gateway_env].
    unfold writeError, trigger. cbn [mbind prog_bind run]. unfold inj, SubE_GwHttp. cbn [gateway_env].
    destruct (beside client _ (SetHeader _ _) _) as [x1 s1]. cbn [gateway_env].
    destruct (beside client _ (WriteHeader _) _) as [x2 s2]. cbn [gateway_env].
    by destruct (beside client _ (WriteBody _) _) as [x3 s3].
Qed.
End Site.
