(* ===== verification/Lifecycle.v ===== *)
(** * The life of a task

    From its submission over REST to the dispatcher, a worker and the reply of
    a status request, first out of Redis and, when Redis has forgotten it, out
    of PostgreSQL: the services of the repository one after the other on one
    site (Impl.v, Archive.v), with the tasks as JSON. *)

From S2P Require Import Prelude Prog GoStrings Domain GoTime Json GoFloat Effects Retry Handlers.
From S2P Require Import Kafka Worker Fakes WorkerSpec Dispatcher Redis RedisFake RedisStore.
From S2P Require Import RateLimiter Postgres Scheduler Gateway GatewaySpec WellTyped Impl Stack Archive Redelivery.

Set Default Proof Using "Type*".

Section Lifecycle.
Context `{UnicodeTables, JsonTexts} `{RedisServer W, !RedisLaws W} (lim : slidingWindowLimiter).
Context `{PgTypes} (rows_by_status : db -> string -> Z -> list task_row).
Context {R : Type} (rest : forall X, ImplE X -> R -> X * Duration * R).
Context (client : forall X, HttpE X -> R -> X * R) (stream : forall X, StreamE X -> R -> X * R).
#[local] Existing Instance JsonTaskCodec | 0.
Implicit Types (w : site W (pg_net * R)).

Abbreviation outside_env := (with_pg rows_by_status rest).
Abbreviation site_env := (svc_env lim outside_env).
Abbreviation gw_env := (gateway_env lim outside_env (beside client) (beside stream)).
Abbreviation replies := (status_replies lim outside_env (beside client) (beside stream)).
Abbreviation codes := (status_codes lim rows_by_status rest client stream).

(** The status column takes the statuses of the life cycle. *)
Definition statuses_fit : Prop := forall s, s ∈ lifecycle -> pg_varchar 50 s = true.

(** ** After the worker *)

(** What the worker leaves of a row. *)
Lemma worked_archived u o wk ctx msg task w now :
  statuses_fit -> unmarshalTask msg.(Value) = Ok task -> archived u o w ->
  pg_uuid task.(Task.ID) = Some u ->
  let tr := worked lim outside_env wk ctx msg w in
  handler_calls tr <> [] ->
  archived u (option_map (fun x => (x.1, (finished task tr now).(Task.Status_))) o)
    (after_work lim outside_env wk ctx msg w).
Proof.
  intros Hfit Hu Ha Hid tr Hcalls. unfold worked, after_work in *.
  pose proof (run_exec site_env (processMessage wk ctx msg) w) as Hex.
  destruct (ran_archived _ _ _ _ _ _ now Hu Hex Hcalls) as (Hcre & _ & o' & Hrep).
  destruct (run_archived lim rows_by_status rest (processMessage wk ctx msg) u o w) as [Ha' Hok];
    [apply open_creations; by rewrite Hcre|done|].
  rewrite (rows_after_updates _ _ _ Hcre), Hrep in Ha'. rewrite Hrep in Hok.
  apply Forall_inv in Hok. cbn in Hok.
  set (s := Task.Status_ _) in Hok, Ha'. change (Task.Status_ _) with s.
  rewrite Hok in Ha'; [|by rewrite Hid|apply Hfit; unfold s, finished; repeat case_match; cbn; set_solver].
  destruct o as [[r s0]|]; cbn in Ha' |- *; [|done]. by rewrite decide_True in Ha'.
Qed.

(** Once Redis has forgotten a task, a status request for it is
    answered from PostgreSQL: with the verdict of its execution and a time of
    completion, but with the number of attempts it was inserted with, however
    many were made; nothing ever writes that column. *)
Lemma archived_reply wk ctx msg task w u r s0 rq d :
  statuses_fit -> unmarshalTask msg.(Value) = Ok task -> task.(Task.ID) <> "" ->
  pg_uuid task.(Task.ID) = Some u -> store_ready w -> archived u (Some (r, s0)) w ->
  let tr := worked lim outside_env wk ctx msg w in
  handler_calls tr <> [] -> 24 * Hour <= d ->
  exists s, replies task.(Task.ID) rq (site_elapse d (after_work lim outside_env wk ctx msg w))
      = [BodyStatus s] /\
    s.(ts_TaskID) = u /\ s.(ts_Type) = r.(t_type) /\ s.(ts_Status) = verdict tr /\
    s.(ts_Attempts) = r.(t_attempts) /\ is_Some s.(ts_CompletedAt).
Proof.
  intros Hfit Hu Hne Hid Hready Ha tr Hcalls Hd.
  pose proof (keeps_ready outside_env w Hready) as Hk.
  destruct (worked_keeps lim outside_env _ _ wk ctx msg task w Hu Hk Hcalls)
    as (now & a' & _ & Hk' & _).
  pose proof (worked_archived _ _ wk ctx msg task w now Hfit Hu Ha Hid Hcalls) as Ha'.
  apply (keeps_forgotten rest client stream _ _ d) in Hk'; [|done].
  destruct (reply_archived lim rows_by_status rest client stream task.(Task.ID) rq u _ _ Hne Hk'
    Ha' Hid) as (upd & comp & Hcomp & Hr).
  cbn [fst] in Hr, Hcomp. fold tr in Hr, Hcomp. rewrite verdict_finished in Hr, Hcomp.
  eexists. split; [exact Hr|]. destruct Ha' as [_ (? & ? & _ & Hrid & _)]. cbn.
  split_and!; [done..|]. by apply Hcomp, verdict_terminal.
Qed.

(** A task without a row, as those of the scheduler: it is unknown once Redis
    has forgotten it. *)
Lemma result_forgotten wk ctx msg task w u rq d :
  statuses_fit -> unmarshalTask msg.(Value) = Ok task -> task.(Task.ID) <> "" ->
  pg_uuid task.(Task.ID) = Some u -> store_ready w -> archived u None w ->
  let tr := worked lim outside_env wk ctx msg w in
  handler_calls tr <> [] -> 24 * Hour <= d ->
  codes task.(Task.ID) rq (site_elapse d (after_work lim outside_env wk ctx msg w))
    = [StatusNotFound].
Proof.
  intros Hfit Hu Hne Hid Hready Ha tr Hcalls Hd.
  pose proof (keeps_ready outside_env w Hready) as Hk.
  destruct (worked_keeps lim outside_env _ _ wk ctx msg task w Hu Hk Hcalls)
    as (now & a' & _ & Hk' & _).
  pose proof (worked_archived _ _ wk ctx msg task w now Hfit Hu Ha Hid Hcalls) as Ha'.
  apply (keeps_forgotten rest client stream _ _ d) in Hk'; [|done].
  exact (reply_archived lim rows_by_status rest client stream task.(Task.ID) rq u _ _ Hne Hk' Ha' Hid).
Qed.

(** ** From the gateway on *)

(** What an accepted submission leaves behind. *)
Lemma submitted_site rq w task o :
  let tr := run_trace gw_env (REST_SubmitTask rq) w in
  http_codes tr = [StatusAccepted] -> store_ready w -> creations (svc_part tr) = [(task, o)] ->
  exists raw a, publications (svc_part tr) = [(Gateway.pendingTopic, task.(Task.ID), raw, None)] /\
    marshalTask task = Ok raw /\ task.(Task.Status_) = StatusPending /\
    task.(Task.Attempts) = 0 /\ task.(Task.CompletedAt) = None /\
    keeps (srv_now (srv w)) a (run_world gw_env (REST_SubmitTask rq) w) /\
    a (StateSlot task.(Task.ID)) = Some StatusPending /\ a (MetaSlot task.(Task.ID)) = Some raw /\
    repo_writes (svc_part tr) = [].
Proof.
  intros tr Hcode Hready Hcre.
  pose proof (run_exec gw_env (REST_SubmitTask rq) w) as Hex. fold tr in Hex.
  destruct (accepted_inv rq tr _ Hex Hcode) as (req & id & now & o1 & raw & o2 & Hm & _ & _ & Htr).
  assert (Forall (plain lim) (svc_part tr)) as Hplain by (rewrite Htr; by repeat constructor).
  apply (keeps_ready outside_env) in Hready.
  apply (gateway_keeps lim outside_env (beside client) (beside stream) _ _ _ _ Hplain)
    in Hready as [Hk Hh].
  fold tr in Hk, Hh.
  pose proof (effects_status _ no_slots id StatusPending None Hh) as Hst.
  pose proof (effects_meta _ no_slots (submitted_task req id now) None raw Hh) as Hmeta.
  rewrite Htr in Hst, Hmeta, Hcre |- *. injection Hcre as <- <-.
  exists raw. eexists. split_and!; [done..|exact Hk| | |done];
    rewrite Htr; [by apply Hst|by apply Hmeta].
Qed.

(** C4: a task that was accepted over REST and inserted into
    PostgreSQL, whose message the dispatcher routed and for which a worker
    called the handler, is seen by status requests as PENDING, then QUEUED,
    then finished, and, from 24 hours after the worker on, as the database
    has it, which holds the verdict but no attempts. *)
Theorem task_lifecycle rq w0 task u d1 dp ctx1 m1 d2 wk ctx2 m2 q :
  let tr0 := run_trace gw_env (REST_SubmitTask rq) w0 in
  let w1 := site_elapse d1 (run_world gw_env (REST_SubmitTask rq) w0) in
  let tr1 := run_trace site_env (route dp ctx1 m1) w1 in
  let w2 := site_elapse d2 (run_world site_env (route dp ctx1 m1) w1) in
  let tr2 := worked lim outside_env wk ctx2 m2 w2 in
  let w3 d := site_elapse d (after_work lim outside_env wk ctx2 m2 w2) in
  sane lim -> statuses_fit -> store_ready w0 -> archived u None w0 -> 0 <= d1 -> 0 <= d2 ->
  http_codes tr0 = [StatusAccepted] -> creations (svc_part tr0) = [(task, None)] ->
  wf_task task = true -> years_ok (years task) = true ->
  task.(Task.ID) <> "" -> pg_uuid task.(Task.ID) = Some u ->
  publications (svc_part tr0) = [(TopicPending, task.(Task.ID), m1.(Value), None)] ->
  publications tr1 = [(workerTopic task.(Task.Type_), task.(Task.ID), m2.(Value), None)] ->
  handler_calls tr2 <> [] -> years_ok (clock_readings tr2) = true ->
  (srv_now (srv w1) < srv_now (srv w0) + 24 * Hour ->
   replies task.(Task.ID) q w1 = [BodyStatus (rest_status task)]) /\
  (srv_now (srv w2) < srv_now (srv w0) + 24 * Hour ->
   replies task.(Task.ID) q w2 = [BodyStatus (rest_status (Task.set_Status StatusQueued task))]) /\
  (forall d, 0 <= d -> srv_now (srv (w3 d)) < srv_now (srv w2) + 24 * Hour ->
   exists now, replies task.(Task.ID) q (w3 d) =
     [BodyStatus (rest_status (finished task tr2 now))]) /\
  (forall d, 24 * Hour <= d ->
   exists s, replies task.(Task.ID) q (w3 d) = [BodyStatus s] /\ s.(ts_TaskID) = u /\
     s.(ts_Type) = task.(Task.Type_) /\ s.(ts_Status) = verdict tr2 /\
     s.(ts_Attempts) = 0 /\ is_Some s.(ts_CompletedAt)).
Proof.
  intros tr0 w1 tr1 w2 tr2 w3 Hsane Hfit Hready Harch Hd1 Hd2 Hcode Hcre Hwf Hyears Hid Huuid
    Hpub0 Hpub1 Hcalls Hclock.
  destruct (submitted_site rq w0 task None Hcode Hready Hcre)
    as (raw & a1 & Hpub & Hm & Hpend & Hatt & Hcompl & Hk1 & Hst1 & Hmeta1 & Hrep0).
  fold tr0 in Hpub. rewrite Hpub in Hpub0. injection Hpub0 as Hraw.
  pose proof (unmarshal_marshal _ _ Hwf Hm) as Hun.
  apply (keeps_site_elapse outside_env _ _ d1 _ Hd1) in Hk1. fold w1 in Hk1.
  assert (unmarshalTask m1.(Value) = Ok task) as Hu1 by (by rewrite <- Hraw).
  destruct (routed_site lim outside_env _ a1 dp ctx1 m1 w1 task m2.(Value) Hsane Hk1 Hu1 Hpub1)
    as (a2 & Hm2 & Hk2 & Hst2 & Hmeta2 & Hcre1 & Hrep1).
  apply (keeps_site_elapse outside_env _ _ d2 _ Hd2) in Hk2. fold w2 in Hk2.
  rewrite Hmeta1 in Hmeta2.
  assert (unmarshalTask m2.(Value) = Ok task) as Hu2 by (by rewrite Hm2).
  pose proof (ready_keeps outside_env _ _ _ Hk2) as Hready2.
  assert (archived u (Some (inserted u (default "" (pg_jsonb task.(Task.Payload))) task,
    StatusPending)) w2) as Ha2.
  { destruct (gateway_archived lim rows_by_status rest client stream (REST_SubmitTask rq) u None w0)
      as [Ha1 Hdoc]; [apply open_creations; fold tr0; rewrite Hcre; constructor;
        [cbn; by rewrite Hpend|constructor]|done|].
    fold tr0 in Ha1, Hdoc. rewrite Hcre in Hdoc. 
    destruct (Forall_inv Hdoc eq_refl) as [doc Hdoc']. clear Hdoc. rename Hdoc' into Hdoc. cbn in Hdoc.
    rewrite (rows_after_creation u _ task None doc Hcre Hrep0 Huuid Hdoc) in Ha1.
    rewrite Hdoc. cbn. rewrite Hpend in Ha1.
    destruct (run_archived lim rows_by_status rest (route dp ctx1 m1) u _ w1
      ltac:(apply open_creations; by rewrite Hcre1) Ha1) as [Ha2 _].
    by rewrite (rows_after_updates _ _ _ Hcre1), Hrep1 in Ha2. }
  split_and!.
  - intros Hlt. rewrite (status_reply_kept lim outside_env (beside client) (beside stream) _ _ _ _ q
      _ _ _ Hid Hk1 Hlt Hmeta1 Hun Hst1). do 3 f_equal. destruct task; cbn in *; by subst.
  - intros Hlt. exact (status_reply_kept lim outside_env (beside client) (beside stream) _ _ _ _ q
      _ _ _ Hid Hk2 Hlt Hmeta2 Hun Hst2).
  - intros d Hd Hlt. exact (result_reply lim outside_env (beside client) (beside stream)
      wk ctx2 m2 task w2 d q Hu2 Hyears Hid Hready2 Hcalls Hclock Hd Hlt).
  - intros d Hd. destruct (archived_reply wk ctx2 m2 task w2 u _ _ q d Hfit Hu2 Hid Huuid Hready2 Ha2
      Hcalls Hd) as (s & Hs & Hsid & Hty & Hv & Hat & Hc).
    exists s. rewrite Hat. cbn. by rewrite Hatt.
Qed.

(** ** A task of the scheduler *)

Lemma worked_about wk ctx msg task w u :
  unmarshalTask msg.(Value) = Ok task -> pg_uuid task.(Task.ID) = Some u ->
  let tr := worked lim outside_env wk ctx msg w in
  handler_calls tr <> [] -> Forall (about_only u) tr.
Proof.
  intros Hu Hid tr Hcalls.
  pose proof (run_exec site_env (processMessage wk ctx msg) w) as Hex.
  destruct (ran_archived _ _ _ _ _ _ 0 Hu Hex Hcalls) as (Hcre & (x & Hrec & Hx) & o & Hrep).
  apply about_projections; [exact Hcre| |]; unfold tr, worked.
  - rewrite Hrec. constructor; [by rewrite Hx|constructor].
  - rewrite Hrep. constructor; [done|constructor].
Qed.

(** What the run of a job that published carries. *)
Lemma scheduled_value `{Cron} sctx job tr r id v now :
  exec (runJob sctx job) tr r -> head (sched_readings tr) = Some now ->
  sched_publications tr = [(Scheduler.pendingTopic, id, v, None)] ->
  v = match marshalTask (job_task job id now) with Ok data => data | Err _ => "" end.
Proof.
  unfold runJob. intros Hex. exec_call in Hex as now'. exec_call in Hex as id'.
  cbn zeta in Hex. exec_call in Hex as [e|]; intros Hnow; injection Hnow as <-; [exec_inv; intros [=]|].
  destruct (ParseStandard _); [exec_call in Hex as o; destruct o|]; exec_inv;
    by intros [= -> <-].
Qed.

(** C30: the task of a cron job is never inserted into PostgreSQL.  A
    worker runs it all the same and a status request sees its outcome for 24
    hours, but the database stays as it was, execution record included, and
    when Redis has forgotten the task it is unknown. *)
Theorem scheduled_task_unrecorded `{Cron} sctx job tr r now wk ctx msg w id u q :
  let task := job_task job id now in
  let tr' := worked lim outside_env wk ctx msg w in
  let w' := after_work lim outside_env wk ctx msg w in
  exec (runJob sctx job) tr r -> head (sched_readings tr) = Some now ->
  sched_publications tr = [(Scheduler.pendingTopic, id, msg.(Value), None)] ->
  wf_task task = true -> in_range 0 9999 (Year now) = true -> id <> "" -> pg_uuid id = Some u ->
  statuses_fit -> store_ready w -> archived u None w ->
  handler_calls tr' <> [] -> years_ok (clock_readings tr') = true ->
  database w' = database w /\
  (forall d, 0 <= d -> srv_now (srv (site_elapse d w')) < srv_now (srv w) + 24 * Hour ->
   exists now', replies id q (site_elapse d w') =
     [BodyStatus (rest_status (finished task tr' now'))]) /\
  (forall d, 24 * Hour <= d -> codes id q (site_elapse d w') = [StatusNotFound]).
Proof.
  intros task tr' w' Hex Hnow Hpub. pose proof (scheduled_value _ _ _ _ _ _ _ Hex Hnow Hpub) as Hv.
  intros Hwf Hy Hid Hu Hfit Hready Ha Hcalls Hclock.
  assert (years_ok (years task) = true) as Hyears by (unfold years_ok, years; cbn -[Year in_range]; by rewrite Hy).
  assert (unmarshalTask msg.(Value) = Ok task) as Hun.
  { pose proof (json_marshal_total task) as Hm. unfold years_ok in Hyears. rewrite Hyears in Hm.
    fold task in Hv. cbn in Hv. destruct (json_marshalTask task) as [raw|] eqn:Hraw; [|done].
    rewrite Hv. by apply unmarshal_marshal. }
  split_and!.
  - apply (run_orphan lim rows_by_status rest _ u); [|done]. by eapply worked_about.
  - intros d Hd Hlt. exact (result_reply lim outside_env (beside client) (beside stream)
      wk ctx msg task w d q Hun Hyears Hid Hready Hcalls Hclock Hd Hlt).
  - intros d Hd. exact (result_forgotten wk ctx msg task w u q d Hfit Hun Hid Hu Hready Ha Hcalls Hd).
Qed.
End Lifecycle.

(** ** Concrete runs *)

(** The site of Stack.v's examples with an empty database in it. *)
Definition life_site (script : list (option error)) : site mem (pg_net * list (option error)) :=
  mkSite (mkNet mem_2023 []) (empty_pg, script).
Abbreviation life_outside := (with_pg demo_rows (@calm)).
Abbreviation life_gw :=
  (gateway_env demo_limiter life_outside (beside (@calm_client)) (beside (@calm_stream))).
Definition life_post : Request := mkRequest CtxRun "POST" "/api/v1/tasks" None.
Definition life_get : Request := mkRequest CtxRun "GET" "/api/v1/tasks/t-1" None.

(** The message the submission publishes, as the dispatcher receives it and as
    the worker does. *)
Definition life_task : Task.t :=
  submitted_task (mkSubmit "email" (Some "{}") 5 None) "t-1" (1735689600 * Second).
Definition life_msg (topic : string) : Message :=
  mkMessage topic "t-1" (match json_marshalTask life_task with Ok s => s | Err _ => "" end) 7 [].

Lemma life_ready script : store_ready (life_site script).
Proof. split; [done|intros sl e He; discriminate He..]. Qed.

Lemma life_fits : statuses_fit.
Proof. unfold statuses_fit. rewrite <- Forall_forall. by repeat constructor. Qed.

Lemma task_lifecycle_witness :
  let codec := @JsonTaskCodec plain_texts in
  let w1 := site_elapse Second (run_world life_gw (REST_SubmitTask life_post) (life_site [Some boom])) in
  let w2 := site_elapse Second (run_world (svc_env demo_limiter life_outside)
    (route (NewDispatcher true) CtxRun (life_msg "tasks.pending")) w1) in
  let w3 d := site_elapse d (after_work demo_limiter life_outside demo_worker CtxRun
    (life_msg "tasks.worker.email") w2) in
  exists s, status_replies demo_limiter life_outside (beside (@calm_client)) (beside (@calm_stream))
      "t-1" life_get (w3 (24 * Hour)) = [BodyStatus s] /\
    s.(ts_Status) = StatusDone /\ s.(ts_Attempts) = 0.
Proof.
  intros codec w1 w2 w3.
  edestruct (@task_lifecycle ascii_tables plain_texts mem mem_redis mem_laws demo_limiter demo_pg demo_rows _
    (@calm) (@calm_client) (@calm_stream) life_post (life_site [Some boom]) life_task
    "t-1" Second (NewDispatcher true) CtxRun (life_msg "tasks.pending") Second demo_worker CtxRun
    (life_msg "tasks.worker.email") life_get) as (_ & _ & _ & Hlater).
  - exact demo_limiter_sane.
  - exact life_fits.
  - apply life_ready.
  - split; reflexivity.
  - discriminate.
  - discriminate.
  - vm_compute. reflexivity.
  - vm_compute. reflexivity.
  - vm_compute. reflexivity.
  - vm_compute. reflexivity.
  - discriminate.
  - reflexivity.
  - vm_compute. reflexivity.
  - vm_compute. reflexivity.
  - vm_compute. discriminate.
  - vm_compute. reflexivity.
  - destruct (Hlater (24 * Hour)) as (s & Hs & _ & _ & Hv & Hat & _); [discriminate|].
    exists s. split; [exact Hs|]. split; [rewrite Hv; vm_compute; reflexivity|exact Hat].
Defined.

(** The message of the hourly job of Scheduler.v's examples. *)
Definition hourly_trace : list (event SchedE) :=
  run_trace sched_env (@runJob ascii_tables (@JsonTaskCodec plain_texts) demo_cron CtxRun hourly_job) (sched_demo []).
Definition hourly_msg : Message :=
  mkMessage "tasks.worker.email" "1"
    (match sched_publications hourly_trace with [(_, _, v, _)] => v | _ => "" end) 8 [].

Lemma scheduled_task_unrecorded_witness :
  let codec := @JsonTaskCodec plain_texts in
  let w' := after_work demo_limiter life_outside demo_worker CtxRun hourly_msg (life_site [None]) in
  database w' = mkDb ∅ ∅ /\
  status_codes demo_limiter demo_rows (@calm) (@calm_client) (@calm_stream) "1" life_get
    (site_elapse (24 * Hour) w') = [StatusNotFound].
Proof.
  intros codec w'.
  edestruct (@scheduled_task_unrecorded ascii_tables plain_texts mem mem_redis mem_laws demo_limiter demo_pg
    demo_rows _ (@calm) (@calm_client) (@calm_stream) demo_cron CtxRun hourly_job
    hourly_trace (run_result sched_env (@runJob ascii_tables (@JsonTaskCodec plain_texts) demo_cron CtxRun
      hourly_job) (sched_demo [])) (1700000000 * Second) demo_worker CtxRun hourly_msg (life_site [None]) "1" "1"
    life_get) as (Hdb & _ & Hgone).
  - apply run_exec.
  - vm_compute. reflexivity.
  - vm_compute. reflexivity.
  - vm_compute. reflexivity.
  - vm_compute. reflexivity.
  - discriminate.
  - reflexivity.
  - exact life_fits.
  - apply life_ready.
  - split; reflexivity.
  - vm_compute. discriminate.
  - vm_compute. reflexivity.
  - split; [exact Hdb|apply Hgone; discriminate].
Defined.
