(* ===== verification/Servers.v ===== *)
(** * Servers in goroutines: pkg/telemetry/server.go, api-gateway/cli/serve.go

    The metrics server every service starts and the gateway's HTTP and gRPC
    servers: what each of their goroutines does when its server ends. Serve.v
    starts them. *)

From S2P Require Import Prelude Prog Process GoStrings Domain Json GoFloat Effects Retry Handlers Kafka.
From S2P Require Import Worker Fakes Dispatcher Services Redis RateLimiter Scheduler Gateway Cli Config.

(** ** The metrics server of every service (server.go) *)

(** What a path of the metrics server answers: the registry's text, or a bare
    status code. [http.ServeMux] on patterns without wildcards compares the
    path itself. *)
Inductive MetricsRoute : Type := PromHandler | Answer (code : Z).
Definition metrics_mux : list (string * MetricsRoute) :=
  [("/metrics"%string, PromHandler); ("/healthz"%string, Answer StatusOK);
   ("/readyz"%string, Answer StatusOK)].

(** [http.Server]: its address and its read, write and idle timeouts. *)
Record HttpServer := mkHttpServer {
  srv_Addr : string; srv_ReadTimeout : Duration; srv_WriteTimeout : Duration;
  srv_IdleTimeout : option Duration }.

Inductive ServerE : Type -> Type :=
| ListenAndServe (srv : HttpServer) : ServerE (option error)
| GrpcServe : ServerE (option error)
| AwaitDone (ctx : Ctx) : ServerE unit                         (* <-ctx.Done() *)
| ShutdownServer (ctx : Ctx) : ServerE (option error)
| LogError (msg : string) (err : error) : ServerE unit
| ExitProcess (code : Z) : ServerE unit.

Definition metrics_server (addr : string) : HttpServer :=
  mkHttpServer addr (5 * Second) (5 * Second) None.

Definition metrics_listen (addr : string) : prog ServerE unit :=
  err ← trigger (ListenAndServe (metrics_server addr));
  match err with
  | Some err =>
      if errors_Is err HttpErrServerClosed then mret tt
      else trigger (LogError "metrics server error" err)
  | None => mret tt
  end.

Definition metrics_stop (ctx : Ctx) : prog ServerE unit :=
  _ ← trigger (AwaitDone ctx);
  _ ← trigger (ShutdownServer (CtxTimeout CtxBackground (5 * Second)));
  mret tt.

(** The two goroutines of [StartMetricsServer]. *)
Definition metrics_goroutines (ctx : Ctx) (addr : string) : prog ServerE unit * prog ServerE unit :=
  (metrics_listen addr, metrics_stop ctx).

(** ** The gateway's two servers (api-gateway/cli/serve.go) *)

Definition gateway_http_server (cfg : GatewayConfig.t) : HttpServer :=
  mkHttpServer (":" +:+ cfg.(GatewayConfig.HTTPPort)) (15 * Second) (15 * Second) (Some (60 * Second)).

(** Their goroutines: an error of a server ends the process, whatever the
    others are doing, without the deferred calls of [runServe]. *)
Definition gateway_http (srv : HttpServer) : prog ServerE unit :=
  err ← trigger (ListenAndServe srv);
  match err with
  | Some err =>
      if errors_Is err HttpErrServerClosed then mret tt
      else _ ← trigger (LogError "HTTP server error" err); trigger (ExitProcess 1)
  | None => mret tt
  end.
Definition gateway_grpc : prog ServerE unit :=
  err ← trigger GrpcServe;
  match err with
  | Some err => _ ← trigger (LogError "gRPC server error" err); trigger (ExitProcess 1)
  | None => mret tt
  end.

Definition server_exit (ev : event ServerE) : option Z :=
  match ev with Ev (ExitProcess code) _ => Some code | _ => None end.

(** The errors that end the process. *)
Definition server_failure (srv : HttpServer) (ev : event ServerE) : Prop :=
  exists err, (ev = (ListenAndServe srv ~> Some err) /\ errors_Is err HttpErrServerClosed = false) \/
              ev = (GrpcServe ~> Some err).

(** A goroutine of the gateway that has called [os.Exit] was told such an
    error; the goroutines of the metrics server never call it. *)
Lemma logged_exit msg err t ev q code :
  partial (_ ← trigger (LogError msg err); trigger (ExitProcess 1)) (t ++ [ev]) q ->
  server_exit ev = Some code -> code = 1.
Proof.
  intros [[Hnil _]|([] & t2 & Heq & Hp)]%partial_call Hx; [by destruct t|].
  destruct t2 as [|ev2 t2].
  { destruct t as [|? [|??]]; simplify_list_eq; done. }
  destruct Hp as ([] & -> & [-> _]%partial_ret).
  destruct t as [|? [|? [|??]]]; by simplify_list_eq.
Qed.

Lemma server_exits_1 {X} (e : ServerE X) (k : X -> prog ServerE unit) t ev q code :
  (forall x, server_exit (Ev e x) = None) ->
  partial (trigger e ≫= k) (t ++ [ev]) q -> server_exit ev = Some code ->
  exists x t', t ++ [ev] = (e ~> x) :: t' ++ [ev] /\ partial (k x) (t' ++ [ev]) q.
Proof.
  intros He [[Hnil _]|(x & t1 & Heq & Hp)]%partial_call Hx; [by destruct t|].
  destruct t as [|ev' t]; injection Heq as -> Ht.
  - pose proof (He x) as Hn. change (server_exit (Ev e x) = Some code) in Hx. congruence.
  - exists x, t. by rewrite <- Ht in Hp.
Qed.

Lemma gateway_http_exits srv t ev q code :
  partial (gateway_http srv) (t ++ [ev]) q -> server_exit ev = Some code ->
  code = 1 /\ exists ev', ev' ∈ t ++ [ev] /\ server_failure srv ev'.
Proof.
  intros Hp Hx. apply server_exits_1 with (code := code) in Hp as (o & t' & -> & Hp); [|done..].
  destruct o as [e|]; [|apply partial_ret in Hp as [Hnil _]; by destruct t'].
  destruct (errors_Is e HttpErrServerClosed) eqn:He; [apply partial_ret in Hp as [Hnil _]; by destruct t'|].
  split; [by eapply logged_exit|]. eexists. split; [by left|]. exists e. by left.
Qed.

Lemma gateway_grpc_exits srv t ev q code :
  partial gateway_grpc (t ++ [ev]) q -> server_exit ev = Some code ->
  code = 1 /\ exists ev', ev' ∈ t ++ [ev] /\ server_failure srv ev'.
Proof.
  intros Hp Hx. apply server_exits_1 with (code := code) in Hp as (o & t' & -> & Hp); [|done..].
  destruct o as [e|]; [|apply partial_ret in Hp as [Hnil _]; by destruct t'].
  split; [by eapply logged_exit|]. eexists. split; [by left|]. exists e. by right.
Qed.

Definition exits_not (X : Type) (e : ServerE X) : Prop := forall x, server_exit (Ev e x) = None.

Lemma metrics_calls ctx addr :
  calls exits_not (metrics_listen addr) /\ calls exits_not (metrics_stop ctx).
Proof.
  unfold metrics_listen, metrics_stop. cbn. split.
  - split; [done|]. intros [e|]; [|done]. by destruct (errors_Is e _).
  - done.
Qed.

