(* ===== verification/Serve.v ===== *)
(** * The serve commands: services/*/cli/serve.go, pkg/telemetry/telemetry.go

    How each binary opens what it needs, runs its service and closes
    everything again: [runServe] of the four services, with the deferred calls
    as the code nests them, around the running service itself; and the process
    it runs in, with the goroutines of the servers (Servers.v) beside it. *)

From S2P Require Import Prelude Prog Process GoStrings Domain Json GoFloat Effects Retry Handlers Kafka.
From S2P Require Import Worker Fakes Dispatcher Services Redis RateLimiter Scheduler Gateway Cli Config Servers.

(** ** What serve calls *)

Inductive ServeE : Type -> Type :=
(* opentelemetry *)
| SetTextMapPropagator : ServeE unit
| OtlpNew (endpoint : string) : ServeE (option error)
| SetTracerProvider (service : string) : ServeE unit
| ShutdownTracerProvider : ServeE unit
(* clients *)
| NewReader (cfg : ReaderConfig) : ServeE unit
| CloseConsumer : ServeE unit
| NewWriter (cfg : WriterConfig) : ServeE unit
| CloseProducer : ServeE unit
| NewClient (addr : string) : ServeE unit
| CloseClient : ServeE unit
| PgxpoolNewPool (dsn : string) : ServeE (option error)
| PingPool : ServeE (option error)
| ClosePool : ServeE unit
(* the process *)
| ServeSys {X} (e : SysE X) : ServeE X
| StartMetricsServer (ctx : Ctx) (addr : string) : ServeE unit
| NotifyShutdown : ServeE unit
    (* signal.Notify and the goroutine that cancels the run context *)
| WgWait : ServeE unit
(* the api-gateway's two servers *)
| ListenTCP (addr : string) : ServeE (option error)
| GoServeHTTP (srv : HttpServer) : ServeE unit
| GoServeGRPC : ServeE unit
| AwaitQuit : ServeE unit
| GracefulStop : ServeE unit
| ShutdownHTTP : ServeE (option error)
(* the calls of the servers' own goroutines *)
| ServeServer {X} (e : ServerE X) : ServeE X
(* the calls of the running service *)
| ServeRun {X} (e : RunE X) : ServeE X
| ServeSched {X} (e : SchedE X) : ServeE X.

#[export] Instance SubE_ServeSys : SubE SysE ServeE := @ServeSys.
#[export] Instance SubE_ServeServer : SubE ServerE ServeE := @ServeServer.
#[export] Instance SubE_ServeRun : SubE RunE ServeE := @ServeRun.
#[export] Instance SubE_ServeSched : SubE SchedE ServeE := @ServeSched.

(** The result of a serve command: [None] while the service is still running,
    after as many fetches or ticks as it was given. *)
Abbreviation outcome := (option (option error)).

(** [defer c] before the rest of a function. *)
Definition defer (c : prog ServeE unit) (p : prog ServeE outcome) : prog ServeE outcome :=
  r ← p;
  match r with
  | None => mret None
  | Some err => _ ← c; mret (Some err)
  end.

(** [InitTracer] (telemetry.go:25-67): whether there is a provider to shut
    down. *)
Definition InitTracer (serviceName endpoint : string) : prog ServeE (goresult bool) :=
  _ ← trigger SetTextMapPropagator;
  if String.eqb endpoint "" then mret (Ok false)
  else
    err ← trigger (OtlpNew endpoint);
    match err with
    | Some err => mret (Err (ErrWrap "otlp exporter" err))
    | None => _ ← trigger (SetTracerProvider serviceName); mret (Ok true)
    end.

(** [postgres.NewPool] (repository.go:34-43): a pool that does not answer the
    ping is not closed. *)
Definition NewPool (dsn : string) : prog ServeE (option error) :=
  err ← trigger (PgxpoolNewPool dsn);
  match err with
  | Some err => mret (Some (ErrWrap "pgxpool.New" err))
  | None =>
      err ← trigger PingPool;
      match err with
      | Some err => mret (Some (ErrWrap "postgres ping" err))
      | None => mret None
      end
  end.

(** The steps the four commands share, each with its error and its defer. *)
Definition with_tracer (service endpoint : string) (p : prog ServeE outcome)
  : prog ServeE outcome :=
  t ← InitTracer service endpoint;
  match t with
  | Err err => mret (Some (Some (ErrWrap "tracer" err)))
  | Ok shutdown => defer (if shutdown : bool then trigger ShutdownTracerProvider else mret tt) p
  end.

Definition with_consumer brokers topic groupID (p : prog ServeE outcome) :=
  _ ← trigger (NewReader (NewConsumer brokers topic groupID));
  defer (trigger CloseConsumer) p.

Definition with_producer brokers (p : prog ServeE outcome) :=
  _ ← trigger (NewWriter (NewProducer brokers));
  defer (trigger CloseProducer) p.

Definition with_redis addr (p : prog ServeE outcome) :=
  _ ← trigger (NewClient addr);
  defer (trigger CloseClient) p.

Definition with_pool dsn (p : prog ServeE outcome) : prog ServeE outcome :=
  err ← NewPool dsn;
  match err with
  | Some err => mret (Some (Some (ErrWrap "postgres" err)))
  | None => defer (trigger ClosePool) p
  end.

(** The first eight characters of a fresh identifier. *)
Definition short_id : prog ServeE string :=
  id ← trigger NewUUID; mret (String.substring 0 8 id).

Definition comma : ascii := ",".

(** ** The four commands *)

Section Serve.
Context `{UnicodeTables, TaskCodec, JsonTexts, Cron}.

(** services/dispatcher/cli/serve.go:44-91, with the rate limiter it builds
    (66-70) *)
Definition dispatcher_limiter (cfg : DispatcherConfig.t) : option slidingWindowLimiter :=
  if 0 <? cfg.(DispatcherConfig.RateLimit)
  then Some (NewRateLimiter cfg.(DispatcherConfig.RateLimit) Second) else None.

Definition dispatcher_runServe (cfg : DispatcherConfig.t) (n : nat) : prog ServeE outcome :=
  with_tracer "dispatcher" cfg.(DispatcherConfig.OTelEndpoint) (
    let brokers := split_on comma cfg.(DispatcherConfig.KafkaBrokers) in
    with_consumer brokers TopicPending "dispatcher-group" (
    with_producer brokers (
    with_redis cfg.(DispatcherConfig.RedisAddr) (
      let d := NewDispatcher (bool_decide (is_Some (dispatcher_limiter cfg))) in
      _ ← trigger (StartMetricsServer CtxRun cfg.(DispatcherConfig.MetricsAddr));
      _ ← trigger NotifyShutdown;
      err ← lift (Dispatcher_Run d CtxRun n);
      match err with
      | None => mret None
      | Some (Some err) => mret (Some (Some (ErrWrap "dispatcher" err)))
      | Some None => mret (Some None)
      end)))).

(** services/worker/cli/serve.go:65-145 *)
Definition worker_topic (cfg : WorkerConfig.t) : string :=
  "tasks.worker." +:+ cfg.(WorkerConfig.WorkerType).
Definition worker_group (cfg : WorkerConfig.t) : string :=
  "worker-" +:+ cfg.(WorkerConfig.WorkerType) +:+ "-group".

Definition worker_registry (cfg : WorkerConfig.t) : Registry.t :=
  Registry.Register NewWebhookHandler
    (Registry.Register (NewEmailHandler
       (mkEmailConfig cfg.(WorkerConfig.SMTPHost) cfg.(WorkerConfig.SMTPPort)
          cfg.(WorkerConfig.SMTPFrom) cfg.(WorkerConfig.SMTPUsername)
          cfg.(WorkerConfig.SMTPPassword)))
       Registry.NewRegistry).

Definition worker_of (cfg : WorkerConfig.t) (workerID : string) : Worker :=
  NewWorker workerID (worker_registry cfg)
    [WithRetries cfg.(WorkerConfig.MaxRetries); WithTimeout cfg.(WorkerConfig.TaskTimeout);
     WithWorkerType cfg.(WorkerConfig.WorkerType)].

Definition worker_runServe (cfg : WorkerConfig.t) (n : nat) : prog ServeE outcome :=
  id ← short_id;
  let workerID := cfg.(WorkerConfig.WorkerType) +:+ "-" +:+ id in
  with_tracer ("worker-" +:+ cfg.(WorkerConfig.WorkerType)) cfg.(WorkerConfig.OTelEndpoint) (
    let brokers := split_on comma cfg.(WorkerConfig.KafkaBrokers) in
    with_consumer brokers (worker_topic cfg) (worker_group cfg) (
    with_producer brokers (
    with_redis cfg.(WorkerConfig.RedisAddr) (
    with_pool cfg.(WorkerConfig.PostgresDSN) (
      _ ← trigger (StartMetricsServer CtxRun cfg.(WorkerConfig.MetricsAddr));
      _ ← trigger NotifyShutdown;
      err ← lift (Worker_Run (worker_of cfg workerID) CtxRun n);
      match err with
      | None => mret None
      | Some (Some err) => mret (Some (Some (ErrWrap "worker" err)))
      | Some None => _ ← trigger WgWait; mret (Some None)
      end))))).

(** services/scheduler/cli/serve.go:44-94 *)
Definition scheduler_runServe (cfg : SchedulerConfig.t) (n : nat) : prog ServeE outcome :=
  id ← short_id;
  let instanceID := "scheduler-" +:+ id in
  with_tracer "scheduler" cfg.(SchedulerConfig.OTelEndpoint) (
    let brokers := split_on comma cfg.(SchedulerConfig.KafkaBrokers) in
    with_producer brokers (
    with_redis cfg.(SchedulerConfig.RedisAddr) (
    with_pool cfg.(SchedulerConfig.PostgresDSN) (
      _ ← trigger (StartMetricsServer CtxRun cfg.(SchedulerConfig.MetricsAddr));
      _ ← trigger NotifyShutdown;
      r ← lift (Scheduler_Run (NewScheduler instanceID) CtxRun n);
      match r with
      | None => mret None
      | Some tt => mret (Some None)
      end)))).

(** services/api-gateway/cli/serve.go:58-157. The two servers run in
    goroutines of their own ([serve_spawn] below); what they serve is
    [gateway_route] and the methods of Gateway.v. *)
Definition gateway_runServe (cfg : GatewayConfig.t) : prog ServeE outcome :=
  with_tracer "api-gateway" cfg.(GatewayConfig.OTelEndpoint) (
    let brokers := split_on comma cfg.(GatewayConfig.KafkaBrokers) in
    with_producer brokers (
    with_redis cfg.(GatewayConfig.RedisAddr) (
    with_pool cfg.(GatewayConfig.PostgresDSN) (
      err ← trigger (ListenTCP (":" +:+ cfg.(GatewayConfig.GRPCPort)));
      match err with
      | Some err => mret (Some (Some (ErrWrap "grpc listen" err)))
      | None =>
          _ ← trigger (StartMetricsServer CtxRun cfg.(GatewayConfig.MetricsAddr));
          _ ← trigger (GoServeHTTP (gateway_http_server cfg));
          _ ← trigger GoServeGRPC;
          _ ← trigger AwaitQuit;
          _ ← trigger GracefulStop;
          _ ← trigger ShutdownHTTP;
          mret (Some None)
      end)))).

(** The router (serve.go:89-98): the routes and the middleware around them. *)
Inductive Route : Type :=
| GetHealthz | GetReadyz | PostTasks | GetTask (id : string).

Definition gateway_route (rt : Route) : Request -> prog GwE unit :=
  RequestLogger (MaxBodySize (Z.shiftl 1 20) (fun r =>
    match rt with
    | GetHealthz => REST_Healthz r
    | GetReadyz => REST_Readyz r
    | PostTasks => REST_SubmitTask r
    | GetTask id => REST_GetTaskStatus id r
    end)).

Inductive Command : Type :=
| ServeGateway (cfg : GatewayConfig.t)
| ServeDispatcher (cfg : DispatcherConfig.t)
| ServeWorker (cfg : WorkerConfig.t)
| ServeScheduler (cfg : SchedulerConfig.t).

Definition runServe (c : Command) (n : nat) : prog ServeE outcome :=
  match c with
  | ServeGateway cfg => gateway_runServe cfg
  | ServeDispatcher cfg => dispatcher_runServe cfg n
  | ServeWorker cfg => worker_runServe cfg n
  | ServeScheduler cfg => scheduler_runServe cfg n
  end.
End Serve.

(** ** The process around a serve command

    The goroutines its [go] statements start: two of the metrics server
    (server.go:32-45) and one for each server of the gateway
    (api-gateway/cli/serve.go:128-142); and their calls of [os.Exit]. *)

Definition serve_spawn (X : Type) (e : ServeE X) : list (prog ServeE unit) :=
  match e with
  | StartMetricsServer ctx addr =>
      let '(listen, stop) := metrics_goroutines ctx addr in [lift listen; lift stop]
  | GoServeHTTP srv => [lift (gateway_http srv)]
  | GoServeGRPC => [lift gateway_grpc]
  | _ => []
  end.

Definition serve_exit (ev : event ServeE) : option Z :=
  match ev with Ev (ServeServer (ExitProcess code)) _ => Some code | _ => None end.

(** ** A concrete environment

    The fakes of the services behind the clients, a database whose ping answers
    or not, and servers that run until they are shut down. *)

Record serve_world := mkServeWorld {
  sw_ping : option error; sw_run : list KMessage * fake }.

Definition serve_env : handler ServeE serve_world := fun X e =>
  match e in ServeE X return serve_world -> X * serve_world with
  | OtlpNew _ => fun w => (None, w)
  | PgxpoolNewPool _ => fun w => (None, w)
  | PingPool => fun w => (w.(sw_ping), w)
  | ListenTCP _ => fun w => (None, w)
  | ShutdownHTTP => fun w => (None, w)
  | ServeSys e' => fun w =>
      let '(x, f) := f_sys e' w.(sw_run).2 in (x, mkServeWorld w.(sw_ping) (w.(sw_run).1, f))
  | ServeRun e' => fun w =>
      let '(x, r) := partition_env _ e' w.(sw_run) in (x, mkServeWorld w.(sw_ping) r)
  | ServeSched e' =>
      match e' in SchedE X return serve_world -> X * serve_world with
      | SchedSys e2 => fun w =>
          let '(x, f) := f_sys e2 w.(sw_run).2 in
          (x, mkServeWorld w.(sw_ping) (w.(sw_run).1, f))
      | SchedRedis e2 =>
          match e2 in RedisE X return serve_world -> X * serve_world with
          | RSet _ _ _ _ | RSetNX _ _ _ _ => fun w => (Some ContextCanceled, w)
          | RGet _ _ => fun w => (Err ContextCanceled, w)
          | RTxPipeline _ _ => fun w => (Err ContextCanceled, w)
          | REval _ _ => fun w => (Err ContextCanceled, w)
          end
      | SchedProducer e2 =>
          match e2 in ProducerE X return serve_world -> X * serve_world with
          | Publish _ _ _ _ => fun w => (Some ContextCanceled, w)
          end
      | SchedJobs e2 =>
          match e2 in JobsE X return serve_world -> X * serve_world with
          | QueryDueJobs _ => fun w => (Err ContextCanceled, w)
          | UpdateJob _ _ _ _ => fun w => (Some ContextCanceled, w)
          end
      | Scheduler.SelectTicker _ => fun w => (true, w)
      end
  | SetTextMapPropagator | ShutdownTracerProvider | CloseConsumer | CloseProducer
  | CloseClient | ClosePool | NotifyShutdown | WgWait | GoServeGRPC | AwaitQuit
  | GracefulStop => fun w => (tt, w)
  | ServeServer e' =>
      match e' in ServerE X return serve_world -> X * serve_world with
      | ListenAndServe _ => fun w => (Some HttpErrServerClosed, w)
      | GrpcServe | ShutdownServer _ => fun w => (None, w)
      | AwaitDone _ | LogError _ _ | ExitProcess _ => fun w => (tt, w)
      end
  | SetTracerProvider _ | NewReader _ | NewWriter _ | NewClient _
  | StartMetricsServer _ _ | GoServeHTTP _ => fun w => (tt, w)
  end.

(** ** What is opened and closed *)

Inductive Resource : Type := ResTracer | ResConsumer | ResProducer | ResRedis | ResPool.

(** What a call means for the resources of the command. *)
Inductive Note : Type :=
| Opened (r : Resource)
| Closed (r : Resource)
| PingFailed (err : error)
| ServerStarted
| QuitReceived.

Definition note (ev : event ServeE) : option Note :=
  match ev with
  | @Ev _ X e x =>
      match e in ServeE X return X -> option Note with
      | SetTracerProvider _ => fun _ => Some (Opened ResTracer)
      | NewReader _ => fun _ => Some (Opened ResConsumer)
      | NewWriter _ => fun _ => Some (Opened ResProducer)
      | NewClient _ => fun _ => Some (Opened ResRedis)
      | PgxpoolNewPool _ =>
          fun o => match o with None => Some (Opened ResPool) | Some _ => None end
      | ShutdownTracerProvider => fun _ => Some (Closed ResTracer)
      | CloseConsumer => fun _ => Some (Closed ResConsumer)
      | CloseProducer => fun _ => Some (Closed ResProducer)
      | CloseClient => fun _ => Some (Closed ResRedis)
      | ClosePool => fun _ => Some (Closed ResPool)
      | PingPool => fun o => option_map PingFailed o
      | GoServeHTTP _ | GoServeGRPC => fun _ => Some ServerStarted
      | AwaitQuit => fun _ => Some QuitReceived
      | _ => fun _ => None
      end x
  end.
Definition notes (tr : list (event ServeE)) : list Note := omap note tr.

Definition opened_of (x : Note) := match x with Opened r => Some r | _ => None end.
Definition closed_of (x : Note) := match x with Closed r => Some r | _ => None end.
Definition ping_error_of (x : Note) := match x with PingFailed err => Some err | _ => None end.
Definition server_of (x : Note) := match x with ServerStarted => Some () | _ => None end.
Definition quit_of (x : Note) := match x with QuitReceived => Some () | _ => None end.

Definition opened (tr : list (event ServeE)) := omap opened_of (notes tr).
Definition closed (tr : list (event ServeE)) := omap closed_of (notes tr).
Definition ping_errors (tr : list (event ServeE)) := omap ping_error_of (notes tr).
Definition servers (tr : list (event ServeE)) := omap server_of (notes tr).
Definition quits (tr : list (event ServeE)) := omap quit_of (notes tr).

(** A command first opens what it needs, all of it or all up to a pool whose
    ping fails; then it serves; then it closes what it opened, last first. *)
Definition serves (mid : list Note) : Prop :=
  mid = [] \/ mid = [ServerStarted; ServerStarted; QuitReceived].
Definition bracketed (l : list Note) (r : outcome) : Prop :=
  exists os held mid,
    l = map Opened os ++ mid ++ match r with None => [] | Some _ => map Closed (rev held) end /\
    ((held = os /\ serves mid) \/ exists e, os = held ++ [ResPool] /\ mid = [PingFailed e]).
Definition brackets (p : prog ServeE outcome) : Prop :=
  forall tr r, exec p tr r -> bracketed (notes tr) r.
Abbreviation quiet p := (forall tr a, exec p tr a -> notes tr = []).

Lemma notes_app t1 t2 : notes (t1 ++ t2) = notes t1 ++ notes t2.
Proof. apply omap_app. Qed.

Lemma notes_one ev x : note ev = Some x -> notes [ev] = [x].
Proof. unfold notes. cbn. by intros ->. Qed.

Lemma bracketed_serves mid : serves mid -> forall r, bracketed mid r.
Proof. intros Hm r. exists [], [], mid. split; [destruct r; cbn; by rewrite app_nil_r|by left]. Qed.

Lemma brackets_serves (p : prog ServeE outcome) :
  (forall tr r, exec p tr r -> serves (notes tr)) -> brackets p.
Proof. intros Hp tr r Hex. eapply bracketed_serves, Hp, Hex. Qed.

Lemma brackets_after {A} (p : prog ServeE A) (k : A -> prog ServeE outcome) :
  quiet p -> (forall a, brackets (k a)) -> brackets (p ≫= k).
Proof.
  intros Hp Hk tr r Hex. apply exec_bind in Hex as (t1 & t2 & a & -> & H1 & H2).
  rewrite notes_app, (Hp _ _ H1). by apply (Hk a).
Qed.

(** What was opened before is closed by the defer, after the rest. *)
Lemma defer_bracketed t1 R (close : prog ServeE unit) p t2 r :
  notes t1 = map Opened R -> (forall tr u, exec close tr u -> notes tr = map Closed (rev R)) ->
  brackets p -> exec (defer close p) t2 r -> bracketed (notes (t1 ++ t2)) r.
Proof.
  intros H1 Hclose Hp Hex. unfold defer in Hex.
  apply exec_bind in Hex as (t3 & t4 & r' & -> & H2 & H3).
  apply Hp in H2 as (os & held & mid & Hn & Hcase). rewrite !notes_app, H1, Hn.
  assert (r = r' /\ notes t4 = match r with None => [] | Some _ => map Closed (rev R) end) as [-> ->].
  { destruct r' as [err|].
    - apply exec_bind in H3 as (t5 & t6 & u & -> & H3 & [-> ->]%exec_mret).
      by rewrite app_nil_r, (Hclose _ _ H3).
    - by apply exec_mret in H3 as [-> ->]. }
  exists (R ++ os), (R ++ held), mid. split.
  - rewrite map_app, rev_app_distr, map_app, <- !app_assoc. by destruct r'.
  - destruct Hcase as [[-> Hm]|(e & -> & ->)]; [by left|right]. exists e. by rewrite app_assoc.
Qed.

Lemma brackets_tracer service endpoint p : brackets p -> brackets (with_tracer service endpoint p).
Proof.
  intros Hp tr r Hex. unfold with_tracer, InitTracer in Hex.
  apply exec_bind in Hex as (t1 & t2 & t & -> & Ht & Hex).
  destruct t as [shutdown|e].
  - apply (defer_bracketed t1 (if shutdown then [ResTracer] else [])
      (if shutdown then trigger ShutdownTracerProvider else mret tt) p t2 r); [| |done|done].
    + clear Hex. exec_inv; done.
    + intros tr' u Hc. clear Hex Ht. destruct shutdown; exec_inv; done.
  - apply bracketed_serves. left. exec_inv; done.
Qed.

Lemma brackets_open (e : ServeE unit) R (close : ServeE unit) p :
  note (Ev e tt) = Some (Opened R) -> note (Ev close tt) = Some (Closed R) -> brackets p ->
  brackets (_ ← trigger e; defer (trigger close) p).
Proof.
  intros He Hc Hp tr r Hex.
  apply exec_bind in Hex as (t1 & t2 & [] & -> & ->%exec_trigger & Hex).
  refine (defer_bracketed _ [R] _ _ _ _ _ _ Hp Hex); [by apply notes_one|].
  intros tr' [] ->%exec_trigger. by apply notes_one.
Qed.

Lemma brackets_pool dsn p : brackets p -> brackets (with_pool dsn p).
Proof.
  intros Hp tr r Hex. unfold with_pool, NewPool in Hex.
  apply exec_bind in Hex as (t1 & t2 & o & -> & Hn & Hex).
  destruct o as [e|].
  - exec_inv; [by apply bracketed_serves; left|].
    eexists [ResPool], [], [PingFailed _]. split; [done|right]. by eexists.
  - refine (defer_bracketed t1 [ResPool] _ _ _ _ _ _ Hp Hex).
    + clear Hex. exec_inv; done.
    + by intros tr' u ->%exec_trigger.
Qed.

Section Commands.
Context `{UnicodeTables, TaskCodec, JsonTexts, Cron}.

(** The part of a command after everything is open. *)
Lemma brackets_running {A} addr (run : prog ServeE A) (k : A -> prog ServeE outcome) :
  quiet run -> (forall a, brackets (k a)) ->
  brackets (_ ← trigger (StartMetricsServer CtxRun addr); _ ← trigger NotifyShutdown;
            a ← run; k a).
Proof.
  intros Hrun Hk. do 2 (apply brackets_after; [by intros tr a ->%exec_trigger|intros _]).
  by apply brackets_after.
Qed.

Lemma quiet_lift_serve {E} `{SubE E ServeE} {A} (p : prog E A) :
  (forall ev, note (lift_event (ev : event E)) = None) -> quiet (lift p).
Proof.
  intros Hev tr a (t & -> & _)%exec_lift. unfold notes.
  induction t as [|ev t IH]; [done|]. cbn. by rewrite Hev.
Qed.

Lemma quiet_run (ev : event RunE) : note (lift_event ev) = None.
Proof. by destruct ev. Qed.
Lemma quiet_sched (ev : event SchedE) : note (lift_event ev) = None.
Proof. by destruct ev. Qed.

Lemma brackets_ret (r : outcome) : brackets (mret r).
Proof. apply brackets_serves. intros tr r' [-> _]%exec_mret. by left. Qed.

Lemma brackets_short_id k : (forall id, brackets (k id)) -> brackets (id ← short_id; k id).
Proof. intros Hk. apply brackets_after; [|done]. intros tr a Hex. unfold short_id in Hex. by exec_inv. Qed.

Lemma brackets_runServe c n : brackets (runServe c n).
Proof.
  destruct c as [cfg|cfg|cfg|cfg]; cbn [runServe].
  - apply brackets_tracer. do 2 (apply brackets_open with (1 := eq_refl); [done|]).
    apply brackets_pool, brackets_serves. intros tr r Hex. exec_inv; [by left|by right].
  - apply brackets_tracer. do 3 (eapply brackets_open; [done..|]).
    apply brackets_running; [apply quiet_lift_serve, quiet_run|].
    intros [[e|]|]; apply brackets_ret.
  - apply brackets_short_id. intros id. apply brackets_tracer.
    do 3 (eapply brackets_open; [done..|]). apply brackets_pool.
    apply brackets_running; [apply quiet_lift_serve, quiet_run|].
    intros [[e|]|]; try apply brackets_ret.
    apply brackets_serves. intros tr r Hex. left. exec_inv; done.
  - apply brackets_short_id. intros id. apply brackets_tracer.
    do 2 (eapply brackets_open; [done..|]). apply brackets_pool.
    apply brackets_running; [apply quiet_lift_serve, quiet_sched|].
    intros [[]|]; apply brackets_ret.
Qed.

(** What a command has released when it is done, and on the way there. *)
Definition released (t : list (event ServeE)) : Prop :=
  (closed t = rev (opened t) /\ ping_errors t = []) \/
  exists held e, opened t = held ++ [ResPool] /\ closed t = rev held /\ ping_errors t = [e].
Definition releasing (t : list (event ServeE)) : Prop :=
  exists rest,
    closed t ++ rest = rev (opened t) \/
    exists held e, opened t = held ++ [ResPool] /\ closed t ++ rest = rev held /\ ping_errors t = [e].

Lemma omap_map_None {A B C} (f : A -> B) (g : B -> option C) l :
  (forall a, g (f a) = None) -> omap g (map f l) = [].
Proof. intros Hg. induction l as [|a l IH]; [done|]. cbn. by rewrite Hg. Qed.
Lemma omap_map_Some {A B C} (f : A -> B) (g : B -> option C) (h : A -> C) l :
  (forall a, g (f a) = Some (h a)) -> omap g (map f l) = map h l.
Proof. intros Hg. induction l as [|a l IH]; [done|]. cbn. by rewrite Hg, IH. Qed.

(** The notes of a command are those of opening, serving and closing. *)
Ltac read_notes :=
  unfold opened, closed, ping_errors, servers, quits in *;
  repeat match goal with Hn : notes _ = _ |- _ => rewrite Hn; clear Hn end;
  rewrite ?omap_app, ?(omap_map_Some Opened opened_of id) by done;
  rewrite ?(omap_map_Some Closed closed_of id) by done;
  rewrite ?(omap_map_None Opened), ?(omap_map_None Closed) by done;
  rewrite ?map_id; cbn; rewrite ?app_nil_r.

Lemma bracketed_released t err : bracketed (notes t) (Some err) -> released t.
Proof.
  intros (os & held & mid & Hn & [[-> [->| ->]]|(e & -> & ->)]); unfold released; read_notes.
  - by left.
  - by left.
  - right. by exists held, e.
Qed.

Lemma bracketed_running t : bracketed (notes t) None -> closed t = [].
Proof.
  intros (os & held & mid & Hn & [[-> [->| ->]]|(e & -> & ->)]); by read_notes.
Qed.

(** What a command cut short has released, and when it can have begun to. *)
Lemma bracketed_prefix t t' r :
  bracketed (notes (t ++ t')) r ->
  releasing t /\ (servers t <> [] -> quits t = [] -> closed t = []).
Proof.
  intros (os & held & mid & Hn & Hcase). rewrite notes_app in Hn. symmetry in Hn.
  apply app_eq_inv in Hn as [(k & Hos & _)|(k & Hn & Hk)].
  { apply map_eq_app in Hos as (o1 & o2 & -> & Ho & _). symmetry in Ho. split.
    - exists (rev o1). left. by read_notes.
    - intros _ _. by read_notes. }
  assert (forall k y, mid = k ++ y -> omap closed_of k = [] /\ omap opened_of k = []) as Hmids.
  { intros k0 y0 ->. destruct Hcase as [[_ [Hm|Hm]]|(e & _ & Hm)];
      destruct k0 as [|? [|? [|? [|??]]]]; simplify_list_eq; done. }
  apply app_eq_inv in Hk as [(y & Hmid & _)|(y & -> & Htail)].
  - destruct (Hmids k y Hmid) as [Hc Ho]. split.
    + exists (rev os). left. read_notes. by rewrite Hc, Ho, app_nil_r.
    + intros _ _. by read_notes.
  - assert (exists c rest, y = map Closed c /\ rev held = c ++ rest) as (c & rest & -> & Hheld).
    { destruct r as [err|]; [|exists [], (rev held); by destruct y].
      apply map_eq_app in Htail as (c & rest & -> & <- & _). by exists c, rest. }
    destruct (Hmids mid [] (eq_sym (app_nil_r _))) as [Hc Ho]. split.
    + exists rest. destruct Hcase as [[-> _]|(e & -> & ->)]; [left|right; exists held, e]; read_notes.
      * by rewrite Hc, Ho, app_nil_r, Hheld.
      * by rewrite Hheld.
    + destruct Hcase as [[_ [->| ->]]|(e & _ & ->)]; by read_notes.
Qed.

Lemma servers_in ev t : ev ∈ t -> note ev = Some ServerStarted -> servers t <> [].
Proof.
  unfold servers, notes. intros (t1 & t2 & ->)%list_elem_of_split Hev.
  rewrite !omap_app. cbn. rewrite Hev. cbn. by destruct (omap server_of (omap note t1)).
Qed.

(** Which calls a command makes of its goroutines' servers: none; and only the
    gateway starts any. *)
Definition serve_call (c : Command) (X : Type) (e : ServeE X) : Prop :=
  match e with
  | ServeServer _ => False
  | GoServeHTTP srv => exists cfg, c = ServeGateway cfg /\ srv = gateway_http_server cfg
  | GoServeGRPC => exists cfg, c = ServeGateway cfg
  | _ => True
  end.

Ltac walk_calls :=
  repeat first
    [ exact I
    | progress cbn beta iota
    | apply calls_lift; intros ? []; exact I
    | apply calls_bind; [|intros]
    | match goal with
      | |- calls _ (trigger _) => split; [try exact I|]
      | |- calls _ (match ?x with _ => _ end) => destruct x
      | |- forall _, calls _ _ => intros
      end ].

Lemma runServe_calls c n : calls (serve_call c) (runServe c n).
Proof.
  destruct c as [cfg|cfg|cfg|cfg]; cbn [runServe];
    unfold gateway_runServe, dispatcher_runServe, worker_runServe, scheduler_runServe,
      with_tracer, with_consumer, with_producer, with_redis, with_pool, InitTracer, NewPool,
      short_id, defer;
    walk_calls.
  - by exists cfg.
  - by exists cfg.
Qed.

(** In the process of the command, as in Servers.v. *)
Lemma lifted_exit (g : prog ServerE unit) t ev q code :
  partial (lift g : prog ServeE unit) (t ++ [ev]) q -> serve_exit ev = Some code ->
  exists t' ev' q', t = map lift_event t' /\ ev = lift_event ev' /\
    partial g (t' ++ [ev']) q' /\ server_exit ev' = Some code.
Proof.
  intros (t1 & q' & Ht & Hp & _)%partial_lift Hx.
  symmetry in Ht. apply map_eq_app in Ht as (t' & t2 & -> & <- & Hev).
  destruct t2 as [|[X e x] [|??]]; simplify_list_eq.
  exists t', (Ev e x), q'. by split_and!.
Qed.

Lemma lifted_calls (g : prog ServerE unit) t ev q :
  calls exits_not g -> partial (lift g : prog ServeE unit) (t ++ [ev]) q -> serve_exit ev = None.
Proof.
  intros Hg Hp. destruct (serve_exit ev) as [code|] eqn:Hx; [exfalso|done].
  destruct (lifted_exit _ _ _ _ _ Hp Hx) as (t' & [X e x] & q' & -> & -> & Hp' & Hx').
  apply (calls_partial _ _ _ _ Hg), Forall_app in Hp' as [_ Hn%Forall_inv].
  by rewrite (Hn x) in Hx'.
Qed.

(** A goroutine of a command that has called [os.Exit]: it is one of the
    gateway's two servers, and the server has failed. *)
Lemma goroutine_exits c X (e : ServeE X) g t ev q code :
  serve_call c X e -> g ∈ serve_spawn X e -> partial g (t ++ [ev]) q -> serve_exit ev = Some code ->
  (forall x, note (Ev e x) = Some ServerStarted) /\ code = 1 /\
  exists cfg ev', c = ServeGateway cfg /\ server_failure (gateway_http_server cfg) ev' /\
    lift_event ev' ∈ t ++ [ev].
Proof.
  destruct e; cbn [serve_call serve_spawn]; intros Hc Hg; try by apply not_elem_of_nil in Hg.
  - intros Hp Hx. exfalso. destruct (metrics_calls ctx addr) as [Hl Hs]. cbn in Hg.
    apply elem_of_cons in Hg as [->|Hg%list_elem_of_singleton]; [|subst g].
    + apply (lifted_calls _ _ _ _ Hl) in Hp. congruence.
    + apply (lifted_calls _ _ _ _ Hs) in Hp. congruence.
  - destruct Hc as (cfg & -> & ->). intros Hp Hx. apply list_elem_of_singleton in Hg as ->.
    destruct (lifted_exit _ _ _ _ _ Hp Hx) as (t' & ev' & q' & -> & -> & Hp' & Hx').
    destruct (gateway_http_exits _ _ _ _ _ Hp' Hx') as (-> & ev2 & Hin & Hf).
    do 2 (split; [done|]).
    exists cfg, ev2. split_and!; try done. apply (list_elem_of_fmap_2 lift_event) in Hin.
    by rewrite map_app in Hin.
  - destruct Hc as (cfg & ->). intros Hp Hx. apply list_elem_of_singleton in Hg as ->.
    destruct (lifted_exit _ _ _ _ _ Hp Hx) as (t' & ev' & q' & -> & -> & Hp' & Hx').
    destruct (gateway_grpc_exits (gateway_http_server cfg) _ _ _ _ Hp' Hx') as (-> & ev2 & Hin & Hf).
    do 2 (split; [done|]).
    exists cfg, ev2. split_and!; try done. apply (list_elem_of_fmap_2 lift_event) in Hin.
    by rewrite map_app in Hin.
Qed.

(** C37: what a process that runs a serve command, with the goroutines of its
    servers, has closed. When the command has ended by itself, whatever the
    way, it has closed what it opened, in reverse order, with the one exception
    of a database pool that was opened and did not answer the ping. While its
    service runs it closes nothing. At any time in between it is on the way
    there. But the process of the gateway can also end at any time with status
    1, because its HTTP or its gRPC server has failed: then the rest is never
    closed, and nothing at all is unless the command had been told to quit. No
    other command ends that way. *)
Theorem serve_releases c n tr out :
  process serve_spawn serve_exit (runServe c n) [] tr out ->
  let m := main_calls tr in
  match out with
  | Returned (Some _) => released m
  | Returned None => closed m = []
  | Running => releasing m
  | Exited code =>
      releasing m /\ (quits m = [] -> closed m = []) /\ code = 1 /\
      exists cfg ev, c = ServeGateway cfg /\ server_failure (gateway_http_server cfg) ev /\
        (false, lift_event ev) ∈ tr
  end.
Proof.
  intros Hp. cbn zeta.
  destruct (process_partial _ _ _ _ _ _ Hp) as (q & Hq & Hret).
  destruct out as [r|code|].
  - destruct (Hret r eq_refl) as [-> _]. apply partial_exec, brackets_runServe in Hq.
    destruct r as [err|]; [by eapply bracketed_released|by apply bracketed_running].
  - pose proof (run_exec serve_env q (mkServeWorld None ([], fake_init))) as Hr.
    eapply partial_exec_app in Hr; [|exact Hq].
    apply brackets_runServe, bracketed_prefix in Hr as [Hrel Hquit]. split; [done|].
    pose proof (calls_partial _ _ _ _ (runServe_calls c n) Hq) as Hcalls. rewrite Forall_forall in Hcalls.
    apply process_exit in Hp as [(t & [X e x] & Hm & Hx & _)|(g & t & ev & q' & Hg & Hp & Hx & Hin & _)].
    { exfalso. assert (Ev e x ∈ main_calls tr) as He%Hcalls by (rewrite Hm; apply elem_of_app; right; by left).
      destruct e; try done. }
    destruct Hg as [Hg%not_elem_of_nil|(X & e & x & He & Hg)]; [done|].
    destruct (goroutine_exits c X e g t ev q' code (Hcalls _ He) Hg Hp Hx) as (Hn & -> & cfg & ev' & -> & Hf & Hev').
    split; [|split; [done|]].
    + intros Hq0. apply Hquit; [|done]. by apply (servers_in (Ev e x)).
    + exists cfg, ev'. split_and!; try done. rewrite Forall_forall in Hin. by apply Hin.
  - pose proof (run_exec serve_env q (mkServeWorld None ([], fake_init))) as Hr.
    eapply partial_exec_app in Hr; [|exact Hq].
    by apply brackets_runServe, bracketed_prefix in Hr as [Hrel _].
Qed.

(** The reader a command opens. *)
Definition opened_reader (ev : event ServeE) : option ReaderConfig :=
  match ev with Ev (NewReader cfg) _ => Some cfg | _ => None end.

Definition expected_subscription (c : Command) (topic group : string) : Prop :=
  match c with
  | ServeDispatcher _ =>
      topic = Gateway.pendingTopic /\ topic = Scheduler.pendingTopic /\
      group = "dispatcher-group"%string
  | ServeWorker cfg =>
      topic = workerTopic cfg.(WorkerConfig.WorkerType) /\ group = worker_group cfg
  | ServeGateway _ | ServeScheduler _ => False
  end.
Definition subscribes_as (c : Command) (ev : event ServeE) : Prop :=
  match opened_reader ev with
  | Some cfg => expected_subscription c cfg.(rc_Topic) cfg.(rc_GroupID) /\
                cfg.(rc_CommitInterval) = 0 /\ cfg.(rc_StartOffset) = FirstOffset
  | None => True
  end.

(** The dispatcher consumes the topic that the gateway and the
    scheduler publish to, in one group; a worker consumes the topic the
    dispatcher routes its task type to, in a group of that type; the gateway
    and the scheduler consume nothing. A new group starts at the first
    message, and no offset is committed behind the back of [Subscribe]. *)
Theorem serve_subscriptions c n tr r :
  exec (runServe c n) tr r -> Forall (subscribes_as c) tr.
Proof.
  revert tr r. change (only (subscribes_as c) (runServe c n)).
  destruct c as [cfg|cfg|cfg|cfg]; cbn [runServe];
    unfold gateway_runServe, dispatcher_runServe, worker_runServe, scheduler_runServe,
      with_tracer, with_consumer, with_producer, with_redis, with_pool, InitTracer, NewPool,
      short_id, defer;
    only_calls.
Qed.
End Commands.

(** ** Concrete runs *)

#[local] Existing Instance plain_texts.

Definition traced_worker : WorkerConfig.t :=
  WorkerConfig.mk "info" "k1:9092,k2:9092" "localhost:6379" default_dsn "email" 3
    (30 * Second) "localhost" 1025 "noreply@taskflow.dev" "" "" ":9091" "localhost:4318".

Definition demo_serve (ping : option error) : list (event ServeE) :=
  run_trace serve_env (runServe (ServeWorker traced_worker) 5)
    (mkServeWorld ping (demo_messages, fake_init)).

Example demo_serve_closes :
  closed (demo_serve None) = [ResPool; ResRedis; ResProducer; ResConsumer; ResTracer] /\
  closed (demo_serve (Some ContextDeadlineExceeded)) =
    [ResRedis; ResProducer; ResConsumer; ResTracer] /\
  opened (demo_serve (Some ContextDeadlineExceeded)) =
    [ResTracer; ResConsumer; ResProducer; ResRedis; ResPool].
Proof. vm_compute. done. Qed.

(** The process of the worker above; and that of a gateway whose HTTP port is
    taken, which is told so before it has started its gRPC server. *)
Lemma demo_process ping :
  process serve_spawn serve_exit (runServe (ServeWorker traced_worker) 5) []
    (map (pair true) (demo_serve ping))
    (Returned (run_result serve_env (runServe (ServeWorker traced_worker) 5)
       (mkServeWorld ping (demo_messages, fake_init)))).
Proof.
  apply process_run; [apply run_exec|]. by destruct ping; vm_compute.
Qed.

Definition demo_gateway : GatewayConfig.t :=
  GatewayConfig.mk "info" "8080" "9090" ":9095" "k1:9092" "localhost:6379"
    default_dsn "changeme" "localhost:4318".
Definition port_taken : error := ErrNew "listen tcp :8080: bind: address already in use".
Definition gateway_steps : list (event ServeE) * prog ServeE outcome :=
  steps serve_env 10 (runServe (ServeGateway demo_gateway) 0) (mkServeWorld None ([], fake_init)).
Definition http_calls : list (event ServeE) :=
  [ListenAndServe (gateway_http_server demo_gateway) ~> Some port_taken;
   LogError "HTTP server error" port_taken ~> tt].
Definition taken_port : list (bool * event ServeE) :=
  map (pair true) gateway_steps.1 ++ map (pair false) (http_calls ++ [ExitProcess 1 ~> tt]).

Lemma taken_port_process :
  process serve_spawn serve_exit (runServe (ServeGateway demo_gateway) 0) [] taken_port (Exited 1).
Proof.
  eapply process_steps; [apply partial_steps|by vm_compute|].
  change ([] ++ _) with ([lift (metrics_listen ":9095"); lift (metrics_stop CtxRun)] ++
    lift (gateway_http (gateway_http_server demo_gateway)) :: ([] : list (prog ServeE unit))).
  eapply process_go_ends; [|done..]. by repeat (eexists; split; [reflexivity|]).
Qed.

Lemma serve_releases_witness :
  closed (main_calls (map (pair true) (demo_serve None))) =
    [ResPool; ResRedis; ResProducer; ResConsumer; ResTracer] /\
  opened (main_calls taken_port) = [ResTracer; ResProducer; ResRedis; ResPool] /\
  closed (main_calls taken_port) = [].
Proof.
  split; [|split; [by vm_compute|]].
  - destruct (serve_releases _ _ _ _ (demo_process None)) as [[Hc _]|(held & e & _ & _ & Hping)];
      [by rewrite Hc; vm_compute|by vm_compute in Hping].
  - destruct (serve_releases _ _ _ _ taken_port_process) as (_ & Hc & _). apply Hc. by vm_compute.
Defined.

Lemma serve_subscriptions_witness :
  Forall (subscribes_as (ServeWorker traced_worker)) (demo_serve None).
Proof.
  exact (serve_subscriptions (ServeWorker traced_worker) 5 (demo_serve None) _
    (run_exec serve_env (runServe (ServeWorker traced_worker) 5)
       (mkServeWorld None (demo_messages, fake_init)))).
Defined.
