(* ===== verification/Binary.v ===== *)
(** * The binaries: cmd/*/main.go and cli/root.go, version.go

    What each binary is made of (its subcommands, flags and texts) and what a
    process that runs [main] with a command line does, the goroutines of its
    servers (Servers.v) included.  cobra's parsing of the arguments is not
    part of the repository: [main] is given the subcommand and its flags. *)

From S2P Require Import Prelude Prog Process GoStrings Domain Json GoFloat Effects Retry Handlers Kafka.
From S2P Require Import Worker Fakes Dispatcher Services Redis RateLimiter Scheduler Gateway Cli Config Servers Serve.

(** ** version *)

Record BuildInfo := mkBuildInfo { Version : string; BuildTime : string; GitCommit : string }.

(** What the variables hold unless the linker sets them. *)
Definition default_build : BuildInfo := mkBuildInfo "dev" "unknown" "unknown".

(** [versionCmd]; [goVersion] is [runtime.Version()]. *)
Definition versionCmd (service : string) (b : BuildInfo) (goVersion : string) : prog OsE unit :=
  _ ← trigger (Printf (service +:+ " " +:+ b.(Version)));
  _ ← trigger (Printf ("  commit:     " +:+ b.(GitCommit)));
  _ ← trigger (Printf ("  built:      " +:+ b.(BuildTime)));
  trigger (Printf ("  go version: " +:+ goVersion)).

Definition gateway_version := versionCmd "api-gateway".
Definition dispatcher_version := versionCmd "dispatcher".
Definition worker_version := versionCmd "worker".
Definition scheduler_version := versionCmd "scheduler".

(** ** The commands of a binary *)

Inductive BinE : Type -> Type :=
| BinCli {X} (e : CliE X) : BinE X
| BinServe {X} (e : ServeE X) : BinE X.
#[export] Instance SubE_BinCli : SubE CliE BinE := @BinCli.
#[export] Instance SubE_BinServe : SubE ServeE BinE := @BinServe.
#[export] Instance SubE_BinOs : SubE OsE BinE := fun X e => BinCli (CliOs e).

Inductive Subcommand : Type := CmdServe | CmdInit (force : bool) | CmdVersion | CmdMigrate.
Inductive Service : Type := ApiGateway | DispatcherSvc | WorkerSvc | SchedulerSvc.

(** [rootCmd.AddCommand] (root.go) *)
Definition gateway_commands : list string := ["serve"; "init"; "version"; "migrate"]%string.
Definition dispatcher_commands : list string := ["serve"; "init"; "version"]%string.
Definition worker_commands : list string := ["serve"; "init"; "version"]%string.
Definition scheduler_commands : list string := ["serve"; "init"; "version"; "migrate"]%string.

Definition commands_of (s : Service) : list string :=
  match s with
  | ApiGateway => gateway_commands
  | DispatcherSvc => dispatcher_commands
  | WorkerSvc => worker_commands
  | SchedulerSvc => scheduler_commands
  end.
Definition name_of (c : Subcommand) : string :=
  match c with
  | CmdServe => "serve" | CmdInit _ => "init" | CmdVersion => "version" | CmdMigrate => "migrate"
  end.

(** The start-up of each binary (root.go). *)
Definition gateway_initConfig `{UnicodeTables} := initConfig "api-gateway".
Definition dispatcher_initConfig `{UnicodeTables} := initConfig "dispatcher".
Definition worker_initConfig `{UnicodeTables} := initConfig "worker".
Definition scheduler_initConfig `{UnicodeTables} := initConfig "scheduler".

(** scheduler/cli/migrate.go is the gateway's migrate.go line by line. *)
Definition scheduler_runMigrate (dsn : string) : prog CliE (option error) := runMigrate dsn.

Section Main.
Context `{UnicodeTables, TaskCodec, JsonTexts, Cron} {V : Type} `{Viper V}.

(** The commands that return: their error, over the process's calls. *)
Definition returning {E A} `{SubE E BinE} (p : prog E A) (err : A -> option error)
  : prog BinE outcome :=
  x ← lift p; mret (Some (err x)).

Definition init_of (s : Service) : string -> bool -> prog OsE (option error) :=
  match s with
  | ApiGateway => init_gateway
  | DispatcherSvc => init_dispatcher
  | WorkerSvc => init_worker
  | SchedulerSvc => init_scheduler
  end.
Definition version_of (s : Service) : BuildInfo -> string -> prog OsE unit :=
  match s with
  | ApiGateway => gateway_version
  | DispatcherSvc => dispatcher_version
  | WorkerSvc => worker_version
  | SchedulerSvc => scheduler_version
  end.
Definition serve_of (s : Service) (v : V) : Command :=
  match s with
  | ApiGateway => ServeGateway (GatewayConfig.Load v)
  | DispatcherSvc => ServeDispatcher (DispatcherConfig.Load v)
  | WorkerSvc => ServeWorker (WorkerConfig.Load v)
  | SchedulerSvc => ServeScheduler (SchedulerConfig.Load v)
  end.
Definition initConfig_of (s : Service) : string -> prog CliE bool :=
  match s with
  | ApiGateway => gateway_initConfig
  | DispatcherSvc => dispatcher_initConfig
  | WorkerSvc => worker_initConfig
  | SchedulerSvc => scheduler_initConfig
  end.
(** [migrate] is a command of the gateway and of the scheduler only. *)
Definition migrate_of (s : Service) : string -> prog CliE (option error) :=
  match s with
  | SchedulerSvc => scheduler_runMigrate
  | _ => runMigrate
  end.

(** What a subcommand runs; [v] is viper after the start-up and [cfgFile] the
    flag [--config]. *)
Definition runE (s : Service) (cfgFile : string) (v : V) (b : BuildInfo) (goVersion : string)
    (n : nat) (c : Subcommand) : prog BinE outcome :=
  match c with
  | CmdServe => lift (runServe (serve_of s v) n)
  | CmdInit force => returning (init_of s cfgFile force) (fun err => err)
  | CmdVersion => returning (version_of s b goVersion) (fun _ => None)
  | CmdMigrate => returning (migrate_of s (GetString v "postgres_dsn")) (fun err => err)
  end.

(** cobra refuses a command that was not added, before the initializers. *)
Definition main (s : Service) (cfgFile : string) (v : V) (b : BuildInfo) (goVersion : string)
    (n : nat) (c : Subcommand) : prog BinE (option unit) :=
  if bool_decide (name_of c ∈ commands_of s) then
    Execute (initConfig_of s cfgFile) (runE s cfgFile v b goVersion n c)
  else _ ← lift (trigger (Exit 1) : prog CliE unit); mret (Some tt).

(** Each service's own [Execute] and the [init] that precedes it (root.go),
    and the [main] that calls it (cmd/*/main.go). *)
Definition gateway_Execute := main ApiGateway.
Definition dispatcher_Execute := main DispatcherSvc.
Definition worker_Execute := main WorkerSvc.
Definition scheduler_Execute := main SchedulerSvc.
Definition gateway_main := gateway_Execute.
Definition dispatcher_main := dispatcher_Execute.
Definition worker_main := worker_Execute.
Definition scheduler_main := scheduler_Execute.

(** ** What a process does *)

Definition cli_event (ev : event BinE) : option (event CliE) :=
  match ev with
  | @Ev _ X e x =>
      match e in BinE X return X -> option (event CliE) with
      | BinCli e' => fun x => Some (Ev e' x)
      | BinServe _ => fun _ => None
      end x
  end.
Definition serve_event (ev : event BinE) : option (event ServeE) :=
  match ev with
  | @Ev _ X e x =>
      match e in BinE X return X -> option (event ServeE) with
      | BinServe e' => fun x => Some (Ev e' x)
      | BinCli _ => fun _ => None
      end x
  end.
Definition cli_part (tr : list (event BinE)) := omap cli_event tr.
Definition serve_part (tr : list (event BinE)) := omap serve_event tr.

Lemma parts_cli (t : list (event CliE)) :
  cli_part (map lift_event t) = t /\ serve_part (map lift_event t) = [].
Proof.
  unfold cli_part, serve_part. induction t as [|[X e x] t [IH1 IH2]]; [done|].
  cbn. by rewrite IH1, IH2.
Qed.

Lemma cli_part_serve (t : list (event ServeE)) : cli_part (map lift_event t) = [].
Proof. unfold cli_part. by induction t as [|[X e x] t IH]. Qed.

Lemma cli_part_os (t : list (event OsE)) :
  cli_part (map lift_event t) = map lift_event t.
Proof. unfold cli_part. induction t as [|[X e x] t IH]; [done|]. cbn. by rewrite IH. Qed.

Lemma cli_part_app t1 t2 : cli_part (t1 ++ t2) = cli_part t1 ++ cli_part t2.
Proof. apply omap_app. Qed.
Lemma serve_part_app t1 t2 : serve_part (t1 ++ t2) = serve_part t1 ++ serve_part t2.
Proof. apply omap_app. Qed.

(** No command exits by itself or reads the configuration. *)
Definition calm_os (ev : event OsE) : Prop := exit_code (lift_event ev) = None.
Definition calm_cli (ev : event CliE) : Prop := exit_code ev = None /\ config_read ev = None.

Lemma init_calm service text cfgFile force : only calm_os (newInitCmd service text cfgFile force).
Proof. unfold newInitCmd. only_calls. Qed.

Lemma version_calm service b gov : only calm_os (versionCmd service b gov).
Proof. unfold versionCmd. only_calls. Qed.

Lemma migrate_calm dsn : only calm_cli (runMigrate dsn).
Proof. unfold runMigrate, migration_files. cbn [migrate_files]. only_calls. Qed.

Lemma calm_cli_trace (t : list (event CliE)) :
  Forall calm_cli t -> exit_codes t = [] /\ config_reads t = [].
Proof.
  unfold exit_codes, config_reads. induction 1 as [|ev t [Hx Hy] _ [IH1 IH2]]; [done|].
  cbn. by rewrite Hx, Hy, IH1, IH2.
Qed.

Lemma calm_os_cli (t : list (event OsE)) :
  Forall calm_os t -> Forall calm_cli (map lift_event t : list (event CliE)).
Proof. intros Hall. apply Forall_map. eapply Forall_impl; [exact Hall|]. by intros [X e x]. Qed.

Lemma returning_os {A} (p : prog OsE A) f tr r :
  exec (returning p f) tr r -> only calm_os p ->
  r <> None /\ exit_codes (cli_part tr) = [] /\ config_reads (cli_part tr) = [].
Proof.
  unfold returning. intros (t1 & t2 & a & -> & (t & -> & Hp)%exec_lift & [-> ->]%exec_mret)%exec_bind Hc.
  rewrite app_nil_r, cli_part_os. split; [done|]. by apply calm_cli_trace, calm_os_cli, (Hc t a).
Qed.

Lemma runE_calm s cfgFile v b gov n c tr r :
  exec (runE s cfgFile v b gov n c) tr r ->
  (c <> CmdServe -> r <> None) /\
  exit_codes (cli_part tr) = [] /\ config_reads (cli_part tr) = [].
Proof.
  destruct c as [|force| |]; cbn [runE]; intros Hex.
  - apply exec_lift in Hex as (t & -> & _). by rewrite cli_part_serve.
  - apply returning_os in Hex as (Hr & He); [done|]. destruct s; apply init_calm.
  - apply returning_os in Hex as (Hr & He); [done|]. destruct s; apply version_calm.
  - unfold returning in Hex.
    apply exec_bind in Hex as (t1 & t2 & a & -> & (t & -> & Hp)%exec_lift & [-> ->]%exec_mret).
    rewrite app_nil_r. destruct (parts_cli t) as [-> _]. split; [done|].
    apply calm_cli_trace. destruct s; by apply (migrate_calm _ _ _ Hp).
Qed.

Lemma start_inv s cfgFile tr running :
  exec (initConfig_of s cfgFile) tr running ->
  cli_writes tr = [] /\
  exists o, config_reads tr = [o] /\
    ((exists err, o = Some (ConfigBroken err)) /\ running = false /\
       (exists t, tr = t ++ [Exit 1 ~> tt] /\ exit_codes t = []) \/
     (forall err, o <> Some (ConfigBroken err)) /\ running = true /\ exit_codes tr = []).
Proof. destruct s; apply initConfig_inv. Qed.

(** ** The process

    Its goroutines are those of the serve command; [os.Exit] is called by
    [main] and by the goroutines of the gateway's servers. *)
Definition bin_spawn (X : Type) (e : BinE X) : list (prog BinE unit) :=
  match e with
  | BinServe e => map lift (serve_spawn _ e)
  | BinCli _ => []
  end.

Definition bin_exit (ev : event BinE) : option Z :=
  match ev with
  | @Ev _ X e x =>
      match e in BinE X return X -> option Z with
      | BinCli e => fun x => exit_code (Ev e x)
      | BinServe e => fun x => serve_exit (Ev e x)
      end x
  end.

Lemma bin_exits_parts tr :
  exit_codes (cli_part tr) = [] -> omap serve_exit (serve_part tr) = [] -> omap bin_exit tr = [].
Proof.
  unfold exit_codes, cli_part, serve_part.
  induction tr as [|[X e x] tr IH]; [done|]. destruct e as [X e|X e]; cbn [omap list_omap cli_event serve_event bin_exit].
  - destruct (exit_code (Ev e x)); [done|auto].
  - intros Hc. destruct (serve_exit (Ev e x)); [done|auto].
Qed.

Lemma bin_exits_serve t :
  omap bin_exit (map lift_event (t : list (event ServeE))) = omap serve_exit t.
Proof. induction t as [|[X e x] t IH]; [done|]. cbn. by rewrite IH. Qed.
Lemma bin_exits_cli t :
  omap bin_exit (map lift_event (t : list (event CliE))) = exit_codes t.
Proof. unfold exit_codes. induction t as [|[X e x] t IH]; [done|]. cbn. by rewrite IH. Qed.

(** The calls a command makes of the serve command: those of [runServe], when
    the command is [serve]. *)
Definition bin_call (s : Service) (v : V) (c : Subcommand) (X : Type) (e : BinE X) : Prop :=
  match e with
  | BinServe e => c = CmdServe /\ serve_call (serve_of s v) _ e
  | BinCli _ => True
  end.

Lemma calls_lift_serve s v c (p : prog ServeE outcome) :
  c = CmdServe -> calls (serve_call (serve_of s v)) p ->
  calls (bin_call s v c) (lift p : prog BinE outcome).
Proof.
  intros Hc. unfold lift. induction p as [a|X e k IH]; cbn; [done|]. intros [He Hk]. by auto.
Qed.

Lemma calls_lift_cli {A} s v c (p : prog CliE A) : calls (bin_call s v c) (lift p : prog BinE A).
Proof. by apply calls_lift. Qed.
Lemma calls_lift_os {A} s v c (p : prog OsE A) : calls (bin_call s v c) (lift p : prog BinE A).
Proof. by apply calls_lift. Qed.

Lemma runE_calls s cfgFile v b gov n c : calls (bin_call s v c) (runE s cfgFile v b gov n c).
Proof.
  destruct c; cbn [runE]; unfold returning.
  - by apply calls_lift_serve, runServe_calls.
  - by apply calls_bind; [apply calls_lift_os|].
  - by apply calls_bind; [apply calls_lift_os|].
  - by apply calls_bind; [apply calls_lift_cli|].
Qed.

Lemma main_bin_calls s cfgFile v b gov n c :
  calls (bin_call s v c) (main s cfgFile v b gov n c).
Proof.
  unfold main, Execute. case_bool_decide.
  2:{ by apply calls_bind; [apply calls_lift_cli|]. }
  apply calls_bind; [apply calls_lift_cli|]. intros [|]; [|done].
  apply calls_bind; [apply runE_calls|].
  intros [[e|]|]; [|done..]. by apply calls_bind; [apply calls_lift_cli|].
Qed.

(** No command calls [os.Exit] by itself. *)
Lemma runE_exits s cfgFile v b gov n c tr r :
  exec (runE s cfgFile v b gov n c) tr r -> omap bin_exit tr = [].
Proof.
  intros Hex. destruct (runE_calm _ _ _ _ _ _ _ _ _ Hex) as (_ & He & _).
  apply bin_exits_parts; [done|]. apply partial_exec in Hex.
  pose proof (calls_partial _ _ _ _ (runE_calls s cfgFile v b gov n c) Hex) as Hall. unfold serve_part.
  clear Hex He. induction Hall as [|[X e x] tr He _ IH]; [done|].
  destruct e as [X e|X e]; cbn [omap list_omap serve_event]; [done|].
  destruct He as [_ He]. by destruct e.
Qed.

(** What [main] does when no other goroutine ends the process; a call of
    [os.Exit] is its last. *)
Definition exit_call : event BinE := lift_event (Exit 1 ~> tt : event CliE).

Definition ends_with (res : outcome) (t : list (event BinE)) (r : option unit) : Prop :=
  match res with
  | None => t = [] /\ r = None
  | Some None => t = [] /\ r = Some tt
  | Some (Some _) => t = [exit_call] /\ r = Some tt
  end.

Definition started (t : list (event BinE)) (o : option ConfigError) : Prop :=
  config_reads (cli_part t) = [o] /\ serve_part t = [] /\ cli_writes (cli_part t) = [].

Lemma main_inv s cfgFile v b gov n c tr r :
  exec (main s cfgFile v b gov n c) tr r ->
  (~ (name_of c ∈ commands_of s) /\ tr = [exit_call]) \/
  (name_of c ∈ commands_of s /\ exists o,
    ((exists err, o = Some (ConfigBroken err)) /\ started tr o /\
       exists t, tr = t ++ [exit_call] /\ omap bin_exit t = []) \/
    ((forall err, o <> Some (ConfigBroken err)) /\ exists t1 t2 t3 res,
       tr = t1 ++ t2 ++ t3 /\ started t1 o /\ omap bin_exit t1 = [] /\
       exec (runE s cfgFile v b gov n c) t2 res /\ ends_with res t3 r)).
Proof.
  unfold main. case_bool_decide as Hc; intros Hex.
  2:{ left. by apply exec_bind in Hex as (t1 & t2 & [] & -> & (t & -> & ->%exec_trigger)%exec_lift & [-> _]%exec_mret). }
  right. split; [done|]. unfold Execute in Hex.
  apply exec_bind in Hex as (t1 & t2 & running & -> & (t & -> & Hi)%exec_lift & Hex).
  apply start_inv in Hi as (Hw & o & Hr & Hcase). destruct (parts_cli t) as [Hp1 Hp2].
  assert (started (map lift_event t) o) as Hs by (unfold started; by rewrite Hp1, Hp2).
  exists o. destruct Hcase as [(Hbroken & -> & t0 & -> & He)|(Hok & -> & He)].
  - apply exec_mret in Hex as [-> ->]. left. rewrite app_nil_r. split_and!; [done..|].
    exists (map lift_event t0). split; [apply map_app|by rewrite bin_exits_cli].
  - apply exec_bind in Hex as (t3 & t4 & res & -> & Hrun & Hex). right. split; [done|].
    exists (map lift_event t), t3, t4, res. rewrite bin_exits_cli. split_and!; try done.
    destruct res as [[e|]|]; [|by apply exec_mret in Hex..].
    by apply exec_bind in Hex as (t5 & t6 & [] & -> & (t' & -> & ->%exec_trigger)%exec_lift & [-> ->]%exec_mret).
Qed.

(** So once [main] has called [os.Exit] there is nothing left of it. *)
Lemma main_exit_last s cfgFile v b gov n c t ev t' r code :
  exec (main s cfgFile v b gov n c) ((t ++ [ev]) ++ t') r -> bin_exit ev = Some code -> t' = [] /\ code = 1.
Proof.
  intros Hex Hev.
  assert (forall t0, omap bin_exit t0 = [] -> (t ++ [ev]) ++ t' = t0 ++ [exit_call] -> t' = [] /\ code = 1) as Hlast.
  { intros t0 Hno Heq. rewrite <- app_assoc in Heq. cbn in Heq. symmetry in Heq.
    apply (omap_split_after bin_exit t0 [exit_call] t ev t') in Heq as (t1 & -> & Heq); [|done|congruence].
    destruct t1 as [|? [|??]]; simplify_list_eq. done. }
  apply main_inv in Hex as [(_ & Heq)|(_ & o & [(_ & _ & t0 & Heq & Hno)|(_ & t1 & t2 & t3 & res & Heq & _ & Hno & Hrun & Hend)])].
  - by apply (Hlast []).
  - by apply (Hlast t0).
  - apply runE_exits in Hrun. destruct res as [[e|]|]; destruct Hend as [-> _].
    + apply (Hlast (t1 ++ t2)); [by rewrite omap_app, Hno, Hrun|by rewrite Heq, app_assoc].
    + exfalso. apply (f_equal (omap bin_exit)) in Heq. rewrite !omap_app, Hno, Hrun in Heq.
      cbn in Heq. rewrite Hev in Heq. by destruct (omap bin_exit t).
    + exfalso. apply (f_equal (omap bin_exit)) in Heq. rewrite !omap_app, Hno, Hrun in Heq.
      cbn in Heq. rewrite Hev in Heq. by destruct (omap bin_exit t).
Qed.

(** A goroutine that ends the process: the command is the gateway's [serve],
    and one of its servers has failed. *)
Definition server_failed (v : V) (tr : list (bool * event BinE)) : Prop :=
  exists ev, server_failure (gateway_http_server (GatewayConfig.Load v)) ev /\
    (false, lift_event (lift_event ev : event ServeE)) ∈ tr.

Lemma goroutine_ends s v c X (e : BinE X) g t ev q code (tr : list (bool * event BinE)) :
  bin_call s v c X e -> g ∈ bin_spawn X e -> partial g (t ++ [ev]) q -> bin_exit ev = Some code ->
  Forall (fun ev => (false, ev) ∈ tr) (t ++ [ev]) ->
  s = ApiGateway /\ c = CmdServe /\ code = 1 /\ server_failed v tr.
Proof.
  destruct e as [X e|X e]; cbn [bin_spawn bin_call]; [by intros _ ?%not_elem_of_nil|].
  intros [-> Hc] (g' & -> & Hg)%list_elem_of_fmap (t1 & q' & Ht & Hp & _)%partial_lift Hx Hin.
  symmetry in Ht. apply map_eq_app in Ht as (t' & t2 & -> & Ht & Hev).
  destruct t2 as [|[Y e' y] [|??]]; simplify_list_eq.
  destruct (goroutine_exits _ _ _ _ _ _ _ _ Hc Hg Hp Hx) as (_ & -> & cfg & ev' & Hs & Hf & Hev').
  destruct s; cbn in Hs; simplify_eq. split_and!; try done. exists ev'. split; [done|].
  apply (list_elem_of_fmap_2 lift_event) in Hev'. rewrite Forall_forall in Hin. apply Hin.
  by rewrite fmap_app in Hev'.
Qed.

(** What [main] has done when it has just begun to serve, or later. *)
Lemma main_serving s cfgFile v b gov n c m q X (e : ServeE X) x :
  partial (main s cfgFile v b gov n c) m q -> Ev (BinServe e) x ∈ m -> omap bin_exit m = [] ->
  name_of c ∈ commands_of s /\ exists o t1 t2 q', (forall err, o <> Some (ConfigBroken err)) /\
    m = t1 ++ t2 /\ started t1 o /\ partial (runE s cfgFile v b gov n c) t2 q'.
Proof.
  unfold main, Execute. case_bool_decide as Hc; intros Hp He Hx.
  - split; [done|]. apply partial_bind in Hp as [(p' & (t & ? & -> & _ & _)%partial_lift)|Hp].
    { exfalso. apply list_elem_of_fmap in He as ([Y e' y] & Heq & _). discriminate Heq. }
    destruct Hp as (t1 & t2 & running & -> & (t & -> & Hi)%exec_lift & Hp).
    apply start_inv in Hi as (Hw & o & Hr & Hcase). destruct (parts_cli t) as [Hp1 Hp2].
    destruct Hcase as [(_ & _ & t0 & -> & _)|(Hok & -> & _)].
    { exfalso. rewrite !map_app, !omap_app in Hx. cbn in Hx. by destruct (omap bin_exit (map _ t0)). }
    exists o, (map lift_event t), t2.
    assert (exists q', partial (runE s cfgFile v b gov n c) t2 q') as [q' Hq'].
    { apply partial_bind in Hp as [Hp|(t3 & t4 & res & -> & Hrun & Hp)]; [done|].
      assert (t4 = []) as ->.
      { destruct res as [[err|]|]; [|by apply partial_ret in Hp as [-> _]..].
        destruct t4 as [|ev t4]; [done|]. destruct Hp as ([] & -> & _).
        rewrite !omap_app in Hx. cbn in Hx. by destruct (omap bin_exit (map _ t)), (omap bin_exit t3). }
      rewrite app_nil_r. eexists. by apply partial_exec. }
    exists q'. split_and!; try done. unfold started. by rewrite Hp1, Hp2.
  - exfalso. apply partial_bind in Hp as [(p' & (t & ? & -> & _ & _)%partial_lift)|Hp].
    + apply list_elem_of_fmap in He as ([Y e' y] & Heq & _). discriminate Heq.
    + destruct Hp as (t1 & t2 & [] & -> & (t & -> & _)%exec_lift & [-> _]%partial_ret).
      rewrite app_nil_r in He. apply list_elem_of_fmap in He as ([Y e' y] & Heq & _). discriminate Heq.
Qed.

(** An environment for the whole binary. *)
Definition bin_env : handler BinE (gmap string string * serve_world) := fun X e =>
  match e in BinE X return gmap string string * serve_world -> X * (gmap string string * serve_world) with
  | BinCli e => fun w => let '(x, fs) := cli_env _ e w.1 in (x, (fs, w.2))
  | BinServe e => fun w => let '(x, sw) := serve_env _ e w.2 in (x, (w.1, sw))
  end.


(** What is known of a [main] that was not interrupted. *)
Lemma main_ends s cfgFile v b gov n c m r out :
  exec (main s cfgFile v b gov n c) m r ->
  (out = Returned r /\ omap bin_exit m = []) \/ (out = Exited 1 /\ omap bin_exit m <> []) ->
  let run := runE s cfgFile v b gov n c in
  (~ (name_of c ∈ commands_of s) /\ m = [exit_call] /\ out = Exited 1) \/
  (name_of c ∈ commands_of s /\ exists o, config_reads (cli_part m) = [o] /\
    (((exists err, o = Some (ConfigBroken err)) /\ started m o /\ out = Exited 1) \/
     ((forall err, o <> Some (ConfigBroken err)) /\ exists t1 t2, started t1 o /\
      ((m = t1 ++ t2 /\ exec run t2 None /\ c = CmdServe /\ out = Returned None) \/
       (m = t1 ++ t2 /\ exec run t2 (Some None) /\ out = Returned (Some tt)) \/
       (m = t1 ++ t2 ++ [exit_call] /\ (exists err, exec run t2 (Some (Some err))) /\ out = Exited 1))))).
Proof.
  intros Hex Hout.
  assert (forall t, m = t ++ [exit_call] -> out = Exited 1) as Hexit.
  { intros t ->. destruct Hout as [[_ Hno]|[-> _]]; [|done].
    rewrite omap_app in Hno. by destruct (omap bin_exit t). }
  apply main_inv in Hex as [(Hc & Hm)|(Hc & o & Hcase)]; [left|right]; (split; [done|]).
  { split; [done|]. by apply (Hexit []). }
  exists o. destruct Hcase as [(Hb & Hs & t & Hm & _)|(Hok & t1 & t2 & t3 & res & Hm & Hs & Hno & Hrun & Hend)].
  { split; [apply Hs|]. left. split_and!; [done..|by eapply Hexit]. }
  destruct (runE_calm _ _ _ _ _ _ _ _ _ Hrun) as (Hserve & _ & Hreads).
  assert (config_reads (cli_part t3) = []) as Hr3
    by (destruct res as [[err|]|]; by destruct Hend as [-> _]).
  split.
  { rewrite Hm, !cli_part_app. unfold config_reads in *. rewrite !omap_app, Hreads, Hr3, app_nil_r. apply Hs. }
  right. split; [done|]. exists t1, t2. split; [done|].
  destruct res as [[err|]|]; destruct Hend as [-> ->].
  - right; right. split_and!; [done|by exists err|]. apply (Hexit (t1 ++ t2)). by rewrite <- app_assoc.
  - right; left. rewrite app_nil_r in Hm. split_and!; [done..|].
    destruct Hout as [[-> _]|[_ Hx]]; [done|]. exfalso. apply Hx.
    by rewrite Hm, omap_app, Hno, (runE_exits _ _ _ _ _ _ _ _ _ Hrun).
  - left. rewrite app_nil_r in Hm. assert (c = CmdServe) as -> by (destruct c; [done|exfalso; by apply Hserve..]).
    split_and!; [done..|]. destruct Hout as [[-> _]|[_ Hx]]; [done|]. exfalso. apply Hx.
    by rewrite Hm, omap_app, Hno, (runE_exits _ _ _ _ _ _ _ _ _ Hrun).
Qed.

(** C38: how the process of a binary ends, [main]'s calls and those of the
    goroutines of its servers taken in any order. A subcommand the binary does
    not have ends it with status 1 at once. Any other first reads the
    configuration, once. If that fails for another reason than a missing file,
    the process ends with status 1 and has done nothing else: no command can
    run, [version] and [init --force] included. Otherwise the command runs. If
    it returns an error the process calls [os.Exit(1)] as its last act, if it
    returns none the process ends normally, and only [serve] can go on for
    longer than it was given. There is one other way to end: the process of the
    gateway that serves ends with status 1 in the middle of whatever it is
    doing, when its HTTP or its gRPC server has failed. *)
Theorem binary_exit s cfgFile v b gov n c tr out :
  process bin_spawn bin_exit (main s cfgFile v b gov n c) [] tr out -> out <> Running ->
  let m := main_calls tr in
  let run := runE s cfgFile v b gov n c in
  (~ (name_of c ∈ commands_of s) /\ m = [exit_call] /\ out = Exited 1) \/
  (name_of c ∈ commands_of s /\ exists o, config_reads (cli_part m) = [o] /\
    (((exists err, o = Some (ConfigBroken err)) /\ started m o /\ out = Exited 1) \/
     ((forall err, o <> Some (ConfigBroken err)) /\ exists t1 t2, started t1 o /\
      ((m = t1 ++ t2 /\ exec run t2 None /\ c = CmdServe /\ out = Returned None) \/
       (m = t1 ++ t2 /\ exec run t2 (Some None) /\ out = Returned (Some tt)) \/
       (m = t1 ++ t2 ++ [exit_call] /\ (exists err, exec run t2 (Some (Some err))) /\ out = Exited 1) \/
       (m = t1 ++ t2 /\ (exists q, partial run t2 q) /\ s = ApiGateway /\ c = CmdServe /\
        server_failed v tr /\ out = Exited 1))))).
Proof.
  intros Hp Hout m run. destruct (process_partial _ _ _ _ _ _ Hp) as (q & Hq & Hret).
  match goal with |- ?G => assert (forall r, exec (main s cfgFile v b gov n c) m r ->
    (out = Returned r /\ omap bin_exit m = []) \/ (out = Exited 1 /\ omap bin_exit m <> []) -> G) as Hends end.
  { intros r Hex Hr. pose proof (main_ends _ _ _ _ _ _ _ _ _ _ Hex Hr) as Hends. cbn zeta in Hends.
    destruct Hends as [Hends|(Hc & o & Hreads & [Hends|(Hok & t1 & t2 & Hs & Hends)])]; [by left|right..].
    - split; [done|]. exists o. split; [done|]. by left.
    - split; [done|]. exists o. split; [done|]. right. split; [done|]. exists t1, t2. split; [done|].
      destruct Hends as [?|[?|?]]; [by left|by right; left|by right; right; left]. }
  destruct out as [r|code|]; [|clear Hret|done].
  { destruct (Hret r eq_refl) as [-> Hx]. apply partial_exec in Hq. apply (Hends r); [done|by left]. }
  apply process_exit in Hp as [(t & ev & Hm & Hx & _)|(g & t & ev & q' & Hg & Hp & Hx & Hin & Hno)].
  - pose proof (run_exec bin_env q (∅, mkServeWorld None ([], fake_init))) as Hr.
    eapply partial_exec_app in Hr; [|exact Hq]. fold m in Hm, Hr. rewrite Hm in Hr.
    destruct (main_exit_last _ _ _ _ _ _ _ _ _ _ _ _ Hr Hx) as [Hnil ->].
    rewrite Hnil, app_nil_r, <- Hm in Hr. apply (Hends _ Hr). right. split; [done|].
    rewrite Hm, omap_app. cbn. rewrite Hx. by destruct (omap bin_exit t).
  - destruct Hg as [Hg%not_elem_of_nil|(X & e & x & He & Hg)]; [done|].
    pose proof (calls_partial _ _ _ _ (main_bin_calls s cfgFile v b gov n c) Hq) as Hcalls.
    rewrite Forall_forall in Hcalls. specialize (Hcalls _ He).
    destruct (goroutine_ends _ _ _ _ _ _ _ _ _ _ _ Hcalls Hg Hp Hx Hin) as (-> & -> & -> & Hf).
    destruct e as [X e|X e]; [by apply not_elem_of_nil in Hg|].
    destruct (main_serving _ _ _ _ _ _ _ _ _ _ _ _ Hq He Hno) as (Hc & o & t1 & t2 & q2 & Hok & Hm & Hs & Hrun).
    right. split; [done|]. exists o. fold m in Hm. split.
    { apply partial_lift in Hrun as (t3 & ? & -> & _).
      rewrite Hm, cli_part_app, cli_part_serve, app_nil_r. apply Hs. }
    right. split; [done|]. exists t1, t2. split; [done|]. right; right; right.
    split_and!; [done|by exists q2|done..].
Qed.

End Main.

(** ** A concrete process *)

#[local] Existing Instance plain_texts.

(** [worker init --force] in a directory with a broken worker.yaml: the calls
    before it exits. *)
Definition broken_worker : prog BinE (option unit) :=
  worker_main "" worker_defaults default_build "go1.24.3" 5 (CmdInit true).
Definition broken_init : list (event BinE) :=
  removelast (run_trace bin_env broken_worker
    ({["worker.yaml"%string := "broken"%string]}, mkServeWorld None ([], fake_init))).

(** A gateway whose HTTP port is taken: up to the start of the HTTP server, and
    the calls of its goroutine. *)
Definition gateway_defaults : gmap string flag_value := default ∅ (bound_flags gateway_flags).
Definition serving_gateway : prog BinE (option unit) :=
  gateway_main "" gateway_defaults default_build "go1.24.3" 5 CmdServe.
Definition serving_steps : list (event BinE) * prog BinE (option unit) :=
  steps bin_env 16 serving_gateway (∅, mkServeWorld None ([], fake_init)).
Definition gateway_srv : HttpServer := gateway_http_server (GatewayConfig.Load gateway_defaults).
Definition http_failing : list (event ServerE) :=
  [ListenAndServe gateway_srv ~> Some port_taken; LogError "HTTP server error" port_taken ~> tt].
Definition bin_event (ev : event ServerE) : event BinE := lift_event (lift_event ev : event ServeE).
Definition gateway_fails : list (bool * event BinE) :=
  map (pair true) serving_steps.1 ++
  map (pair false) (map bin_event http_failing ++ [bin_event (ExitProcess 1 ~> tt)]).

Lemma broken_init_process :
  process bin_spawn bin_exit broken_worker [] (map (pair true) (broken_init ++ [exit_call])) (Exited 1).
Proof.
  eapply process_ends; [|by vm_compute|done]. apply partial_exec.
  replace (broken_init ++ [exit_call]) with (run_trace bin_env broken_worker
    ({["worker.yaml"%string := "broken"%string]}, mkServeWorld None ([], fake_init))) by by vm_compute.
  apply run_exec.
Qed.

Lemma gateway_fails_process :
  process bin_spawn bin_exit serving_gateway [] gateway_fails (Exited 1).
Proof.
  eapply process_steps; [apply partial_steps|by vm_compute|].
  change ([] ++ _) with
    ([lift (lift (metrics_listen ":9095") : prog ServeE unit); lift (lift (metrics_stop CtxRun) : prog ServeE unit)] ++
     lift (lift (gateway_http gateway_srv) : prog ServeE unit) :: ([] : list (prog BinE unit))).
  eapply process_go_ends; [|done..]. by repeat (eexists; split; [reflexivity|]).
Qed.

Lemma binary_exit_witness :
  started (broken_init ++ [exit_call]) (Some (ConfigBroken (ErrNew "yaml: line 1"))) /\
  server_failed gateway_defaults gateway_fails.
Proof.
  split.
  - destruct (binary_exit _ _ _ _ _ _ _ _ _ broken_init_process ltac:(discriminate))
      as [(Hc & _)|(_ & o & Ho & Hcase)].
    { exfalso. apply Hc, (bool_decide_unpack _). by vm_compute. }
    assert (o = Some (ConfigBroken (ErrNew "yaml: line 1"))) as -> by (vm_compute in Ho; congruence).
    destruct Hcase as [(_ & Hs & _)|(Hok & _)]; [|by destruct (Hok _ eq_refl)]. exact Hs.
  - destruct (binary_exit _ _ _ _ _ _ _ _ _ gateway_fails_process ltac:(discriminate))
      as [(_ & Hm & _)|(_ & o & Ho & [([err ->] & _)|(_ & t1 & t2 & _ & Hcase)])].
    + vm_compute in Hm. discriminate Hm.
    + vm_compute in Ho. discriminate Ho.
    + destruct Hcase as [(_ & _ & _ & Hout)|[(_ & _ & Hout)|[(Hm & _)|(_ & _ & _ & _ & Hf & _)]]];
        [discriminate Hout..| |exact Hf].
      exfalso. apply (f_equal (omap bin_exit)) in Hm. rewrite !omap_app in Hm.
      assert (omap bin_exit (main_calls gateway_fails) = []) as Hno by by vm_compute.
      rewrite Hno in Hm. by destruct (omap bin_exit t1), (omap bin_exit t2).
Defined.
